(** * The JSON extension of SQLite (ext/misc/json.c): a shallow embedding

    The development follows the layout of the C file: the string
    accumulator [Json], the renderer [jsonRenderNode], the SQL function
    [json_array], and the parser ([jsonParseAddNode], [jsonParseValue],
    [jsonParse]).  Machine integers are integers of [Z] with their
    wrap-around written at every place where C converts; out-of-bounds
    memory accesses are an explicit outcome. *)

From Stdlib Require Import ZArith Lia Ascii String.
From stdpp Require Import base list strings.

Open Scope Z_scope.

(** ** Machine integers *)

Definition u32 (x : Z) : Z := x mod 2 ^ 32.
Definition u64 (x : Z) : Z := x mod 2 ^ 64.
(** Conversion of a 32-bit pattern to C's [int]. *)
Definition to_int (x : Z) : Z := (x + 2 ^ 31) mod 2 ^ 32 - 2 ^ 31.

(** ** Characters

    A C [char] is a byte; [code] is its value as an unsigned byte, [char_val]
    its value as the (signed) [char] the comparisons of the source see. *)

Definition code (c : ascii) : Z := Z.of_N (N_of_ascii c).
Definition char_val (c : ascii) : Z := if code c <? 128 then code c else code c - 256.

Definition NUL : ascii := zero.
Definition chr (s : string) : ascii :=
  match s with String c _ => c | EmptyString => NUL end.
Definition is_chr (c : ascii) (s : string) : bool := Ascii.eqb c (chr s).
(** The double quote and the backslash. *)
Definition DQUOTE : ascii := ascii_of_N 34.
Definition BSLASH : ascii := ascii_of_N 92.

(** The classification functions of <ctype.h> in the "C" locale. *)
Definition isspace (c : ascii) : bool :=
  ((9 <=? code c) && (code c <=? 13)) || (code c =? 32).
Definition isdigit (c : ascii) : bool := (48 <=? code c) && (code c <=? 57).
Definition isalnum (c : ascii) : bool :=
  isdigit c || ((65 <=? code c) && (code c <=? 90))
            || ((97 <=? code c) && (code c <=? 122)).

(** A text is the list of the bytes of a C string, the terminator left out. *)
Abbreviation text := (list ascii).
Definition txt (s : string) : text := list_ascii_of_string s.

(** ** Outcomes

    [Undefined] is an access outside the object it goes to (undefined
    behaviour in C); [OutOfFuel] is the model's bound on recursion. *)

Inductive result (A : Type) : Type :=
| Ok (a : A)
| Undefined
| OutOfFuel.
Arguments Ok {A} a.
Arguments Undefined {A}.
Arguments OutOfFuel {A}.

Definition bind {A B} (m : result A) (k : A -> result B) : result B :=
  match m with
  | Ok a => k a
  | Undefined => Undefined
  | OutOfFuel => OutOfFuel
  end.

Declare Scope result_scope.
Delimit Scope result_scope with result.
Notation "x <- m ;; k" := (bind m (fun x => k))
  (at level 100, m at next level, right associativity) : result_scope.
Open Scope result_scope.

Definition SQLITE_OK : Z := 0.
Definition SQLITE_NOMEM : Z := 7.

(** What a [sqlite3_context] holds as the result of the SQL function. *)
Inductive sqlite3_context : Type :=
| NoResult
| ResultText (t : text)
| ResultNull
| ResultInt (v : Z)
| ResultError (msg : string)
| ResultNomem.

(** * The accumulator *)

Module Accum.

(** [zBuf] holds the bytes stored in [zBuf[0..nUsed)]; [nAlloc] is the
    size of the object [zBuf] points to, the 100 bytes of [zSpace] while
    [bStatic].  [pCtx] stands for the context the pointer goes to. *)
Record Json : Type := mkJson {
  pCtx : sqlite3_context;
  zBuf : text;
  nAlloc : Z;
  nUsed : Z;
  bStatic : bool;
  oom : bool
}.

Definition set_buf (p : Json) (b : text) (used : Z) : Json :=
  mkJson (pCtx p) b (nAlloc p) used (bStatic p) (oom p).

Definition jsonZero (p : Json) : Json :=
  mkJson (pCtx p) [] 100 0 true (oom p).

Definition jsonInit (ctx : sqlite3_context) : Json :=
  jsonZero (mkJson ctx [] 0 0 false false).

Definition jsonReset (p : Json) : Json := jsonZero p.

Definition jsonOom (p : Json) : Json :=
  jsonReset (mkJson ResultNomem (zBuf p) (nAlloc p) (nUsed p) (bStatic p) true).

Section Allocator.

(** [sqlite3_malloc64] and [sqlite3_realloc64] are the host's: whether a
    request of the given size is granted is a parameter. *)
Variable sqlite3_malloc64 : Z -> bool.

Definition jsonGrow (p : Json) (N : Z) : Z * Json :=
  let nTotal :=
    if N <? nAlloc p then u64 (nAlloc p * 2) else u64 (nAlloc p + N + 100) in
  if bStatic p then
    if oom p then (SQLITE_NOMEM, p)
    else if sqlite3_malloc64 nTotal
    then (SQLITE_OK, mkJson (pCtx p) (zBuf p) nTotal (nUsed p) false (oom p))
    else (SQLITE_NOMEM, jsonOom p)
  else
    if sqlite3_malloc64 nTotal
    then (SQLITE_OK, mkJson (pCtx p) (zBuf p) nTotal (nUsed p) (bStatic p) (oom p))
    else (SQLITE_NOMEM, jsonOom p).

(** [if( cond && jsonGrow(p,N)!=0 ) return;] followed by [k]. *)
Definition grow_or_return (cond : bool) (p : Json) (N : Z)
    (k : Json -> result Json) : result Json :=
  if cond then
    let '(rc, p') := jsonGrow p N in
    if rc =? SQLITE_OK then k p' else Ok p'
  else k p.

(** [p->zBuf[p->nUsed++] = c] *)
Definition store (p : Json) (c : ascii) : result Json :=
  if nUsed p <? nAlloc p
  then Ok (set_buf p (zBuf p ++ [c]) (u64 (nUsed p + 1)))
  else Undefined.

(** [memcpy(p->zBuf+p->nUsed, zIn, N); p->nUsed += N;] where [zIn] is
    what can be read at the source pointer. *)
Definition copy_in (p : Json) (zIn : text) (N : Z) : result Json :=
  if (Z.of_nat (length zIn) <? N) || (nAlloc p <? nUsed p + N)
  then Undefined
  else Ok (set_buf p (zBuf p ++ take (Z.to_nat N) zIn) (u64 (nUsed p + N))).

Definition jsonAppendRaw (p : Json) (zIn : text) (N : Z) : result Json :=
  grow_or_return (nAlloc p <=? u64 (N + nUsed p)) p N
    (fun p => copy_in p zIn N).

Definition jsonAppend (p : Json) (zIn : text) : result Json :=
  jsonAppendRaw p zIn (u32 (Z.of_nat (length zIn))).

Definition jsonAppendChar (p : Json) (c : ascii) : result Json :=
  grow_or_return (nAlloc p <=? nUsed p) p 1 (fun p => store p c).

(** The body of the [for] loop of [jsonAppendString], from index [i] on,
    with the closing quote that follows the loop; [k] bounds the
    iterations left. *)
Fixpoint jsonAppendString_from (k : nat) (p : Json) (zIn : text) (N i : Z)
    : result Json :=
  match k with
  | O => store p DQUOTE
  | S k' =>
    if i <? N then
      match zIn !! Z.to_nat i with
      | None => Undefined
      | Some c =>
        if Ascii.eqb c DQUOTE || Ascii.eqb c BSLASH then
          grow_or_return (nAlloc p <? u64 (nUsed p + N + 1 - i)) p (u32 (N + 1 - i))
            (fun p =>
               p <- store p BSLASH ;;
               p <- store p c ;;
               jsonAppendString_from k' p zIn N (u32 (i + 1)))
        else
          p <- store p c ;;
          jsonAppendString_from k' p zIn N (u32 (i + 1))
      end
    else store p DQUOTE
  end.

Definition jsonAppendString (p : Json) (zIn : text) (N : Z) : result Json :=
  grow_or_return (nAlloc p <=? u64 (N + nUsed p + 2)) p (u32 (N + 2))
    (fun p =>
       p <- store p DQUOTE ;;
       jsonAppendString_from (Z.to_nat N) p zIn N 0).

End Allocator.

(** [sqlite3_result_text64] copies [nUsed] bytes of [zBuf] into the
    result; the final [assert] holds by [jsonZero]. *)
Definition jsonResult (p : Json) : Json :=
  if oom p then p
  else jsonZero (mkJson (ResultText (take (Z.to_nat (nUsed p)) (zBuf p)))
                        (zBuf p) (nAlloc p) (nUsed p) (bStatic p) (oom p)).

End Accum.

(** * The parsed form *)

Inductive JsonType : Type :=
| JSON_NULL | JSON_TRUE | JSON_FALSE | JSON_INT
| JSON_REAL | JSON_STRING | JSON_ARRAY | JSON_OBJECT.

Definition JsonType_eqb (a b : JsonType) : bool :=
  match a, b with
  | JSON_NULL, JSON_NULL | JSON_TRUE, JSON_TRUE | JSON_FALSE, JSON_FALSE
  | JSON_INT, JSON_INT | JSON_REAL, JSON_REAL | JSON_STRING, JSON_STRING
  | JSON_ARRAY, JSON_ARRAY | JSON_OBJECT, JSON_OBJECT => true
  | _, _ => false
  end.

(** [zJContent] is a pointer into the text that was parsed: [Some off] is
    the address of byte [off] of it, [None] the null pointer. *)
Record JsonNode : Type := mkNode {
  eType : JsonType;
  bRaw : bool;
  n : Z;
  zJContent : option Z
}.

(** [aNode] holds the slots written so far, [aNode[0..nNode)]; once the
    array was freed it points to no object and holds no slot, while
    [nNode] keeps its value. *)
Record JsonParse : Type := mkParse {
  nNode : Z;
  nAlloc : Z;
  aNode : list JsonNode;
  zJson : text;
  oom : bool
}.

(** [z[i]] for a terminated string: the terminator at and after the end. *)
Definition zAt (z : text) (i : Z) : ascii :=
  if i <? 0 then NUL else nth (Z.to_nat i) z NUL.

(** What can be read at a content pointer. *)
Definition at_ptr (mem : text) (ptr : option Z) : text :=
  match ptr with
  | Some off => drop (Z.to_nat off) mem
  | None => []
  end.

Definition node_at (nodes : list JsonNode) (idx : Z) : result JsonNode :=
  if idx <? 0 then Undefined
  else match nodes !! Z.to_nat idx with
       | Some nd => Ok nd
       | None => Undefined
       end.

(** * The renderer *)

Section Render.

Import Accum.

Variable sqlite3_malloc64 : Z -> bool.
(** The routine that renders a raw string; [jsonAppendString] in the source. *)
Variable append_escaped : Json -> text -> Z -> result Json.
Variable nodes : list JsonNode.
Variable mem : text.

Definition appendRaw := jsonAppendRaw sqlite3_malloc64.
Definition appendChar := jsonAppendChar sqlite3_malloc64.

Definition comma_if (j : Z) (out : Json) : result Json :=
  if 0 <? j then appendChar out (chr ",") else Ok out.

(** The [while( j<pNode->n )] loop of the array case; [base] is the index
    of [pNode]. *)
Fixpoint render_array (rec : Z -> Json -> result (Z * Json)) (k : nat)
    (base size j : Z) (out : Json) : result (Z * Json) :=
  match k with
  | O => OutOfFuel
  | S k' =>
    if j <? size then
      out <- comma_if j out ;;
      r <- rec (base + j + 1) out ;;
      render_array rec k' base size (u32 (j + fst r)) (snd r)
    else Ok (j, out)
  end.

(** The loop of the object case. *)
Fixpoint render_object (rec : Z -> Json -> result (Z * Json)) (k : nat)
    (base size j : Z) (out : Json) : result (Z * Json) :=
  match k with
  | O => OutOfFuel
  | S k' =>
    if j <? size then
      out <- comma_if j out ;;
      r <- rec (base + j + 1) out ;;
      let j := u32 (j + fst r) in
      out <- appendChar (snd r) (chr ":") ;;
      r <- rec (base + j + 1) out ;;
      render_object rec k' base size (u32 (j + fst r)) (snd r)
    else Ok (j, out)
  end.

Fixpoint jsonRenderNode_fuel (fuel : nat) (idx : Z) (pOut : Json)
    : result (Z * Json) :=
  match fuel with
  | O => OutOfFuel
  | S f =>
    pNode <- node_at nodes idx ;;
    r <- match eType pNode with
         | JSON_NULL => out <- appendRaw pOut (txt "null") 4 ;; Ok (0, out)
         | JSON_TRUE => out <- appendRaw pOut (txt "true") 4 ;; Ok (0, out)
         | JSON_FALSE => out <- appendRaw pOut (txt "false") 5 ;; Ok (0, out)
         | JSON_STRING =>
           if bRaw pNode then
             out <- append_escaped pOut (at_ptr mem (zJContent pNode)) (n pNode) ;;
             Ok (0, out)
           else
             out <- appendRaw pOut (at_ptr mem (zJContent pNode)) (n pNode) ;;
             Ok (0, out)
         | JSON_REAL | JSON_INT =>
           out <- appendRaw pOut (at_ptr mem (zJContent pNode)) (n pNode) ;;
           Ok (0, out)
         | JSON_ARRAY =>
           out <- appendChar pOut (chr "[") ;;
           r <- render_array (jsonRenderNode_fuel f) f idx (n pNode) 0 out ;;
           out <- appendChar (snd r) (chr "]") ;;
           Ok (fst r, out)
         | JSON_OBJECT =>
           out <- appendChar pOut (chr "{") ;;
           r <- render_object (jsonRenderNode_fuel f) f idx (n pNode) 0 out ;;
           out <- appendChar (snd r) (chr "}") ;;
           Ok (fst r, out)
         end ;;
    Ok (to_int (u32 (fst r + 1)), snd r)
  end.

End Render.

(** The recursion of [jsonRenderNode] goes to a later slot each time, so
    one more unit of fuel than there are slots bounds it. *)
Definition jsonRenderNode_with (sqlite3_malloc64 : Z -> bool)
    (append_escaped : Accum.Json -> text -> Z -> result Accum.Json)
    (nodes : list JsonNode) (mem : text) (idx : Z) (pOut : Accum.Json)
    : result (Z * Accum.Json) :=
  jsonRenderNode_fuel sqlite3_malloc64 append_escaped nodes mem
    (S (length nodes)) idx pOut.

Definition jsonRenderNode (sqlite3_malloc64 : Z -> bool) :=
  jsonRenderNode_with sqlite3_malloc64 (Accum.jsonAppendString sqlite3_malloc64).

(** * json_array *)

(** An SQL value as the extension sees it: its type, and for the types
    with a text form what [sqlite3_value_text] returns. *)
Inductive sqlite3_value : Type :=
| SqlNull
| SqlInteger (t : text)
| SqlFloat (t : text)
| SqlText (t : text)
| SqlBlob (b : text).

Definition blob_message : string := "JSON cannot hold BLOB values".

Section ArrayFunc.

Import Accum.
Variable sqlite3_malloc64 : Z -> bool.

Definition with_ctx (p : Json) (c : sqlite3_context) : Json :=
  mkJson c (zBuf p) (nAlloc p) (nUsed p) (bStatic p) (oom p).

Definition value_bytes (t : text) : Z := u32 (Z.of_nat (length t)).

(** The [for] loop over the arguments; [inr] is the early [return] of the
    BLOB case. *)
Fixpoint jsonArrayFunc_loop (jx : Json) (cSep : ascii) (argv : list sqlite3_value)
    : result (Json + Json) :=
  match argv with
  | [] => Ok (inl jx)
  | v :: argv' =>
    jx <- jsonAppendRaw sqlite3_malloc64 jx [cSep] 1 ;;
    let cSep := chr "," in
    match v with
    | SqlNull =>
      jx <- jsonAppendRaw sqlite3_malloc64 jx (txt "null") 4 ;;
      jsonArrayFunc_loop jx cSep argv'
    | SqlInteger z | SqlFloat z =>
      jx <- jsonAppendRaw sqlite3_malloc64 jx z (value_bytes z) ;;
      jsonArrayFunc_loop jx cSep argv'
    | SqlText z =>
      jx <- jsonAppendString sqlite3_malloc64 jx z (value_bytes z) ;;
      jsonArrayFunc_loop jx cSep argv'
    | SqlBlob _ =>
      Ok (inr (with_ctx (jsonZero jx) (ResultError blob_message)))
    end
  end.

Definition jsonArrayFunc (context : sqlite3_context) (argv : list sqlite3_value)
    : result sqlite3_context :=
  r <- jsonArrayFunc_loop (jsonInit context) (chr "[") argv ;;
  match r with
  | inr jx => Ok (pCtx jx)
  | inl jx =>
    jx <- jsonAppendRaw sqlite3_malloc64 jx (txt "]") 1 ;;
    Ok (pCtx (jsonResult jx))
  end.

End ArrayFunc.

(** * The parser *)

Section Parser.

(** [sqlite3_realloc] is the host's: whether a request of the given
    number of bytes is granted is a parameter.  A request of no byte, or
    of a negative number of them, frees the array and returns the null
    pointer. *)
Variable sqlite3_realloc : Z -> bool.

(** [sizeof(JsonNode)], where a pointer has eight bytes. *)
Definition sizeof_JsonNode : Z := 16.

(** The size that reaches [sqlite3_realloc]: the [size_t] product
    [sizeof(JsonNode)*nNew] converted to the [int] of its parameter. *)
Definition node_bytes (nNew : Z) : Z := to_int (u64 (sizeof_JsonNode * nNew)).

(** The array was freed and [aNode] still holds its address. *)
Definition freed_array (pParse : JsonParse) : JsonParse :=
  mkParse (nNode pParse) (nAlloc pParse) [] (zJson pParse) (oom pParse).

Definition dangling (pParse : JsonParse) : bool :=
  match aNode pParse with
  | [] => negb (nNode pParse =? 0)
  | _ :: _ => false
  end.

(** [sqlite3_free(pParse->aNode)]; the null pointer is allowed, an array
    that was freed before is not. *)
Definition free_nodes (pParse : JsonParse) : result unit :=
  if dangling pParse then Undefined else Ok tt.

Definition push_node (pParse : JsonParse) (nAlloc' : Z) (nd : JsonNode)
    : Z * JsonParse :=
  (to_int (nNode pParse),
   mkParse (u32 (nNode pParse + 1)) nAlloc' (aNode pParse ++ [nd])
           (zJson pParse) (oom pParse)).

Definition set_oom (pParse : JsonParse) : JsonParse :=
  mkParse (nNode pParse) (nAlloc pParse) (aNode pParse) (zJson pParse) true.

(** The slot [aNode[nNode]] is written in an array of [nAlloc] slots;
    after a grant of [nByte] bytes the array has no more slots than fit
    these bytes. *)
Definition jsonParseAddNode (pParse : JsonParse) (eType : JsonType) (n : Z)
    (zContent : option Z) : result (Z * JsonParse) :=
  let nd := mkNode eType false n zContent in
  if nAlloc pParse <=? nNode pParse then
    if oom pParse then Ok (-1, pParse)
    else
      let nNew := u32 (nAlloc pParse * 2 + 10) in
      if nNew <=? nNode pParse then Ok (-1, set_oom pParse)
      else if dangling pParse then Undefined
      else
        let nByte := node_bytes nNew in
        if nByte <=? 0 then Ok (-1, set_oom (freed_array pParse))
        else if sqlite3_realloc nByte then
          if nByte <? sizeof_JsonNode * (nNode pParse + 1) then Undefined
          else Ok (push_node pParse nNew nd)
        else Ok (-1, set_oom pParse)
  else if dangling pParse then Undefined
  else Ok (push_node pParse (nAlloc pParse) nd).

(** [while( isspace(z[j]) ){ j++; }]; a string of [k] bytes has no more
    than [k] spaces. *)
Fixpoint skip_space_fuel (z : text) (k : nat) (j : Z) : Z :=
  match k with
  | O => j
  | S k' => if isspace (zAt z j) then skip_space_fuel z k' (u32 (j + 1)) else j
  end.

Definition skip_space (z : text) (j : Z) : Z := skip_space_fuel z (length z) j.

(** [strncmp(z+i, lit, strlen(lit))==0] *)
Fixpoint has_prefix (s lit : text) {struct lit} : bool :=
  match lit, s with
  | [], _ => true
  | c :: lit', d :: s' => Ascii.eqb c d && has_prefix s' lit'
  | _ :: _, [] => false
  end.

Definition strncmp_eq (z : text) (i : Z) (lit : string) : bool :=
  has_prefix (drop (Z.to_nat i) z) (txt lit).

(** The loop of the string case, entered with [j]; [Some j] is the [break]
    at the closing quote, [None] is [return -1]. *)
Fixpoint scan_string (z : text) (k : nat) (j : Z) : result (option Z) :=
  match k with
  | O => OutOfFuel
  | S k' =>
    let c := zAt z j in
    if Ascii.eqb c NUL then Ok None
    else if Ascii.eqb c BSLASH then
      let j := u32 (j + 1) in
      if Ascii.eqb (zAt z j) NUL then Ok None
      else scan_string z k' (u32 (j + 1))
    else if Ascii.eqb c DQUOTE then Ok (Some j)
    else scan_string z k' (u32 (j + 1))
  end.

Definition is_digit_char (c : ascii) : bool :=
  (48 <=? char_val c) && (char_val c <=? 57).

(** The loop of the number case; [Some (j, seenDP)] is the [break]. *)
Fixpoint scan_number (z : text) (k : nat) (j : Z) (seenDP seenE : bool)
    : result (option (Z * bool)) :=
  match k with
  | O => OutOfFuel
  | S k' =>
    let c := zAt z j in
    if is_digit_char c then scan_number z k' (u32 (j + 1)) seenDP seenE
    else if is_chr c "." then
      if is_chr (zAt z (u32 (j - 1))) "-" then Ok None
      else if seenDP then Ok None
      else scan_number z k' (u32 (j + 1)) true seenE
    else if is_chr c "e" || is_chr c "E" then
      if char_val (zAt z (u32 (j - 1))) <? 48 then Ok None
      else if seenE then Ok None
      else
        let c := zAt z (u32 (j + 1)) in
        let j := if is_chr c "+" || is_chr c "-" then u32 (j + 1) else j in
        scan_number z k' (u32 (j + 1)) true true
    else Ok (Some (j, seenDP))
  end.

(** [pParse->aNode[i].n = v] *)
Definition set_n (pParse : JsonParse) (i v : Z) : result JsonParse :=
  nd <- node_at (aNode pParse) i ;;
  Ok (mkParse (nNode pParse) (nAlloc pParse)
        (<[Z.to_nat i := mkNode (eType nd) (bRaw nd) v (zJContent nd)]> (aNode pParse))
        (zJson pParse) (oom pParse)).

Definition close_container (pParse : JsonParse) (iThis j : Z)
    : result (Z * JsonParse) :=
  pParse <- set_n pParse iThis (u32 (nNode pParse - iThis - 1)) ;;
  Ok (to_int (u32 (j + 1)), pParse).

(** The [for(j=i+1;;j++)] loop of the array case and what follows it. *)
Fixpoint parse_array (rec : JsonParse -> Z -> result (Z * JsonParse)) (k : nat)
    (pParse : JsonParse) (iThis j : Z) : result (Z * JsonParse) :=
  match k with
  | O => OutOfFuel
  | S k' =>
    let z := zJson pParse in
    let j := skip_space z j in
    r <- rec pParse j ;;
    let x := fst r in
    let pParse := snd r in
    if x <? 0 then
      if (x =? -3) && (nNode pParse =? u32 (iThis + 1))
      then Ok (to_int (u32 (j + 1)), pParse)
      else Ok (-1, pParse)
    else
      let j := skip_space z (u32 x) in
      let c := zAt z j in
      if is_chr c "," then parse_array rec k' pParse iThis (u32 (j + 1))
      else if negb (is_chr c "]") then Ok (-1, pParse)
      else close_container pParse iThis j
  end.

(** The loop of the object case and what follows it. *)
Fixpoint parse_object (rec : JsonParse -> Z -> result (Z * JsonParse)) (k : nat)
    (pParse : JsonParse) (iThis j : Z) : result (Z * JsonParse) :=
  match k with
  | O => OutOfFuel
  | S k' =>
    let z := zJson pParse in
    let j := skip_space z j in
    r <- rec pParse j ;;
    let x := fst r in
    let pParse := snd r in
    if x <? 0 then
      if (x =? -2) && (nNode pParse =? u32 (iThis + 1))
      then Ok (to_int (u32 (j + 1)), pParse)
      else Ok (-1, pParse)
    else
      last <- node_at (aNode pParse) (u32 (nNode pParse - 1)) ;;
      if negb (JsonType_eqb (eType last) JSON_STRING) then Ok (-1, pParse)
      else
        let j := skip_space z (u32 x) in
        if negb (is_chr (zAt z j) ":") then Ok (-1, pParse)
        else
          let j := u32 (j + 1) in
          r <- rec pParse j ;;
          let x := fst r in
          let pParse := snd r in
          if x <? 0 then Ok (-1, pParse)
          else
            let j := skip_space z (u32 x) in
            let c := zAt z j in
            if is_chr c "," then parse_object rec k' pParse iThis (u32 (j + 1))
            else if negb (is_chr c "}") then Ok (-1, pParse)
            else close_container pParse iThis j
  end.

Definition literal_at (z : text) (i : Z) (c : ascii) (lit : string) : bool :=
  Ascii.eqb c (chr lit)
  && strncmp_eq z i lit
  && negb (isalnum (zAt z (u32 (i + Z.of_nat (String.length lit))))).

Fixpoint jsonParseValue (fuel : nat) (pParse : JsonParse) (i : Z)
    : result (Z * JsonParse) :=
  match fuel with
  | O => OutOfFuel
  | S f =>
    let z := zJson pParse in
    let i := skip_space z i in
    let c := zAt z i in
    if Ascii.eqb c NUL then Ok (0, pParse)
    else if is_chr c "{" then
      r <- jsonParseAddNode pParse JSON_OBJECT 0 None ;;
      let iThis := u32 (fst r) in
      if iThis <? 0 then Ok (-1, snd r)
      else parse_object (jsonParseValue f) f (snd r) iThis (u32 (i + 1))
    else if is_chr c "[" then
      r <- jsonParseAddNode pParse JSON_ARRAY 0 None ;;
      let iThis := u32 (fst r) in
      if iThis <? 0 then Ok (-1, snd r)
      else parse_array (jsonParseValue f) f (snd r) iThis (u32 (i + 1))
    else if Ascii.eqb c DQUOTE then
      r <- scan_string z (S (length z)) (u32 (i + 1)) ;;
      match r with
      | None => Ok (-1, pParse)
      | Some j =>
        r <- jsonParseAddNode pParse JSON_STRING (u32 (j + 1 - i)) (Some i) ;;
        Ok (to_int (u32 (j + 1)), snd r)
      end
    else if literal_at z i c "null" then
      r <- jsonParseAddNode pParse JSON_NULL 0 None ;;
      Ok (to_int (u32 (i + 4)), snd r)
    else if literal_at z i c "true" then
      r <- jsonParseAddNode pParse JSON_TRUE 0 None ;;
      Ok (to_int (u32 (i + 4)), snd r)
    else if literal_at z i c "false" then
      r <- jsonParseAddNode pParse JSON_FALSE 0 None ;;
      Ok (to_int (u32 (i + 5)), snd r)
    else if is_chr c "-" || is_digit_char c then
      r <- scan_number z (S (length z)) (u32 (i + 1)) false false ;;
      match r with
      | None => Ok (-1, pParse)
      | Some (j, seenDP) =>
        if char_val (zAt z (u32 (j - 1))) <? 48 then Ok (-1, pParse)
        else
          r <- jsonParseAddNode pParse (if seenDP then JSON_REAL else JSON_INT)
                 (u32 (j - i)) (Some i) ;;
          Ok (to_int j, snd r)
      end
    else if is_chr c "}" then Ok (-2, pParse)
    else if is_chr c "]" then Ok (-3, pParse)
    else Ok (-1, pParse)
  end.

(** Every recursive call of [jsonParseValue] starts further into the
    text, so the length of the text bounds the depth. *)
Definition parse_fuel (z : text) : nat := S (S (length z)).

(** [zJson] is [None] for a null pointer; [pParse] is what the caller's
    uninitialized object holds. *)
Definition jsonParse (pParse : JsonParse) (zJson_arg : option text)
    : result (Z * JsonParse) :=
  match zJson_arg with
  | None => Ok (1, pParse)
  | Some z =>
    let pParse := mkParse 0 0 [] z false in
    r <- jsonParseValue (parse_fuel z) pParse 0 ;;
    let i := fst r in
    let pParse := snd r in
    let i :=
      if 0 <? i then
        let i := skip_space z i in
        if negb (Ascii.eqb (zAt z i) NUL) then -1 else i
      else i in
    if i <? 0
    then
      freed <- free_nodes pParse ;;
      Ok (1, mkParse 0 0 [] (zJson pParse) (oom pParse))
    else Ok (0, pParse)
  end.

End Parser.

(** * Notions used to state the properties *)

(** ** The accumulator *)

(** The states the code reaches with the flag set: [jsonOom] sets the flag
    and goes back to the inline buffer, and nothing leaves it while the
    flag is set. *)
Definition latched (p : Accum.Json) : Prop :=
  Accum.oom p = true /\ Accum.bStatic p = true.

(** What an append may change while the flag is set: the bytes stored in
    the inline buffer and their count, nothing else. *)
Definition same_frame (p p' : Accum.Json) : Prop :=
  Accum.pCtx p' = Accum.pCtx p /\ Accum.nAlloc p' = Accum.nAlloc p /\
  Accum.bStatic p' = Accum.bStatic p /\ Accum.oom p' = Accum.oom p.

(** An allocator that refuses every request, and one that grants all. *)
Definition no_memory (_ : Z) : bool := false.
Definition all_memory (_ : Z) : bool := true.

(** The state an accumulator is left in by an append of 200 bytes that
    the allocator refuses. *)
Definition after_failed_append : result Accum.Json :=
  Accum.jsonAppendRaw no_memory (Accum.jsonInit NoResult) (repeat (chr "a") 200) 200.

(** ** The parser *)

(** The bytes of the content span of a node of a parse of [z]. *)
Definition span (z : text) (nd : JsonNode) : text :=
  take (Z.to_nat (n nd)) (at_ptr z (zJContent nd)).

(** The state [jsonParse] leaves behind a failure. *)
Definition discarded (p : JsonParse) : Prop :=
  nNode p = 0 /\ nAlloc p = 0 /\ aNode p = [].

(** The text [{"a":1,}]. *)
Definition trailing_comma_object : text :=
  txt "{" ++ [DQUOTE] ++ txt "a" ++ [DQUOTE] ++ txt ":1,}".

(** A text of 96 bytes, two of them quotes. *)
Definition two_quotes_96 : text := [DQUOTE; DQUOTE] ++ repeat (chr "a") 94.

(** The length of a text as an index. *)
Definition len {A : Type} (s : list A) : Z := Z.of_nat (length s).

(** The three literals and the type of the node each one gives. *)
Definition literals : list (string * JsonType) :=
  [("null"%string, JSON_NULL); ("true"%string, JSON_TRUE); ("false"%string, JSON_FALSE)].

(** [realloc], with its answer to the request for the first ten slots,
    160 bytes, made explicit. *)
Definition grants_first (realloc : Z -> bool) (m : Z) : bool :=
  if m =? 160 then true else realloc m.

(** An accumulator in good order: [zBuf] holds its [nUsed] bytes, they
    fit the capacity, the capacity is what doubling from the inline
    buffer gives, and the flag is set on the inline buffer only. *)
Definition acc_ok (p : Accum.Json) : Prop :=
  len (Accum.zBuf p) = Accum.nUsed p /\
  0 <= Accum.nUsed p <= Accum.nAlloc p /\
  0 < Accum.nAlloc p <= 2 * Accum.nUsed p + 200 /\
  (Accum.oom p = true -> Accum.bStatic p = true).

(** A bound on the bytes of an accumulator under which the 64-bit
    arithmetic of its growth does not wrap. *)
Definition acc_limit : Z := 2 ^ 62 - 200.

(** [p'] is [p] with the bytes [bs] appended. *)
Definition appended (p : Accum.Json) (bs : text) (p' : Accum.Json) : Prop :=
  Accum.zBuf p' = Accum.zBuf p ++ bs /\
  Accum.nUsed p' = Accum.nUsed p + len bs /\
  Accum.oom p' = false /\
  Accum.pCtx p' = Accum.pCtx p.

(** What an append of [bs] to an accumulator in good order gives: an
    accumulator in good order, not longer than with [bs] appended, and,
    when the flag was clear and the allocator grants every request, [p]
    with [bs] appended. *)
Definition append_spec (malloc : Z -> bool) (p : Accum.Json) (bs : text)
    (p' : Accum.Json) : Prop :=
  acc_ok p' /\
  Accum.nUsed p' <= Accum.nUsed p + len bs /\
  (Accum.oom p = false -> (forall m, malloc m = true) -> appended p bs p').

(** ** The node array as a tree

    The data model takes the node array for the pre-order flattening of
    the tree of values. *)

Unset Elimination Schemes.
Inductive tree : Type := Tree (nd : JsonNode) (kids : list tree).
Set Elimination Schemes.

Definition root (t : tree) : JsonNode := match t with Tree nd _ => nd end.

Fixpoint flatten (t : tree) : list JsonNode :=
  match t with Tree nd kids => nd :: concat (map flatten kids) end.

Definition flat (ts : list tree) : list JsonNode := concat (map flatten ts).

Definition is_literal (ty : JsonType) : bool :=
  match ty with JSON_NULL | JSON_TRUE | JSON_FALSE => true | _ => false end.

Definition has_span (ty : JsonType) : bool :=
  match ty with JSON_INT | JSON_REAL | JSON_STRING => true | _ => false end.

Definition is_container (ty : JsonType) : bool :=
  match ty with JSON_ARRAY | JSON_OBJECT => true | _ => false end.

(** The trees of the nodes of a parse of [z]: a literal has no content; a
    number or a string is a span of [z] and is not raw; the size of an
    array or an object is the number of the slots of its subtrees, and
    the subtrees of an object come in pairs. *)
Unset Elimination Schemes.
Inductive shaped (z : text) : tree -> Prop :=
| shaped_literal nd :
    is_literal (eType nd) = true -> bRaw nd = false ->
    shaped z (Tree nd [])
| shaped_span nd off :
    has_span (eType nd) = true -> bRaw nd = false ->
    zJContent nd = Some off -> 0 <= off -> 1 <= n nd -> off + n nd <= len z ->
    shaped z (Tree nd [])
| shaped_array nd kids :
    eType nd = JSON_ARRAY -> bRaw nd = false -> n nd = len (flat kids) ->
    Forall (shaped z) kids ->
    shaped z (Tree nd kids)
| shaped_object nd kids :
    eType nd = JSON_OBJECT -> bRaw nd = false -> n nd = len (flat kids) ->
    Nat.Even (length kids) -> Forall (shaped z) kids ->
    shaped z (Tree nd kids).
Set Elimination Schemes.

(** The elements of an array, then the members of an object, as text:
    a comma before each but the first. *)
Fixpoint array_text (first : bool) (items : list text) : text :=
  match items with
  | [] => []
  | a :: rest => (if first then [] else [chr ","]) ++ a ++ array_text false rest
  end.

Fixpoint object_text (first : bool) (items : list text) : text :=
  match items with
  | k :: v :: rest =>
    (if first then [] else [chr ","]) ++ k ++ [chr ":"] ++ v ++ object_text false rest
  | _ => []
  end.

(** The text of a tree of nodes of [z]. *)
Fixpoint text_of (z : text) (t : tree) : text :=
  match t with
  | Tree nd kids =>
    match eType nd with
    | JSON_NULL => txt "null"
    | JSON_TRUE => txt "true"
    | JSON_FALSE => txt "false"
    | JSON_INT | JSON_REAL | JSON_STRING => span z nd
    | JSON_ARRAY => [chr "["] ++ array_text true (map (text_of z) kids) ++ [chr "]"]
    | JSON_OBJECT => [chr "{"] ++ object_text true (map (text_of z) kids) ++ [chr "}"]
    end
  end.

(** A call of the renderer at the slot where the tree [t] starts consumes
    the slots of [t] and appends its text. *)
Definition renders (malloc : Z -> bool) (z : text)
    (r : result (Z * Accum.Json)) (t : tree) (out : Accum.Json) : Prop :=
  exists out', r = Ok (len (flatten t), out') /\
               append_spec malloc out (text_of z t) out'.

(** What the loops of the renderer ask of the recursive call: it renders
    [t] wherever the flattening of [t] is in the node array. *)
Definition renders_at (malloc : Z -> bool) (nodes : list JsonNode) (z : text)
    (rec : Z -> Accum.Json -> result (Z * Accum.Json)) (t : tree) : Prop :=
  forall pre post out,
    nodes = pre ++ flatten t ++ post ->
    acc_ok out -> Accum.nUsed out + len (text_of z t) <= acc_limit ->
    renders malloc z (rec (len pre) out) t out.

(** A call keeps the invariant [I] of the parse state. *)
Definition preserves (I : JsonParse -> Prop)
    (rec : JsonParse -> Z -> result (Z * JsonParse)) : Prop :=
  forall p i x p', I p -> rec p i = Ok (x, p') -> I p'.

(** No node of the array is a raw string. *)
Definition none_raw (nodes : list JsonNode) : Prop :=
  Forall (fun nd => bRaw nd = false) nodes.

(** ** What a call of [jsonParseValue] does to the node array *)

(** The first character of the text after its leading spaces is not one
    that ends a value or separates two: so it is in every text on which
    the top call of [jsonParseValue] goes on to a recursive call. *)
Definition head_ok (z : text) : Prop :=
  let c := zAt z (skip_space z 0) in
  is_chr c "," = false /\ is_chr c ":" = false /\
  is_chr c "]" = false /\ is_chr c "}" = false.

(** The state before a call at index [i] of the text [z]. *)
Definition parser_pre (z : text) (p : JsonParse) (i : Z) : Prop :=
  zJson p = z /\ nNode p = len (aNode p) /\ nNode p <= i /\ 0 <= i <= len z.

(** The state [p'] and the value [x] returned by a call at index [i] from
    the state [p], when no allocation was refused: a syntax error; or the
    end of the text or a closing bracket, and nothing changed; or a value
    that ends before [x], and the slots of its tree added. *)
Definition value_post (z : text) (i : Z) (p : JsonParse) (x : Z) (p' : JsonParse)
    : Prop :=
  x = -1 \/
  (x = 0 /\ p' = p) \/
  ((x = -2 \/ x = -3) /\ p' = p /\ skip_space z i < len z) \/
  exists t, shaped z t /\
            aNode p' = aNode p ++ flatten t /\
            nNode p' = nNode p + len (flatten t) /\
            zJson p' = zJson p /\
            i < x <= len z /\
            len (text_of z t) <= x - i.

Definition value_spec (z : text)
    (rec : JsonParse -> Z -> result (Z * JsonParse)) : Prop :=
  forall p i x p',
    parser_pre z p i -> rec p i = Ok (x, p') -> oom p' = false ->
    value_post z i p x p'.

(** The flag is not cleared by a call. *)
Definition keeps_oom (rec : JsonParse -> Z -> result (Z * JsonParse)) : Prop :=
  forall p i x p', rec p i = Ok (x, p') -> oom p' = false -> oom p = false.

(** The comma that precedes the next element of a list of values. *)
Definition pending_comma {A : Type} (done : list A) : Z :=
  match done with [] => 0 | _ :: _ => 1 end.

(** Every slot of the flattening of [t] is where the flattening of a
    subtree of [t] starts. *)
Definition has_subtrees (z : text) (t : tree) : Prop :=
  forall k, 0 <= k < len (flatten t) ->
  exists s pre post,
    shaped z s /\ flatten t = pre ++ flatten s ++ post /\ len pre = k /\
    len (text_of z s) <= len (text_of z t).


(** The text [{"a":[1,{}]}] and the state a parse of it ends in. *)
Definition nested_text : text :=
  txt "{" ++ [DQUOTE] ++ txt "a" ++ [DQUOTE] ++ txt ":[1,{}]}".

Definition nested_parse : JsonParse :=
  mkParse 5 10
    [mkNode JSON_OBJECT false 4 None; mkNode JSON_STRING false 3 (Some 1);
     mkNode JSON_ARRAY false 2 None; mkNode JSON_INT false 1 (Some 6);
     mkNode JSON_OBJECT false 0 None]
    nested_text false.

Definition empty_parse : JsonParse := mkParse 0 0 [] [] false.

(** An array of seven numbers and an object of one member, whose key is
    the tenth node: the ten slots of the first node array are full when
    the value of the member is reached. *)
Definition full_array_text : text :=
  txt "[1,2,3,4,5,6,7,{" ++ [DQUOTE] ++ txt "a" ++ [DQUOTE] ++ txt ":1}]".

(** An allocator that grants the first node array, ten slots of 16
    bytes, and refuses every other request. *)
Definition first_array_only (m : Z) : bool := m =? 160.

(** The state the parse of that text ends in with that allocator: the
    value of the member has no node. *)
Definition truncated_parse : JsonParse :=
  mkParse 10 10
    [mkNode JSON_ARRAY false 9 None;
     mkNode JSON_INT false 1 (Some 1); mkNode JSON_INT false 1 (Some 3);
     mkNode JSON_INT false 1 (Some 5); mkNode JSON_INT false 1 (Some 7);
     mkNode JSON_INT false 1 (Some 9); mkNode JSON_INT false 1 (Some 11);
     mkNode JSON_INT false 1 (Some 13);
     mkNode JSON_OBJECT false 1 None; mkNode JSON_STRING false 3 (Some 16)]
    full_array_text true.

(** ** Minimal JSON texts

    The values of RFC 8259 as a syntax tree, and the text of a value with
    no whitespace outside strings.  A number keeps its digits and a string
    its escapes: the tree is one of texts, not of what they denote. *)

(** A number: an optional minus, the digits of the integer part, the
    digits of an optional fraction, and an optional exponent with its
    marker, its optional sign and its digits. *)
Record number : Type := mkNumber {
  minus : bool;
  int_digits : text;
  frac_digits : option text;
  exponent : option (ascii * option ascii * text)
}.

(** A character of a string: itself, or the one after a backslash. *)
Inductive schar : Type :=
| Plain (c : ascii)
| Escape (c : ascii).

Unset Elimination Schemes.
Inductive json : Type :=
| JNull
| JTrue
| JFalse
| JNumber (num : number)
| JString (body : list schar)
| JArray (items : list json)
| JObject (members : list (list schar * json)).
Set Elimination Schemes.

Definition nonempty_digits (ds : text) : bool :=
  match ds with [] => false | _ :: _ => forallb isdigit ds end.

Definition no_leading_zero (ds : text) : bool :=
  match ds with
  | c :: _ :: _ => negb (is_chr c "0")
  | _ => true
  end.

Definition valid_exponent (e : ascii * option ascii * text) : bool :=
  let '(marker, sign, ds) := e in
  (is_chr marker "e" || is_chr marker "E")
  && match sign with
     | Some s => is_chr s "+" || is_chr s "-"
     | None => true
     end
  && nonempty_digits ds.

Definition valid_number (num : number) : bool :=
  nonempty_digits (int_digits num) && no_leading_zero (int_digits num)
  && match frac_digits num with Some fs => nonempty_digits fs | None => true end
  && match exponent num with Some e => valid_exponent e | None => true end.

Definition print_exponent (e : ascii * option ascii * text) : text :=
  let '(marker, sign, ds) := e in
  marker :: match sign with Some s => [s] | None => [] end ++ ds.

Definition print_number (num : number) : text :=
  (if minus num then [chr "-"] else [])
  ++ int_digits num
  ++ match frac_digits num with Some fs => chr "." :: fs | None => [] end
  ++ match exponent num with Some e => print_exponent e | None => [] end.

Definition is_real (num : number) : bool :=
  match frac_digits num, exponent num with
  | None, None => false
  | _, _ => true
  end.

Definition is_hex (c : ascii) : bool :=
  isdigit c || ((65 <=? code c) && (code c <=? 70))
            || ((97 <=? code c) && (code c <=? 102)).

Definition plain_ok (c : ascii) : bool :=
  negb (Ascii.eqb c DQUOTE) && negb (Ascii.eqb c BSLASH) && (32 <=? code c).

Definition escape_ok (c : ascii) : bool :=
  Ascii.eqb c DQUOTE || Ascii.eqb c BSLASH || is_chr c "/" || is_chr c "b"
  || is_chr c "f" || is_chr c "n" || is_chr c "r" || is_chr c "t" || is_chr c "u".

Definition four_hex (b : list schar) : bool :=
  match b with
  | Plain h1 :: Plain h2 :: Plain h3 :: Plain h4 :: _ =>
    is_hex h1 && is_hex h2 && is_hex h3 && is_hex h4
  | _ => false
  end.

Fixpoint valid_body (b : list schar) : bool :=
  match b with
  | [] => true
  | Plain c :: rest => plain_ok c && valid_body rest
  | Escape c :: rest =>
    escape_ok c && (if is_chr c "u" then four_hex rest else true) && valid_body rest
  end.

Definition print_schar (s : schar) : text :=
  match s with
  | Plain c => [c]
  | Escape c => [BSLASH; c]
  end.

Definition print_body (b : list schar) : text := concat (map print_schar b).

Definition quoted (b : list schar) : text := DQUOTE :: print_body b ++ [DQUOTE].

Fixpoint valid (v : json) : bool :=
  match v with
  | JNull | JTrue | JFalse => true
  | JNumber num => valid_number num
  | JString b => valid_body b
  | JArray vs => forallb valid vs
  | JObject ms => forallb (fun kv => valid_body (fst kv) && valid (snd kv)) ms
  end.

(** The key and the value of each member, in order. *)
Definition member_texts (print : json -> text) (ms : list (list schar * json))
    : list text :=
  concat (map (fun kv => [quoted (fst kv); print (snd kv)]) ms).

Fixpoint print (v : json) : text :=
  match v with
  | JNull => txt "null"
  | JTrue => txt "true"
  | JFalse => txt "false"
  | JNumber num => print_number num
  | JString b => quoted b
  | JArray vs => [chr "["] ++ array_text true (map print vs) ++ [chr "]"]
  | JObject ms => [chr "{"] ++ object_text true (member_texts print ms) ++ [chr "}"]
  end.

Definition type_of (v : json) : JsonType :=
  match v with
  | JNull => JSON_NULL
  | JTrue => JSON_TRUE
  | JFalse => JSON_FALSE
  | JNumber num => if is_real num then JSON_REAL else JSON_INT
  | JString _ => JSON_STRING
  | JArray _ => JSON_ARRAY
  | JObject _ => JSON_OBJECT
  end.

(** What may follow a value in a minimal text: the end, a comma, a
    closing bracket, or the colon after a key. *)
Definition is_delim (c : ascii) : bool :=
  Ascii.eqb c NUL || is_chr c "," || is_chr c "]" || is_chr c "}" || is_chr c ":".

(** What the loop of the string case needs of a character of a string. *)
Definition scannable (s : schar) : Prop :=
  match s with
  | Plain c => Ascii.eqb c NUL = false /\ Ascii.eqb c BSLASH = false
               /\ Ascii.eqb c DQUOTE = false
  | Escape c => Ascii.eqb c NUL = false
  end.


Definition print_exponent_opt (ex : option (ascii * option ascii * text)) : text :=
  match ex with Some e => print_exponent e | None => [] end.

Definition print_fraction_opt (fr : option text) : text :=
  match fr with Some fs => chr "." :: fs | None => [] end.

(** A parse state in good order on the text [z], with no allocation
    refused so far. *)
Definition pgood (z : text) (p : JsonParse) : Prop :=
  zJson p = z /\ nNode p = len (aNode p) /\ nNode p <= nAlloc p /\ oom p = false.

(** A call at the place where the text of [v] starts, followed by a
    delimiter, returns the index after it and adds the slots of a tree
    whose text is the text of [v]. *)
Definition parses_as (z : text) (rec : JsonParse -> Z -> result (Z * JsonParse))
    (v : json) : Prop :=
  forall p pre post,
    z = pre ++ print v ++ post -> is_delim (hd NUL post) = true ->
    pgood z p -> nNode p <= len pre ->
    exists p' t,
      rec p (len pre) = Ok (len pre + len (print v), p') /\
      pgood z p' /\
      aNode p' = aNode p ++ flatten t /\
      shaped z t /\ text_of z t = print v /\ eType (root t) = type_of v.

(** An object of one member: its key has an escaped quote, its value is
    an array of a real number with an exponent, a literal and an empty
    object. *)
Definition sample_value : json :=
  JObject
    [([Plain "a"%char; Escape DQUOTE],
      JArray [JNumber (mkNumber true (txt "1") (Some (txt "5"))
                         (Some ("e"%char, Some "+"%char, txt "3")));
              JNull; JObject []])].

(** ** Every call returns *)

(** The value [x] returned by a call at index [i]: an error, a closing
    bracket before the end of the text, the end of the text, or an index
    further into the text. *)
Definition call_post (z : text) (i x : Z) : Prop :=
  x = -1 \/ ((x = -2 \/ x = -3) /\ skip_space z i < len z) \/ x = 0 \/ i < x <= len z.

(** From index [lo] on, a call is an access outside the node array or
    returns such a value: it does not run out of fuel. *)
Definition returns_from (z : text) (lo : Z)
    (rec : JsonParse -> Z -> result (Z * JsonParse)) : Prop :=
  forall p i, zJson p = z -> lo <= i <= len z ->
    rec p i = Undefined \/
    exists x p', rec p i = Ok (x, p') /\ zJson p' = z /\ call_post z i x.

(** * json_object *)

Definition odd_message : string :=
  "json_object() requires an even number of arguments".
Definition label_message : string := "json_object() labels must be TEXT".

Section ObjectFunc.

Import Accum.
Variable sqlite3_malloc64 : Z -> bool.

(** The [for(i=0; i<argc; i+=2)] loop over the arguments; [inr] is an
    early [return].  With one argument left the loop would read
    [argv[i+1]] past the end of the array. *)
Fixpoint jsonObjectFunc_loop (jx : Json) (cSep : ascii) (argv : list sqlite3_value)
    : result (Json + Json) :=
  match argv with
  | [] => Ok (inl jx)
  | [_] => Undefined
  | label :: v :: argv' =>
    jx <- jsonAppendRaw sqlite3_malloc64 jx [cSep] 1 ;;
    let cSep := chr "," in
    match label with
    | SqlText z =>
      jx <- jsonAppendString sqlite3_malloc64 jx z (value_bytes z) ;;
      jx <- jsonAppendRaw sqlite3_malloc64 jx (txt ":") 1 ;;
      match v with
      | SqlNull =>
        jx <- jsonAppendRaw sqlite3_malloc64 jx (txt "null") 4 ;;
        jsonObjectFunc_loop jx cSep argv'
      | SqlInteger z | SqlFloat z =>
        jx <- jsonAppendRaw sqlite3_malloc64 jx z (value_bytes z) ;;
        jsonObjectFunc_loop jx cSep argv'
      | SqlText z =>
        jx <- jsonAppendString sqlite3_malloc64 jx z (value_bytes z) ;;
        jsonObjectFunc_loop jx cSep argv'
      | SqlBlob _ =>
        Ok (inr (with_ctx (jsonZero jx) (ResultError blob_message)))
      end
    | _ => Ok (inr (jsonZero (with_ctx jx (ResultError label_message))))
    end
  end.

(** [argc] is the number of the arguments, an [int]. *)
Definition jsonObjectFunc (context : sqlite3_context) (argv : list sqlite3_value)
    : result sqlite3_context :=
  if negb (Z.land (Z.of_nat (length argv)) 1 =? 0)
  then Ok (ResultError odd_message)
  else
    r <- jsonObjectFunc_loop (jsonInit context) (chr "{") argv ;;
    match r with
    | inr jx => Ok (pCtx jx)
    | inl jx =>
      jx <- jsonAppendRaw sqlite3_malloc64 jx (txt "}") 1 ;;
      Ok (pCtx (jsonResult jx))
    end.

End ObjectFunc.

(** * The value of a node *)

(** The bytes of a C string before its terminator. *)
Fixpoint until_nul (z : text) : text :=
  match z with
  | [] => []
  | c :: z' => if Ascii.eqb c NUL then [] else c :: until_nul z'
  end.

(** [sqlite3_result_text(pCtx, z, n, SQLITE_TRANSIENT)] for the bytes [z]
    that can be read at the pointer: the result is a copy of the first
    [n] bytes, or of the bytes before the terminator when [n] is
    negative. *)
Definition sqlite3_result_text (z : text) (n : Z) : result sqlite3_context :=
  if n <? 0 then Ok (ResultText (until_nul z))
  else if Z.of_nat (length z) <? n then Undefined
  else Ok (ResultText (take (Z.to_nat n) z)).

Section Return.

Variable sqlite3_malloc64 : Z -> bool.

(** [jsonReturn(&aNode[idx], pCtx)]; the case of a string that is not raw
    has no statement. *)
Definition jsonReturn (nodes : list JsonNode) (mem : text) (idx : Z)
    (pCtx : sqlite3_context) : result sqlite3_context :=
  pNode <- node_at nodes idx ;;
  match eType pNode with
  | JSON_NULL => Ok ResultNull
  | JSON_TRUE => Ok (ResultInt 1)
  | JSON_FALSE => Ok (ResultInt 0)
  | JSON_REAL | JSON_INT =>
    sqlite3_result_text (at_ptr mem (zJContent pNode)) (to_int (n pNode))
  | JSON_STRING =>
    if bRaw pNode
    then sqlite3_result_text (at_ptr mem (zJContent pNode)) (to_int (n pNode))
    else Ok pCtx
  | JSON_ARRAY | JSON_OBJECT =>
    r <- jsonRenderNode sqlite3_malloc64 nodes mem idx (Accum.jsonInit pCtx) ;;
    Ok (Accum.pCtx (Accum.jsonResult (snd r)))
  end.

End Return.

(** * json_test1 and json_nodecount *)

(** [sqlite3_value_text]: the null pointer for an SQL NULL, the text form
    of the value otherwise. *)
Definition sqlite3_value_text (v : sqlite3_value) : option text :=
  match v with
  | SqlNull => None
  | SqlInteger t | SqlFloat t | SqlText t => Some t
  | SqlBlob b => Some b
  end.

Section DebugFuncs.

Variable sqlite3_realloc : Z -> bool.
Variable sqlite3_malloc64 : Z -> bool.
(** What the uninitialized [JsonParse x] of the function holds. *)
Variable x0 : JsonParse.

Definition jsonTest1Func (context : sqlite3_context) (arg : sqlite3_value)
    : result sqlite3_context :=
  r <- jsonParse sqlite3_realloc x0 (sqlite3_value_text arg) ;;
  if negb (fst r =? 0) then Ok context
  else
    context <- jsonReturn sqlite3_malloc64 (aNode (snd r)) (zJson (snd r)) 0 context ;;
    freed <- free_nodes (snd r) ;;
    Ok context.

Definition jsonNodeCountFunc (context : sqlite3_context) (arg : sqlite3_value)
    : result sqlite3_context :=
  r <- jsonParse sqlite3_realloc x0 (sqlite3_value_text arg) ;;
  if negb (fst r =? 0) then Ok context
  else
    freed <- free_nodes (snd r) ;;
    Ok (ResultInt (nNode (snd r))).

End DebugFuncs.

(** * Notions used to state further properties *)

(** ** Escaped texts *)

(** A backslash before every double quote and every backslash. *)
Fixpoint escaped (s : text) : text :=
  match s with
  | [] => []
  | c :: s' =>
    (if Ascii.eqb c DQUOTE || Ascii.eqb c BSLASH then [BSLASH; c] else [c])
    ++ escaped s'
  end.

Definition quoted_escaped (s : text) : text := DQUOTE :: escaped s ++ [DQUOTE].

(** No character of [s] is a double quote or a backslash. *)
Definition plain_text (s : text) : bool :=
  forallb (fun c => negb (Ascii.eqb c DQUOTE || Ascii.eqb c BSLASH)) s.

(** An accumulator in good order whose context holds the out-of-memory
    error whenever the flag is set. *)
Definition acc_inv (p : Accum.Json) : Prop :=
  acc_ok p /\ (Accum.oom p = true -> Accum.pCtx p = ResultNomem).

(** The accumulator inside an append that has at least [r] bytes still
    to store: the capacity is what doubling gives for the bytes stored
    and these, and with the flag set it is on the inline buffer. *)
Definition acc_mid (r : Z) (q : Accum.Json) : Prop :=
  len (Accum.zBuf q) = Accum.nUsed q /\
  0 <= Accum.nUsed q <= Accum.nAlloc q /\
  0 < Accum.nAlloc q <= 2 * (Accum.nUsed q + r) + 200 /\
  (Accum.oom q = true ->
   Accum.bStatic q = true /\ Accum.nAlloc q <= 2 * Accum.nUsed q + 200 /\
   Accum.pCtx q = ResultNomem).

(** What an append of the bytes [bs] leaves: an accumulator in good
    order, and, when the flag is clear afterwards, [p] with [bs]
    appended. *)
Definition append_step (p : Accum.Json) (bs : text) (p' : Accum.Json) : Prop :=
  acc_inv p' /\
  Accum.nUsed p' <= Accum.nUsed p + len bs /\
  (Accum.oom p' = false -> Accum.oom p = false /\ appended p bs p').

(** ** The arguments of json_array and json_object *)

(** The JSON text of an SQL value; a blob has none. *)
Definition value_json (v : sqlite3_value) : option text :=
  match v with
  | SqlNull => Some (txt "null")
  | SqlInteger t | SqlFloat t => Some t
  | SqlText t => Some (quoted_escaped t)
  | SqlBlob _ => None
  end.

(** The JSON texts of the values, or nothing if one is a blob. *)
Fixpoint values_json (argv : list sqlite3_value) : option (list text) :=
  match argv with
  | [] => Some []
  | v :: argv' =>
    match value_json v, values_json argv' with
    | Some t, Some ts => Some (t :: ts)
    | _, _ => None
    end
  end.

(** The label and the value of each pair of arguments as JSON texts, or
    the message for the first pair whose label is not a text or whose
    value is a blob. *)
Fixpoint members_json (argv : list sqlite3_value) : string + list text :=
  match argv with
  | label :: v :: argv' =>
    match label with
    | SqlText t =>
      match value_json v with
      | Some tv =>
        match members_json argv' with
        | inr ts => inr (quoted_escaped t :: tv :: ts)
        | inl e => inl e
        end
      | None => inl blob_message
      end
    | _ => inl label_message
    end
  | _ => inr []
  end.

(** The text form of an argument. *)
Definition arg_text (v : sqlite3_value) : text :=
  match v with
  | SqlNull => []
  | SqlInteger t | SqlFloat t | SqlText t => t
  | SqlBlob b => b
  end.

(** A bound on the bytes that the functions append for the arguments. *)
Fixpoint args_bound (argv : list sqlite3_value) : Z :=
  match argv with
  | [] => 2
  | v :: argv' => 2 * len (arg_text v) + 8 + args_bound argv'
  end.

(** The length of every argument fits 32 bits with two to spare, and the
    bytes to append stay below the bound of the 64-bit arithmetic. *)
Definition args_small (argv : list sqlite3_value) : bool :=
  forallb (fun v => len (arg_text v) <? 2 ^ 32 - 2) argv
  && (args_bound argv <=? acc_limit).

(** No text among the arguments has a double quote or a backslash. *)
Definition args_plain (argv : list sqlite3_value) : bool :=
  forallb (fun v => match v with SqlText t => plain_text t | _ => true end) argv.

(** The texts [ts], the separator [c] before the first and a comma
    before each of the others. *)
Fixpoint separated (c : ascii) (ts : list text) : text :=
  match ts with
  | [] => []
  | t :: ts' => c :: t ++ separated (chr ",") ts'
  end.

(** The members [ts] (a label, then its value), the separator [c] before
    the first and a comma before each of the others. *)
Fixpoint separated_pairs (c : ascii) (ts : list text) : text :=
  match ts with
  | k :: v :: ts' => c :: k ++ chr ":" :: v ++ separated_pairs (chr ",") ts'
  | _ => []
  end.

(** What json_array returns as text for the JSON texts [ts] of its
    arguments: the opening bracket is the separator before the first. *)
Definition array_result (ts : list text) : text := separated (chr "[") ts ++ txt "]".

Definition object_result (ts : list text) : text :=
  separated_pairs (chr "{") ts ++ txt "}".

(** Three arguments: a text with a quote, a null and an integer. *)
Definition sample_args : list sqlite3_value :=
  [SqlText (txt "a" ++ [DQUOTE] ++ txt "b"); SqlNull; SqlInteger (txt "12")].

(** Three arguments without a quote or a backslash. *)
Definition plain_args : list sqlite3_value :=
  [SqlText (txt "ab"); SqlNull; SqlFloat (txt "1.5")].

(** Two pairs without a quote or a backslash. *)
Definition plain_pairs : list sqlite3_value :=
  [SqlText (txt "k"); SqlInteger (txt "7"); SqlText (txt "n"); SqlText (txt "v")].

(** Two pairs: a text and a float under their labels. *)
Definition sample_pairs : list sqlite3_value :=
  [SqlText (txt "k"); SqlText (txt "a\b"); SqlText (txt "n"); SqlFloat (txt "1.5")].

(** ** The nodes of a value *)

(** The nodes of the elements of an array whose first element starts at
    byte [off]: one comma between two elements. *)
Fixpoint elements_nodes (nodes_of : Z -> json -> list JsonNode) (vs : list json)
    (off : Z) : list JsonNode :=
  match vs with
  | [] => []
  | v :: vs' =>
    nodes_of off v ++ elements_nodes nodes_of vs' (off + len (print v) + 1)
  end.

(** The nodes of the members of an object: the key, a colon, the value,
    and one comma between two members. *)
Fixpoint members_nodes (nodes_of : Z -> json -> list JsonNode)
    (ms : list (list schar * json)) (off : Z) : list JsonNode :=
  match ms with
  | [] => []
  | (kb, v) :: ms' =>
    mkNode JSON_STRING false (len (quoted kb)) (Some off)
    :: nodes_of (off + len (quoted kb) + 1) v
    ++ members_nodes nodes_of ms'
         (off + len (quoted kb) + 1 + len (print v) + 1)
  end.

(** The node array of the minimal text of [v] when it starts at byte
    [off]: the values in pre-order, a number or a string with the place
    and the length of its text, a container with the number of the nodes
    below it. *)
Fixpoint nodes_of (off : Z) (v : json) : list JsonNode :=
  match v with
  | JNull => [mkNode JSON_NULL false 0 None]
  | JTrue => [mkNode JSON_TRUE false 0 None]
  | JFalse => [mkNode JSON_FALSE false 0 None]
  | JNumber num =>
    [mkNode (if is_real num then JSON_REAL else JSON_INT) false
            (len (print_number num)) (Some off)]
  | JString b => [mkNode JSON_STRING false (len (quoted b)) (Some off)]
  | JArray vs =>
    let kids := elements_nodes nodes_of vs (off + 1) in
    mkNode JSON_ARRAY false (len kids) None :: kids
  | JObject ms =>
    let kids := members_nodes nodes_of ms (off + 1) in
    mkNode JSON_OBJECT false (len kids) None :: kids
  end.

(** The number of the values of [v], the keys of the objects counted. *)
Fixpoint value_count (v : json) : Z :=
  match v with
  | JArray vs => 1 + fold_right (fun v acc => value_count v + acc) 0 vs
  | JObject ms => 1 + fold_right (fun kv acc => 1 + value_count (snd kv) + acc) 0 ms
  | _ => 1
  end.

(** A call at the place where the text of [v] starts, followed by a
    delimiter, returns the index after it and adds the nodes of [v]. *)
Definition parses_to (z : text) (rec : JsonParse -> Z -> result (Z * JsonParse))
    (v : json) : Prop :=
  forall p pre post,
    z = pre ++ print v ++ post -> is_delim (hd NUL post) = true ->
    pgood z p -> nNode p <= len pre ->
    exists p',
      rec p (len pre) = Ok (len pre + len (print v), p') /\
      pgood z p' /\
      aNode p' = aNode p ++ nodes_of (len pre) v.

(** What json_test1 gives for the minimal text of [v]. *)
Definition value_result (context : sqlite3_context) (v : json) : sqlite3_context :=
  match v with
  | JNull => ResultNull
  | JTrue => ResultInt 1
  | JFalse => ResultInt 0
  | JString _ => context
  | JNumber _ | JArray _ | JObject _ => ResultText (print v)
  end.

(** ** Texts the parser takes or refuses *)

(** A character of a string that the loop of the string case steps over:
    any byte but the terminator, the backslash and the double quote, or
    any byte but the terminator after a backslash. *)
Definition steps_over (s : schar) : bool :=
  match s with
  | Plain c => negb (Ascii.eqb c NUL) && negb (Ascii.eqb c BSLASH)
               && negb (Ascii.eqb c DQUOTE)
  | Escape c => negb (Ascii.eqb c NUL)
  end.

(** The text starts with a comma, a closing bracket or brace, or a colon. *)
Definition separator_first (post : text) : bool :=
  match post with
  | c :: _ => is_chr c "," || is_chr c "]" || is_chr c "}" || is_chr c ":"
  | [] => false
  end.

(** A string of two characters: a line feed, and an [x] after a
    backslash. *)
Definition odd_string : list schar :=
  [Plain (ascii_of_N 10); Escape "x"%char].

(** ** The content of the nodes *)

(** The content of a number or a string lies inside [z] and is not
    empty; nothing is asked of a node of another type. *)
Definition span_inside (z : text) (nd : JsonNode) : bool :=
  negb (has_span (eType nd)) ||
  match zJContent nd with
  | Some off => (0 <=? off) && (1 <=? n nd) && (off + n nd <=? len z)
  | None => false
  end.

(** A literal, a number or a string. *)
Definition is_scalar (v : json) : bool :=
  match v with JArray _ | JObject _ => false | _ => true end.

(** A string of two characters: an [a], and an [n] after a backslash. *)
Definition sample_scalar : json := JString [Plain "a"%char; Escape "n"%char].

(** ** The node array while it is built *)

(** The content of the numbers and the strings of [nodes] lies inside
    [z]. *)
Definition spans_in (z : text) (nodes : list JsonNode) : Prop :=
  Forall (fun nd => span_inside z nd = true) nodes.

(** The array of a parse in progress: it was freed, or it holds its
    [nNode] slots and has less than 2^27 of them, the most that a request
    of less than 2^31 bytes gives. *)
Definition array_ok (p : JsonParse) : Prop :=
  dangling p = true \/
  (nNode p = len (aNode p) /\ nNode p <= nAlloc p /\ nAlloc p < 2 ^ 27).

Definition state_ok (z : text) (p : JsonParse) : Prop :=
  zJson p = z /\ spans_in z (aNode p) /\ array_ok p.

(** The nodes of [p] are in [p'], at their places and with their types,
    unless the array was freed; a freed array stays so. *)
Definition extends (p p' : JsonParse) : Prop :=
  (dangling p = true -> dangling p' = true) /\
  (dangling p' = true \/
   forall k nd, aNode p !! k = Some nd ->
     exists nd', aNode p' !! k = Some nd' /\ eType nd' = eType nd).

(** The slot [i] holds a container, or it is one that the array never
    has. *)
Definition container_at (p : JsonParse) (i : Z) : Prop :=
  (exists nd, node_at (aNode p) i = Ok nd /\ is_container (eType nd) = true) \/
  2 ^ 27 <= i.

(** What a call keeps of a state. *)
Definition keeps_spans (z : text)
    (rec : JsonParse -> Z -> result (Z * JsonParse)) : Prop :=
  forall p i x p', state_ok z p -> rec p i = Ok (x, p') ->
    state_ok z p' /\ extends p p'.

(** * Arithmetic and texts *)

Lemma u32_small x : 0 <= x < 2 ^ 32 -> u32 x = x.
Proof. intros H. unfold u32. apply Z.mod_small. exact H. Qed.

Lemma u64_small x : 0 <= x < 2 ^ 64 -> u64 x = x.
Proof. intros H. unfold u64. apply Z.mod_small. exact H. Qed.

Lemma to_int_small x : - 2 ^ 31 <= x < 2 ^ 31 -> to_int x = x.
Proof. intros H. unfold to_int. rewrite Z.mod_small; lia. Qed.

Lemma u32_range x : 0 <= u32 x < 2 ^ 32.
Proof. unfold u32. apply Z.mod_pos_bound. lia. Qed.

Lemma len_app {A} (s t : list A) : len (s ++ t) = len s + len t.
Proof. unfold len. rewrite length_app. lia. Qed.

Lemma len_cons {A} (c : A) (s : list A) : len (c :: s) = 1 + len s.
Proof. unfold len. simpl length. lia. Qed.

Lemma len_nil {A} : len (@nil A) = 0.
Proof. reflexivity. Qed.

Ltac len_norm :=
  repeat first [rewrite app_nil_r | rewrite len_app | rewrite len_cons | rewrite len_nil
               | progress change (len (@nil ascii)) with 0
               | progress change (len (@nil JsonNode)) with 0].

Ltac len_norm_in H :=
  repeat first [rewrite len_app in H | rewrite len_cons in H | rewrite len_nil in H
               | progress change (len (@nil ascii)) with 0 in H
               | progress change (len (@nil JsonNode)) with 0 in H].

Ltac list_eq :=
  repeat (progress (cbn [app]; rewrite <- ?app_assoc)); reflexivity.

Lemma len_nonneg {A} (s : list A) : 0 <= len s.
Proof. unfold len. lia. Qed.

Lemma zAt_app_r (pre s : text) k :
  0 <= k -> zAt (pre ++ s) (len pre + k) = zAt s k.
Proof.
  intros Hk. unfold zAt, len.
  destruct (Z.ltb_spec (Z.of_nat (length pre) + k) 0); [lia|].
  destruct (Z.ltb_spec k 0); [lia|].
  replace (Z.to_nat (Z.of_nat (length pre) + k)) with (length pre + Z.to_nat k)%nat by lia.
  rewrite app_nth2_plus. reflexivity.
Qed.

Lemma zAt_here (pre s : text) : zAt (pre ++ s) (len pre) = hd NUL s.
Proof.
  rewrite <- (Z.add_0_r (len pre)), zAt_app_r by lia.
  destruct s; reflexivity.
Qed.

Lemma zAt_end (z : text) i : len z <= i -> zAt z i = NUL.
Proof.
  intros H. unfold zAt, len in *. destruct (i <? 0); [reflexivity|].
  apply nth_overflow. lia.
Qed.

Lemma zAt_cons_succ c (s : text) k : 0 <= k -> zAt (c :: s) (k + 1) = zAt s k.
Proof.
  intros Hk. unfold zAt.
  destruct (Z.ltb_spec (k + 1) 0); [lia|]. destruct (Z.ltb_spec k 0); [lia|].
  replace (Z.to_nat (k + 1)) with (S (Z.to_nat k)) by lia. reflexivity.
Qed.

Lemma drop_len (pre s : text) : drop (Z.to_nat (len pre)) (pre ++ s) = s.
Proof. unfold len. rewrite Nat2Z.id. apply drop_app_length. Qed.

Lemma skip_space_stop z i : isspace (zAt z i) = false -> skip_space z i = i.
Proof.
  intros H. unfold skip_space. destruct (length z); simpl; [reflexivity|].
  rewrite H. reflexivity.
Qed.

(** The node added in the hypothesis [E], as [r] with its equation. *)
Ltac add_in E r Ea :=
  match type of E with
  | context [jsonParseAddNode ?re ?p ?ty ?m ?c] =>
    destruct (jsonParseAddNode re p ty m c) as [r| |] eqn:Ea;
    cbn [bind] in E; try discriminate
  end.

(** * The parser depends on the allocator through its answers only *)

Section AllocatorExt.

Variables r1 r2 : Z -> bool.
Hypothesis r12 : forall m, r1 m = r2 m.

Lemma jsonParseAddNode_ext p ty m c :
  jsonParseAddNode r1 p ty m c = jsonParseAddNode r2 p ty m c.
Proof. unfold jsonParseAddNode. rewrite r12. reflexivity. Qed.

Lemma parse_array_ext rec1 rec2 :
  (forall p i, rec1 p i = rec2 p i) ->
  forall k p iThis j, parse_array rec1 k p iThis j = parse_array rec2 k p iThis j.
Proof.
  intros Hrec. induction k as [|k IH]; intros p iThis j; [reflexivity|].
  cbn [parse_array]. rewrite Hrec.
  destruct (rec2 p _) as [[x q]| |]; cbn [bind fst snd]; try reflexivity.
  destruct (x <? 0); [reflexivity|].
  rewrite IH. reflexivity.
Qed.

Lemma parse_object_ext rec1 rec2 :
  (forall p i, rec1 p i = rec2 p i) ->
  forall k p iThis j, parse_object rec1 k p iThis j = parse_object rec2 k p iThis j.
Proof.
  intros Hrec. induction k as [|k IH]; intros p iThis j; [reflexivity|].
  cbn [parse_object]. rewrite Hrec.
  destruct (rec2 p _) as [[x q]| |]; cbn [bind fst snd]; try reflexivity.
  destruct (x <? 0); [reflexivity|].
  destruct (node_at _ _) as [last| |]; cbn [bind]; try reflexivity.
  destruct (negb (JsonType_eqb _ _)); [reflexivity|].
  destruct (negb (is_chr _ _)); [reflexivity|].
  rewrite Hrec.
  destruct (rec2 q _) as [[y q']| |]; cbn [bind fst snd]; try reflexivity.
  destruct (y <? 0); [reflexivity|].
  rewrite IH. reflexivity.
Qed.

Lemma jsonParseValue_ext fuel :
  forall p i, jsonParseValue r1 fuel p i = jsonParseValue r2 fuel p i.
Proof.
  induction fuel as [|f IH]; intros p i; [reflexivity|].
  cbn [jsonParseValue].
  destruct (Ascii.eqb _ NUL); [reflexivity|].
  destruct (is_chr _ "{").
  { rewrite jsonParseAddNode_ext.
    destruct (jsonParseAddNode r2 _ _ _ _) as [[a q]| |]; cbn [bind fst snd];
      try reflexivity.
    rewrite (parse_object_ext _ _ IH). reflexivity. }
  destruct (is_chr _ "[").
  { rewrite jsonParseAddNode_ext.
    destruct (jsonParseAddNode r2 _ _ _ _) as [[a q]| |]; cbn [bind fst snd];
      try reflexivity.
    rewrite (parse_array_ext _ _ IH). reflexivity. }
  destruct (Ascii.eqb _ DQUOTE).
  { destruct (scan_string _ _ _) as [[j|]| |]; cbn [bind]; try reflexivity.
    rewrite jsonParseAddNode_ext. reflexivity. }
  destruct (literal_at _ _ _ "null"); [rewrite jsonParseAddNode_ext; reflexivity|].
  destruct (literal_at _ _ _ "true"); [rewrite jsonParseAddNode_ext; reflexivity|].
  destruct (literal_at _ _ _ "false"); [rewrite jsonParseAddNode_ext; reflexivity|].
  destruct (_ || _); [|reflexivity].
  destruct (scan_number _ _ _ _ _) as [[[j dp]|]| |]; cbn [bind]; try reflexivity.
  destruct (_ <? 48); [reflexivity|].
  rewrite jsonParseAddNode_ext. reflexivity.
Qed.

Lemma jsonParse_ext p0 z : jsonParse r1 p0 z = jsonParse r2 p0 z.
Proof.
  unfold jsonParse. destruct z as [z|]; [|reflexivity].
  rewrite jsonParseValue_ext. reflexivity.
Qed.

End AllocatorExt.

(** An allocator known to grant the first node array of ten slots, 160 bytes. *)
Lemma grants_first_ext (realloc : Z -> bool) :
  realloc 160 = true -> forall m, realloc m = grants_first realloc m.
Proof.
  intros H m. unfold grants_first. destruct (Z.eqb_spec m 160); congruence.
Qed.

(** * Properties of the accumulator *)

Module AccumFacts.
Import Accum.

Lemma jsonOom_latched p : latched (jsonOom p).
Proof. split; reflexivity. Qed.

Lemma jsonGrow_latched malloc p N :
  latched p -> jsonGrow malloc p N = (SQLITE_NOMEM, p).
Proof. intros [Ho Hs]. unfold jsonGrow. rewrite Hs, Ho. reflexivity. Qed.

Lemma grow_or_return_latched malloc cond p N k :
  latched p ->
  grow_or_return malloc cond p N k = if cond then Ok p else k p.
Proof.
  intros H. unfold grow_or_return. destruct cond; [|reflexivity].
  rewrite jsonGrow_latched by assumption. reflexivity.
Qed.

Lemma same_frame_refl p : same_frame p p.
Proof. repeat split. Qed.

Lemma same_frame_trans p q r : same_frame p q -> same_frame q r -> same_frame p r.
Proof. unfold same_frame. intuition congruence. Qed.

Lemma same_frame_latched p p' : same_frame p p' -> latched p -> latched p'.
Proof. unfold same_frame, latched. intuition congruence. Qed.

Lemma store_frame p c p' : store p c = Ok p' -> same_frame p p'.
Proof.
  unfold store. destruct (nUsed p <? nAlloc p); [|discriminate].
  intros [= <-]. repeat split.
Qed.

Lemma copy_in_frame p zIn N p' : copy_in p zIn N = Ok p' -> same_frame p p'.
Proof.
  unfold copy_in. destruct (_ || _); [discriminate|].
  intros [= <-]. repeat split.
Qed.

Lemma jsonAppendString_from_latched malloc k : forall p zIn N i p',
  latched p ->
  jsonAppendString_from malloc k p zIn N i = Ok p' -> same_frame p p'.
Proof.
  induction k as [|k IH]; intros p zIn N i p' Hl; simpl.
  - apply store_frame.
  - destruct (i <? N); [|apply store_frame].
    destruct (zIn !! Z.to_nat i) as [c|]; [|discriminate].
    destruct (Ascii.eqb c DQUOTE || Ascii.eqb c BSLASH).
    + rewrite grow_or_return_latched by assumption.
      destruct (nAlloc p <? _).
      * intros [= <-]. apply same_frame_refl.
      * destruct (store p BSLASH) as [p1| |] eqn:E1; try discriminate. simpl.
        destruct (store p1 c) as [p2| |] eqn:E2; try discriminate. simpl.
        intros H. apply store_frame in E1, E2.
        assert (same_frame p p2) by (eapply same_frame_trans; eassumption).
        eapply same_frame_trans; [eassumption|].
        eapply IH; [|eassumption]. eapply same_frame_latched; eassumption.
    + destruct (store p c) as [p1| |] eqn:E1; try discriminate. simpl.
      intros H. apply store_frame in E1.
      eapply same_frame_trans; [eassumption|].
      eapply IH; [|eassumption]. eapply same_frame_latched; eassumption.
Qed.

Lemma jsonAppendRaw_latched malloc p zIn N :
  latched p ->
  (nAlloc p <= u64 (N + nUsed p) -> jsonAppendRaw malloc p zIn N = Ok p) /\
  (forall p', jsonAppendRaw malloc p zIn N = Ok p' -> same_frame p p').
Proof.
  intros Hl. unfold jsonAppendRaw. rewrite grow_or_return_latched by assumption.
  destruct (Z.leb_spec (nAlloc p) (u64 (N + nUsed p))); split.
  - reflexivity.
  - intros p' [= <-]. apply same_frame_refl.
  - lia.
  - intros p'. apply copy_in_frame.
Qed.

Lemma jsonAppendChar_latched malloc p c :
  latched p ->
  (nAlloc p <= nUsed p -> jsonAppendChar malloc p c = Ok p) /\
  (forall p', jsonAppendChar malloc p c = Ok p' -> same_frame p p').
Proof.
  intros Hl. unfold jsonAppendChar. rewrite grow_or_return_latched by assumption.
  destruct (Z.leb_spec (nAlloc p) (nUsed p)); split.
  - reflexivity.
  - intros p' [= <-]. apply same_frame_refl.
  - lia.
  - intros p'. apply store_frame.
Qed.

Lemma jsonAppendString_latched malloc p zIn N :
  latched p ->
  (nAlloc p <= u64 (N + nUsed p + 2) -> jsonAppendString malloc p zIn N = Ok p) /\
  (forall p', jsonAppendString malloc p zIn N = Ok p' -> same_frame p p').
Proof.
  intros Hl. unfold jsonAppendString. rewrite grow_or_return_latched by assumption.
  destruct (Z.leb_spec (nAlloc p) (u64 (N + nUsed p + 2))); split.
  - reflexivity.
  - intros p' [= <-]. apply same_frame_refl.
  - lia.
  - intros p'. destruct (store p DQUOTE) as [p1| |] eqn:E1; try discriminate. simpl.
    intros H0. apply store_frame in E1.
    eapply same_frame_trans; [eassumption|].
    eapply jsonAppendString_from_latched; [|eassumption].
    eapply same_frame_latched; eassumption.
Qed.

End AccumFacts.

Module AccumLatch.
Import Accum AccumFacts.

(** C3, as amended: while the out-of-memory flag is set and the
    accumulator is on its inline buffer, an append that returns has
    allocated nothing and has changed neither the capacity, the flag nor
    the result already reported, only the bytes stored and their count;
    an append that needs the buffer to grow does return, with the
    accumulator unchanged; one that fits the inline buffer may still
    store its bytes there; and [jsonResult] hands no text to the host. *)
Theorem append_after_oom (malloc : Z -> bool) (p : Json) :
  latched p ->
  (forall zIn N,
      (nAlloc p <= u64 (N + nUsed p) -> jsonAppendRaw malloc p zIn N = Ok p) /\
      (forall p', jsonAppendRaw malloc p zIn N = Ok p' -> same_frame p p')) /\
  (forall c,
      (nAlloc p <= nUsed p -> jsonAppendChar malloc p c = Ok p) /\
      (forall p', jsonAppendChar malloc p c = Ok p' -> same_frame p p')) /\
  (forall zIn N,
      (nAlloc p <= u64 (N + nUsed p + 2) -> jsonAppendString malloc p zIn N = Ok p) /\
      (forall p', jsonAppendString malloc p zIn N = Ok p' -> same_frame p p')) /\
  jsonResult p = p.
Proof.
  intros Hl. split; [|split; [|split]].
  - intros zIn N. apply jsonAppendRaw_latched, Hl.
  - intros c. apply jsonAppendChar_latched, Hl.
  - intros zIn N. apply jsonAppendString_latched, Hl.
  - unfold jsonResult. destruct Hl as [-> _]. reflexivity.
Qed.

Lemma append_after_oom_witness :
  let p := jsonOom (jsonInit NoResult) in
  latched p /\
  jsonAppendRaw no_memory p (repeat (chr "a") 200) 200 = Ok p /\
  same_frame p (mkJson ResultNomem [chr "x"] 100 1 true true) /\
  jsonResult p = p.
Proof.
  intros p.
  pose proof (append_after_oom no_memory p (jsonOom_latched _)) as (Hraw & Hchar & _ & Hres).
  split; [apply jsonOom_latched|].
  split; [apply (proj1 (Hraw _ 200)); vm_compute; discriminate|].
  split; [apply (proj2 (Hchar (chr "x"))); reflexivity|].
  exact Hres.
Defined.

(** C3 as stated fails: after the allocator has refused a request, the
    flag is set, and an append of one character still stores it. *)
Lemma append_after_oom_stores :
  exists p p',
    after_failed_append = Ok p /\ oom p = true /\
    jsonAppendChar no_memory p (chr "x") = Ok p' /\
    ~ (zBuf p' = zBuf p /\ nUsed p' = nUsed p).
Proof.
  exists (mkJson ResultNomem [] 100 0 true true).
  exists (mkJson ResultNomem [chr "x"] 100 1 true true).
  split; [reflexivity|]. split; [reflexivity|]. split; [reflexivity|].
  intros [H _]. discriminate H.
Qed.

End AccumLatch.

(** * Appends to an accumulator in good order *)

Module AccumOk.
Import Accum.

Lemma jsonOom_ok p : acc_ok (jsonOom p).
Proof. unfold acc_ok, len. simpl. lia. Qed.

Lemma jsonInit_ok ctx : acc_ok (jsonInit ctx).
Proof. unfold acc_ok, len. simpl. lia. Qed.

Lemma acc_limit_val : acc_limit = 2 ^ 62 - 200.
Proof. reflexivity. Qed.

(** The outcome of [jsonGrow] for a request that does not fit. *)
Lemma jsonGrow_ok malloc p N :
  acc_ok p -> 0 <= N < 2 ^ 33 -> nUsed p + N <= acc_limit ->
  nAlloc p <= N + nUsed p ->
  let r := jsonGrow malloc p N in
  (fst r <> SQLITE_OK /\ snd r = (if oom p then p else jsonOom p)
     /\ (oom p = false -> exists m, malloc m = false)) \/
  (fst r = SQLITE_OK /\ oom p = false /\
   snd r = mkJson (pCtx p) (zBuf p) (nAlloc (snd r)) (nUsed p) false false /\
   nUsed p + N <= nAlloc (snd r) /\ nUsed p < nAlloc (snd r) /\
   nAlloc (snd r) <= 2 * (nUsed p + N) + 200).
Proof.
  intros (Hlen & Hu & Ha & Hst) HN Hlim Hfit. rewrite acc_limit_val in Hlim.
  unfold jsonGrow.
  set (nTotal := if N <? nAlloc p then u64 (nAlloc p * 2) else u64 (nAlloc p + N + 100)).
  assert (HT : nUsed p + N <= nTotal /\ nUsed p < nTotal /\ nTotal <= 2 * (nUsed p + N) + 200).
  { unfold nTotal. destruct (Z.ltb_spec N (nAlloc p)); rewrite u64_small; lia. }
  destruct (bStatic p) eqn:Hs.
  - destruct (oom p) eqn:Ho.
    + left. cbn. split; [discriminate|]. split; [reflexivity|discriminate].
    + destruct (malloc nTotal) eqn:Hm; cbn.
      * right. repeat split; try lia.
      * left. split; [discriminate|]. split; [reflexivity|]. eauto.
  - assert (Ho : oom p = false).
    { destruct (oom p); [|reflexivity]. specialize (Hst eq_refl). congruence. }
    rewrite Ho. destruct (malloc nTotal) eqn:Hm; cbn.
    + right. repeat split; try lia.
    + left. split; [discriminate|]. split; [reflexivity|]. eauto.
Qed.

Lemma copy_in_ok malloc p zIn N :
  len (zBuf p) = nUsed p -> 0 <= nUsed p -> (oom p = true -> bStatic p = true) ->
  0 <= N -> N <= len zIn -> nUsed p + N <= nAlloc p -> 0 < nAlloc p ->
  nAlloc p <= 2 * (nUsed p + N) + 200 -> nUsed p + N <= acc_limit ->
  exists p', copy_in p zIn N = Ok p' /\
             append_spec malloc p (take (Z.to_nat N) zIn) p' /\
             nAlloc p' = nAlloc p /\ bStatic p' = bStatic p /\ oom p' = oom p.
Proof.
  intros Hlen Hu Hst HN Hin Hfit Ha Hcap Hlim. rewrite acc_limit_val in Hlim.
  unfold copy_in.
  destruct (Z.ltb_spec (Z.of_nat (length zIn)) N); [unfold len in *; lia|].
  destruct (Z.ltb_spec (nAlloc p) (nUsed p + N)); [lia|]. cbn.
  assert (Hl : len (take (Z.to_nat N) zIn) = N).
  { unfold len in *. rewrite length_take. lia. }
  eexists. split; [reflexivity|]. unfold append_spec, acc_ok, appended. cbn.
  rewrite len_app, Hl, u64_small by lia.
  repeat split; try lia; try assumption.
Qed.

Lemma store_ok malloc p c :
  len (zBuf p) = nUsed p -> 0 <= nUsed p -> (oom p = true -> bStatic p = true) ->
  nUsed p < nAlloc p ->
  nAlloc p <= 2 * (nUsed p + 1) + 200 -> nUsed p + 1 <= acc_limit ->
  exists p', store p c = Ok p' /\ append_spec malloc p [c] p' /\
             nAlloc p' = nAlloc p /\ bStatic p' = bStatic p /\ oom p' = oom p.
Proof.
  intros Hlen Hu Hst Hfit Hcap Hlim. rewrite acc_limit_val in Hlim.
  unfold store. destruct (Z.ltb_spec (nUsed p) (nAlloc p)); [|lia].
  eexists. split; [reflexivity|]. unfold append_spec, acc_ok, appended. cbn.
  rewrite len_app, u64_small by lia. change (len [c]) with 1.
  repeat split; try lia; try assumption.
Qed.

Lemma append_spec_failed malloc p bs :
  acc_ok p -> 0 <= len bs ->
  (oom p = false -> exists m, malloc m = false) ->
  append_spec malloc p bs (if oom p then p else jsonOom p).
Proof.
  intros Hok Hbs Hm. unfold append_spec.
  destruct (oom p) eqn:Ho.
  - split; [assumption|]. split; [lia|]. discriminate.
  - split; [apply jsonOom_ok|]. destruct Hok as (_ & Hu & _).
    split; [cbn; lia|]. intros _ Hall.
    destruct (Hm eq_refl) as [m Hf]. rewrite Hall in Hf. discriminate.
Qed.

Lemma append_spec_grown malloc p p1 bs p' :
  oom p = false -> zBuf p1 = zBuf p -> nUsed p1 = nUsed p -> pCtx p1 = pCtx p ->
  oom p1 = false ->
  append_spec malloc p1 bs p' -> append_spec malloc p bs p'.
Proof.
  intros Ho Hz Hu Hc Ho1 (Hok & Hle & Happ). unfold append_spec.
  split; [assumption|]. split; [lia|]. intros _ Hall.
  destruct (Happ Ho1 Hall) as (? & ? & ? & ?). unfold appended.
  repeat split; congruence.
Qed.

Lemma jsonAppendRaw_ok malloc p zIn N :
  acc_ok p -> 0 <= N < 2 ^ 32 -> N <= len zIn -> nUsed p + N <= acc_limit ->
  exists p', jsonAppendRaw malloc p zIn N = Ok p' /\
             append_spec malloc p (take (Z.to_nat N) zIn) p'.
Proof.
  intros Hok HN Hin Hlim.
  pose proof Hok as (Hlen & Hu & Ha & Hst).
  pose proof acc_limit_val as Hv.
  unfold jsonAppendRaw, grow_or_return.
  rewrite u64_small by lia.
  destruct (Z.leb_spec (nAlloc p) (N + nUsed p)) as [Hgrow|Hfit].
  - pose proof (jsonGrow_ok malloc p N Hok ltac:(lia) Hlim Hgrow) as Hg.
    destruct (jsonGrow malloc p N) as [rc p1]. cbv zeta in Hg; cbn [fst snd] in Hg.
    destruct Hg as [(Hrc & -> & Hm)|(-> & Ho & Hp1 & Hf1 & Hf2 & Hcap)].
    + destruct (Z.eqb_spec rc SQLITE_OK); [contradiction|].
      eexists. split; [reflexivity|]. apply append_spec_failed; auto.
      apply len_nonneg.
    + change (SQLITE_OK =? SQLITE_OK) with true. cbv iota.
      assert (Hu1 : nUsed p1 = nUsed p) by (rewrite Hp1; reflexivity).
      assert (Hz1 : zBuf p1 = zBuf p) by (rewrite Hp1; reflexivity).
      assert (Ho1 : oom p1 = false) by (rewrite Hp1; reflexivity).
      destruct (copy_in_ok malloc p1 zIn N) as (p' & Hc & Hspec & _);
        try lia; try congruence.
      exists p'. split; [assumption|].
      eapply append_spec_grown; try eassumption; rewrite Hp1; reflexivity.
  - destruct (copy_in_ok malloc p zIn N) as (p' & Hc & Hspec & _); try lia; auto.
    exists p'. split; assumption.
Qed.

Lemma jsonAppendChar_ok malloc p c :
  acc_ok p -> nUsed p + 1 <= acc_limit ->
  exists p', jsonAppendChar malloc p c = Ok p' /\ append_spec malloc p [c] p'.
Proof.
  intros Hok Hlim.
  pose proof Hok as (Hlen & Hu & Ha & Hst).
  pose proof acc_limit_val as Hv.
  unfold jsonAppendChar, grow_or_return.
  destruct (Z.leb_spec (nAlloc p) (nUsed p)) as [Hgrow|Hfit].
  - pose proof (jsonGrow_ok malloc p 1 Hok ltac:(lia) Hlim ltac:(lia)) as Hg.
    destruct (jsonGrow malloc p 1) as [rc p1]. cbv zeta in Hg; cbn [fst snd] in Hg.
    destruct Hg as [(Hrc & -> & Hm)|(-> & Ho & Hp1 & Hf1 & Hf2 & Hcap)].
    + destruct (Z.eqb_spec rc SQLITE_OK); [contradiction|].
      eexists. split; [reflexivity|]. apply append_spec_failed; auto.
      apply len_nonneg.
    + change (SQLITE_OK =? SQLITE_OK) with true. cbv iota.
      assert (Hu1 : nUsed p1 = nUsed p) by (rewrite Hp1; reflexivity).
      assert (Hz1 : zBuf p1 = zBuf p) by (rewrite Hp1; reflexivity).
      assert (Ho1 : oom p1 = false) by (rewrite Hp1; reflexivity).
      destruct (store_ok malloc p1 c) as (p' & Hc & Hspec & _);
        try lia; try congruence.
      exists p'. split; [assumption|].
      eapply append_spec_grown; try eassumption; rewrite Hp1; reflexivity.
  - destruct (store_ok malloc p c) as (p' & Hc & Hspec & _); try lia; auto.
    exists p'. split; assumption.
Qed.

(** Appends in sequence. *)
Lemma append_spec_nil malloc p : acc_ok p -> append_spec malloc p [] p.
Proof.
  intros Hok. unfold append_spec, appended. change (len []) with 0.
  rewrite app_nil_r. split; [assumption|]. split; [lia|].
  intros Ho _. repeat split; try lia; auto.
Qed.

Lemma append_spec_app malloc p bs p1 cs p2 :
  append_spec malloc p bs p1 -> append_spec malloc p1 cs p2 ->
  append_spec malloc p (bs ++ cs) p2.
Proof.
  intros (Hok1 & Hle1 & Happ1) (Hok2 & Hle2 & Happ2). unfold append_spec.
  rewrite len_app. split; [assumption|]. split; [lia|]. intros Ho Hall.
  destruct (Happ1 Ho Hall) as (Hz1 & Hu1 & Ho1 & Hc1).
  destruct (Happ2 Ho1 Hall) as (Hz2 & Hu2 & Ho2 & Hc2).
  unfold appended. rewrite Hz2, Hz1, Hu2, Hu1, Hc2, Hc1, app_assoc, len_app.
  split; [reflexivity|]. split; [lia|]. split; [assumption|reflexivity].
Qed.

(** What [jsonAppendRaw] leaves, whatever the allocator answers. *)
Lemma jsonAppendRaw_cases (malloc : Z -> bool) (p : Json) (zIn : text) (N : Z) :
  acc_ok p -> oom p = false -> 0 <= N < 2 ^ 32 -> N <= len zIn ->
  nUsed p + N <= acc_limit ->
  exists p', jsonAppendRaw malloc p zIn N = Ok p' /\ acc_ok p' /\
    (appended p (take (Z.to_nat N) zIn) p' \/
     (p' = jsonOom p /\ exists m, malloc m = false)).
Proof.
  intros Hok Ho HN Hin Hlim.
  pose proof Hok as (Hlen & Hu & Ha & Hst).
  pose proof acc_limit_val as Hv.
  unfold jsonAppendRaw, grow_or_return. rewrite u64_small by lia.
  destruct (Z.leb_spec (nAlloc p) (N + nUsed p)) as [Hgrow|Hfit].
  - pose proof (jsonGrow_ok malloc p N Hok ltac:(lia) Hlim Hgrow) as Hg.
    destruct (jsonGrow malloc p N) as [rc p1]. cbv zeta in Hg; cbn [fst snd] in Hg.
    destruct Hg as [(Hrc & -> & Hm)|(-> & _ & Hp1 & Hf1 & Hf2 & Hcap)].
    + destruct (Z.eqb_spec rc SQLITE_OK); [contradiction|]. rewrite Ho.
      exists (jsonOom p). split; [reflexivity|]. split; [apply jsonOom_ok|].
      right. split; [reflexivity|]. apply Hm, Ho.
    + change (SQLITE_OK =? SQLITE_OK) with true. cbv iota.
      assert (Hu1 : nUsed p1 = nUsed p) by (rewrite Hp1; reflexivity).
      assert (Hz1 : zBuf p1 = zBuf p) by (rewrite Hp1; reflexivity).
      assert (Ho1 : oom p1 = false) by (rewrite Hp1; reflexivity).
      assert (Hc1 : pCtx p1 = pCtx p) by (rewrite Hp1; reflexivity).
      destruct (copy_in_ok all_memory p1 zIn N) as (p' & Hc & Hspec & _);
        try lia; try congruence.
      exists p'. split; [exact Hc|]. destruct Hspec as (Hok' & _ & Happ).
      split; [exact Hok'|]. left.
      destruct (Happ Ho1 ltac:(reflexivity)) as (Hb & Hn & Ho' & Hcx).
      unfold appended. repeat split; congruence.
  - destruct (copy_in_ok all_memory p zIn N) as (p' & Hc & Hspec & _);
      try lia; auto.
    exists p'. split; [exact Hc|]. destruct Hspec as (Hok' & _ & Happ).
    split; [exact Hok'|]. left. apply Happ; [exact Ho|reflexivity].
Qed.


End AccumOk.

(** * json_array *)

(** C5: with no argument the loop that emits the opening bracket as the
    first separator never runs, and [json_array()] is the one-character
    text of the closing bracket. *)
Theorem json_array_no_arguments (malloc : Z -> bool) (ctx : sqlite3_context) :
  jsonArrayFunc malloc ctx [] = Ok (ResultText (txt "]")).
Proof. reflexivity. Qed.

(** A text argument of 96 bytes with two quotes: the growth test inside
    the loop of [jsonAppendString] lets the closing quote go to
    [zSpace[100]], one past the inline buffer. *)
Lemma json_array_overrun :
  jsonArrayFunc all_memory NoResult [SqlText two_quotes_96] = Undefined.
Proof. vm_compute. reflexivity. Qed.

Lemma json_array_example :
  jsonArrayFunc all_memory NoResult
    [SqlText (txt "a" ++ [DQUOTE] ++ txt "b"); SqlNull; SqlInteger (txt "12")]
  = Ok (ResultText (txt "[" ++ [DQUOTE] ++ txt "a\" ++ [DQUOTE] ++ txt "b"
                      ++ [DQUOTE] ++ txt ",null,12]")).
Proof. vm_compute. reflexivity. Qed.

(** * The parser on particular texts *)

(** C4: on the empty text, and on a text of spaces only,
    [jsonParseValue] returns 0 at the terminator, [jsonParse] tests
    [i>0] and [i<0] only, and the parse is a success without a node. *)
Theorem parse_empty_succeeds (realloc : Z -> bool) (p0 : JsonParse) :
  jsonParse realloc p0 (Some (txt "")) = Ok (0, mkParse 0 0 [] (txt "") false) /\
  jsonParse realloc p0 (Some (txt "  ")) = Ok (0, mkParse 0 0 [] (txt "  ") false).
Proof. split; reflexivity. Qed.



Lemma literal_value realloc f pParse pre lit ty rest :
  In (lit, ty) literals ->
  zJson pParse = pre ++ txt lit ++ rest ->
  len (zJson pParse) < 2 ^ 31 ->
  jsonParseValue realloc (S f) pParse (len pre) =
    if isalnum (hd NUL rest) then Ok (-1, pParse)
    else (r <- jsonParseAddNode realloc pParse ty 0 None ;;
          Ok (len pre + len (txt lit), snd r)).
Proof.
  intros Hin Hz Hlen.
  assert (Hr : zAt (zJson pParse) (u32 (len pre + len (txt lit))) = hd NUL rest).
  { rewrite Hz in *. rewrite !len_app in Hlen.
    pose proof (len_nonneg pre). pose proof (len_nonneg rest). pose proof (len_nonneg (txt lit)).
    rewrite u32_small by lia. rewrite app_assoc, <- len_app. apply zAt_here. }
  assert (Hp : strncmp_eq (zJson pParse) (len pre) lit = has_prefix (txt lit ++ rest) (txt lit)).
  { unfold strncmp_eq. rewrite Hz, drop_len. reflexivity. }
  assert (Hc : zAt (zJson pParse) (len pre) = hd NUL (txt lit ++ rest)).
  { rewrite Hz. apply zAt_here. }
  assert (Hi : to_int (u32 (len pre + len (txt lit))) = len pre + len (txt lit)).
  { rewrite Hz, !len_app in Hlen.
    pose proof (len_nonneg pre). pose proof (len_nonneg rest). pose proof (len_nonneg (txt lit)).
    rewrite u32_small, to_int_small; lia. }
  cbn [jsonParseValue].
  simpl in Hin. destruct Hin as [[= <- <-]|[[= <- <-]|[[= <- <-]|[]]]];
    (rewrite skip_space_stop by (rewrite Hc; reflexivity));
    unfold literal_at; rewrite Hp, Hc.
  all: change (len (txt "null")) with 4 in *;
       change (len (txt "true")) with 4 in *;
       change (len (txt "false")) with 5 in *;
       cbn [String.length chr]; change (Z.of_nat 4) with 4; change (Z.of_nat 5) with 5;
       rewrite Hr, Hi; cbn [txt list_ascii_of_string app hd has_prefix];
       destruct (isalnum (hd NUL rest)); reflexivity.
Qed.

(** C7: where the text has one of the literals, [jsonParseValue] refuses
    it when an alphanumeric character follows, and otherwise takes it,
    adds its node and returns the index after it; the parse of
    "nullable" fails and the parse of "null" is a single Null node. *)
Theorem literal_boundary (realloc : Z -> bool) (p0 : JsonParse) :
  (forall f pParse pre lit ty rest,
      In (lit, ty) literals ->
      zJson pParse = pre ++ txt lit ++ rest ->
      len (zJson pParse) < 2 ^ 31 ->
      jsonParseValue realloc (S f) pParse (len pre) =
        if isalnum (hd NUL rest) then Ok (-1, pParse)
        else (r <- jsonParseAddNode realloc pParse ty 0 None ;;
              Ok (len pre + len (txt lit), snd r))) /\
  (exists p, jsonParse realloc p0 (Some (txt "nullable")) = Ok (1, p) /\ discarded p) /\
  (realloc 160 = true ->
   exists p, jsonParse realloc p0 (Some (txt "null")) = Ok (0, p) /\
             nNode p = 1 /\ aNode p = [mkNode JSON_NULL false 0 None]).
Proof.
  split; [|split].
  - intros. apply literal_value; assumption.
  - eexists. split; [reflexivity|]. repeat split.
  - intros H. eexists. split; [rewrite (jsonParse_ext _ _ (grants_first_ext realloc H)); vm_compute; reflexivity|]. split; reflexivity.
Qed.

Lemma literal_boundary_witness :
  In ("true"%string, JSON_TRUE) literals /\
  len (txt "[true1]") < 2 ^ 31 /\
  all_memory 160 = true /\
  jsonParseValue all_memory 1 (mkParse 0 0 [] (txt "[true1]") false) (len (txt "[")) =
    Ok (-1, mkParse 0 0 [] (txt "[true1]") false) /\
  exists p, jsonParse all_memory (mkParse 0 0 [] [] false) (Some (txt "null")) = Ok (0, p) /\
            nNode p = 1 /\ aNode p = [mkNode JSON_NULL false 0 None].
Proof.
  pose proof (literal_boundary all_memory (mkParse 0 0 [] [] false)) as (Hgen & _ & Hnull).
  assert (Hin : In ("true"%string, JSON_TRUE) literals) by (simpl; auto).
  assert (Hlen : len (txt "[true1]") < 2 ^ 31) by (vm_compute; reflexivity).
  split; [exact Hin|]. split; [exact Hlen|]. split; [reflexivity|].
  split.
  - exact (Hgen 0%nat (mkParse 0 0 [] (txt "[true1]") false) (txt "[") _ _ (txt "1]")
             Hin eq_refl Hlen).
  - apply Hnull. reflexivity.
Defined.

(** * The renderer on the trees of a parse *)

Lemma tree_ind (P : tree -> Prop) :
  (forall nd kids, Forall P kids -> P (Tree nd kids)) -> forall t, P t.
Proof.
  intros H. fix IH 1. intros [nd kids]. apply H.
  induction kids as [|k kids IHk]; constructor; [apply IH|exact IHk].
Qed.

Lemma flat_cons t ts : flat (t :: ts) = flatten t ++ flat ts.
Proof. reflexivity. Qed.

Lemma flat_app ts us : flat (ts ++ us) = flat ts ++ flat us.
Proof. unfold flat. rewrite map_app, concat_app. reflexivity. Qed.

Lemma flatten_eq nd kids : flatten (Tree nd kids) = nd :: flat kids.
Proof. reflexivity. Qed.

Lemma len_flatten_pos t : 1 <= len (flatten t).
Proof. destruct t. rewrite flatten_eq, len_cons. pose proof (len_nonneg (flat kids)). lia. Qed.

Lemma len_flat_kids nd kids ts :
  In (Tree nd kids) ts -> len (flat kids) < len (flat ts).
Proof.
  induction ts as [|t ts IH]; intros Hin; [contradiction|].
  rewrite flat_cons, len_app. destruct Hin as [->|Hin].
  - rewrite flatten_eq, len_cons. pose proof (len_nonneg (flat ts)). lia.
  - specialize (IH Hin). pose proof (len_flatten_pos t). lia.
Qed.

Lemma node_at_app (pre post : list JsonNode) nd :
  node_at (pre ++ nd :: post) (len pre) = Ok nd.
Proof.
  unfold node_at, len. destruct (Z.ltb_spec (Z.of_nat (length pre)) 0); [lia|].
  rewrite Nat2Z.id, list_lookup_middle by reflexivity. reflexivity.
Qed.

Lemma len_array_text_le first items :
  0 <= len (array_text first items).
Proof. apply len_nonneg. Qed.

Section RenderShaped.

Import Accum AccumOk.

Variable malloc : Z -> bool.
Variable escape : Json -> text -> Z -> result Json.
Variable nodes : list JsonNode.
Variable z : text.
Hypothesis nodes_small : len nodes < 2 ^ 31 - 1.

Lemma comma_if_ok j out :
  acc_ok out ->
  nUsed out + len (if negb (0 <? j) then [] else [chr ","]) <= acc_limit ->
  exists out', comma_if malloc j out = Ok out' /\
    append_spec malloc out (if negb (0 <? j) then [] else [chr ","]) out'.
Proof.
  intros Hok Hlim. unfold comma_if, appendChar. destruct (0 <? j); cbn [negb] in *.
  - apply jsonAppendChar_ok; assumption.
  - exists out. split; [reflexivity|]. apply append_spec_nil. assumption.
Qed.

Lemma render_array_ok rec : forall rest k done pre nd post out,
  Forall (renders_at malloc nodes z rec) rest ->
  nodes = pre ++ nd :: flat (done ++ rest) ++ post ->
  (length rest < k)%nat ->
  acc_ok out ->
  nUsed out + len (array_text (negb (0 <? len (flat done))) (map (text_of z) rest))
    <= acc_limit ->
  exists out',
    render_array malloc rec k (len pre) (len (flat (done ++ rest))) (len (flat done)) out
      = Ok (len (flat (done ++ rest)), out') /\
    append_spec malloc out
      (array_text (negb (0 <? len (flat done))) (map (text_of z) rest)) out'.
Proof.
  induction rest as [|t rest IH]; intros k done pre nd post out Hrec Hn Hk Hok Hlim.
  - destruct k as [|k]; [simpl in Hk; lia|]. cbn [render_array].
    rewrite app_nil_r. rewrite Z.ltb_irrefl.
    exists out. split; [reflexivity|]. apply append_spec_nil. assumption.
  - destruct k as [|k]; [simpl in Hk; lia|]. cbn [render_array].
    apply Forall_cons in Hrec as [Ht Hrest].
    pose proof (len_flatten_pos t) as Hpos.
    pose proof (len_nonneg (flat done)) as Hd.
    pose proof (len_nonneg (flat rest)) as Hr.
    assert (Hsz : len (flat (done ++ t :: rest)) =
                  len (flat done) + len (flatten t) + len (flat rest)).
    { rewrite flat_app, flat_cons, !len_app. lia. }
    assert (Hbig : len (flat (done ++ t :: rest)) < 2 ^ 31 - 1).
    { rewrite Hn in nodes_small. rewrite len_app, len_cons, len_app in nodes_small.
      pose proof (len_nonneg pre). pose proof (len_nonneg post). lia. }
    destruct (Z.ltb_spec (len (flat done)) (len (flat (done ++ t :: rest)))); [|lia].
    cbn [map array_text] in Hlim |- *.
    rewrite !len_app in Hlim.
    pose proof (len_nonneg (text_of z t)) as Htt.
    pose proof (len_nonneg (array_text false (map (text_of z) rest))) as Hat.
    assert (Hsep : len (if negb (0 <? len (flat done)) then [] else [chr ","]) <= 1).
    { destruct (negb _); vm_compute; discriminate. }
    pose proof (len_nonneg (if negb (0 <? len (flat done)) then [] else [chr ","])) as Hsep0.
    destruct (comma_if_ok (len (flat done)) out Hok) as (out1 & E1 & S1); [lia|].
    rewrite E1. cbn [bind].
    pose proof S1 as (Hok1 & Hle1 & _).
    assert (Hpre : len pre + len (flat done) + 1 = len (pre ++ nd :: flat done)).
    { rewrite len_app, len_cons. lia. }
    rewrite Hpre.
    destruct (Ht (pre ++ nd :: flat done) (flat rest ++ post) out1) as (out2 & E2 & S2).
    { rewrite Hn, flat_app, flat_cons. rewrite <- !app_assoc. reflexivity. }
    { assumption. }
    { lia. }
    rewrite E2. cbn [bind fst snd].
    pose proof S2 as (Hok2 & Hle2 & _).
    rewrite u32_small by lia.
    replace (len (flat done) + len (flatten t)) with (len (flat (done ++ [t])))
      by (rewrite flat_app, len_app; unfold flat; simpl; rewrite app_nil_r; reflexivity).
    replace (done ++ t :: rest) with ((done ++ [t]) ++ rest)
      by (rewrite <- app_assoc; reflexivity).
    assert (Hneg : negb (0 <? len (flat (done ++ [t]))) = false).
    { rewrite flat_app, len_app. unfold flat at 2. simpl. rewrite app_nil_r.
      destruct (Z.ltb_spec 0 (len (flat done) + len (flatten t))); [reflexivity|lia]. }
    destruct (IH k (done ++ [t]) pre nd post out2) as (out3 & E3 & S3).
    { assumption. }
    { rewrite <- app_assoc. exact Hn. }
    { simpl in Hk. lia. }
    { assumption. }
    { rewrite Hneg. lia. }
    rewrite Hneg in S3.
    exists out3. split; [exact E3|].
    eapply append_spec_app; [exact S1|].
    eapply append_spec_app; [exact S2|exact S3].
Qed.

Lemma flat_snoc done (t : tree) : flat (done ++ [t]) = flat done ++ flatten t.
Proof. rewrite flat_app. unfold flat at 2. simpl. rewrite app_nil_r. reflexivity. Qed.

Lemma render_object_ok rec : forall m rest k done pre nd post out,
  length rest = (2 * m)%nat ->
  Forall (renders_at malloc nodes z rec) rest ->
  nodes = pre ++ nd :: flat (done ++ rest) ++ post ->
  (m < k)%nat ->
  acc_ok out ->
  nUsed out + len (object_text (negb (0 <? len (flat done))) (map (text_of z) rest))
    <= acc_limit ->
  exists out',
    render_object malloc rec k (len pre) (len (flat (done ++ rest))) (len (flat done)) out
      = Ok (len (flat (done ++ rest)), out') /\
    append_spec malloc out
      (object_text (negb (0 <? len (flat done))) (map (text_of z) rest)) out'.
Proof.
  induction m as [|m IH]; intros rest k done pre nd post out Hlen Hrec Hn Hk Hok Hlim.
  - destruct rest; [|discriminate].
    destruct k as [|k]; [lia|]. cbn [render_object].
    rewrite app_nil_r. rewrite Z.ltb_irrefl.
    exists out. split; [reflexivity|]. apply append_spec_nil. assumption.
  - destruct rest as [|tk [|tv rest]]; try (simpl in Hlen; lia).
    destruct k as [|k]; [lia|]. cbn [render_object].
    apply Forall_cons in Hrec as [Htk Hrec1].
    apply Forall_cons in Hrec1 as [Htv Hrest].
    pose proof (len_flatten_pos tk) as Hposk.
    pose proof (len_flatten_pos tv) as Hposv.
    pose proof (len_nonneg (flat done)) as Hd.
    pose proof (len_nonneg (flat rest)) as Hr.
    assert (Hsz : len (flat (done ++ tk :: tv :: rest)) =
                  len (flat done) + len (flatten tk) + len (flatten tv) + len (flat rest)).
    { rewrite flat_app, !flat_cons, !len_app. lia. }
    assert (Hbig : len (flat (done ++ tk :: tv :: rest)) < 2 ^ 31 - 1).
    { rewrite Hn in nodes_small. rewrite len_app, len_cons, len_app in nodes_small.
      pose proof (len_nonneg pre). pose proof (len_nonneg post). lia. }
    destruct (Z.ltb_spec (len (flat done)) (len (flat (done ++ tk :: tv :: rest)))); [|lia].
    cbn [map object_text] in Hlim |- *.
    rewrite !len_app in Hlim. change (len [chr ":"]) with 1 in Hlim.
    pose proof (len_nonneg (text_of z tk)) as Htk0.
    pose proof (len_nonneg (text_of z tv)) as Htv0.
    pose proof (len_nonneg (object_text false (map (text_of z) rest))) as Hat.
    pose proof (len_nonneg (if negb (0 <? len (flat done)) then [] else [chr ","])) as Hsep0.
    destruct (comma_if_ok (len (flat done)) out Hok) as (out1 & E1 & S1); [lia|].
    rewrite E1. cbn [bind].
    pose proof S1 as (Hok1 & Hle1 & _).
    assert (Hpre : len pre + len (flat done) + 1 = len (pre ++ nd :: flat done)).
    { rewrite len_app, len_cons. lia. }
    rewrite Hpre.
    destruct (Htk (pre ++ nd :: flat done) (flatten tv ++ flat rest ++ post) out1)
      as (out2 & E2 & S2).
    { rewrite Hn, flat_app, !flat_cons. rewrite <- !app_assoc. reflexivity. }
    { assumption. }
    { lia. }
    rewrite E2. cbn [bind fst snd].
    pose proof S2 as (Hok2 & Hle2 & _).
    rewrite u32_small by lia.
    destruct (jsonAppendChar_ok malloc out2 (chr ":") Hok2) as (out3 & E3 & S3); [lia|].
    unfold appendChar. rewrite E3. cbn [bind].
    pose proof S3 as (Hok3 & Hle3 & _). change (len [chr ":"]) with 1 in Hle3.
    assert (Hpre2 : len pre + (len (flat done) + len (flatten tk)) + 1
                    = len (pre ++ nd :: flat done ++ flatten tk)).
    { rewrite len_app, len_cons, len_app. lia. }
    rewrite Hpre2.
    destruct (Htv (pre ++ nd :: flat done ++ flatten tk) (flat rest ++ post) out3)
      as (out4 & E4 & S4).
    { rewrite Hn, flat_app, !flat_cons. rewrite <- !app_assoc. cbn [app].
      rewrite <- !app_assoc. reflexivity. }
    { assumption. }
    { lia. }
    rewrite E4. cbn [bind fst snd].
    pose proof S4 as (Hok4 & Hle4 & _).
    rewrite u32_small by lia.
    replace (len (flat done) + len (flatten tk) + len (flatten tv))
      with (len (flat (done ++ [tk; tv])))
      by (rewrite flat_app, len_app; unfold flat; simpl;
          rewrite app_nil_r, len_app; lia).
    replace (done ++ tk :: tv :: rest) with ((done ++ [tk; tv]) ++ rest)
      by (rewrite <- app_assoc; reflexivity).
    assert (Hneg : negb (0 <? len (flat (done ++ [tk; tv]))) = false).
    { rewrite flat_app, len_app. unfold flat at 2. simpl. rewrite app_nil_r, len_app.
      destruct (Z.ltb_spec 0 (len (flat done) + (len (flatten tk) + len (flatten tv))));
        [reflexivity|lia]. }
    destruct (IH rest k (done ++ [tk; tv]) pre nd post out4) as (out5 & E5 & S5).
    { simpl in Hlen. lia. }
    { assumption. }
    { rewrite <- app_assoc. exact Hn. }
    { lia. }
    { assumption. }
    { rewrite Hneg. lia. }
    rewrite Hneg in S5.
    exists out5. split; [exact E5|].
    eapply append_spec_app; [exact S1|].
    eapply append_spec_app; [exact S2|].
    eapply append_spec_app; [exact S3|].
    eapply append_spec_app; [exact S4|exact S5].
Qed.

Hypothesis z_small : len z < 2 ^ 31.

Lemma length_kids_le (kids : list tree) : (length kids <= length (flat kids))%nat.
Proof.
  induction kids as [|t kids IH]; [simpl; lia|].
  rewrite flat_cons, length_app. pose proof (len_flatten_pos t). unfold len in *.
  simpl length at 1. lia.
Qed.

Lemma render_scalar out zIn N bs :
  acc_ok out -> 0 <= N < 2 ^ 32 -> N <= len zIn ->
  take (Z.to_nat N) zIn = bs ->
  nUsed out + len bs <= acc_limit ->
  exists out',
    (o <- appendRaw malloc out zIn N ;; Ok (0, o)) = Ok (0, out') /\
    append_spec malloc out bs out'.
Proof.
  intros Hok HN Hin <- Hlim.
  assert (len (take (Z.to_nat N) zIn) = N).
  { unfold len in *. rewrite length_take. lia. }
  destruct (jsonAppendRaw_ok malloc out zIn N) as (out' & E & S); try assumption; try lia.
  unfold appendRaw. rewrite E. exists out'. split; [reflexivity|assumption].
Qed.

Lemma render_shaped : forall t,
  shaped z t -> forall fuel, (length (flatten t) < fuel)%nat ->
  renders_at malloc nodes z (jsonRenderNode_fuel malloc escape nodes z fuel) t.
Proof.
  induction t as [nd kids IH] using tree_ind.
  intros Hs fuel Hfuel pre post out Hn Hok Hlim.
  destruct fuel as [|f]; [lia|]. cbn [jsonRenderNode_fuel].
  rewrite flatten_eq in Hn. cbn [app] in Hn.
  assert (Hnode : node_at nodes (len pre) = Ok nd) by (rewrite Hn; apply node_at_app).
  rewrite Hnode. cbn [bind].
  unfold renders. rewrite flatten_eq, len_cons.
  assert (Hone : to_int (u32 (0 + 1)) = 1) by (vm_compute; reflexivity).
  revert Hn.
  inversion Hs as [? Hlit Hraw|? off Hsp Hraw Hc Hoff Hn0 Hfit
                  |? ? Hty Hraw Hsz Hkids|? ? Hty Hraw Hsz Hev Hkids]; subst; intros Hn.
  - (* a literal *)
    change (len (flat [])) with 0. cbn [text_of] in Hlim |- *.
    destruct (eType nd); try discriminate.
    + destruct (render_scalar out (txt "null") 4 (txt "null")) as (o & E & S);
        [assumption|lia|vm_compute; congruence|reflexivity|assumption|].
      rewrite E. cbn [bind fst snd]. rewrite Hone.
      exists o. split; [reflexivity|exact S].
    + destruct (render_scalar out (txt "true") 4 (txt "true")) as (o & E & S);
        [assumption|lia|vm_compute; congruence|reflexivity|assumption|].
      rewrite E. cbn [bind fst snd]. rewrite Hone.
      exists o. split; [reflexivity|exact S].
    + destruct (render_scalar out (txt "false") 5 (txt "false")) as (o & E & S);
        [assumption|lia|vm_compute; congruence|reflexivity|assumption|].
      rewrite E. cbn [bind fst snd]. rewrite Hone.
      exists o. split; [reflexivity|exact S].
  - (* a number or a string *)
    change (len (flat [])) with 0.
    assert (Ht : text_of z (Tree nd []) = span z nd).
    { cbn [text_of]. destruct (eType nd); try discriminate; reflexivity. }
    rewrite Ht in Hlim |- *.
    assert (Hin : n nd <= len (at_ptr z (zJContent nd))).
    { rewrite Hc. cbn [at_ptr]. unfold len in *. rewrite length_drop. lia. }
    destruct (render_scalar out (at_ptr z (zJContent nd)) (n nd) (span z nd))
      as (o & E & S); [assumption|lia|assumption|reflexivity|assumption|].
    rewrite Hraw.
    destruct (eType nd); try discriminate; rewrite E; cbn [bind fst snd];
      rewrite Hone; exists o; (split; [reflexivity|exact S]).
  - (* an array *)
    rewrite Hty. cbn [text_of] in Hlim |- *. rewrite Hty in Hlim |- *.
    rewrite !len_app in Hlim. change (len [chr "["]) with 1 in Hlim.
    change (len [chr "]"]) with 1 in Hlim.
    pose proof (len_nonneg (array_text true (map (text_of z) kids))) as Hat.
    destruct (jsonAppendChar_ok malloc out (chr "[") Hok) as (o1 & E1 & S1); [lia|].
    unfold appendChar. rewrite E1. cbn [bind].
    pose proof S1 as (Hok1 & Hle1 & _). change (len [chr "["]) with 1 in Hle1.
    assert (Hfl : (length (flat kids) < f)%nat).
    { rewrite flatten_eq in Hfuel. simpl in Hfuel. lia. }
    destruct (render_array_ok (jsonRenderNode_fuel malloc escape nodes z f)
                kids f [] pre nd post o1) as (o2 & E2 & S2).
    { rewrite Forall_forall in IH, Hkids. apply Forall_forall. intros t Hin.
      apply IH; [assumption|apply Hkids; assumption|].
      destruct t as [nd' kids']. rewrite flatten_eq. simpl length.
      pose proof (len_flat_kids nd' kids' kids (proj1 (list_elem_of_In _ _) Hin)). unfold len in *. lia. }
    { exact Hn. }
    { pose proof (length_kids_le kids). lia. }
    { assumption. }
    { change (len (flat [])) with 0. cbn. lia. }
    change (len (flat [])) with 0 in E2, S2. cbn [app negb Z.ltb Z.compare] in E2, S2.
    rewrite Hsz, E2. cbn [bind fst snd].
    pose proof S2 as (Hok2 & Hle2 & _).
    destruct (jsonAppendChar_ok malloc o2 (chr "]") Hok2) as (o3 & E3 & S3); [lia|].
    rewrite E3. cbn [bind fst snd].
    assert (Hsmall : len (flat kids) < 2 ^ 31 - 1).
    { rewrite Hn in nodes_small. rewrite len_app, len_cons, len_app in nodes_small.
      pose proof (len_nonneg pre). pose proof (len_nonneg post). lia. }
    pose proof (len_nonneg (flat kids)).
    rewrite u32_small, to_int_small by lia.
    exists o3. split; [f_equal; f_equal; lia|].
    eapply append_spec_app; [exact S1|].
    eapply append_spec_app; [exact S2|exact S3].
  - (* an object *)
    rewrite Hty. cbn [text_of] in Hlim |- *. rewrite Hty in Hlim |- *.
    rewrite !len_app in Hlim. change (len [chr "{"]) with 1 in Hlim.
    change (len [chr "}"]) with 1 in Hlim.
    pose proof (len_nonneg (object_text true (map (text_of z) kids))) as Hat.
    destruct (jsonAppendChar_ok malloc out (chr "{") Hok) as (o1 & E1 & S1); [lia|].
    unfold appendChar. rewrite E1. cbn [bind].
    pose proof S1 as (Hok1 & Hle1 & _). change (len [chr "{"]) with 1 in Hle1.
    assert (Hfl : (length (flat kids) < f)%nat).
    { rewrite flatten_eq in Hfuel. simpl in Hfuel. lia. }
    destruct Hev as [m Hm].
    destruct (render_object_ok (jsonRenderNode_fuel malloc escape nodes z f)
                m kids f [] pre nd post o1) as (o2 & E2 & S2).
    { assumption. }
    { rewrite Forall_forall in IH, Hkids. apply Forall_forall. intros t Hin.
      apply IH; [assumption|apply Hkids; assumption|].
      destruct t as [nd' kids']. rewrite flatten_eq. simpl length.
      pose proof (len_flat_kids nd' kids' kids (proj1 (list_elem_of_In _ _) Hin)). unfold len in *. lia. }
    { exact Hn. }
    { pose proof (length_kids_le kids). lia. }
    { assumption. }
    { change (len (flat [])) with 0. cbn. lia. }
    change (len (flat [])) with 0 in E2, S2. cbn [app negb Z.ltb Z.compare] in E2, S2.
    rewrite Hsz, E2. cbn [bind fst snd].
    pose proof S2 as (Hok2 & Hle2 & _).
    destruct (jsonAppendChar_ok malloc o2 (chr "}") Hok2) as (o3 & E3 & S3); [lia|].
    rewrite E3. cbn [bind fst snd].
    assert (Hsmall : len (flat kids) < 2 ^ 31 - 1).
    { rewrite Hn in nodes_small. rewrite len_app, len_cons, len_app in nodes_small.
      pose proof (len_nonneg pre). pose proof (len_nonneg post). lia. }
    pose proof (len_nonneg (flat kids)).
    rewrite u32_small, to_int_small by lia.
    exists o3. split; [f_equal; f_equal; lia|].
    eapply append_spec_app; [exact S1|].
    eapply append_spec_app; [exact S2|exact S3].
Qed.

End RenderShaped.

(** * Invariants of the parser *)

Section Preservation.

Variable realloc : Z -> bool.
Variable I : JsonParse -> Prop.

Hypothesis I_add : forall p ty m c r,
  I p -> jsonParseAddNode realloc p ty m c = Ok r -> I (snd r).
Hypothesis I_set : forall p i v p', I p -> set_n p i v = Ok p' -> I p'.

Lemma close_container_preserves p iThis j x p' :
  I p -> close_container p iThis j = Ok (x, p') -> I p'.
Proof.
  unfold close_container. intros HI.
  destruct (set_n p iThis _) as [q| |] eqn:E; cbn [bind]; try discriminate.
  intros [= <- <-]. eapply I_set; eassumption.
Qed.

Lemma parse_array_preserves rec :
  preserves I rec -> forall k iThis, preserves I (fun p j => parse_array rec k p iThis j).
Proof.
  intros Hrec. induction k as [|k IH]; intros iThis p j x p' HI; [discriminate|].
  cbn [parse_array].
  destruct (rec p _) as [[y q]| |] eqn:E; cbn [bind fst snd]; try discriminate.
  assert (HIq : I q) by (eapply Hrec; eassumption).
  destruct (y <? 0).
  { destruct (_ && _); intros [= <- <-]; assumption. }
  destruct (is_chr _ ","); [apply IH; assumption|].
  destruct (negb _); [intros [= <- <-]; assumption|].
  apply close_container_preserves. assumption.
Qed.

Lemma parse_object_preserves rec :
  preserves I rec -> forall k iThis, preserves I (fun p j => parse_object rec k p iThis j).
Proof.
  intros Hrec. induction k as [|k IH]; intros iThis p j x p' HI; [discriminate|].
  cbn [parse_object].
  destruct (rec p _) as [[y q]| |] eqn:E; cbn [bind fst snd]; try discriminate.
  assert (HIq : I q) by (eapply Hrec; eassumption).
  destruct (y <? 0).
  { destruct (_ && _); intros [= <- <-]; assumption. }
  destruct (node_at _ _) as [last| |]; cbn [bind]; try discriminate.
  destruct (negb (JsonType_eqb _ _)); [intros [= <- <-]; assumption|].
  destruct (negb (is_chr _ _)); [intros [= <- <-]; assumption|].
  destruct (rec q _) as [[y2 q2]| |] eqn:E2; cbn [bind fst snd]; try discriminate.
  assert (HIq2 : I q2) by (eapply Hrec; eassumption).
  destruct (y2 <? 0); [intros [= <- <-]; assumption|].
  destruct (is_chr _ ","); [apply IH; assumption|].
  destruct (negb _); [intros [= <- <-]; assumption|].
  apply close_container_preserves. assumption.
Qed.

Lemma jsonParseValue_preserves fuel : preserves I (jsonParseValue realloc fuel).
Proof.
  induction fuel as [|f IH]; intros p i x p' HI; [discriminate|].
  cbn [jsonParseValue].
  assert (Hadd : forall ty m c k,
    (r <- jsonParseAddNode realloc p ty m c ;; Ok (k, snd r)) = Ok (x, p') -> I p').
  { intros ty m c k. destruct (jsonParseAddNode _ _ _ _ _) as [r| |] eqn:Ea;
      cbn [bind]; try discriminate.
    intros [= <- <-]. apply (I_add _ _ _ _ _ HI Ea). }
  destruct (Ascii.eqb _ NUL); [intros [= <- <-]; assumption|].
  destruct (is_chr _ "{").
  { destruct (jsonParseAddNode _ _ _ _ _) as [r| |] eqn:Ea; cbn [bind];
      try discriminate.
    pose proof (I_add _ _ _ _ _ HI Ea) as HIq.
    destruct (_ <? 0); [intros [= <- <-]; assumption|].
    apply (parse_object_preserves _ IH). assumption. }
  destruct (is_chr _ "[").
  { destruct (jsonParseAddNode _ _ _ _ _) as [r| |] eqn:Ea; cbn [bind];
      try discriminate.
    pose proof (I_add _ _ _ _ _ HI Ea) as HIq.
    destruct (_ <? 0); [intros [= <- <-]; assumption|].
    apply (parse_array_preserves _ IH). assumption. }
  destruct (Ascii.eqb _ DQUOTE).
  { destruct (scan_string _ _ _) as [[j|]| |]; cbn [bind]; try discriminate.
    - apply Hadd.
    - intros [= <- <-]. assumption. }
  destruct (literal_at _ _ _ "null"); [apply Hadd|].
  destruct (literal_at _ _ _ "true"); [apply Hadd|].
  destruct (literal_at _ _ _ "false"); [apply Hadd|].
  destruct (_ || _).
  { destruct (scan_number _ _ _ _ _) as [[[j dp]|]| |]; cbn [bind]; try discriminate.
    - destruct (_ <? 48); [intros [= <- <-]; assumption|apply Hadd].
    - intros [= <- <-]. assumption. }
  destruct (is_chr _ "}"); [intros [= <- <-]; assumption|].
  destruct (is_chr _ "]"); intros [= <- <-]; assumption.
Qed.

End Preservation.

(** The text is never changed, and the flag is never cleared. *)
Lemma jsonParseValue_zJson realloc fuel p i x p' :
  jsonParseValue realloc fuel p i = Ok (x, p') -> zJson p' = zJson p.
Proof.
  intros H.
  apply (jsonParseValue_preserves realloc (fun q => zJson q = zJson p)) in H; auto.
  - intros q ty m c r Hq. unfold jsonParseAddNode, push_node, set_oom, freed_array.
    repeat match goal with |- context [if ?b then _ else _] => destruct b end;
      intros [= <-]; exact Hq.
  - intros q j v q' Hq. unfold set_n.
    destruct (node_at _ _); cbn [bind]; try discriminate. intros [= <-]. exact Hq.
Qed.

Lemma jsonParseAddNode_oom realloc p ty m c r :
  oom p = true -> jsonParseAddNode realloc p ty m c = Ok r -> oom (snd r) = true.
Proof.
  intros Hq. unfold jsonParseAddNode, push_node, set_oom, freed_array. rewrite Hq.
  repeat match goal with |- context [if ?b then _ else _] => destruct b end;
    intros [= <-]; cbn; congruence.
Qed.

Lemma set_n_oom p i v p' : set_n p i v = Ok p' -> oom p' = oom p.
Proof.
  unfold set_n. destruct (node_at _ _); cbn [bind]; try discriminate.
  intros [= <-]. reflexivity.
Qed.

Lemma jsonParseValue_oom realloc fuel p i x p' :
  jsonParseValue realloc fuel p i = Ok (x, p') -> oom p' = false -> oom p = false.
Proof.
  intros H Hf. destruct (oom p) eqn:Ho; [|reflexivity].
  apply (jsonParseValue_preserves realloc (fun q => oom q = true)) in H; auto.
  - congruence.
  - intros q ty m c r. apply jsonParseAddNode_oom.
  - intros q j v q' Hq Hs. apply set_n_oom in Hs. congruence.
Qed.

(** * The parser makes no raw node *)

Lemma none_raw_add realloc p ty m c r :
  none_raw (aNode p) -> jsonParseAddNode realloc p ty m c = Ok r ->
  none_raw (aNode (snd r)).
Proof.
  intros H. unfold jsonParseAddNode, push_node, set_oom, freed_array.
  repeat match goal with |- context [if ?b then _ else _] => destruct b end;
    intros [= <-]; cbn; try exact H; try (constructor; fail);
    apply Forall_app; (split; [exact H|repeat constructor]).
Qed.

Lemma node_at_lookup nodes i nd :
  node_at nodes i = Ok nd -> 0 <= i /\ nodes !! Z.to_nat i = Some nd.
Proof.
  unfold node_at. destruct (Z.ltb_spec i 0); [discriminate|].
  destruct (nodes !! Z.to_nat i) eqn:E; [|discriminate].
  intros [= <-]. split; [assumption|reflexivity].
Qed.

Lemma none_raw_set p i v p' :
  none_raw (aNode p) -> set_n p i v = Ok p' -> none_raw (aNode p').
Proof.
  intros H. unfold set_n.
  destruct (node_at (aNode p) i) as [nd| |] eqn:E; cbn [bind]; try discriminate.
  intros [= <-]. cbn. apply node_at_lookup in E as [_ E].
  unfold none_raw in *. rewrite Forall_lookup in H |- *.
  intros k x Hk. destruct (decide (k = Z.to_nat i)) as [->|Hne].
  - rewrite list_lookup_insert_eq in Hk by (eapply lookup_lt_Some; eassumption).
    injection Hk as <-. cbn. eapply H. eassumption.
  - rewrite list_lookup_insert_ne in Hk by congruence. eapply H. eassumption.
Qed.

Lemma jsonParseValue_none_raw realloc fuel p i x p' :
  none_raw (aNode p) -> jsonParseValue realloc fuel p i = Ok (x, p') ->
  none_raw (aNode p').
Proof.
  apply (jsonParseValue_preserves realloc (fun q => none_raw (aNode q))).
  - intros. eapply none_raw_add; eassumption.
  - intros. eapply none_raw_set; eassumption.
Qed.

Section RenderExt.

Variable malloc : Z -> bool.
Variables e1 e2 : Accum.Json -> text -> Z -> result Accum.Json.
Variable nodes : list JsonNode.
Variable z : text.

Lemma render_array_ext rec1 rec2 :
  (forall i o, rec1 i o = rec2 i o) ->
  forall k base size j out,
    render_array malloc rec1 k base size j out
    = render_array malloc rec2 k base size j out.
Proof.
  intros Hrec. induction k as [|k IH]; intros; [reflexivity|].
  cbn [render_array]. destruct (j <? size); [|reflexivity].
  destruct (comma_if malloc j out) as [o| |]; cbn [bind]; try reflexivity.
  rewrite Hrec. destruct (rec2 _ o) as [[c o2]| |]; cbn [bind fst snd]; try reflexivity.
  apply IH.
Qed.

Lemma render_object_ext rec1 rec2 :
  (forall i o, rec1 i o = rec2 i o) ->
  forall k base size j out,
    render_object malloc rec1 k base size j out
    = render_object malloc rec2 k base size j out.
Proof.
  intros Hrec. induction k as [|k IH]; intros; [reflexivity|].
  cbn [render_object]. destruct (j <? size); [|reflexivity].
  destruct (comma_if malloc j out) as [o| |]; cbn [bind]; try reflexivity.
  rewrite Hrec. destruct (rec2 _ o) as [[c o2]| |]; cbn [bind fst snd]; try reflexivity.
  destruct (appendChar malloc o2 _) as [o3| |]; cbn [bind]; try reflexivity.
  rewrite Hrec. destruct (rec2 _ o3) as [[c4 o4]| |]; cbn [bind fst snd]; try reflexivity.
  apply IH.
Qed.

Hypothesis nodes_not_raw : none_raw nodes.

Lemma render_no_escape fuel : forall idx out,
  jsonRenderNode_fuel malloc e1 nodes z fuel idx out
  = jsonRenderNode_fuel malloc e2 nodes z fuel idx out.
Proof.
  induction fuel as [|f IH]; intros idx out; [reflexivity|].
  cbn [jsonRenderNode_fuel].
  destruct (node_at nodes idx) as [nd| |] eqn:E; cbn [bind]; try reflexivity.
  apply node_at_lookup in E as [_ E].
  assert (Hraw : bRaw nd = false).
  { unfold none_raw in nodes_not_raw. rewrite Forall_lookup in nodes_not_raw.
    eapply nodes_not_raw. eassumption. }
  rewrite Hraw.
  destruct (eType nd); try reflexivity.
  - destruct (appendChar malloc out _) as [o| |]; cbn [bind]; try reflexivity.
    rewrite (render_array_ext _ _ IH). reflexivity.
  - destruct (appendChar malloc out _) as [o| |]; cbn [bind]; try reflexivity.
    rewrite (render_object_ext _ _ IH). reflexivity.
Qed.

End RenderExt.

(** * Where the scanning loops stop *)

Lemma zAt_inside z j : zAt z j <> NUL -> 0 <= j < len z.
Proof.
  intros H. destruct (Z.lt_ge_cases j 0) as [Hneg|Hpos].
  - exfalso. apply H. unfold zAt. destruct (Z.ltb_spec j 0); [reflexivity|lia].
  - destruct (Z.lt_ge_cases j (len z)); [lia|]. exfalso. apply H, zAt_end. assumption.
Qed.

Lemma eqb_false_inside z j :
  Ascii.eqb (zAt z j) NUL = false -> 0 <= j < len z.
Proof. intros H. apply zAt_inside. intros E. rewrite E in H. discriminate. Qed.

Lemma is_chr_inside z j s :
  is_chr (zAt z j) s = true -> chr s <> NUL -> 0 <= j < len z.
Proof.
  unfold is_chr. intros H Hs. apply zAt_inside.
  apply Ascii.eqb_eq in H. congruence.
Qed.

Lemma isspace_inside z j : isspace (zAt z j) = true -> 0 <= j < len z.
Proof. intros H. apply zAt_inside. intros E. rewrite E in H. discriminate. Qed.

Lemma skip_space_fuel_bounds z : forall k j,
  len z < 2 ^ 32 - 1 -> 0 <= j <= len z ->
  j <= skip_space_fuel z k j <= len z.
Proof.
  induction k as [|k IH]; intros j Hz Hj; cbn [skip_space_fuel]; [lia|].
  destruct (isspace (zAt z j)) eqn:E; [|lia].
  apply isspace_inside in E. rewrite u32_small by lia.
  specialize (IH (j + 1) Hz ltac:(lia)). lia.
Qed.

Lemma skip_space_bounds z j :
  len z < 2 ^ 32 - 1 -> 0 <= j <= len z -> j <= skip_space z j <= len z.
Proof. apply skip_space_fuel_bounds. Qed.

Lemma scan_string_bounds z : forall k j0 j,
  len z < 2 ^ 32 - 2 -> 0 <= j0 ->
  scan_string z k j0 = Ok (Some j) -> j0 <= j < len z.
Proof.
  induction k as [|k IH]; intros j0 j Hz Hj; cbn [scan_string]; [discriminate|].
  destruct (Ascii.eqb (zAt z j0) NUL) eqn:E0; [discriminate|].
  apply eqb_false_inside in E0.
  destruct (Ascii.eqb (zAt z j0) BSLASH).
  - rewrite (u32_small (j0 + 1)) by lia.
    destruct (Ascii.eqb (zAt z (j0 + 1)) NUL) eqn:E1; [discriminate|].
    apply eqb_false_inside in E1.
    rewrite u32_small by lia. intros H. apply IH in H; lia.
  - destruct (Ascii.eqb (zAt z j0) DQUOTE); [intros [= <-]; lia|].
    rewrite u32_small by lia. intros H. apply IH in H; lia.
Qed.

Lemma is_digit_char_inside z j : is_digit_char (zAt z j) = true -> 0 <= j < len z.
Proof. intros H. apply zAt_inside. intros E. rewrite E in H. discriminate. Qed.

Lemma scan_number_bounds z : forall k j0 dp e j dp',
  len z < 2 ^ 32 - 2 -> 0 <= j0 <= len z ->
  scan_number z k j0 dp e = Ok (Some (j, dp')) -> j0 <= j <= len z.
Proof.
  induction k as [|k IH]; intros j0 dp e j dp' Hz Hj; cbn [scan_number]; [discriminate|].
  destruct (is_digit_char (zAt z j0)) eqn:Ed.
  { apply is_digit_char_inside in Ed. rewrite u32_small by lia.
    intros H. apply IH in H; lia. }
  destruct (is_chr (zAt z j0) ".") eqn:Edot.
  { apply is_chr_inside in Edot; [|discriminate].
    destruct (is_chr _ "-"); [discriminate|]. destruct dp; [discriminate|].
    rewrite u32_small by lia. intros H. apply IH in H; lia. }
  destruct (is_chr (zAt z j0) "e" || is_chr (zAt z j0) "E") eqn:Ee.
  { assert (Hin0 : 0 <= j0 < len z).
    { apply orb_true_iff in Ee as [Ee|Ee]; apply is_chr_inside in Ee; auto; discriminate. }
    destruct (_ <? 48); [discriminate|]. destruct e; [discriminate|].
    rewrite (u32_small (j0 + 1)) by lia.
    destruct (is_chr (zAt z (j0 + 1)) "+" || is_chr (zAt z (j0 + 1)) "-") eqn:Es.
    - assert (Hin1 : 0 <= j0 + 1 < len z).
      { apply orb_true_iff in Es as [Es|Es]; apply is_chr_inside in Es; auto; discriminate. }
      rewrite u32_small by lia. intros H. apply IH in H; lia.
    - rewrite u32_small by lia. intros H. apply IH in H; lia. }
  intros [= <- <-]. lia.
Qed.

Lemma has_prefix_length : forall lit s,
  has_prefix s lit = true -> (length lit <= length s)%nat.
Proof.
  induction lit as [|c lit IH]; intros s H; [simpl; lia|].
  destruct s as [|d s]; [discriminate|]. cbn [has_prefix] in H.
  apply andb_true_iff in H as [_ H]. apply IH in H. simpl. lia.
Qed.

Lemma literal_at_inside z i c lit :
  literal_at z i c lit = true -> 0 <= i -> 0 < len (txt lit) ->
  i + len (txt lit) <= len z.
Proof.
  unfold literal_at, strncmp_eq. intros H Hi Hpos.
  apply andb_true_iff in H as [H _]. apply andb_true_iff in H as [_ H].
  apply has_prefix_length in H. rewrite length_drop in H. unfold len in *. lia.
Qed.

(** * Adding a node when memory is granted *)

Lemma jsonParseAddNode_ok realloc p ty m c r :
  jsonParseAddNode realloc p ty m c = Ok r -> oom (snd r) = false ->
  nNode p = len (aNode p) -> len (aNode p) < 2 ^ 31 - 1 ->
  fst r = nNode p /\
  aNode (snd r) = aNode p ++ [mkNode ty false m c] /\
  nNode (snd r) = nNode p + 1 /\
  zJson (snd r) = zJson p.
Proof.
  intros E Ho Hn Hsmall. pose proof (len_nonneg (aNode p)).
  assert (Hpush : forall a,
    fst (push_node p a (mkNode ty false m c)) = nNode p /\
    aNode (snd (push_node p a (mkNode ty false m c))) = aNode p ++ [mkNode ty false m c] /\
    nNode (snd (push_node p a (mkNode ty false m c))) = nNode p + 1 /\
    zJson (snd (push_node p a (mkNode ty false m c))) = zJson p).
  { intros a. unfold push_node. cbn. rewrite to_int_small, u32_small by lia. auto. }
  unfold jsonParseAddNode in E.
  repeat match type of E with
  | (if ?b then _ else _) = _ => destruct b eqn:?
  end; try discriminate; injection E as <-;
    first [apply Hpush | cbn in Ho; congruence].
Qed.

(** * What a return of [jsonParse] says of the top call *)

Lemma jsonParse_zero realloc p0 z p :
  jsonParse realloc p0 (Some z) = Ok (0, p) ->
  exists i, jsonParseValue realloc (parse_fuel z) (mkParse 0 0 [] z false) 0 = Ok (i, p)
            /\ 0 <= i.
Proof.
  unfold jsonParse. intros H.
  destruct (jsonParseValue realloc (parse_fuel z) (mkParse 0 0 [] z false) 0)
    as [[i q]| |] eqn:E; cbn [bind fst snd] in H; try discriminate.
  match type of H with (if ?b <? 0 then _ else _) = _ => set (i' := b) in * end.
  destruct (Z.ltb_spec i' 0).
  - destruct (free_nodes q); cbn [bind] in H; discriminate.
  - injection H as <-. exists i. split; [reflexivity|].
    unfold i' in *. destruct (Z.ltb_spec 0 i); lia.
Qed.

Lemma jsonParse_failed realloc p0 z rc p :
  jsonParse realloc p0 (Some z) = Ok (rc, p) -> rc <> 0 ->
  exists i q, jsonParseValue realloc (parse_fuel z) (mkParse 0 0 [] z false) 0 = Ok (i, q)
              /\ rc = 1 /\ p = mkParse 0 0 [] (zJson q) (oom q).
Proof.
  unfold jsonParse. intros H Hrc.
  destruct (jsonParseValue realloc (parse_fuel z) (mkParse 0 0 [] z false) 0)
    as [[i q]| |] eqn:E; cbn [bind fst snd] in H; try discriminate.
  match type of H with (if ?b <? 0 then _ else _) = _ => destruct (b <? 0) end.
  - destruct (free_nodes q); cbn [bind] in H; try discriminate.
    injection H as <- <-. exists i, q. auto.
  - injection H as <- <-. contradiction.
Qed.

(** An array that holds its [nNode] slots was not freed. *)
Lemma live_not_dangling p : nNode p = len (aNode p) -> dangling p = false.
Proof.
  intros Hn. unfold dangling. destruct (aNode p); [|reflexivity].
  rewrite Hn. reflexivity.
Qed.

Lemma free_nodes_live p : nNode p = len (aNode p) -> free_nodes p = Ok tt.
Proof. intros Hn. unfold free_nodes. rewrite (live_not_dangling p Hn). reflexivity. Qed.

(** * Sizes of texts and of trees *)

Lemma pairs_ind {A : Type} (P : list A -> Prop) :
  P [] ->
  (forall a b l, Nat.Even (length l) -> P l -> P (a :: b :: l)) ->
  forall l, Nat.Even (length l) -> P l.
Proof.
  intros Hnil Hstep l [m Hm]. revert l Hm.
  induction m as [|m IH]; intros l Hm.
  - destruct l; [exact Hnil|simpl in Hm; lia].
  - destruct l as [|a [|b l]]; try (simpl in Hm; lia).
    apply Hstep; [exists m; simpl in Hm; lia|]. apply IH. simpl in Hm. lia.
Qed.

Lemma len_array_text_snoc (l : list text) a : forall first,
  len (array_text first (l ++ [a])) =
  len (array_text first l)
  + (match l with [] => if first then 0 else 1 | _ => 1 end) + len a.
Proof.
  induction l as [|b l IH]; intros first.
  - cbn [app array_text]. destruct first; len_norm; lia.
  - cbn [app array_text]. len_norm. rewrite (IH false). len_norm.
    destruct l; lia.
Qed.

Lemma len_object_text_snoc (l : list text) k v :
  Nat.Even (length l) -> forall first,
  len (object_text first (l ++ [k; v])) =
  len (object_text first l)
  + (match l with [] => if first then 0 else 1 | _ => 1 end) + len k + 1 + len v.
Proof.
  intros He. pattern l. apply pairs_ind; [| |exact He]; clear l He.
  - intros first. cbn [app object_text]. destruct first; len_norm; lia.
  - intros a b l He' IH first. cbn [app object_text]. len_norm. rewrite (IH false).
    len_norm. destruct l; lia.
Qed.

Lemma len_flat_snoc ts (t : tree) : len (flat (ts ++ [t])) = len (flat ts) + len (flatten t).
Proof.
  rewrite flat_app, len_app. unfold flat at 2. simpl. rewrite app_nil_r. reflexivity.
Qed.

Lemma len_flat_le_array z kids :
  Forall (fun t => len (flatten t) <= len (text_of z t)) kids ->
  forall first, len (flat kids) <= len (array_text first (map (text_of z) kids)).
Proof.
  induction 1 as [|t kids Ht _ IH]; intros first.
  - change (len (flat [])) with 0. apply len_nonneg.
  - rewrite flat_cons. cbn [map array_text]. len_norm.
    specialize (IH false).
    pose proof (len_nonneg (if first then [] else [chr ","])). lia.
Qed.

Lemma len_flat_le_object z kids :
  Nat.Even (length kids) ->
  Forall (fun t => len (flatten t) <= len (text_of z t)) kids ->
  forall first, len (flat kids) <= len (object_text first (map (text_of z) kids)).
Proof.
  intros He. pattern kids. apply pairs_ind; [| |exact He]; clear kids He.
  - intros _ first. change (len (flat [])) with 0. apply len_nonneg.
  - intros a b l He' IH Hall first. inversion Hall as [|? ? Ha Hall1]; subst.
    inversion Hall1 as [|? ? Hb Hall2]; subst.
    rewrite !flat_cons. cbn [map object_text]. len_norm.
    specialize (IH Hall2 false).
    pose proof (len_nonneg (if first then [] else [chr ","])).
    lia.
Qed.

Lemma shaped_nodes_le_text z : forall t,
  shaped z t -> len (flatten t) <= len (text_of z t).
Proof.
  induction t as [nd kids IH] using tree_ind. intros Hs.
  rewrite flatten_eq, len_cons.
  inversion Hs as [? Hlit Hraw|? off Hsp Hraw Hc Hoff Hn0 Hfit
                  |? ? Hty Hraw Hsz Hkids|? ? Hty Hraw Hsz Hev Hkids]; subst.
  - change (len (flat [])) with 0. cbn [text_of].
    destruct (eType nd); try discriminate; vm_compute; discriminate.
  - change (len (flat [])) with 0.
    assert (Ht : text_of z (Tree nd []) = span z nd).
    { cbn [text_of]. destruct (eType nd); try discriminate; reflexivity. }
    rewrite Ht. unfold span. rewrite Hc. cbn [at_ptr]. unfold len in *.
    rewrite length_take, length_drop. lia.
  - cbn [text_of]. rewrite Hty. len_norm.
    assert (Hall : Forall (fun t => len (flatten t) <= len (text_of z t)) kids).
    { rewrite Forall_forall in IH, Hkids |- *. intros t Hin. apply IH; auto. }
    pose proof (len_flat_le_array z kids Hall true). lia.
  - cbn [text_of]. rewrite Hty. len_norm.
    assert (Hall : Forall (fun t => len (flatten t) <= len (text_of z t)) kids).
    { rewrite Forall_forall in IH, Hkids |- *. intros t Hin. apply IH; auto. }
    pose proof (len_flat_le_object z kids Hev Hall true). lia.
Qed.

Lemma flat_nil_inv (ts : list tree) : len (flat ts) = 0 -> ts = [].
Proof.
  destruct ts as [|t ts]; [reflexivity|]. rewrite flat_cons, len_app.
  pose proof (len_flatten_pos t). pose proof (len_nonneg (flat ts)). lia.
Qed.

(** * The node array of a parse is the flattening of a tree *)

Lemma keeps_oom_preserves rec :
  keeps_oom rec -> preserves (fun q => oom q = true) rec.
Proof.
  intros H p i x p' Hp E. destruct (oom p') eqn:Ho; [reflexivity|].
  specialize (H _ _ _ _ E Ho). congruence.
Qed.

Lemma oom_set_preserved p i v p' :
  oom p = true -> set_n p i v = Ok p' -> oom p' = true.
Proof. intros Hq Hs. apply set_n_oom in Hs. congruence. Qed.

Lemma parse_array_keeps_oom rec k iThis :
  keeps_oom rec -> keeps_oom (fun p j => parse_array rec k p iThis j).
Proof.
  intros H p j x p' E Ho. destruct (oom p) eqn:Hp; [|reflexivity].
  eapply (parse_array_preserves (fun q => oom q = true)) in E;
    [congruence|exact oom_set_preserved|apply keeps_oom_preserves, H|exact Hp].
Qed.

Lemma parse_object_keeps_oom rec k iThis :
  keeps_oom rec -> keeps_oom (fun p j => parse_object rec k p iThis j).
Proof.
  intros H p j x p' E Ho. destruct (oom p) eqn:Hp; [|reflexivity].
  eapply (parse_object_preserves (fun q => oom q = true)) in E;
    [congruence|exact oom_set_preserved|apply keeps_oom_preserves, H|exact Hp].
Qed.

Lemma jsonParseValue_keeps_oom realloc fuel : keeps_oom (jsonParseValue realloc fuel).
Proof. intros p i x p' E Ho. eapply jsonParseValue_oom; eassumption. Qed.

Lemma set_n_at base hdr rest q v :
  aNode q = base ++ hdr :: rest ->
  set_n q (len base) v =
    Ok (mkParse (nNode q) (nAlloc q)
          (base ++ mkNode (eType hdr) (bRaw hdr) v (zJContent hdr) :: rest)
          (zJson q) (oom q)).
Proof.
  intros H. unfold set_n. rewrite H, node_at_app. cbn [bind].
  f_equal. f_equal. unfold len. rewrite Nat2Z.id.
  rewrite insert_app_r_alt by lia. rewrite Nat.sub_diag. reflexivity.
Qed.

Section ParserShape.

Variable z : text.
Hypothesis z_small : len z < 2 ^ 31 - 1.
Hypothesis z_head : head_ok z.

Lemma close_container_shape q base ty kids j i0 x p' :
  zJson q = z ->
  aNode q = base ++ mkNode ty false 0 None :: flat kids ->
  nNode q = len (aNode q) ->
  len base <= i0 -> 0 <= i0 ->
  i0 + 1 + len (flat kids) <= j -> j < len z ->
  close_container q (len base) j = Ok (x, p') ->
  aNode p' = base ++ mkNode ty false (len (flat kids)) None :: flat kids /\
  nNode p' = len (aNode p') /\ zJson p' = z /\ oom p' = oom q /\ x = j + 1.
Proof.
  intros Hz Ha Hn Hb Hi0 Hj Hjz. unfold close_container.
  rewrite (set_n_at base _ (flat kids) q _ Ha). cbn [bind eType bRaw zJContent].
  pose proof (len_nonneg base). pose proof (len_nonneg (flat kids)).
  assert (Hcount : nNode q - len base - 1 = len (flat kids)).
  { rewrite Hn, Ha. len_norm. lia. }
  rewrite Hcount, (u32_small (len (flat kids))), u32_small, to_int_small by lia.
  intros [= <- <-]. cbn. rewrite Hn, Ha. len_norm. auto.
Qed.

Lemma head_not (s : string) :
  In s [","%string; ":"%string; "]"%string; "}"%string] ->
  is_chr (zAt z (skip_space z (u32 0))) s = false.
Proof.
  destruct z_head as (H1 & H2 & H3 & H4). change (u32 0) with 0.
  intros [<-|[<-|[<-|[<-|[]]]]]; assumption.
Qed.

Lemma value_post_nonneg i p x p' :
  value_post z i p x p' -> 0 <= x ->
  (x = 0 /\ p' = p) \/
  exists t, shaped z t /\
            aNode p' = aNode p ++ flatten t /\
            nNode p' = nNode p + len (flatten t) /\
            zJson p' = zJson p /\
            i < x <= len z /\
            len (text_of z t) <= x - i.
Proof.
  intros [->|[H|[([->| ->] & _)|H]]] Hx; try lia; [left|right]; exact H.
Qed.

Lemma value_post_closing i p x p' :
  value_post z i p x p' -> 0 <= i -> x = -2 \/ x = -3 ->
  p' = p /\ skip_space z i < len z.
Proof.
  intros [->|[[-> _]|[(_ & H)|(t & _ & _ & _ & _ & Hx & _)]]] Hi Hc; try lia.
  exact H.
Qed.

Lemma parse_array_shape rec :
  value_spec z rec -> keeps_oom rec ->
  forall k p j x p' base done i0,
    zJson p = z ->
    aNode p = base ++ mkNode JSON_ARRAY false 0 None :: flat done ->
    nNode p = len (aNode p) ->
    Forall (shaped z) done ->
    len base <= i0 -> 0 <= i0 ->
    i0 + 1 + len (array_text true (map (text_of z) done)) + pending_comma done <= j ->
    j <= len z ->
    parse_array rec k p (len base) j = Ok (x, p') -> oom p' = false ->
    x = -1 \/
    exists kids,
      Forall (shaped z) kids /\
      aNode p' = base ++ mkNode JSON_ARRAY false (len (flat kids)) None :: flat kids /\
      nNode p' = len (aNode p') /\ zJson p' = z /\
      i0 < x <= len z /\
      2 + len (array_text true (map (text_of z) kids)) <= x - i0.
Proof.
  intros Hspec Hkeep.
  induction k as [|k IH]; intros p j x p' base done i0 Hz Ha Hn Hdone Hb Hi0 Hj Hjz;
    [discriminate|].
  cbn [parse_array]. rewrite Hz.
  pose proof (len_nonneg base) as Hb0.
  pose proof (len_nonneg (flat done)) as Hd0.
  pose proof (len_nonneg (array_text true (map (text_of z) done))) as Ht0.
  assert (Hpc : 0 <= pending_comma done) by (destruct done; cbn; lia).
  assert (Hnodes : len (flat done) <= len (array_text true (map (text_of z) done))).
  { apply len_flat_le_array. eapply Forall_impl; [exact Hdone|].
    intros t Ht. apply shaped_nodes_le_text. exact Ht. }
  pose proof (skip_space_bounds z j ltac:(lia) ltac:(lia)) as Hjs.
  set (js := skip_space z j) in *.
  assert (Hpre : parser_pre z p js).
  { unfold parser_pre. rewrite Hn, Ha. len_norm. repeat split; try lia; auto. }
  destruct (rec p js) as [[y q]| |] eqn:E; cbn [bind fst snd]; try discriminate.
  destruct (Z.ltb_spec y 0) as [Hy|Hy].
  { (* the closing bracket of an empty array *)
    destruct (Z.eqb_spec y (-3)) as [->|]; cbn [andb];
      [|intros [= <- <-] _; left; reflexivity].
    destruct (Z.eqb_spec (nNode q) (u32 (len base + 1))) as [Hq|];
      [|intros [= <- <-] _; left; reflexivity].
    intros [= <- <-] Ho. right.
    destruct (value_post_closing js p (-3) q (Hspec _ _ _ _ Hpre E Ho)) as [-> Hlt];
      [lia|auto|].
    pose proof (skip_space_bounds z js ltac:(lia) ltac:(lia)).
    rewrite u32_small in Hq by lia. rewrite Hn, Ha in Hq. revert Hq. len_norm. intros Hq.
    assert (done = []) as -> by (apply flat_nil_inv; lia).
    exists []. rewrite u32_small, to_int_small by lia.
    split; [constructor|]. split; [exact Ha|]. split; [exact Hn|]. split; [exact Hz|].
    cbn [map array_text pending_comma] in Hj |- *. rewrite len_nil in Hj |- *.
    split; lia. }
  (* an element *)
  intros Hrest Ho.
  assert (Hoq : oom q = false).
  { revert Hrest. destruct (is_chr _ ",").
    - intros Hrest. eapply (parse_array_keeps_oom rec k (len base) Hkeep); eassumption.
    - destruct (negb _); [intros [= <- <-]; exact Ho|].
      unfold close_container. destruct (set_n q _ _) as [q'| |] eqn:Es; cbn [bind];
        try discriminate.
      intros [= <- <-]. apply set_n_oom in Es. congruence. }
  destruct (value_post_nonneg js p y q (Hspec _ _ _ _ Hpre E Hoq) Hy)
    as [[-> ->]|(t & Ht & Hqa & Hqn & Hqz & Hyr & Htx)].
  { (* the end of the text *)
    revert Hrest. rewrite (head_not ","), (head_not "]") by (simpl; auto).
    cbn [negb]. intros [= <- <-]. left. reflexivity. }
  pose proof (shaped_nodes_le_text z t Ht) as Hnt.
  pose proof (len_flatten_pos t) as Hpos.
  rewrite (u32_small y) in Hrest by lia.
  pose proof (skip_space_bounds z y ltac:(lia) ltac:(lia)) as Hj2.
  set (j2 := skip_space z y) in *.
  assert (Hzq : zJson q = z) by congruence.
  assert (Haq : aNode q = base ++ mkNode JSON_ARRAY false 0 None :: flat (done ++ [t])).
  { rewrite Hqa, Ha, flat_snoc, <- app_assoc. reflexivity. }
  assert (Hnq : nNode q = len (aNode q)).
  { rewrite Hqn, Hn, Hqa. len_norm. lia. }
  assert (Hdone' : Forall (shaped z) (done ++ [t])).
  { apply Forall_app. split; [exact Hdone|]. constructor; [exact Ht|constructor]. }
  assert (Htext : len (array_text true (map (text_of z) (done ++ [t])))
                  <= y - i0 - 1).
  { rewrite map_app. cbn [map]. rewrite len_array_text_snoc.
    destruct done; cbn [map pending_comma] in *; lia. }
  destruct (is_chr (zAt z j2) ",") eqn:Ecomma.
  - apply is_chr_inside in Ecomma; [|discriminate].
    rewrite u32_small in Hrest by lia.
    eapply (IH q (j2 + 1) x p' base (done ++ [t]) i0); try eassumption; try lia.
    destruct (done ++ [t]) eqn:Ed; [destruct done; discriminate|].
    cbn [pending_comma]. lia.
  - destruct (is_chr (zAt z j2) "]") eqn:Eclose; cbn [negb] in Hrest;
      [|injection Hrest as <- <-; left; reflexivity].
    apply is_chr_inside in Eclose; [|discriminate].
    pose proof (len_flat_le_array z (done ++ [t])
                  ltac:(eapply Forall_impl; [exact Hdone'|];
                        intros ? ?; apply shaped_nodes_le_text; assumption) true).
    destruct (close_container_shape q base JSON_ARRAY (done ++ [t]) j2 i0 x p')
      as (Hpa & Hpn & Hpz & _ & ->); try assumption; try lia.
    right. exists (done ++ [t]). repeat split; try assumption; lia.
Qed.

Lemma parse_object_shape rec :
  value_spec z rec -> keeps_oom rec ->
  forall k p j x p' base done i0,
    zJson p = z ->
    aNode p = base ++ mkNode JSON_OBJECT false 0 None :: flat done ->
    nNode p = len (aNode p) ->
    Forall (shaped z) done -> Nat.Even (length done) ->
    len base <= i0 -> 0 <= i0 ->
    i0 + 1 + len (object_text true (map (text_of z) done)) + pending_comma done <= j ->
    j <= len z ->
    parse_object rec k p (len base) j = Ok (x, p') -> oom p' = false ->
    x = -1 \/
    exists kids,
      Forall (shaped z) kids /\ Nat.Even (length kids) /\
      aNode p' = base ++ mkNode JSON_OBJECT false (len (flat kids)) None :: flat kids /\
      nNode p' = len (aNode p') /\ zJson p' = z /\
      i0 < x <= len z /\
      2 + len (object_text true (map (text_of z) kids)) <= x - i0.
Proof.
  intros Hspec Hkeep.
  induction k as [|k IH];
    intros p j x p' base done i0 Hz Ha Hn Hdone Hev Hb Hi0 Hj Hjz; [discriminate|].
  cbn [parse_object]. rewrite Hz.
  pose proof (len_nonneg base) as Hb0.
  pose proof (len_nonneg (flat done)) as Hd0.
  pose proof (len_nonneg (object_text true (map (text_of z) done))) as Ht0.
  assert (Hpc : 0 <= pending_comma done) by (destruct done; cbn; lia).
  assert (Hnodes : len (flat done) <= len (object_text true (map (text_of z) done))).
  { apply len_flat_le_object; [exact Hev|]. eapply Forall_impl; [exact Hdone|].
    intros t Ht. apply shaped_nodes_le_text. exact Ht. }
  pose proof (skip_space_bounds z j ltac:(lia) ltac:(lia)) as Hjs.
  set (js := skip_space z j) in *.
  assert (Hpre : parser_pre z p js).
  { unfold parser_pre. rewrite Hn, Ha. len_norm. repeat split; try lia; auto. }
  destruct (rec p js) as [[y q]| |] eqn:E; cbn [bind fst snd]; try discriminate.
  destruct (Z.ltb_spec y 0) as [Hy|Hy].
  { (* the closing brace of an empty object *)
    destruct (Z.eqb_spec y (-2)) as [->|]; cbn [andb];
      [|intros [= <- <-] _; left; reflexivity].
    destruct (Z.eqb_spec (nNode q) (u32 (len base + 1))) as [Hq|];
      [|intros [= <- <-] _; left; reflexivity].
    intros [= <- <-] Ho. right.
    destruct (value_post_closing js p (-2) q (Hspec _ _ _ _ Hpre E Ho)) as [-> Hlt];
      [lia|auto|].
    pose proof (skip_space_bounds z js ltac:(lia) ltac:(lia)).
    rewrite u32_small in Hq by lia. rewrite Hn, Ha in Hq. revert Hq. len_norm. intros Hq.
    assert (done = []) as -> by (apply flat_nil_inv; lia).
    exists []. rewrite u32_small, to_int_small by lia.
    split; [constructor|]. split; [exists 0%nat; reflexivity|].
    split; [exact Ha|]. split; [exact Hn|]. split; [exact Hz|].
    cbn [map object_text pending_comma] in Hj |- *. rewrite len_nil in Hj |- *.
    split; lia. }
  (* a member: the key, the colon, the value *)
  destruct (node_at (aNode q) _) as [last| |]; cbn [bind]; try discriminate.
  destruct (negb (JsonType_eqb _ _)); [intros [= <- <-] _; left; reflexivity|].
  destruct (is_chr (zAt z (skip_space z (u32 y))) ":") eqn:Ecolon; cbn [negb];
    [|intros [= <- <-] _; left; reflexivity].
  destruct (rec q _) as [[y2 q2]| |] eqn:E2; cbn [bind fst snd]; try discriminate.
  destruct (Z.ltb_spec y2 0) as [Hy2|Hy2]; [intros [= <- <-] _; left; reflexivity|].
  intros Hrest Ho.
  assert (Hoq2 : oom q2 = false).
  { revert Hrest. destruct (is_chr _ ",").
    - intros Hrest. eapply (parse_object_keeps_oom rec k (len base) Hkeep); eassumption.
    - destruct (negb _); [intros [= <- <-]; exact Ho|].
      unfold close_container. destruct (set_n q2 _ _) as [q'| |] eqn:Es; cbn [bind];
        try discriminate.
      intros [= <- <-]. apply set_n_oom in Es. congruence. }
  assert (Hoq : oom q = false) by (eapply Hkeep; eassumption).
  destruct (value_post_nonneg js p y q (Hspec _ _ _ _ Hpre E Hoq) Hy)
    as [[-> ->]|(tk & Htk & Hqa & Hqn & Hqz & Hyr & Htx)].
  { rewrite (head_not ":") in Ecolon by (simpl; auto). discriminate. }
  pose proof (shaped_nodes_le_text z tk Htk) as Hntk.
  pose proof (len_flatten_pos tk) as Hposk.
  rewrite (u32_small y) in Ecolon, E2 by lia.
  pose proof (skip_space_bounds z y ltac:(lia) ltac:(lia)) as Hj2.
  set (j2 := skip_space z y) in *.
  apply is_chr_inside in Ecolon; [|discriminate].
  rewrite (u32_small (j2 + 1)) in E2 by lia.
  assert (Hzq : zJson q = z) by congruence.
  assert (Hnq : nNode q = len (aNode q)).
  { rewrite Hqn, Hn, Hqa. len_norm. lia. }
  assert (Hpre2 : parser_pre z q (j2 + 1)).
  { unfold parser_pre. rewrite Hqn, Hn, Ha. revert Hnq. rewrite Hqa, Ha. len_norm.
    intros _. repeat split; try lia; auto. }
  destruct (value_post_nonneg (j2 + 1) q y2 q2 (Hspec _ _ _ _ Hpre2 E2 Hoq2) Hy2)
    as [[-> ->]|(tv & Htv & Hq2a & Hq2n & Hq2z & Hy2r & Htx2)].
  { revert Hrest. rewrite (head_not ","), (head_not "}") by (simpl; auto).
    cbn [negb]. intros [= <- <-]. left. reflexivity. }
  pose proof (shaped_nodes_le_text z tv Htv) as Hntv.
  pose proof (len_flatten_pos tv) as Hposv.
  rewrite (u32_small y2) in Hrest by lia.
  pose proof (skip_space_bounds z y2 ltac:(lia) ltac:(lia)) as Hj4.
  set (j4 := skip_space z y2) in *.
  assert (Hzq2 : zJson q2 = z) by congruence.
  assert (Haq2 : aNode q2
                 = base ++ mkNode JSON_OBJECT false 0 None :: flat (done ++ [tk; tv])).
  { rewrite Hq2a, Hqa, Ha, flat_app, !flat_cons, <- !app_assoc. cbn [app].
    change (flat []) with (@nil JsonNode). rewrite app_nil_r. reflexivity. }
  assert (Hnq2 : nNode q2 = len (aNode q2)).
  { rewrite Hq2n, Hnq, Hq2a. len_norm. lia. }
  assert (Hdone' : Forall (shaped z) (done ++ [tk; tv])).
  { apply Forall_app. split; [exact Hdone|]. repeat constructor; assumption. }
  assert (Hev' : Nat.Even (length (done ++ [tk; tv]))).
  { destruct Hev as [m Hm]. exists (S m). rewrite length_app. simpl. lia. }
  assert (Htext : len (object_text true (map (text_of z) (done ++ [tk; tv])))
                  <= y2 - i0 - 1).
  { rewrite map_app. cbn [map]. rewrite len_object_text_snoc.
    - destruct done; cbn [map pending_comma] in *; lia.
    - rewrite length_map. exact Hev. }
  destruct (is_chr (zAt z j4) ",") eqn:Ecomma.
  - apply is_chr_inside in Ecomma; [|discriminate].
    rewrite u32_small in Hrest by lia.
    eapply (IH q2 (j4 + 1) x p' base (done ++ [tk; tv]) i0); try eassumption; try lia.
    destruct (done ++ [tk; tv]) eqn:Ed; [destruct done; discriminate|].
    cbn [pending_comma]. lia.
  - destruct (is_chr (zAt z j4) "}") eqn:Eclose; cbn [negb] in Hrest;
      [|injection Hrest as <- <-; left; reflexivity].
    apply is_chr_inside in Eclose; [|discriminate].
    pose proof (len_flat_le_object z (done ++ [tk; tv]) Hev'
                  ltac:(eapply Forall_impl; [exact Hdone'|];
                        intros ? ?; apply shaped_nodes_le_text; assumption) true).
    destruct (close_container_shape q2 base JSON_OBJECT (done ++ [tk; tv]) j4 i0 x p')
      as (Hpa & Hpn & Hpz & _ & ->); try assumption; try lia.
    right. exists (done ++ [tk; tv]). repeat split; try assumption; lia.
Qed.

Lemma len_span nd off :
  zJContent nd = Some off -> 0 <= off -> 0 <= n nd -> off + n nd <= len z ->
  len (span z nd) = n nd.
Proof.
  intros Hc Hoff Hn Hfit. unfold span. rewrite Hc. cbn [at_ptr]. unfold len in *.
  rewrite length_take, length_drop. lia.
Qed.

Lemma add_scalar_post realloc p i i1 x ty m c r :
  jsonParseAddNode realloc p ty m c = Ok r ->
  zJson p = z -> nNode p = len (aNode p) -> nNode p <= i -> i <= i1 ->
  i1 < x <= len z ->
  oom (snd r) = false ->
  shaped z (Tree (mkNode ty false m c) []) ->
  len (text_of z (Tree (mkNode ty false m c) [])) <= x - i1 ->
  value_post z i p x (snd r).
Proof.
  intros Ea Hz Hn Hle Hi1 Hx Ho Hs Ht.
  destruct (jsonParseAddNode_ok realloc p ty m c r Ea Ho Hn ltac:(lia)) as (_ & Ha & Hn1 & Hz1).
  right. right. right. exists (Tree (mkNode ty false m c) []).
  rewrite flatten_eq. change (flat []) with (@nil JsonNode). len_norm.
  repeat split; try assumption; try lia.
Qed.

Lemma jsonParseValue_shape realloc fuel : value_spec z (jsonParseValue realloc fuel).
Proof.
  induction fuel as [|f IH]; intros p i x p' (Hz & Hn & Hle & Hi) E Ho; [discriminate|].
  cbn [jsonParseValue] in E. rewrite Hz in E.
  pose proof (skip_space_bounds z i ltac:(lia) Hi) as Hi1.
  set (i1 := skip_space z i) in *.
  pose proof (len_nonneg (aNode p)) as Hlen0.
  destruct (Ascii.eqb (zAt z i1) NUL) eqn:Enul.
  { injection E as <- <-. right. left. auto. }
  apply eqb_false_inside in Enul.
  destruct (is_chr (zAt z i1) "{") eqn:Eobj.
  { (* an object *)
    add_in E r Ea.
    pose proof (u32_range (fst r)) as Hr.
    destruct (Z.ltb_spec (u32 (fst r)) 0) as [|_]; [lia|].
    assert (Ho1 : oom (snd r) = false).
    { eapply (parse_object_keeps_oom _ f _ (jsonParseValue_keeps_oom realloc f));
        eassumption. }
    destruct (jsonParseAddNode_ok realloc p JSON_OBJECT 0 None r Ea Ho1 Hn ltac:(lia))
      as (Hf & Ha1 & Hn1 & Hz1).
    rewrite Hf, (u32_small (nNode p)), Hn, (u32_small (i1 + 1)) in E by lia.
    destruct (parse_object_shape (jsonParseValue realloc f) IH
                (jsonParseValue_keeps_oom realloc f) f
                (snd r)
                (i1 + 1) x p' (aNode p) [] i1)
      as [->|(kids & Hk & Hev & Hpa & Hpn & Hpz & Hx & Ht)];
      try assumption; try lia.
    - congruence.
    - rewrite Hn1, Ha1. len_norm. lia.
    - constructor.
    - exists 0%nat. reflexivity.
    - cbn [map object_text pending_comma]. rewrite len_nil. lia.
    - left. reflexivity.
    - right. right. right.
      exists (Tree (mkNode JSON_OBJECT false (len (flat kids)) None) kids).
      rewrite flatten_eq. cbn [text_of eType]. len_norm.
      split; [apply shaped_object; auto|].
      split; [exact Hpa|]. split; [rewrite Hpn, Hpa, Hn; len_norm; lia|].
      split; [congruence|]. split; lia. }
  destruct (is_chr (zAt z i1) "[") eqn:Earr.
  { (* an array *)
    add_in E r Ea.
    pose proof (u32_range (fst r)) as Hr.
    destruct (Z.ltb_spec (u32 (fst r)) 0) as [|_]; [lia|].
    assert (Ho1 : oom (snd r) = false).
    { eapply (parse_array_keeps_oom _ f _ (jsonParseValue_keeps_oom realloc f));
        eassumption. }
    destruct (jsonParseAddNode_ok realloc p JSON_ARRAY 0 None r Ea Ho1 Hn ltac:(lia))
      as (Hf & Ha1 & Hn1 & Hz1).
    rewrite Hf, (u32_small (nNode p)), Hn, (u32_small (i1 + 1)) in E by lia.
    destruct (parse_array_shape (jsonParseValue realloc f) IH
                (jsonParseValue_keeps_oom realloc f) f
                (snd r)
                (i1 + 1) x p' (aNode p) [] i1)
      as [->|(kids & Hk & Hpa & Hpn & Hpz & Hx & Ht)];
      try assumption; try lia.
    - congruence.
    - rewrite Hn1, Ha1. len_norm. lia.
    - constructor.
    - cbn [map array_text pending_comma]. rewrite len_nil. lia.
    - left. reflexivity.
    - right. right. right.
      exists (Tree (mkNode JSON_ARRAY false (len (flat kids)) None) kids).
      rewrite flatten_eq. cbn [text_of eType]. len_norm.
      split; [apply shaped_array; auto|].
      split; [exact Hpa|]. split; [rewrite Hpn, Hpa, Hn; len_norm; lia|].
      split; [congruence|]. split; lia. }
  destruct (Ascii.eqb (zAt z i1) DQUOTE).
  { (* a string *)
    rewrite (u32_small (i1 + 1)) in E by lia.
    destruct (scan_string z _ (i1 + 1)) as [[j|]| |] eqn:Es; cbn [bind] in E;
      try discriminate; [|injection E as <- <-; left; reflexivity].
    apply scan_string_bounds in Es; [|lia|lia].
    rewrite (u32_small (j + 1)), (u32_small (j + 1 - i1)), to_int_small in E by lia.
    add_in E r Ea. injection E as <- <-.
    apply (add_scalar_post realloc p i i1 _ _ _ _ r Ea); try assumption; try lia.
    - apply (shaped_span z _ i1); cbn; try reflexivity; lia.
    - cbn [text_of eType]. rewrite (len_span _ i1); cbn; try reflexivity; lia. }
  destruct (literal_at z i1 (zAt z i1) "null") eqn:Enull.
  { apply literal_at_inside in Enull; [|lia|vm_compute; reflexivity].
    change (len (txt "null")) with 4 in Enull.
    rewrite u32_small, to_int_small in E by lia. add_in E r Ea. injection E as <- <-.
    apply (add_scalar_post realloc p i i1 _ _ _ _ r Ea); try assumption; try lia.
    - apply shaped_literal; reflexivity.
    - cbn [text_of eType]. change (len (txt "null")) with 4. lia. }
  destruct (literal_at z i1 (zAt z i1) "true") eqn:Etrue.
  { apply literal_at_inside in Etrue; [|lia|vm_compute; reflexivity].
    change (len (txt "true")) with 4 in Etrue.
    rewrite u32_small, to_int_small in E by lia. add_in E r Ea. injection E as <- <-.
    apply (add_scalar_post realloc p i i1 _ _ _ _ r Ea); try assumption; try lia.
    - apply shaped_literal; reflexivity.
    - cbn [text_of eType]. change (len (txt "true")) with 4. lia. }
  destruct (literal_at z i1 (zAt z i1) "false") eqn:Efalse.
  { apply literal_at_inside in Efalse; [|lia|vm_compute; reflexivity].
    change (len (txt "false")) with 5 in Efalse.
    rewrite u32_small, to_int_small in E by lia. add_in E r Ea. injection E as <- <-.
    apply (add_scalar_post realloc p i i1 _ _ _ _ r Ea); try assumption; try lia.
    - apply shaped_literal; reflexivity.
    - cbn [text_of eType]. change (len (txt "false")) with 5. lia. }
  destruct (is_chr (zAt z i1) "-" || is_digit_char (zAt z i1)).
  { (* a number *)
    rewrite (u32_small (i1 + 1)) in E by lia.
    destruct (scan_number z _ (i1 + 1) false false) as [[[j dp]|]| |] eqn:Es;
      cbn [bind] in E; try discriminate; [|injection E as <- <-; left; reflexivity].
    apply scan_number_bounds in Es; [|lia|lia].
    destruct (_ <? 48); [injection E as <- <-; left; reflexivity|].
    rewrite (u32_small (j - i1)), to_int_small in E by lia.
    add_in E r Ea. injection E as <- <-.
    apply (add_scalar_post realloc p i i1 _ _ _ _ r Ea); try assumption; try lia.
    - apply (shaped_span z _ i1); cbn; try lia; try reflexivity.
      destruct dp; reflexivity.
    - destruct dp; cbn [text_of eType]; rewrite (len_span _ i1); cbn;
        try reflexivity; lia. }
  destruct (is_chr (zAt z i1) "}").
  { injection E as <- <-. right. right. left. split; [auto|]. split; [reflexivity|].
    fold i1. lia. }
  destruct (is_chr (zAt z i1) "]"); injection E as <- <-.
  - right. right. left. split; [auto|]. split; [reflexivity|]. fold i1. lia.
  - left. reflexivity.
Qed.

End ParserShape.
Lemma jsonParseValue_head realloc f p x p' :
  jsonParseValue realloc (S f) p 0 = Ok (x, p') -> 0 <= x -> head_ok (zJson p).
Proof.
  intros E Hx. unfold head_ok. cbn [jsonParseValue] in E.
  set (c := zAt (zJson p) (skip_space (zJson p) 0)) in *.
  assert (Hc : forall s, In s [","%string; ":"%string; "]"%string; "}"%string] ->
                         is_chr c s = false).
  { intros s Hin. destruct (is_chr c s) eqn:Es; [|reflexivity]. exfalso.
    unfold is_chr in Es. apply Ascii.eqb_eq in Es. rewrite Es in E. clear Es.
    simpl in Hin.
    destruct Hin as [<-|[<-|[<-|[<-|[]]]]]; vm_compute in E; injection E as <- _; lia. }
  repeat split; apply Hc; simpl; auto.
Qed.

(** A parse that returned 0 with the flag clear: nothing, or one tree. *)
Lemma jsonParse_shape realloc p0 z p :
  len z < 2 ^ 31 - 1 ->
  jsonParse realloc p0 (Some z) = Ok (0, p) -> oom p = false ->
  zJson p = z /\ nNode p = len (aNode p) /\
  (aNode p = [] \/
   exists t, shaped z t /\ aNode p = flatten t /\ len (text_of z t) <= len z).
Proof.
  intros Hsmall H Ho. destruct (jsonParse_zero _ _ _ _ H) as (i & E & Hi).
  pose proof (jsonParseValue_head realloc _ _ _ _ E Hi) as Hhead. cbn [zJson] in Hhead.
  pose proof (len_nonneg z) as Hz0.
  assert (Hpre : parser_pre z (mkParse 0 0 [] z false) 0).
  { unfold parser_pre. cbn [zJson nNode aNode]. change (len (@nil JsonNode)) with 0.
    repeat split; lia. }
  destruct (value_post_nonneg z 0 _ i p
              (jsonParseValue_shape z Hsmall Hhead realloc _ _ _ _ _ Hpre E Ho) Hi)
    as [[Hi0 Hp]|(t & Ht & Ha & Hn & Hz & Hx & Htx)].
  - rewrite Hp. cbn [zJson nNode aNode]. change (len (@nil JsonNode)) with 0. auto.
  - cbn [zJson nNode aNode app] in Ha, Hn, Hz. split; [exact Hz|]. split; [rewrite Hn, Ha; lia|].
    right. exists t. repeat split; try assumption. lia.
Qed.

(** ** Every slot is the root of a subtree *)

Lemma len_kid_le_array z t kids :
  In t kids -> forall first,
  len (text_of z t) <= len (array_text first (map (text_of z) kids)).
Proof.
  induction kids as [|a kids IH]; intros Hin first; [contradiction|].
  cbn [map array_text]. len_norm.
  pose proof (len_nonneg (if first then [] else [chr ","])).
  pose proof (len_nonneg (array_text false (map (text_of z) kids))).
  pose proof (len_nonneg (text_of z a)).
  destruct Hin as [->|Hin]; [lia|]. specialize (IH Hin false). lia.
Qed.

Lemma len_kid_le_object z t kids :
  Nat.Even (length kids) -> In t kids -> forall first,
  len (text_of z t) <= len (object_text first (map (text_of z) kids)).
Proof.
  intros He. pattern kids. apply pairs_ind; [| |exact He]; clear kids He.
  - intros [].
  - intros a b l _ IH Hin first. cbn [map object_text]. len_norm.
    pose proof (len_nonneg (if first then [] else [chr ","])).
    pose proof (len_nonneg (object_text false (map (text_of z) l))).
    pose proof (len_nonneg (text_of z a)). pose proof (len_nonneg (text_of z b)).
    destruct Hin as [->|[->|Hin]]; [lia|lia|]. specialize (IH Hin false). lia.
Qed.

Lemma subtree_in_forest z kids :
  Forall (has_subtrees z) kids ->
  forall k, 0 <= k < len (flat kids) ->
  exists t s pre post,
    In t kids /\ shaped z s /\ flat kids = pre ++ flatten s ++ post /\ len pre = k /\
    len (text_of z s) <= len (text_of z t).
Proof.
  induction 1 as [|t kids Ht _ IH]; intros k Hk.
  - change (len (flat [])) with 0 in Hk. lia.
  - rewrite flat_cons, len_app in Hk. rewrite flat_cons.
    destruct (Z.lt_ge_cases k (len (flatten t))) as [Hin|Hout].
    + destruct (Ht k ltac:(lia)) as (s & pre & post & Hs & Hf & Hl & Hx).
      exists t, s, pre, (post ++ flat kids). rewrite Hf, <- !app_assoc.
      repeat split; auto. left. reflexivity.
    + destruct (IH (k - len (flatten t)) ltac:(lia))
        as (t' & s & pre & post & Hin & Hs & Hf & Hl & Hx).
      exists t', s, (flatten t ++ pre), post. rewrite Hf, <- !app_assoc. len_norm.
      repeat split; auto; try lia. right. exact Hin.
Qed.

Lemma subtree_at z : forall t, shaped z t -> has_subtrees z t.
Proof.
  induction t as [nd kids IH] using tree_ind. intros Hs k Hk.
  destruct (Z.eq_dec k 0) as [->|Hne].
  { exists (Tree nd kids), [], []. rewrite app_nil_r. repeat split; auto. lia. }
  rewrite flatten_eq, len_cons in Hk.
  assert (Hkids : Forall (shaped z) kids /\
                  forall t, In t kids -> len (text_of z t) <= len (text_of z (Tree nd kids))).
  { inversion Hs as [? Hlit Hraw|? off Hsp Hraw Hc Hoff Hn0 Hfit
                    |? ? Hty Hraw Hsz Hk'|? ? Hty Hraw Hsz Hev Hk']; subst.
    - split; [constructor|intros ? []].
    - split; [constructor|intros ? []].
    - split; [assumption|]. intros t Hin. cbn [text_of]. rewrite Hty. len_norm.
      pose proof (len_kid_le_array z t kids Hin true). lia.
    - split; [assumption|]. intros t Hin. cbn [text_of]. rewrite Hty. len_norm.
      pose proof (len_kid_le_object z t kids Hev Hin true). lia. }
  destruct Hkids as [Hall Hle].
  assert (Hsub : Forall (has_subtrees z) kids).
  { rewrite Forall_forall in IH, Hall |- *. intros t Hin. apply IH; auto. }
  destruct (subtree_in_forest z kids Hsub (k - 1) ltac:(lia))
    as (t' & s & pre & post & Hin & Hs' & Hf & Hl & Hx).
  exists s, (nd :: pre), post. rewrite flatten_eq, Hf. len_norm.
  repeat split; auto; try lia. specialize (Hle t' Hin). lia.
Qed.

Lemma node_at_root pre s post nd :
  node_at (pre ++ flatten s ++ post) (len pre) = Ok nd -> nd = root s.
Proof.
  destruct s as [r kids]. rewrite flatten_eq. cbn [app root].
  rewrite node_at_app. congruence.
Qed.

Lemma node_at_inside nodes i nd : node_at nodes i = Ok nd -> 0 <= i < len nodes.
Proof.
  intros H. apply node_at_lookup in H as [Hi H]. apply lookup_lt_Some in H.
  unfold len. lia.
Qed.

(** Where a slot of a parse holds a container: the subtrees that follow
    it, and what a call of the renderer there returns. *)
Lemma container_slot realloc malloc escape p0 z p i nd :
  len z < 2 ^ 31 - 1 ->
  jsonParse realloc p0 (Some z) = Ok (0, p) -> oom p = false ->
  node_at (aNode p) i = Ok nd ->
  exists kids,
    aNode p = take (Z.to_nat i) (aNode p) ++ nd :: flat kids
              ++ drop (Z.to_nat (i + 1 + len (flat kids))) (aNode p) /\
    shaped z (Tree nd kids) /\
    i + 1 + len (flat kids) <= nNode p /\
    forall out, acc_ok out -> Accum.nUsed out + len z <= acc_limit ->
      exists out',
        jsonRenderNode_with malloc escape (aNode p) z i out
          = Ok (len (flat kids) + 1, out') /\
        append_spec malloc out (text_of z (Tree nd kids)) out'.
Proof.
  intros Hsmall H Ho Hnode.
  destruct (jsonParse_shape realloc p0 z p Hsmall H Ho)
    as (Hz & Hn & [Hnil|(t & Ht & Ha & Htx)]).
  { rewrite Hnil in Hnode. apply node_at_inside in Hnode.
    change (len (@nil JsonNode)) with 0 in Hnode. lia. }
  pose proof (node_at_inside _ _ _ Hnode) as Hi.
  rewrite Ha in Hi.
  destruct (subtree_at z t Ht i Hi) as (s & pre & post & Hs & Hf & Hl & Hx).
  assert (Hnodes : aNode p = pre ++ flatten s ++ post) by congruence.
  assert (Hroot : nd = root s).
  { apply (node_at_root pre s post). rewrite <- Hnodes, Hl. exact Hnode. }
  destruct s as [r kids]. cbn [root] in Hroot. subst r.
  pose proof (shaped_nodes_le_text z t Ht) as Hnt.
  pose proof (len_nonneg pre) as Hp0. pose proof (len_nonneg post) as Hq0.
  pose proof (len_nonneg (flat kids)) as Hk0.
  assert (Hlen : len (aNode p) = len pre + (1 + len (flat kids)) + len post).
  { rewrite Hnodes, flatten_eq. len_norm. lia. }
  exists kids. split; [|split; [exact Hs|split; [lia|]]].
  - rewrite Hnodes at 1. rewrite flatten_eq. cbn [app].
    f_equal; [|f_equal; f_equal].
    + rewrite Hnodes, <- Hl. unfold len. rewrite Nat2Z.id, take_app_length. reflexivity.
    + rewrite Hnodes, flatten_eq, <- Hl. cbn [app].
      replace (Z.to_nat (len pre + 1 + len (flat kids)))
        with (length pre + length (nd :: flat kids))%nat
        by (unfold len; simpl length; lia).
      rewrite drop_app_add'; [|reflexivity].
      change (nd :: flat kids ++ post) with ((nd :: flat kids) ++ post).
      rewrite drop_app_length. reflexivity.
  - intros out Hok Hlim.
    assert (Hsm : len (aNode p) < 2 ^ 31 - 1) by (rewrite Ha; lia).
    destruct (render_shaped malloc escape (aNode p) z Hsm ltac:(lia) (Tree nd kids) Hs
                (S (length (aNode p))) ltac:(rewrite Hnodes, !length_app; lia)
                pre post out Hnodes Hok ltac:(lia))
      as (out' & E & S).
    exists out'. unfold jsonRenderNode_with. rewrite <- Hl, E.
    split; [|exact S]. rewrite flatten_eq. len_norm. f_equal. f_equal. lia.
Qed.

(** * The size of a container *)

(** X21: in the node array of a parse that returned 0 with the
    out-of-memory flag clear, the [n] slots that follow a container are
    the slots of a sequence of complete subtrees, each of them laid out
    in the same way, and they lie inside the array; and a call of the
    renderer at the container returns [n+1]. *)
Theorem size_invariant (realloc malloc : Z -> bool) (p0 : JsonParse) (z : text)
    (p : JsonParse) (i : Z) (nd : JsonNode) :
  len z < 2 ^ 31 - 1 ->
  jsonParse realloc p0 (Some z) = Ok (0, p) -> oom p = false ->
  node_at (aNode p) i = Ok nd -> is_container (eType nd) = true ->
  exists kids,
    Forall (shaped z) kids /\
    take (Z.to_nat (n nd)) (drop (Z.to_nat (i + 1)) (aNode p)) = flat kids /\
    n nd = len (flat kids) /\
    i + 1 + n nd <= nNode p /\
    forall out, acc_ok out -> Accum.nUsed out + len z <= acc_limit ->
      exists out', jsonRenderNode malloc (aNode p) z i out = Ok (n nd + 1, out').
Proof.
  intros Hsmall H Ho Hnode Hcont.
  destruct (container_slot realloc malloc (Accum.jsonAppendString malloc)
              p0 z p i nd Hsmall H Ho Hnode) as (kids & Ha & Hs & Hle & Hrender).
  pose proof (node_at_inside _ _ _ Hnode) as Hi.
  assert (Hsz : n nd = len (flat kids) /\ Forall (shaped z) kids).
  { inversion Hs as [? Hlit Hraw|? off Hsp Hraw Hc Hoff Hn0 Hfit
                    |? ? Hty Hraw Hsz Hk|? ? Hty Hraw Hsz Hev Hk]; subst.
    - destruct (eType nd); discriminate.
    - destruct (eType nd); discriminate.
    - auto.
    - auto. }
  destruct Hsz as [Hsz Hkids].
  exists kids. split; [exact Hkids|]. split; [|split; [exact Hsz|split; [lia|]]].
  - rewrite Ha.
    replace (Z.to_nat (i + 1)) with (length (take (Z.to_nat i) (aNode p)) + 1)%nat
      by (rewrite length_take; unfold len in Hi; lia).
    rewrite drop_app_add'; [|reflexivity]. cbn [drop].
    rewrite Hsz. unfold len. rewrite drop_0, Nat2Z.id, take_app_length. reflexivity.
  - intros out Hok Hlim. destruct (Hrender out Hok Hlim) as (out' & E & _).
    exists out'. unfold jsonRenderNode. rewrite E, Hsz. reflexivity.
Qed.

Lemma size_invariant_witness :
  len nested_text < 2 ^ 31 - 1 /\
  jsonParse all_memory empty_parse (Some nested_text) = Ok (0, nested_parse) /\
  oom nested_parse = false /\
  node_at (aNode nested_parse) 2 = Ok (mkNode JSON_ARRAY false 2 None) /\
  is_container JSON_ARRAY = true /\
  exists kids,
    Forall (shaped nested_text) kids /\
    take (Z.to_nat 2) (drop (Z.to_nat (2 + 1)) (aNode nested_parse)) = flat kids /\
    2 = len (flat kids) /\
    2 + 1 + 2 <= nNode nested_parse /\
    forall out, acc_ok out -> Accum.nUsed out + len nested_text <= acc_limit ->
      exists out',
        jsonRenderNode all_memory (aNode nested_parse) nested_text 2 out
          = Ok (2 + 1, out').
Proof.
  assert (H1 : len nested_text < 2 ^ 31 - 1) by (vm_compute; reflexivity).
  assert (H2 : jsonParse all_memory empty_parse (Some nested_text) = Ok (0, nested_parse))
    by (vm_compute; reflexivity).
  assert (H3 : oom nested_parse = false) by reflexivity.
  assert (H4 : node_at (aNode nested_parse) 2 = Ok (mkNode JSON_ARRAY false 2 None))
    by reflexivity.
  assert (H5 : is_container JSON_ARRAY = true) by reflexivity.
  split; [exact H1|]. split; [exact H2|]. split; [exact H3|]. split; [exact H4|].
  split; [exact H5|].
  exact (size_invariant all_memory all_memory empty_parse nested_text nested_parse 2
           (mkNode JSON_ARRAY false 2 None) H1 H2 H3 H4 H5).
Defined.

(** * The root *)

(** X22: in a parse that returned 0 with the out-of-memory flag clear
    and has a node, slot 0 is the root of the whole array: a container
    there has [n] one less than the number of nodes, a scalar there is
    the only node, and a call of the renderer at slot 0 returns the
    number of nodes. *)
Theorem root_is_whole (realloc malloc : Z -> bool) (p0 : JsonParse) (z : text)
    (p : JsonParse) :
  len z < 2 ^ 31 - 1 ->
  jsonParse realloc p0 (Some z) = Ok (0, p) -> oom p = false ->
  1 <= nNode p ->
  exists nd,
    node_at (aNode p) 0 = Ok nd /\
    (is_container (eType nd) = true -> n nd = nNode p - 1) /\
    (is_container (eType nd) = false -> nNode p = 1) /\
    forall out, acc_ok out -> Accum.nUsed out + len z <= acc_limit ->
      exists out', jsonRenderNode malloc (aNode p) z 0 out = Ok (nNode p, out').
Proof.
  intros Hsmall H Ho Hone.
  destruct (jsonParse_shape realloc p0 z p Hsmall H Ho)
    as (Hz & Hn & [Hnil|(t & Ht & Ha & Htx)]).
  { rewrite Hnil in Hn. change (len (@nil JsonNode)) with 0 in Hn. lia. }
  destruct t as [nd kids]. rewrite flatten_eq in Ha.
  pose proof (len_nonneg (flat kids)) as Hk0.
  assert (Hcount : nNode p = 1 + len (flat kids)) by (rewrite Hn, Ha; len_norm; lia).
  exists nd. split; [rewrite Ha; reflexivity|].
  split; [|split].
  - intros Hc. inversion Ht as [? Hlit Hraw|? off Hsp Hraw Hc' Hoff Hn0 Hfit
                               |? ? Hty Hraw Hsz Hk|? ? Hty Hraw Hsz Hev Hk]; subst;
      try (destruct (eType nd); discriminate); lia.
  - intros Hc. inversion Ht as [? Hlit Hraw|? off Hsp Hraw Hc' Hoff Hn0 Hfit
                               |? ? Hty Hraw Hsz Hk|? ? Hty Hraw Hsz Hev Hk]; subst;
      try (rewrite Hty in Hc; discriminate);
      rewrite Hcount; change (len (flat [])) with 0; lia.
  - intros out Hok Hlim.
    pose proof (shaped_nodes_le_text z _ Ht) as Hnt. rewrite flatten_eq in Hnt.
    assert (Hsm : len (aNode p) < 2 ^ 31 - 1) by (rewrite Ha; lia).
    destruct (render_shaped malloc (Accum.jsonAppendString malloc) (aNode p) z Hsm
                ltac:(lia) (Tree nd kids) Ht
                (S (length (aNode p))) ltac:(rewrite Ha, flatten_eq; lia)
                [] [] out ltac:(rewrite app_nil_r; exact Ha) Hok ltac:(lia))
      as (out' & E & _).
    exists out'. unfold jsonRenderNode, jsonRenderNode_with.
    change 0 with (len (@nil JsonNode)) at 1. rewrite E, flatten_eq. len_norm.
    f_equal. f_equal. lia.
Qed.

Lemma root_is_whole_witness :
  len nested_text < 2 ^ 31 - 1 /\
  jsonParse all_memory empty_parse (Some nested_text) = Ok (0, nested_parse) /\
  oom nested_parse = false /\
  1 <= nNode nested_parse /\
  exists nd,
    node_at (aNode nested_parse) 0 = Ok nd /\
    (is_container (eType nd) = true -> n nd = nNode nested_parse - 1) /\
    (is_container (eType nd) = false -> nNode nested_parse = 1) /\
    forall out, acc_ok out -> Accum.nUsed out + len nested_text <= acc_limit ->
      exists out',
        jsonRenderNode all_memory (aNode nested_parse) nested_text 0 out
          = Ok (nNode nested_parse, out').
Proof.
  assert (H1 : len nested_text < 2 ^ 31 - 1) by (vm_compute; reflexivity).
  assert (H2 : jsonParse all_memory empty_parse (Some nested_text) = Ok (0, nested_parse))
    by (vm_compute; reflexivity).
  assert (H3 : oom nested_parse = false) by reflexivity.
  assert (H4 : 1 <= nNode nested_parse) by (vm_compute; discriminate).
  split; [exact H1|]. split; [exact H2|]. split; [exact H3|]. split; [exact H4|].
  exact (root_is_whole all_memory all_memory empty_parse nested_text nested_parse
           H1 H2 H3 H4).
Defined.

(** * A parse during which the array could not grow *)

(** C2: the parse of the array of seven numbers and an object of one
    member returns 0 when the allocator grants the first request, of 160
    bytes for ten slots, and refuses the next: the value of the member
    gets no node, as
    the case of the numbers does not look at what [jsonParseAddNode]
    returns.  The object at slot 8 is left with [n] 1, its key alone, and
    the renderer, called at that slot, reads the slot after the last of
    the array for the value. *)
Theorem size_fails_after_refusal (malloc : Z -> bool) (p0 : JsonParse)
    (ctx : sqlite3_context) :
  jsonParse first_array_only p0 (Some full_array_text) = Ok (0, truncated_parse) /\
  oom truncated_parse = true /\ nNode truncated_parse = 10 /\
  node_at (aNode truncated_parse) 8 = Ok (mkNode JSON_OBJECT false 1 None) /\
  node_at (aNode truncated_parse) 10 = Undefined /\
  jsonRenderNode malloc (aNode truncated_parse) full_array_text 8 (Accum.jsonInit ctx)
  = Undefined.
Proof. repeat split; reflexivity. Qed.

(** C10: in the same parse, which returns 0 and has ten nodes, slot 0 is
    an array whose [n] is one less than the number of nodes; the
    renderer, called at slot 0, comes to the object at slot 8 and reads
    the slot after the last of the array, and so does json_test1. *)
Theorem root_fails_after_refusal (malloc : Z -> bool) (p0 : JsonParse)
    (ctx : sqlite3_context) :
  jsonParse first_array_only p0 (Some full_array_text) = Ok (0, truncated_parse) /\
  1 <= nNode truncated_parse /\
  node_at (aNode truncated_parse) 0 = Ok (mkNode JSON_ARRAY false 9 None) /\
  9 = nNode truncated_parse - 1 /\
  jsonRenderNode malloc (aNode truncated_parse) full_array_text 0 (Accum.jsonInit ctx)
  = Undefined /\
  jsonTest1Func first_array_only malloc p0 ctx (SqlText full_array_text) = Undefined.
Proof. repeat split; try reflexivity. vm_compute. discriminate. Qed.

(** * The parser returns

    Every recursive call starts further into the text, so the fuel of
    [jsonParse] is enough for every text. *)

Lemma scan_string_returns z : forall k j,
  len z < 2 ^ 32 - 2 -> 0 <= j -> (Z.to_nat (len z - j) < k)%nat ->
  exists r, scan_string z k j = Ok r.
Proof.
  induction k as [|k IH]; intros j Hz Hj Hk; [lia|]. cbn [scan_string]. cbv zeta.
  destruct (Ascii.eqb (zAt z j) NUL) eqn:E0; [eexists; reflexivity|].
  apply eqb_false_inside in E0.
  destruct (Ascii.eqb (zAt z j) BSLASH).
  - rewrite (u32_small (j + 1)) by lia.
    destruct (Ascii.eqb (zAt z (j + 1)) NUL) eqn:E1; [eexists; reflexivity|].
    apply eqb_false_inside in E1. rewrite u32_small by lia. apply IH; lia.
  - destruct (Ascii.eqb (zAt z j) DQUOTE); [eexists; reflexivity|].
    rewrite u32_small by lia. apply IH; lia.
Qed.

Lemma scan_number_returns z : forall k j dp e,
  len z < 2 ^ 32 - 2 -> 0 <= j <= len z -> (Z.to_nat (len z - j) < k)%nat ->
  exists r, scan_number z k j dp e = Ok r.
Proof.
  induction k as [|k IH]; intros j dp e Hz Hj Hk; [lia|]. cbn [scan_number]. cbv zeta.
  destruct (is_digit_char (zAt z j)) eqn:Ed.
  { apply is_digit_char_inside in Ed. rewrite u32_small by lia. apply IH; lia. }
  destruct (is_chr (zAt z j) ".") eqn:Edot.
  { apply is_chr_inside in Edot; [|discriminate].
    destruct (is_chr _ "-"); [eexists; reflexivity|].
    destruct dp; [eexists; reflexivity|].
    rewrite u32_small by lia. apply IH; lia. }
  destruct (is_chr (zAt z j) "e" || is_chr (zAt z j) "E") eqn:Ee.
  { assert (Hin0 : 0 <= j < len z).
    { apply orb_true_iff in Ee as [Ee|Ee]; apply is_chr_inside in Ee; auto; discriminate. }
    destruct (_ <? 48); [eexists; reflexivity|]. destruct e; [eexists; reflexivity|].
    rewrite (u32_small (j + 1)) by lia.
    destruct (is_chr (zAt z (j + 1)) "+" || is_chr (zAt z (j + 1)) "-") eqn:Es.
    - assert (Hin1 : 0 <= j + 1 < len z).
      { apply orb_true_iff in Es as [Es|Es]; apply is_chr_inside in Es; auto; discriminate. }
      rewrite u32_small by lia. apply IH; lia.
    - rewrite u32_small by lia. apply IH; lia. }
  eexists. reflexivity.
Qed.

Lemma jsonParseAddNode_zJson realloc p ty m c r :
  jsonParseAddNode realloc p ty m c = Ok r -> zJson (snd r) = zJson p.
Proof.
  unfold jsonParseAddNode, push_node, set_oom, freed_array.
  repeat match goal with |- context [if ?b then _ else _] => destruct b end;
    intros [= <-]; reflexivity.
Qed.

(** Adding a node writes outside the array or returns. *)
Lemma jsonParseAddNode_returns realloc p ty m c :
  jsonParseAddNode realloc p ty m c = Undefined \/
  exists r, jsonParseAddNode realloc p ty m c = Ok r /\ zJson (snd r) = zJson p.
Proof.
  destruct (jsonParseAddNode realloc p ty m c) as [r| |] eqn:E.
  - right. exists r. split; [reflexivity|]. eapply jsonParseAddNode_zJson, E.
  - left. reflexivity.
  - exfalso. revert E. unfold jsonParseAddNode.
    repeat match goal with |- context [if ?b then _ else _] => destruct b end;
      discriminate.
Qed.

Lemma close_container_returns z q iThis j :
  zJson q = z -> 0 <= j < len z -> len z < 2 ^ 31 - 1 ->
  close_container q iThis j = Undefined \/
  exists p', close_container q iThis j = Ok (j + 1, p') /\ zJson p' = z.
Proof.
  intros Hz Hj Hsmall. unfold close_container, set_n.
  destruct (node_at _ _) as [nd| |] eqn:E; cbn [bind].
  - right. eexists. rewrite u32_small, to_int_small by lia.
    split; [reflexivity|exact Hz].
  - left. reflexivity.
  - unfold node_at in E. repeat match type of E with
      | (if ?b then _ else _) = _ => destruct b
      | match ?o with _ => _ end = _ => destruct o
      end; discriminate.
Qed.

Section ParserReturns.

Variable z : text.
Hypothesis z_small : len z < 2 ^ 31 - 1.
Hypothesis z_head : head_ok z.

Lemma parse_array_returns rec lo :
  returns_from z lo rec -> 0 <= lo ->
  forall k p iThis j,
    zJson p = z -> lo <= j <= len z -> (Z.to_nat (len z - j) < k)%nat ->
    parse_array rec k p iThis j = Undefined \/
    exists x p', parse_array rec k p iThis j = Ok (x, p') /\ zJson p' = z /\
                 (x = -1 \/ j < x <= len z).
Proof.
  intros Hrec Hlo. induction k as [|k IH]; intros p iThis j Hz Hj Hk; [lia|].
  cbn [parse_array]. cbv zeta. rewrite Hz.
  pose proof (skip_space_bounds z j ltac:(lia) ltac:(lia)) as Hj1.
  set (j1 := skip_space z j) in *.
  destruct (Hrec p j1 Hz ltac:(lia)) as [E|(y & q & E & Hzq & Hy)]; rewrite E;
    cbn [bind fst snd]; [left; reflexivity|].
  destruct (Z.ltb_spec y 0) as [Hneg|Hpos].
  { destruct (_ && _) eqn:Ec; right; do 2 eexists;
      (split; [reflexivity|]); (split; [exact Hzq|]); [|left; reflexivity].
    apply andb_true_iff in Ec as [Ec _]. apply Z.eqb_eq in Ec.
    pose proof (skip_space_bounds z j1 ltac:(lia) ltac:(lia)) as Hj2.
    destruct Hy as [->|[[_ Hy]|[->|Hy]]]; try lia.
    right. rewrite u32_small, to_int_small; lia. }
  destruct Hy as [Hy|[[Hy _]|[->|Hy]]]; try lia.
  - (* the end of the text *)
    rewrite (head_not z z_head ","), (head_not z z_head "]") by (simpl; auto).
    right. do 2 eexists. split; [reflexivity|]. split; [exact Hzq|]. left. reflexivity.
  - rewrite (u32_small y) by lia.
    pose proof (skip_space_bounds z y ltac:(lia) ltac:(lia)) as Hj2.
    set (j2 := skip_space z y) in *.
    destruct (is_chr (zAt z j2) ",") eqn:Ecomma.
    + apply is_chr_inside in Ecomma; [|discriminate].
      rewrite (u32_small (j2 + 1)) by lia.
      destruct (IH q iThis (j2 + 1) Hzq ltac:(lia) ltac:(lia))
        as [E'|(x & p' & E' & Hz' & Hx)]; rewrite E'; [left; reflexivity|].
      right. exists x, p'. split; [reflexivity|]. split; [exact Hz'|]. lia.
    + destruct (is_chr (zAt z j2) "]") eqn:Eclose; cbn [negb].
      * apply is_chr_inside in Eclose; [|discriminate].
        destruct (close_container_returns z q iThis j2 Hzq ltac:(lia) z_small)
          as [E'|(p' & E' & Hz')]; rewrite E'; [left; reflexivity|].
        right. exists (j2 + 1), p'. split; [reflexivity|]. split; [exact Hz'|]. lia.
      * right. do 2 eexists. split; [reflexivity|]. split; [exact Hzq|].
        left. reflexivity.
Qed.

Lemma node_at_returns nodes i :
  node_at nodes i = Undefined \/ exists nd, node_at nodes i = Ok nd.
Proof.
  unfold node_at. destruct (i <? 0); [left; reflexivity|].
  destruct (nodes !! Z.to_nat i); [right; eexists; reflexivity|left; reflexivity].
Qed.

Lemma parse_object_returns rec lo :
  returns_from z lo rec -> 0 <= lo ->
  forall k p iThis j,
    zJson p = z -> lo <= j <= len z -> (Z.to_nat (len z - j) < k)%nat ->
    parse_object rec k p iThis j = Undefined \/
    exists x p', parse_object rec k p iThis j = Ok (x, p') /\ zJson p' = z /\
                 (x = -1 \/ j < x <= len z).
Proof.
  intros Hrec Hlo. induction k as [|k IH]; intros p iThis j Hz Hj Hk; [lia|].
  cbn [parse_object]. cbv zeta. rewrite Hz.
  pose proof (skip_space_bounds z j ltac:(lia) ltac:(lia)) as Hj1.
  set (j1 := skip_space z j) in *.
  destruct (Hrec p j1 Hz ltac:(lia)) as [E|(y & q & E & Hzq & Hy)]; rewrite E;
    cbn [bind fst snd]; [left; reflexivity|].
  destruct (Z.ltb_spec y 0) as [Hneg|Hpos].
  { destruct (_ && _) eqn:Ec; right; do 2 eexists;
      (split; [reflexivity|]); (split; [exact Hzq|]); [|left; reflexivity].
    apply andb_true_iff in Ec as [Ec _]. apply Z.eqb_eq in Ec.
    pose proof (skip_space_bounds z j1 ltac:(lia) ltac:(lia)) as Hj2.
    destruct Hy as [->|[[_ Hy]|[->|Hy]]]; try lia.
    right. rewrite u32_small, to_int_small; lia. }
  destruct (node_at_returns (aNode q) (u32 (nNode q - 1))) as [En|[last En]];
    rewrite En; cbn [bind]; [left; reflexivity|].
  destruct (negb (JsonType_eqb (eType last) JSON_STRING)).
  { right. do 2 eexists. split; [reflexivity|]. split; [exact Hzq|]. left. reflexivity. }
  destruct Hy as [Hy|[[Hy _]|[->|Hy]]]; try lia.
  { (* the end of the text after the key *)
    rewrite (head_not z z_head ":") by (simpl; auto). cbn [negb].
    right. do 2 eexists. split; [reflexivity|]. split; [exact Hzq|]. left. reflexivity. }
  rewrite (u32_small y) by lia.
  pose proof (skip_space_bounds z y ltac:(lia) ltac:(lia)) as Hj2.
  set (j2 := skip_space z y) in *.
  destruct (is_chr (zAt z j2) ":") eqn:Ecolon; cbn [negb];
    [|right; do 2 eexists; split; [reflexivity|]; split; [exact Hzq|]; left; reflexivity].
  apply is_chr_inside in Ecolon; [|discriminate].
  rewrite (u32_small (j2 + 1)) by lia.
  destruct (Hrec q (j2 + 1) Hzq ltac:(lia)) as [E2|(y2 & q2 & E2 & Hzq2 & Hy2)];
    rewrite E2; cbn [bind fst snd]; [left; reflexivity|].
  destruct (Z.ltb_spec y2 0) as [Hneg2|Hpos2].
  { right. do 2 eexists. split; [reflexivity|]. split; [exact Hzq2|]. left. reflexivity. }
  destruct Hy2 as [Hy2|[[Hy2 _]|[->|Hy2]]]; try lia.
  { (* the end of the text after the value *)
    rewrite (head_not z z_head ","), (head_not z z_head "}") by (simpl; auto).
    right. do 2 eexists. split; [reflexivity|]. split; [exact Hzq2|]. left. reflexivity. }
  rewrite (u32_small y2) by lia.
  pose proof (skip_space_bounds z y2 ltac:(lia) ltac:(lia)) as Hj4.
  set (j4 := skip_space z y2) in *.
  destruct (is_chr (zAt z j4) ",") eqn:Ecomma.
  - apply is_chr_inside in Ecomma; [|discriminate].
    rewrite (u32_small (j4 + 1)) by lia.
    destruct (IH q2 iThis (j4 + 1) Hzq2 ltac:(lia) ltac:(lia))
      as [E'|(x & p' & E' & Hz' & Hx)]; rewrite E'; [left; reflexivity|].
    right. exists x, p'. split; [reflexivity|]. split; [exact Hz'|]. lia.
  - destruct (is_chr (zAt z j4) "}") eqn:Eclose; cbn [negb].
    + apply is_chr_inside in Eclose; [|discriminate].
      destruct (close_container_returns z q2 iThis j4 Hzq2 ltac:(lia) z_small)
        as [E'|(p' & E' & Hz')]; rewrite E'; [left; reflexivity|].
      right. exists (j4 + 1), p'. split; [reflexivity|]. split; [exact Hz'|]. lia.
    + right. do 2 eexists. split; [reflexivity|]. split; [exact Hzq2|].
      left. reflexivity.
Qed.

Lemma jsonParseValue_returns realloc : forall fuel lo,
  0 <= lo -> (Z.to_nat (len z - lo) < fuel)%nat ->
  returns_from z lo (jsonParseValue realloc fuel).
Proof.
  induction fuel as [|f IH]; intros lo Hlo Hfuel p i Hz Hi; [lia|].
  cbn [jsonParseValue]. cbv zeta. rewrite Hz.
  pose proof (skip_space_bounds z i ltac:(lia) ltac:(lia)) as Hi1.
  set (i1 := skip_space z i) in *.
  assert (Herr : forall q, zJson q = z ->
            exists x p', @Ok (Z * JsonParse) (-1, q) = Ok (x, p') /\ zJson p' = z /\
                         call_post z i x).
  { intros q Hq. exists (-1), q. split; [reflexivity|]. split; [exact Hq|].
    left. reflexivity. }
  assert (Hval : forall x q, zJson q = z -> i1 < x <= len z ->
            exists x' p', @Ok (Z * JsonParse) (x, q) = Ok (x', p') /\ zJson p' = z /\
                          call_post z i x').
  { intros x q Hq Hx. exists x, q. split; [reflexivity|]. split; [exact Hq|].
    right. right. right. lia. }
  assert (Hscalar : forall ty m c x, i1 < x <= len z ->
            (r <- jsonParseAddNode realloc p ty m c ;; Ok (x, snd r)) = Undefined \/
            exists x' p',
              (r <- jsonParseAddNode realloc p ty m c ;; Ok (x, snd r)) = Ok (x', p') /\
              zJson p' = z /\ call_post z i x').
  { intros ty m c x Hx.
    destruct (jsonParseAddNode_returns realloc p ty m c) as [E|(r & E & Hr)];
      rewrite E; cbn [bind]; [left; reflexivity|right].
    apply Hval; [congruence|exact Hx]. }
  destruct (Ascii.eqb (zAt z i1) NUL) eqn:Enul.
  { right. exists 0, p. split; [reflexivity|]. split; [exact Hz|]. right. right. left.
    reflexivity. }
  apply eqb_false_inside in Enul.
  destruct (is_chr (zAt z i1) "{").
  { destruct (jsonParseAddNode_returns realloc p JSON_OBJECT 0 None) as [Ea|(r & Ea & Hzr)];
      rewrite Ea; cbn [bind]; [left; reflexivity|].
    pose proof (u32_range (fst r)) as Hr.
    destruct (Z.ltb_spec (u32 (fst r)) 0) as [|_]; [lia|].
    rewrite (u32_small (i1 + 1)) by lia.
    destruct (parse_object_returns (jsonParseValue realloc f) (i1 + 1)
                (IH (i1 + 1) ltac:(lia) ltac:(lia)) ltac:(lia) f
                (snd r) (u32 (fst r)) (i1 + 1)
                ltac:(congruence) ltac:(lia) ltac:(lia))
      as [E|(x & p' & E & Hz' & Hx)]; rewrite E; [left; reflexivity|].
    right. exists x, p'. split; [reflexivity|]. split; [exact Hz'|].
    destruct Hx as [->|Hx]; [left; reflexivity|right; right; right; lia]. }
  destruct (is_chr (zAt z i1) "[").
  { destruct (jsonParseAddNode_returns realloc p JSON_ARRAY 0 None) as [Ea|(r & Ea & Hzr)];
      rewrite Ea; cbn [bind]; [left; reflexivity|].
    pose proof (u32_range (fst r)) as Hr.
    destruct (Z.ltb_spec (u32 (fst r)) 0) as [|_]; [lia|].
    rewrite (u32_small (i1 + 1)) by lia.
    destruct (parse_array_returns (jsonParseValue realloc f) (i1 + 1)
                (IH (i1 + 1) ltac:(lia) ltac:(lia)) ltac:(lia) f
                (snd r) (u32 (fst r)) (i1 + 1)
                ltac:(congruence) ltac:(lia) ltac:(lia))
      as [E|(x & p' & E & Hz' & Hx)]; rewrite E; [left; reflexivity|].
    right. exists x, p'. split; [reflexivity|]. split; [exact Hz'|].
    destruct Hx as [->|Hx]; [left; reflexivity|right; right; right; lia]. }
  destruct (Ascii.eqb (zAt z i1) DQUOTE).
  { rewrite (u32_small (i1 + 1)) by lia.
    destruct (scan_string_returns z (S (length z)) (i1 + 1) ltac:(lia) ltac:(lia))
      as [r Es]; [unfold len in *; lia|].
    rewrite Es. cbn [bind]. destruct r as [j|]; [|right; apply Herr, Hz].
    apply scan_string_bounds in Es; [|lia|lia].
    rewrite (u32_small (j + 1)), to_int_small by lia. apply Hscalar. lia. }
  destruct (literal_at z i1 (zAt z i1) "null") eqn:Enull.
  { apply literal_at_inside in Enull; [|lia|vm_compute; reflexivity].
    change (len (txt "null")) with 4 in Enull.
    rewrite u32_small, to_int_small by lia. apply Hscalar. lia. }
  destruct (literal_at z i1 (zAt z i1) "true") eqn:Etrue.
  { apply literal_at_inside in Etrue; [|lia|vm_compute; reflexivity].
    change (len (txt "true")) with 4 in Etrue.
    rewrite u32_small, to_int_small by lia. apply Hscalar. lia. }
  destruct (literal_at z i1 (zAt z i1) "false") eqn:Efalse.
  { apply literal_at_inside in Efalse; [|lia|vm_compute; reflexivity].
    change (len (txt "false")) with 5 in Efalse.
    rewrite u32_small, to_int_small by lia. apply Hscalar. lia. }
  destruct (is_chr (zAt z i1) "-" || is_digit_char (zAt z i1)).
  { rewrite (u32_small (i1 + 1)) by lia.
    destruct (scan_number_returns z (S (length z)) (i1 + 1) false false
                ltac:(lia) ltac:(lia))
      as [r Es]; [unfold len in *; lia|].
    rewrite Es. cbn [bind]. destruct r as [[j dp]|]; [|right; apply Herr, Hz].
    apply scan_number_bounds in Es; [|lia|lia].
    destruct (_ <? 48); [right; apply Herr, Hz|].
    rewrite to_int_small by lia. apply Hscalar. lia. }
  destruct (is_chr (zAt z i1) "}").
  { right. exists (-2), p. split; [reflexivity|]. split; [exact Hz|].
    right. left. split; [left; reflexivity|]. fold i1. lia. }
  destruct (is_chr (zAt z i1) "]"); right.
  - exists (-3), p. split; [reflexivity|]. split; [exact Hz|].
    right. left. split; [right; reflexivity|]. fold i1. lia.
  - apply Herr, Hz.
Qed.

End ParserReturns.

(** A separator or a closing bracket where the text starts. *)
Lemma jsonParseValue_separator realloc f p c :
  zAt (zJson p) (skip_space (zJson p) 0) = c ->
  c = chr "," \/ c = chr ":" \/ c = chr "]" \/ c = chr "}" ->
  exists x, x < 0 /\ jsonParseValue realloc (S f) p 0 = Ok (x, p).
Proof.
  intros Hc Hsep.
  assert (Hdisp : Ascii.eqb c NUL = false /\ is_chr c "{" = false /\
                  is_chr c "[" = false /\ Ascii.eqb c DQUOTE = false /\
                  Ascii.eqb c (chr "null") = false /\ Ascii.eqb c (chr "true") = false /\
                  Ascii.eqb c (chr "false") = false /\
                  is_chr c "-" || is_digit_char c = false /\
                  exists x, x < 0 /\
                    (if is_chr c "}" then Ok (-2, p) else
                     if is_chr c "]" then Ok (-3, p) else Ok (-1, p)) = Ok (x, p)).
  { destruct Hsep as [ -> | [ -> | [ -> | -> ] ] ]; repeat split; try reflexivity;
      eexists; (split; [|reflexivity]); lia. }
  destruct Hdisp as (D1 & D2 & D3 & D4 & D5 & D6 & D7 & D8 & x & Hx & D9).
  exists x. split; [exact Hx|].
  cbn [jsonParseValue]. cbv zeta.
  rewrite Hc. unfold literal_at. rewrite D1, D2, D3, D4, D5, D6, D7, D8. cbn [andb].
  exact D9.
Qed.

(** [jsonParse] returns 0 or 1 on every text of less than 2^31 - 1 bytes,
    unless an access goes outside the node array. *)
Lemma jsonParse_returns realloc p0 z :
  len z < 2 ^ 31 - 1 ->
  jsonParse realloc p0 (Some z) = Undefined \/
  exists rc p, jsonParse realloc p0 (Some z) = Ok (rc, p) /\ (rc = 0 \/ rc = 1).
Proof.
  intros Hsmall. unfold jsonParse, parse_fuel.
  set (p00 := mkParse 0 0 [] z false).
  assert (Hcall : jsonParseValue realloc (S (S (length z))) p00 0 = Undefined \/
                  exists x p', jsonParseValue realloc (S (S (length z))) p00 0 = Ok (x, p')).
  { set (c := zAt z (skip_space z 0)).
    destruct (is_chr c ",") eqn:E1; [|destruct (is_chr c ":") eqn:E2;
      [|destruct (is_chr c "]") eqn:E3; [|destruct (is_chr c "}") eqn:E4]]].
    1-4: right;
      destruct (jsonParseValue_separator realloc (S (length z)) p00 c eq_refl)
        as (x & _ & E); [|exists x, p00; exact E].
    - left. apply Ascii.eqb_eq, E1.
    - right. left. apply Ascii.eqb_eq, E2.
    - right. right. left. apply Ascii.eqb_eq, E3.
    - right. right. right. apply Ascii.eqb_eq, E4.
    - pose proof (len_nonneg z).
      destruct (jsonParseValue_returns z Hsmall (conj E1 (conj E2 (conj E3 E4))) realloc
                  (S (S (length z))) 0 ltac:(lia) ltac:(unfold len; lia) p00 0 eq_refl
                  ltac:(lia))
        as [E|(x & p' & E & _)]; [left; exact E|right; exists x, p'; exact E]. }
  destruct Hcall as [E|(x & p' & E)]; rewrite E; cbn [bind fst snd];
    [left; reflexivity|].
  destruct (_ <? 0); [|right; do 2 eexists; (split; [reflexivity|]); auto].
  unfold free_nodes. destruct (dangling p'); cbn [bind]; [left; reflexivity|].
  right. do 2 eexists. split; [reflexivity|]. auto.
Qed.

(** * A failed parse *)

(** C8: on every text of less than 2^31 - 1 bytes [jsonParse] returns,
    with 0 or with 1, unless an access goes outside the node array; and
    whenever it reports a failure for a text, the node array is gone: no
    node, no slot, no array; so it is for the object text with a comma
    before the closing brace. *)
Theorem failed_parse_discards (realloc : Z -> bool) (p0 : JsonParse) :
  (forall z, len z < 2 ^ 31 - 1 ->
     jsonParse realloc p0 (Some z) = Undefined \/
     exists rc p, jsonParse realloc p0 (Some z) = Ok (rc, p) /\ (rc = 0 \/ rc = 1)) /\
  (forall z rc p,
      jsonParse realloc p0 (Some z) = Ok (rc, p) -> rc <> 0 ->
      rc = 1 /\ discarded p) /\
  (realloc 160 = true ->
   exists p, jsonParse realloc p0 (Some trailing_comma_object) = Ok (1, p) /\
             discarded p).
Proof.
  split; [|split].
  - intros z Hsmall. apply jsonParse_returns, Hsmall.
  - intros z rc p H Hrc.
    destruct (jsonParse_failed _ _ _ _ _ H Hrc) as (i & q & _ & -> & ->).
    split; [reflexivity|]. split; [|split]; reflexivity.
  - intros H. exists (mkParse 0 0 [] trailing_comma_object false).
    split; [rewrite (jsonParse_ext _ _ (grants_first_ext realloc H)); vm_compute;
            reflexivity|].
    split; [|split]; reflexivity.
Qed.

Lemma failed_parse_discards_witness :
  len (txt "1.2.3") < 2 ^ 31 - 1 /\
  jsonParse all_memory (mkParse 0 0 [] [] false) (Some (txt "1.2.3"))
    = Ok (1, mkParse 0 0 [] (txt "1.2.3") false) /\
  1 <> 0 /\ all_memory 160 = true /\
  (jsonParse all_memory (mkParse 0 0 [] [] false) (Some (txt "1.2.3")) = Undefined \/
   exists rc p, jsonParse all_memory (mkParse 0 0 [] [] false) (Some (txt "1.2.3"))
                = Ok (rc, p) /\ (rc = 0 \/ rc = 1)) /\
  (1 = 1 /\ discarded (mkParse 0 0 [] (txt "1.2.3") false)) /\
  exists p, jsonParse all_memory (mkParse 0 0 [] [] false)
              (Some trailing_comma_object) = Ok (1, p) /\ discarded p.
Proof.
  pose proof (failed_parse_discards all_memory (mkParse 0 0 [] [] false))
    as (Hret & Hall & Hex).
  assert (H1 : len (txt "1.2.3") < 2 ^ 31 - 1) by (vm_compute; reflexivity).
  split; [exact H1|]. split; [reflexivity|]. split; [lia|]. split; [reflexivity|].
  split; [exact (Hret (txt "1.2.3") H1)|].
  split.
  - apply (Hall (txt "1.2.3") 1 _); [reflexivity | lia].
  - apply Hex. reflexivity.
Defined.

(** * The spans of the nodes, whatever the allocator answers *)

Lemma extends_refl p : extends p p.
Proof.
  split; [auto|]. right. intros k nd H. exists nd. split; [exact H|reflexivity].
Qed.

Lemma extends_trans p q r : extends p q -> extends q r -> extends p r.
Proof.
  intros (Hd1 & H1) (Hd2 & H2). split; [auto|].
  destruct H2 as [H2|H2]; [left; exact H2|].
  destruct H1 as [H1|H1].
  - left. apply Hd2, H1.
  - right. intros k nd Hk. destruct (H1 k nd Hk) as (nd1 & Hk1 & E1).
    destruct (H2 k nd1 Hk1) as (nd2 & Hk2 & E2).
    exists nd2. split; [exact Hk2|congruence].
Qed.

Lemma dangling_nil p : dangling p = true -> aNode p = [].
Proof. unfold dangling. destruct (aNode p); [reflexivity|discriminate]. Qed.

(** A slot that held a container holds one as long as it can be read. *)
Lemma container_at_later z p q i nd :
  container_at p i -> extends p q -> state_ok z q ->
  node_at (aNode q) i = Ok nd -> is_container (eType nd) = true.
Proof.
  intros Hc (_ & He) (_ & _ & Ha) Hnd.
  apply node_at_lookup in Hnd as [Hi Hnd].
  destruct He as [He|He].
  { apply dangling_nil in He. rewrite He in Hnd. discriminate. }
  destruct Hc as [(nd0 & H0 & Hty)|Hbig].
  - apply node_at_lookup in H0 as [_ H0].
    destruct (He _ _ H0) as (nd' & Hq & E). congruence.
  - destruct Ha as [Ha|(Hn & Hle & Hcap)].
    { apply dangling_nil in Ha. rewrite Ha in Hnd. discriminate. }
    apply lookup_lt_Some in Hnd. unfold len in *. lia.
Qed.

Lemma set_n_state z p i v p' :
  state_ok z p ->
  (forall nd, node_at (aNode p) i = Ok nd -> is_container (eType nd) = true) ->
  set_n p i v = Ok p' -> state_ok z p' /\ extends p p'.
Proof.
  intros (Hz & Hs & Ha) Hc. unfold set_n.
  destruct (node_at (aNode p) i) as [nd| |] eqn:E; cbn [bind]; try discriminate.
  intros [= <-]. specialize (Hc nd eq_refl).
  apply node_at_lookup in E as [Hi E].
  assert (Hlt : (Z.to_nat i < length (aNode p))%nat) by (eapply lookup_lt_Some; exact E).
  assert (Hd : dangling p = false).
  { unfold dangling. destruct (aNode p); [discriminate|reflexivity]. }
  split; [split; [exact Hz|split]|].
  - cbn [aNode]. unfold spans_in in *. rewrite Forall_lookup in Hs |- *.
    intros k x Hk. destruct (decide (k = Z.to_nat i)) as [->|Hne].
    + rewrite list_lookup_insert_eq in Hk by exact Hlt. injection Hk as <-.
      unfold span_inside. cbn [eType].
      destruct (eType nd); try discriminate; reflexivity.
    + rewrite list_lookup_insert_ne in Hk by congruence. eapply Hs, Hk.
  - destruct Ha as [Ha|(Hn & Hcap)]; [congruence|]. right.
    cbn [nNode nAlloc aNode]. unfold len in *. rewrite length_insert.
    split; assumption.
  - split; [congruence|]. right. cbn [aNode]. intros k x Hk.
    destruct (decide (k = Z.to_nat i)) as [->|Hne].
    + rewrite list_lookup_insert_eq by exact Hlt. eexists. split; [reflexivity|].
      cbn [eType]. congruence.
    + rewrite list_lookup_insert_ne by congruence. exists x. auto.
Qed.

Lemma close_container_state z p b iThis j x p' :
  state_ok z p -> container_at b iThis -> extends b p ->
  close_container p iThis j = Ok (x, p') -> state_ok z p' /\ extends p p'.
Proof.
  intros Hok Hc He. unfold close_container.
  destruct (set_n p iThis _) as [q| |] eqn:E; cbn [bind]; try discriminate.
  intros [= <- <-]. eapply set_n_state; [exact Hok| |exact E].
  intros nd. apply (container_at_later z b p iThis nd Hc He Hok).
Qed.

(** ** Adding a node *)

Lemma span_inside_app z nodes nd :
  spans_in z nodes -> span_inside z nd = true -> spans_in z (nodes ++ [nd]).
Proof.
  intros H Hnd. apply Forall_app. split; [exact H|]. constructor; [exact Hnd|constructor].
Qed.

(** The node is pushed at the slot [nNode], or nothing is added and the
    array is as it was or freed. *)
Lemma add_state realloc z p ty m c r :
  state_ok z p -> span_inside z (mkNode ty false m c) = true ->
  jsonParseAddNode realloc p ty m c = Ok r ->
  state_ok z (snd r) /\ extends p (snd r) /\
  ((fst r = nNode p /\ 0 <= nNode p < 2 ^ 27 /\
    node_at (aNode (snd r)) (nNode p) = Ok (mkNode ty false m c)) \/
   fst r = -1).
Proof.
  intros (Hz & Hs & Ha) Hnd E. pose proof (len_nonneg (aNode p)) as H0.
  assert (Hsame : forall q, aNode q = aNode p -> nNode q = nNode p ->
            nAlloc q = nAlloc p -> zJson q = zJson p ->
            state_ok z q /\ extends p q).
  { intros q Ea En Ec Ezq. split; [split; [congruence|split]|].
    - rewrite Ea. exact Hs.
    - unfold array_ok, dangling in *. rewrite Ea, En, Ec. exact Ha.
    - split; [unfold dangling; rewrite Ea, En; auto|].
      right. rewrite Ea. intros k nd H. exists nd. auto. }
  assert (Hpush : forall a, dangling p = false -> nNode p < a -> a < 2 ^ 27 ->
            state_ok z (snd (push_node p a (mkNode ty false m c))) /\
            extends p (snd (push_node p a (mkNode ty false m c))) /\
            fst (push_node p a (mkNode ty false m c)) = nNode p /\
            0 <= nNode p < 2 ^ 27 /\
            node_at (aNode (snd (push_node p a (mkNode ty false m c)))) (nNode p)
            = Ok (mkNode ty false m c)).
  { intros a Hd Hlt Hcap.
    destruct Ha as [Ha|(Hn & Hle & Hc)]; [congruence|].
    unfold push_node. cbn [fst snd aNode nNode nAlloc zJson].
    rewrite to_int_small, u32_small by lia.
    assert (Hdq : forall nn cap zz oo,
              dangling (mkParse nn cap (aNode p ++ [mkNode ty false m c]) zz oo) = false).
    { intros. unfold dangling. cbn [aNode]. destruct (aNode p); reflexivity. }
    split; [split; [exact Hz|split]|split; [split|split; [|split]]].
    - cbn [aNode]. apply span_inside_app; assumption.
    - right. cbn [nNode nAlloc aNode]. len_norm. lia.
    - intros Hdp. congruence.
    - right. cbn [aNode]. intros k nd H. exists nd. split; [|reflexivity].
      apply lookup_app_l_Some. exact H.
    - reflexivity.
    - lia.
    - rewrite Hn. apply (node_at_app (aNode p) []). }
  unfold jsonParseAddNode in E.
  destruct (Z.leb_spec (nAlloc p) (nNode p)) as [Hfull|Hroom].
  - destruct (oom p) eqn:Ho.
    { injection E as <-. cbn [fst snd].
      destruct (Hsame p eq_refl eq_refl eq_refl eq_refl). auto. }
    destruct (Z.leb_spec (u32 (nAlloc p * 2 + 10)) (nNode p)) as [Hwrap|Hmore].
    { injection E as <-. cbn [fst snd].
      destruct (Hsame (set_oom p) eq_refl eq_refl eq_refl eq_refl). auto. }
    destruct (dangling p) eqn:Hd; [discriminate|].
    set (nNew := u32 (nAlloc p * 2 + 10)) in *.
    destruct (Z.leb_spec (node_bytes nNew) 0) as [Hneg|Hpos].
    { injection E as <-. cbn [fst snd].
      destruct Ha as [Ha|(Hn & Hle & Hc)]; [congruence|].
      assert (Hfreed : dangling (set_oom (freed_array p)) = true \/ aNode p = []).
      { unfold dangling, set_oom, freed_array. cbn [aNode nNode].
        destruct (Z.eqb_spec (nNode p) 0) as [E0|E0]; [right|left; reflexivity].
        rewrite E0 in Hn. destruct (aNode p); [reflexivity|].
        unfold len in Hn. cbn [length] in Hn. lia. }
      split; [|split; [|right; reflexivity]].
      - split; [exact Hz|]. split; [constructor|].
        destruct Hfreed as [Hf|Hf]; [left; exact Hf|].
        right. unfold set_oom, freed_array. cbn [nNode nAlloc aNode].
        rewrite Hf in Hn. change (len (@nil JsonNode)) with 0 in *. lia.
      - split; [congruence|].
        destruct Hfreed as [Hf|Hf]; [left; exact Hf|].
        right. rewrite Hf. intros k nd H. discriminate. }
    destruct (realloc (node_bytes nNew)).
    + destruct (Z.ltb_spec (node_bytes nNew) (sizeof_JsonNode * (nNode p + 1)));
        [discriminate|].
      injection E as <-.
      assert (Hr : 0 <= nNew < 2 ^ 32) by apply u32_range.
      assert (Hcap : nNew < 2 ^ 27).
      { destruct (Z.lt_ge_cases nNew (2 ^ 27)) as [|Hbig]; [assumption|exfalso].
        destruct Ha as [Ha|(Hn & Hle & Hc)]; [congruence|].
        assert (Hlt : nNew < 2 ^ 28 + 10).
        { unfold nNew. rewrite u32_small by lia. lia. }
        unfold node_bytes, sizeof_JsonNode in *.
        rewrite u64_small in * by lia.
        destruct (Z.lt_ge_cases nNew (2 ^ 28)) as [Hmid|Hhigh].
        - assert (to_int (16 * nNew) = 16 * nNew - 2 ^ 32).
          { unfold to_int.
            replace (16 * nNew + 2 ^ 31) with ((16 * nNew - 2 ^ 31) + 1 * 2 ^ 32) by lia.
            rewrite Z.mod_add by lia. rewrite Z.mod_small by lia. lia. }
          lia.
        - assert (to_int (16 * nNew) = 16 * nNew - 2 ^ 32).
          { unfold to_int.
            replace (16 * nNew + 2 ^ 31) with ((16 * nNew - 2 ^ 32 + 2 ^ 31) + 1 * 2 ^ 32)
              by lia.
            rewrite Z.mod_add by lia. rewrite Z.mod_small by lia. lia. }
          unfold nNew in *. rewrite u32_small in * by lia. lia. }
      destruct (Hpush nNew eq_refl ltac:(lia) Hcap) as (H1 & H2 & H3 & H4 & H5).
      split; [exact H1|]. split; [exact H2|]. left. auto.
    + injection E as <-. cbn [fst snd].
      destruct (Hsame (set_oom p) eq_refl eq_refl eq_refl eq_refl). auto.
  - destruct (dangling p) eqn:Hd; [discriminate|]. injection E as <-.
    destruct Ha as [Ha|(Hn & Hle & Hc)]; [congruence|].
    destruct (Hpush (nAlloc p) eq_refl ltac:(lia) Hc) as (H1 & H2 & H3 & H4 & H5).
      split; [exact H1|]. split; [exact H2|]. left. auto.
Qed.

Section Spans.

Variable realloc : Z -> bool.
Variable z : text.
Hypothesis z_small : len z < 2 ^ 32 - 2.

Lemma parse_array_spans rec :
  keeps_spans z rec ->
  forall k b p iThis j x p',
    container_at b iThis -> extends b p -> state_ok z p ->
    parse_array rec k p iThis j = Ok (x, p') ->
    state_ok z p' /\ extends p p'.
Proof.
  intros Hrec. induction k as [|k IH]; intros b p iThis j x p' Hc Hb Hok;
    [discriminate|].
  cbn [parse_array].
  destruct (rec p _) as [[y q]| |] eqn:E; cbn [bind fst snd]; try discriminate.
  destruct (Hrec _ _ _ _ Hok E) as (Hq & Hpq).
  pose proof (extends_trans _ _ _ Hb Hpq) as Hbq.
  destruct (y <? 0).
  { destruct (_ && _); intros [= <- <-]; auto. }
  destruct (is_chr _ ",").
  { intros H. destruct (IH b q iThis _ x p' Hc Hbq Hq H) as (H1 & H2).
    split; [exact H1|]. eapply extends_trans; eassumption. }
  destruct (negb _); [intros [= <- <-]; auto|].
  intros H. destruct (close_container_state z q b iThis _ x p' Hq Hc Hbq H) as (H1 & H2).
  split; [exact H1|]. eapply extends_trans; eassumption.
Qed.

Lemma parse_object_spans rec :
  keeps_spans z rec ->
  forall k b p iThis j x p',
    container_at b iThis -> extends b p -> state_ok z p ->
    parse_object rec k p iThis j = Ok (x, p') ->
    state_ok z p' /\ extends p p'.
Proof.
  intros Hrec. induction k as [|k IH]; intros b p iThis j x p' Hc Hb Hok;
    [discriminate|].
  cbn [parse_object].
  destruct (rec p _) as [[y q]| |] eqn:E; cbn [bind fst snd]; try discriminate.
  destruct (Hrec _ _ _ _ Hok E) as (Hq & Hpq).
  pose proof (extends_trans _ _ _ Hb Hpq) as Hbq.
  destruct (y <? 0).
  { destruct (_ && _); intros [= <- <-]; auto. }
  destruct (node_at _ _) as [last| |]; cbn [bind]; try discriminate.
  destruct (negb (JsonType_eqb _ _)); [intros [= <- <-]; auto|].
  destruct (negb (is_chr _ _)); [intros [= <- <-]; auto|].
  destruct (rec q _) as [[y2 q2]| |] eqn:E2; cbn [bind fst snd]; try discriminate.
  destruct (Hrec _ _ _ _ Hq E2) as (Hq2 & Hqq2).
  pose proof (extends_trans _ _ _ Hpq Hqq2) as Hpq2.
  pose proof (extends_trans _ _ _ Hb Hpq2) as Hbq2.
  destruct (y2 <? 0); [intros [= <- <-]; auto|].
  destruct (is_chr _ ",").
  { intros H. destruct (IH b q2 iThis _ x p' Hc Hbq2 Hq2 H) as (H1 & H2).
    split; [exact H1|]. eapply extends_trans; eassumption. }
  destruct (negb _); [intros [= <- <-]; auto|].
  intros H. destruct (close_container_state z q2 b iThis _ x p' Hq2 Hc Hbq2 H)
    as (H1 & H2).
  split; [exact H1|]. eapply extends_trans; eassumption.
Qed.

Lemma span_inside_at ty off m :
  has_span ty = true -> 0 <= off -> 1 <= m -> off + m <= len z ->
  span_inside z (mkNode ty false m (Some off)) = true.
Proof.
  intros Hty Hoff Hm Hfit. unfold span_inside. cbn [eType zJContent n].
  rewrite Hty. cbn [negb orb].
  destruct (Z.leb_spec 0 off); [|lia]. destruct (Z.leb_spec 1 m); [|lia].
  destruct (Z.leb_spec (off + m) (len z)); [|lia]. reflexivity.
Qed.

Lemma jsonParseValue_spans fuel : keeps_spans z (jsonParseValue realloc fuel).
Proof.
  induction fuel as [|f IH]; intros p i x p' Hok E; [discriminate|].
  pose proof Hok as (Hz & _).
  cbn [jsonParseValue] in E. rewrite Hz in E.
  set (i1 := skip_space z i) in *.
  assert (Hsame : state_ok z p /\ extends p p) by (split; [exact Hok|apply extends_refl]).
  assert (Hscalar : forall ty m c k,
            span_inside z (mkNode ty false m c) = true ->
            (r <- jsonParseAddNode realloc p ty m c ;; Ok (k, snd r)) = Ok (x, p') ->
            state_ok z p' /\ extends p p').
  { intros ty m c k Hsp H. add_in H r Ea. injection H as <- <-.
    destruct (add_state realloc z p ty m c r Hok Hsp Ea) as (H1 & H2 & _). auto. }
  assert (Hcont : forall ty r,
            is_container ty = true ->
            jsonParseAddNode realloc p ty 0 None = Ok r ->
            state_ok z (snd r) /\ extends p (snd r) /\
            container_at (snd r) (u32 (fst r))).
  { intros ty r Hty Ea.
    destruct (add_state realloc z p ty 0 None r Hok) as (H1 & H2 & Hidx);
      [unfold span_inside; cbn [eType]; destruct ty; try discriminate; reflexivity
      |exact Ea|].
    split; [exact H1|]. split; [exact H2|].
    destruct Hidx as [(Hf & Hn & Hat)|Hf]; rewrite Hf.
    - left. rewrite u32_small by lia. eexists. split; [exact Hat|exact Hty].
    - right. vm_compute. discriminate. }
  destruct (Ascii.eqb (zAt z i1) NUL) eqn:Enul; [injection E as <- <-; exact Hsame|].
  apply eqb_false_inside in Enul.
  destruct (is_chr (zAt z i1) "{").
  { add_in E r Ea. destruct (Hcont JSON_OBJECT r eq_refl Ea) as (Hr & Hpr & Hc).
    destruct (u32 (fst r) <? 0); [injection E as <- <-; auto|].
    destruct (parse_object_spans _ IH f (snd r) (snd r) _ _ x p' Hc (extends_refl _) Hr E)
      as (H1 & H2).
    split; [exact H1|]. eapply extends_trans; eassumption. }
  destruct (is_chr (zAt z i1) "[").
  { add_in E r Ea. destruct (Hcont JSON_ARRAY r eq_refl Ea) as (Hr & Hpr & Hc).
    destruct (u32 (fst r) <? 0); [injection E as <- <-; auto|].
    destruct (parse_array_spans _ IH f (snd r) (snd r) _ _ x p' Hc (extends_refl _) Hr E)
      as (H1 & H2).
    split; [exact H1|]. eapply extends_trans; eassumption. }
  destruct (Ascii.eqb (zAt z i1) DQUOTE).
  { rewrite (u32_small (i1 + 1)) in E by lia.
    destruct (scan_string z _ (i1 + 1)) as [[j|]| |] eqn:Es; cbn [bind] in E;
      try discriminate; [|injection E as <- <-; exact Hsame].
    apply scan_string_bounds in Es; [|lia|lia].
    eapply Hscalar; [|exact E]. rewrite u32_small by lia.
    apply span_inside_at; [reflexivity|lia..]. }
  destruct (literal_at z i1 (zAt z i1) "null"); [eapply Hscalar; [|exact E]; reflexivity|].
  destruct (literal_at z i1 (zAt z i1) "true"); [eapply Hscalar; [|exact E]; reflexivity|].
  destruct (literal_at z i1 (zAt z i1) "false"); [eapply Hscalar; [|exact E]; reflexivity|].
  destruct (is_chr (zAt z i1) "-" || is_digit_char (zAt z i1)).
  { rewrite (u32_small (i1 + 1)) in E by lia.
    destruct (scan_number z _ (i1 + 1) false false) as [[[j dp]|]| |] eqn:Es;
      cbn [bind] in E; try discriminate; [|injection E as <- <-; exact Hsame].
    apply scan_number_bounds in Es; [|lia|lia].
    destruct (_ <? 48); [injection E as <- <-; exact Hsame|].
    eapply Hscalar; [|exact E]. rewrite u32_small by lia.
    apply span_inside_at; [destruct dp; reflexivity|lia..]. }
  destruct (is_chr (zAt z i1) "}"); [injection E as <- <-; exact Hsame|].
  destruct (is_chr (zAt z i1) "]"); injection E as <- <-; exact Hsame.
Qed.

(** The nodes that a parse leaves, whether it reports success or not. *)
Lemma jsonParse_spans p0 rc p :
  jsonParse realloc p0 (Some z) = Ok (rc, p) -> spans_in z (aNode p).
Proof.
  intros H. destruct (Z.eq_dec rc 0) as [->|Hrc].
  - destruct (jsonParse_zero _ _ _ _ H) as (i & E & _).
    apply jsonParseValue_spans in E as ((_ & Hs & _) & _); [exact Hs|].
    split; [reflexivity|]. split; [constructor|]. right. cbn [nNode nAlloc aNode].
    change (len (@nil JsonNode)) with 0. lia.
  - destruct (jsonParse_failed _ _ _ _ _ H Hrc) as (i & q & _ & _ & ->). constructor.
Qed.

End Spans.

(** * The strings of a parse are rendered as they are in the text *)

(** C9: every node the parser adds is made with [bRaw] clear, whatever
    the outcome of the parse; so the renderer gives the same on the nodes
    of a parse whatever routine stands where it would render a raw
    string, as that routine is never entered; and the renderer, called at
    a String node of a parse that returned 0, appends the bytes of the
    span of the node, which lies inside the text, quotes and backslashes
    as they are there, and returns 1, or it reports that the allocator
    refused the room for them. *)
Theorem parser_nodes_not_raw (realloc : Z -> bool) :
  (forall fuel p i x p',
      none_raw (aNode p) ->
      jsonParseValue realloc fuel p i = Ok (x, p') -> none_raw (aNode p')) /\
  (forall p0 z rc p,
      jsonParse realloc p0 (Some z) = Ok (rc, p) ->
      none_raw (aNode p) /\
      forall malloc escape idx out,
        jsonRenderNode_with malloc escape (aNode p) z idx out
        = jsonRenderNode malloc (aNode p) z idx out) /\
  (forall p0 z p i nd malloc out,
      len z < 2 ^ 31 - 1 ->
      jsonParse realloc p0 (Some z) = Ok (0, p) ->
      node_at (aNode p) i = Ok nd -> eType nd = JSON_STRING ->
      acc_ok out -> Accum.oom out = false -> Accum.nUsed out + len z <= acc_limit ->
      exists off out',
        bRaw nd = false /\ zJContent nd = Some off /\
        0 <= off /\ 1 <= n nd /\ off + n nd <= len z /\
        jsonRenderNode malloc (aNode p) z i out = Ok (1, out') /\
        acc_ok out' /\
        (appended out (span z nd) out' \/
         (out' = Accum.jsonOom out /\ exists m, malloc m = false))).
Proof.
  assert (Hparse : forall p0 z rc p,
            jsonParse realloc p0 (Some z) = Ok (rc, p) -> none_raw (aNode p)).
  { intros p0 z rc p H. destruct (Z.eq_dec rc 0) as [->|Hrc].
    - destruct (jsonParse_zero _ _ _ _ H) as (i & E & _).
      eapply jsonParseValue_none_raw; [|exact E]. constructor.
    - destruct (jsonParse_failed _ _ _ _ _ H Hrc) as (i & q & _ & _ & ->). constructor. }
  split; [|split].
  - intros. eapply jsonParseValue_none_raw; eassumption.
  - intros p0 z rc p H. pose proof (Hparse _ _ _ _ H) as Hnr.
    split; [exact Hnr|]. intros. unfold jsonRenderNode, jsonRenderNode_with.
    apply render_no_escape. exact Hnr.
  - intros p0 z p i nd malloc out Hsmall H Hnode Hty Hok Ho Hlim.
    pose proof (Hparse _ _ _ _ H) as Hnr.
    pose proof (jsonParse_spans realloc z ltac:(lia) p0 0 p H) as Hs.
    pose proof Hnode as Hlook. apply node_at_lookup in Hlook as [Hi Hlook].
    unfold none_raw in Hnr. rewrite Forall_lookup in Hnr.
    unfold spans_in in Hs. rewrite Forall_lookup in Hs.
    pose proof (Hnr _ _ Hlook) as Hraw. pose proof (Hs _ _ Hlook) as Hsp.
    unfold span_inside in Hsp. rewrite Hty in Hsp. cbn [has_span negb orb] in Hsp.
    destruct (zJContent nd) as [off|] eqn:Hc; [|discriminate].
    apply andb_true_iff in Hsp as [Hsp H3]. apply andb_true_iff in Hsp as [H1 H2].
    apply Z.leb_le in H1, H2, H3.
    pose proof (len_nonneg z) as Hz0.
    assert (Hread : n nd <= len (drop (Z.to_nat off) z)).
    { unfold len in *. rewrite length_drop. lia. }
    destruct (AccumOk.jsonAppendRaw_cases malloc out (drop (Z.to_nat off) z) (n nd)
                Hok Ho ltac:(lia) Hread ltac:(lia))
      as (out' & E & Hok' & Hcase).
    exists off, out'. repeat (split; [first [assumption|reflexivity]|]).
    split; [|split; [exact Hok'|]].
    + unfold jsonRenderNode, jsonRenderNode_with. cbn [jsonRenderNode_fuel].
      rewrite Hnode. cbn [bind]. rewrite Hty, Hraw, Hc. cbn [at_ptr].
      unfold appendRaw. rewrite E. reflexivity.
    + unfold span. rewrite Hc. cbn [at_ptr]. exact Hcase.
Qed.

Lemma parser_nodes_not_raw_witness :
  len nested_text < 2 ^ 31 - 1 /\
  jsonParse all_memory empty_parse (Some nested_text) = Ok (0, nested_parse) /\
  node_at (aNode nested_parse) 1 = Ok (mkNode JSON_STRING false 3 (Some 1)) /\
  acc_ok (Accum.jsonInit NoResult) /\ Accum.oom (Accum.jsonInit NoResult) = false /\
  Accum.nUsed (Accum.jsonInit NoResult) + len nested_text <= acc_limit /\
  exists off out',
    bRaw (mkNode JSON_STRING false 3 (Some 1)) = false /\
    zJContent (mkNode JSON_STRING false 3 (Some 1)) = Some off /\
    0 <= off /\ 1 <= n (mkNode JSON_STRING false 3 (Some 1)) /\
    off + n (mkNode JSON_STRING false 3 (Some 1)) <= len nested_text /\
    jsonRenderNode all_memory (aNode nested_parse) nested_text 1
      (Accum.jsonInit NoResult) = Ok (1, out') /\
    acc_ok out' /\
    (appended (Accum.jsonInit NoResult)
       (span nested_text (mkNode JSON_STRING false 3 (Some 1))) out' \/
     (out' = Accum.jsonOom (Accum.jsonInit NoResult) /\
      exists m, all_memory m = false)).
Proof.
  assert (H1 : len nested_text < 2 ^ 31 - 1) by (vm_compute; reflexivity).
  assert (H2 : jsonParse all_memory empty_parse (Some nested_text) = Ok (0, nested_parse))
    by (vm_compute; reflexivity).
  assert (H3 : node_at (aNode nested_parse) 1 = Ok (mkNode JSON_STRING false 3 (Some 1)))
    by reflexivity.
  assert (H4 : acc_ok (Accum.jsonInit NoResult)) by apply AccumOk.jsonInit_ok.
  assert (H5 : Accum.oom (Accum.jsonInit NoResult) = false) by reflexivity.
  assert (H6 : Accum.nUsed (Accum.jsonInit NoResult) + len nested_text <= acc_limit)
    by (vm_compute; discriminate).
  split; [exact H1|]. split; [exact H2|]. split; [exact H3|]. split; [exact H4|].
  split; [exact H5|]. split; [exact H6|].
  exact (proj2 (proj2 (parser_nodes_not_raw all_memory))
           empty_parse nested_text nested_parse 1 (mkNode JSON_STRING false 3 (Some 1))
           all_memory (Accum.jsonInit NoResult) H1 H2 H3 eq_refl H4 H5 H6).
Defined.

(** * The parser on minimal JSON texts *)

Lemma zAt_mid (pre : text) c rest : zAt (pre ++ c :: rest) (len pre) = c.
Proof. rewrite zAt_here. reflexivity. Qed.

Lemma snoc_app {A} (pre : list A) c rest : pre ++ c :: rest = (pre ++ [c]) ++ rest.
Proof. rewrite <- app_assoc. reflexivity. Qed.

Lemma len_snoc {A} (pre : list A) c : len (pre ++ [c]) = len pre + 1.
Proof. len_norm. lia. Qed.

(** ** Strings *)

Lemma plain_ok_scannable c : plain_ok c = true -> scannable (Plain c).
Proof.
  unfold plain_ok. intros H.
  apply andb_true_iff in H as [H H3]. apply andb_true_iff in H as [H1 H2].
  apply negb_true_iff in H1, H2. repeat split; try assumption.
  destruct (Ascii.eqb c NUL) eqn:E; [|reflexivity].
  apply Ascii.eqb_eq in E. subst c. discriminate.
Qed.

Lemma escape_ok_scannable c : escape_ok c = true -> scannable (Escape c).
Proof.
  intros H. cbn. destruct (Ascii.eqb c NUL) eqn:E; [|reflexivity].
  apply Ascii.eqb_eq in E. subst c. discriminate.
Qed.

Lemma valid_body_scannable b : valid_body b = true -> Forall scannable b.
Proof.
  induction b as [|[c|c] b IH]; cbn [valid_body]; intros H; constructor.
  - apply andb_true_iff in H as [H _]. apply plain_ok_scannable, H.
  - apply andb_true_iff in H as [_ H]. apply IH, H.
  - apply andb_true_iff in H as [H _]. apply andb_true_iff in H as [H _].
    apply escape_ok_scannable, H.
  - apply andb_true_iff in H as [_ H]. apply IH, H.
Qed.

Lemma print_body_cons s b : print_body (s :: b) = print_schar s ++ print_body b.
Proof. reflexivity. Qed.

Lemma scan_string_body z b : Forall scannable b ->
  forall k pre post,
    z = pre ++ print_body b ++ DQUOTE :: post -> len z < 2 ^ 32 - 2 ->
    (length (print_body b) < k)%nat ->
    scan_string z k (len pre) = Ok (Some (len pre + len (print_body b))).
Proof.
  induction 1 as [|s b Hs _ IH]; intros k pre post Hz Hsmall Hk;
    (destruct k as [|k]; [lia|]); cbn [scan_string]; cbv zeta.
  - assert (Hc : zAt z (len pre) = DQUOTE) by (rewrite Hz; apply zAt_mid).
    rewrite Hc.
    change (Ascii.eqb DQUOTE NUL) with false. change (Ascii.eqb DQUOTE BSLASH) with false.
    rewrite Ascii.eqb_refl. change (print_body []) with (@nil ascii).
    change (len (@nil ascii)) with 0. rewrite Z.add_0_r. reflexivity.
  - pose proof (len_nonneg pre) as Hp0. pose proof (len_nonneg (print_body b)) as Hb0.
    pose proof (len_nonneg post) as Hq0.
    rewrite print_body_cons in Hz, Hk |- *. rewrite length_app in Hk.
    destruct s as [c|c]; cbn [print_schar app] in Hz, Hk |- *.
    + destruct Hs as (H0 & H1 & H2).
      assert (Hc : zAt z (len pre) = c) by (rewrite Hz; apply zAt_mid).
      assert (Hlen : len z = len pre + 1 + len (print_body b) + 1 + len post).
      { rewrite Hz. len_norm. lia. }
      rewrite Hc, H0, H1, H2.
      rewrite u32_small by lia. rewrite <- (len_snoc pre c).
      rewrite (IH k (pre ++ [c]) post); [| |assumption|simpl in Hk; lia].
      * f_equal. f_equal. len_norm. lia.
      * rewrite Hz, <- app_assoc. reflexivity.
    + cbn in Hs.
      assert (Hc : zAt z (len pre) = BSLASH) by (rewrite Hz; apply zAt_mid).
      assert (Hc2 : zAt z (len pre + 1) = c).
      { rewrite Hz, snoc_app, <- (len_snoc pre BSLASH). apply zAt_mid. }
      assert (Hlen : len z = len pre + 2 + len (print_body b) + 1 + len post).
      { rewrite Hz. len_norm. lia. }
      rewrite Hc.
      change (Ascii.eqb BSLASH NUL) with false. rewrite Ascii.eqb_refl.
      rewrite (u32_small (len pre + 1)) by lia. rewrite Hc2, Hs.
      rewrite u32_small by lia.
      replace (len pre + 1 + 1) with (len ((pre ++ [BSLASH]) ++ [c])) by (len_norm; lia).
      rewrite (IH k ((pre ++ [BSLASH]) ++ [c]) post); [| |assumption|simpl in Hk; lia].
      * f_equal. f_equal. len_norm. lia.
      * rewrite Hz, <- !app_assoc. reflexivity.
Qed.

(** ** Numbers *)

Lemma isdigit_code c : isdigit c = true -> 48 <= code c <= 57.
Proof. unfold isdigit. intros H. apply andb_true_iff in H as [H1 H2]. lia. Qed.

Lemma isdigit_char_val c : isdigit c = true -> char_val c = code c.
Proof.
  intros H. apply isdigit_code in H. unfold char_val.
  destruct (Z.ltb_spec (code c) 128); lia.
Qed.

Lemma isdigit_is_digit_char c : isdigit c = true -> is_digit_char c = true.
Proof.
  intros H. unfold is_digit_char. rewrite (isdigit_char_val c H).
  apply isdigit_code in H. apply andb_true_iff. split; lia.
Qed.

Lemma isdigit_not c s :
  isdigit c = true -> (code (chr s) <? 48) || (57 <? code (chr s)) = true ->
  is_chr c s = false.
Proof.
  intros H Hs. unfold is_chr. destruct (Ascii.eqb c (chr s)) eqn:E; [|reflexivity].
  apply Ascii.eqb_eq in E. subst c. apply isdigit_code in H.
  apply orb_true_iff in Hs as [Hs|Hs]; lia.
Qed.

Lemma isdigit_not_low c : isdigit c = true -> (char_val c <? 48) = false.
Proof.
  intros H. rewrite (isdigit_char_val c H). apply isdigit_code in H.
  destruct (Z.ltb_spec (code c) 48); [lia|reflexivity].
Qed.

Lemma scan_digits z ds : forallb isdigit ds = true ->
  forall k pre rest dp e,
    z = pre ++ ds ++ rest -> len z < 2 ^ 32 - 2 ->
    scan_number z (length ds + k) (len pre) dp e
    = scan_number z k (len pre + len ds) dp e.
Proof.
  induction ds as [|d ds IH]; intros Hd k pre rest dp e Hz Hsmall.
  - change (len (@nil ascii)) with 0. rewrite Z.add_0_r. reflexivity.
  - cbn [forallb] in Hd. apply andb_true_iff in Hd as [Hd Hds].
    cbn [length Nat.add scan_number]. cbv zeta.
    assert (Hc : zAt z (len pre) = d) by (rewrite Hz; apply zAt_mid).
    rewrite Hc, (isdigit_is_digit_char d Hd).
    assert (Hlen : len z = len pre + 1 + len ds + len rest).
    { rewrite Hz. len_norm. lia. }
    pose proof (len_nonneg pre). pose proof (len_nonneg ds). pose proof (len_nonneg rest).
    rewrite u32_small by lia. rewrite <- (len_snoc pre d).
    rewrite (IH Hds k (pre ++ [d]) rest); [|rewrite Hz, <- app_assoc; reflexivity|assumption].
    f_equal. len_norm. lia.
Qed.

Lemma nonempty_digits_inv ds :
  nonempty_digits ds = true ->
  forallb isdigit ds = true /\ exists ds' d, ds = ds' ++ [d] /\ isdigit d = true.
Proof.
  unfold nonempty_digits. destruct ds as [|c ds]; [discriminate|]. intros H.
  split; [exact H|].
  destruct (exists_last (l := c :: ds) ltac:(discriminate)) as (ds' & d & E).
  exists ds', d. split; [exact E|]. rewrite E in H.
  rewrite forallb_app in H. apply andb_true_iff in H as [_ H]. cbn in H.
  rewrite andb_true_r in H. exact H.
Qed.

Lemma delim_stops c :
  is_delim c = true ->
  is_digit_char c = false /\ is_chr c "." = false /\
  is_chr c "e" || is_chr c "E" = false /\ isalnum c = false.
Proof.
  unfold is_delim, is_chr. intros H.
  repeat (apply orb_true_iff in H as [H|H]);
    apply Ascii.eqb_eq in H; subst c; repeat split; reflexivity.
Qed.

(** The end of a number: the delimiter stops the loop. *)
Lemma scan_number_end z k pre post dp e :
  z = pre ++ post -> is_delim (hd NUL post) = true ->
  scan_number z (S k) (len pre) dp e = Ok (Some (len pre, dp)).
Proof.
  intros Hz Hd. cbn [scan_number]. cbv zeta.
  assert (Hc : zAt z (len pre) = hd NUL post) by (rewrite Hz; apply zAt_here).
  destruct (delim_stops _ Hd) as (H1 & H2 & H3 & _).
  rewrite Hc, H1, H2, H3. reflexivity.
Qed.

Lemma zAt_at (z pre : text) c rest j :
  z = pre ++ c :: rest -> j = len pre -> zAt z j = c.
Proof. intros -> ->. apply zAt_mid. Qed.

Lemma marker_cases m :
  is_chr m "e" || is_chr m "E" = true -> m = chr "e" \/ m = chr "E".
Proof.
  unfold is_chr. intros H. apply orb_true_iff in H as [H|H];
    apply Ascii.eqb_eq in H; auto.
Qed.

Lemma sign_cases s :
  is_chr s "+" || is_chr s "-" = true -> s = chr "+" \/ s = chr "-".
Proof.
  unfold is_chr. intros H. apply orb_true_iff in H as [H|H];
    apply Ascii.eqb_eq in H; auto.
Qed.

(** The exponent, if any, and the end of the number, after a digit. *)
Lemma scan_exponent z ex : forall k pre pd post dp,
  z = pre ++ pd :: print_exponent_opt ex ++ post ->
  isdigit pd = true ->
  match ex with Some e => valid_exponent e = true | None => True end ->
  is_delim (hd NUL post) = true -> len z < 2 ^ 32 - 2 ->
  (length (print_exponent_opt ex) < k)%nat ->
  exists j dp',
    scan_number z k (len pre + 1) dp false = Ok (Some (j, dp')) /\
    j = len pre + 1 + len (print_exponent_opt ex) /\
    dp' = (dp || match ex with Some _ => true | None => false end) /\
    (char_val (zAt z (j - 1)) <? 48) = false.
Proof.
  intros k pre pd post dp Hz Hpd Hex Hdelim Hsmall Hk.
  pose proof (len_nonneg pre) as Hp0. pose proof (len_nonneg post) as Hq0.
  destruct ex as [[[m sg] es]|]; cbn [print_exponent_opt print_exponent] in *.
  - (* an exponent *)
    unfold valid_exponent in Hex.
    apply andb_true_iff in Hex as [Hex Hes]. apply andb_true_iff in Hex as [Hm Hsg].
    destruct (nonempty_digits_inv es Hes) as (Hall & es' & d & Ees & Hd).
    destruct k as [|k]; [lia|]. cbn [scan_number]. cbv zeta.
    assert (Hlen : len z = len pre + 1 + 1
                   + len (match sg with Some s => [s] | None => [] end) + len es + len post).
    { rewrite Hz. len_norm. lia. }
    pose proof (len_nonneg es) as He0.
    pose proof (len_nonneg (match sg with Some s => [s] | None => [] end)) as Hs0.
    assert (Hcm : zAt z (len pre + 1) = m).
    { apply (zAt_at z (pre ++ [pd]) m
               (match sg with Some s => [s] | None => [] end ++ es ++ post)).
      - rewrite Hz. list_eq.
      - len_norm. lia. }
    assert (Hcp : zAt z (len pre) = pd) by (rewrite Hz; apply zAt_mid).
    rewrite Hcm, Hm.
    assert (Hmd : is_digit_char m = false /\ is_chr m "." = false).
    { destruct (marker_cases m Hm) as [-> | ->]; split; reflexivity. }
    destruct Hmd as [-> ->].
    rewrite (u32_small (len pre + 1 - 1)) by lia.
    replace (len pre + 1 - 1) with (len pre) by lia.
    rewrite Hcp, (isdigit_not_low pd Hpd).
    rewrite (u32_small (len pre + 1 + 1)) by lia.
    destruct sg as [s|].
    + (* with a sign *)
      assert (Hcs : zAt z (len pre + 1 + 1) = s).
      { apply (zAt_at z ((pre ++ [pd]) ++ [m]) s (es ++ post)).
        - rewrite Hz. list_eq.
        - len_norm. lia. }
      rewrite Hcs, Hsg. revert Hlen. len_norm. intros Hlen.
      rewrite (u32_small (len pre + 1 + 1 + 1)) by lia.
      cbn [length app] in Hk.
      replace k with (length es + (k - length es))%nat by lia.
      replace (len pre + 1 + 1 + 1) with (len (((pre ++ [pd]) ++ [m]) ++ [s]))
        by (len_norm; lia).
      rewrite (scan_digits z es Hall _ (((pre ++ [pd]) ++ [m]) ++ [s]) post);
        [|rewrite Hz; list_eq|assumption].
      replace (len (((pre ++ [pd]) ++ [m]) ++ [s]) + len es)
        with (len ((((pre ++ [pd]) ++ [m]) ++ [s]) ++ es)) by (len_norm; lia).
      destruct (k - length es)%nat as [|k'] eqn:Ek; [lia|].
      rewrite (scan_number_end z k' _ post);
        [|rewrite Hz; list_eq|assumption].
      eexists _, _. split; [reflexivity|]. split; [len_norm; lia|].
      split; [rewrite orb_true_r; reflexivity|].
      rewrite Ees. 
      rewrite (zAt_at z ((((pre ++ [pd]) ++ [m]) ++ [s]) ++ es') d post).
      * apply isdigit_not_low, Hd.
      * rewrite Hz, Ees. list_eq.
      * len_norm. lia.
    + (* without a sign *)
      cbn [app] in Hz, Hk.
      assert (Hcs : isdigit (zAt z (len pre + 1 + 1)) = true).
      { destruct es as [|e0 es0]; [discriminate|].
        rewrite (zAt_at z ((pre ++ [pd]) ++ [m]) e0 (es0 ++ post)).
        - cbn [forallb] in Hall. apply andb_true_iff in Hall as [H _]. exact H.
        - rewrite Hz. list_eq.
        - len_norm. lia. }
      rewrite (isdigit_not _ "+" Hcs), (isdigit_not _ "-" Hcs) by reflexivity.
      cbn [orb]. revert Hlen. len_norm. intros Hlen.
      rewrite (u32_small (len pre + 1 + 1)) by lia.
      cbn [length] in Hk.
      replace k with (length es + (k - length es))%nat by lia.
      replace (len pre + 1 + 1) with (len ((pre ++ [pd]) ++ [m])) by (len_norm; lia).
      rewrite (scan_digits z es Hall _ ((pre ++ [pd]) ++ [m]) post);
        [|rewrite Hz; list_eq|assumption].
      replace (len ((pre ++ [pd]) ++ [m]) + len es)
        with (len (((pre ++ [pd]) ++ [m]) ++ es)) by (len_norm; lia).
      destruct (k - length es)%nat as [|k'] eqn:Ek; [lia|].
      rewrite (scan_number_end z k' _ post);
        [|rewrite Hz; list_eq|assumption].
      eexists _, _. split; [reflexivity|]. split; [len_norm; lia|].
      split; [rewrite orb_true_r; reflexivity|].
      rewrite Ees.
      rewrite (zAt_at z (((pre ++ [pd]) ++ [m]) ++ es') d post).
      * apply isdigit_not_low, Hd.
      * rewrite Hz, Ees. list_eq.
      * len_norm. lia.
  - (* no exponent *)
    cbn [app] in Hz. destruct k as [|k]; [lia|].
    replace (len pre + 1) with (len (pre ++ [pd])) by (len_norm; lia).
    rewrite (scan_number_end z k (pre ++ [pd]) post);
      [|rewrite Hz; list_eq|assumption].
    eexists _, _. split; [reflexivity|]. split; [len_norm; lia|].
    split; [rewrite orb_false_r; reflexivity|].
    rewrite (zAt_at z pre pd post); [apply isdigit_not_low, Hpd|exact Hz|len_norm; lia].
Qed.

Lemma isdigit_neq c d :
  isdigit c = true -> (code d <? 48) || (57 <? code d) = true -> Ascii.eqb c d = false.
Proof.
  intros H Hs. destruct (Ascii.eqb c d) eqn:E; [|reflexivity].
  apply Ascii.eqb_eq in E. subst c. apply isdigit_code in H.
  apply orb_true_iff in Hs as [Hs|Hs]; lia.
Qed.

(** The fraction, if any, the exponent, if any, and the end, after a digit. *)
Lemma scan_tail z fr ex : forall k pre pd post,
  z = pre ++ pd :: print_fraction_opt fr ++ print_exponent_opt ex ++ post ->
  isdigit pd = true ->
  match fr with Some fs => nonempty_digits fs = true | None => True end ->
  match ex with Some e => valid_exponent e = true | None => True end ->
  is_delim (hd NUL post) = true -> len z < 2 ^ 32 - 2 ->
  (length (print_fraction_opt fr ++ print_exponent_opt ex) < k)%nat ->
  exists j dp',
    scan_number z k (len pre + 1) false false = Ok (Some (j, dp')) /\
    j = len pre + 1 + len (print_fraction_opt fr) + len (print_exponent_opt ex) /\
    dp' = (match fr with Some _ => true | None => false end
           || match ex with Some _ => true | None => false end) /\
    (char_val (zAt z (j - 1)) <? 48) = false.
Proof.
  intros k pre pd post Hz Hpd Hfr Hex Hdelim Hsmall Hk.
  pose proof (len_nonneg pre) as Hp0. pose proof (len_nonneg post) as Hq0.
  pose proof (len_nonneg (print_exponent_opt ex)) as He0.
  destruct fr as [fs|]; cbn [print_fraction_opt app] in *.
  - destruct (nonempty_digits_inv fs Hfr) as (Hall & fs' & d & Efs & Hd).
    pose proof (len_nonneg fs) as Hf0.
    assert (Hlen : len z = len pre + 1 + 1 + len fs + len (print_exponent_opt ex) + len post).
    { rewrite Hz. len_norm. lia. }
    destruct k as [|k]; [lia|]. cbn [scan_number]. cbv zeta.
    assert (Hc : zAt z (len pre + 1) = chr ".").
    { apply (zAt_at z (pre ++ [pd]) _ (fs ++ print_exponent_opt ex ++ post));
        [rewrite Hz; list_eq|len_norm; lia]. }
    assert (Hcp : zAt z (len pre) = pd) by (rewrite Hz; apply zAt_mid).
    rewrite Hc. change (is_digit_char (chr ".")) with false.
    change (is_chr (chr ".") ".") with true. cbv iota.
    rewrite (u32_small (len pre + 1 - 1)) by lia.
    replace (len pre + 1 - 1) with (len pre) by lia.
    rewrite Hcp. unfold is_chr at 1. rewrite (isdigit_neq pd _ Hpd) by reflexivity.
    rewrite (u32_small (len pre + 1 + 1)) by lia.
    cbn [length] in Hk. rewrite length_app in Hk.
    replace k with (length fs + (k - length fs))%nat by lia.
    replace (len pre + 1 + 1) with (len ((pre ++ [pd]) ++ [chr "."])) by (len_norm; lia).
    rewrite (scan_digits z fs Hall _ ((pre ++ [pd]) ++ [chr "."])
               (print_exponent_opt ex ++ post)); [|rewrite Hz; list_eq|assumption].
    destruct (scan_exponent z ex (k - length fs) (((pre ++ [pd]) ++ [chr "."]) ++ fs') d
                post true) as (j & dp' & Hscan & Hj & Hdp & Hlast); try assumption.
    { rewrite Hz, Efs. list_eq. }
    { lia. }
    replace (len ((pre ++ [pd]) ++ [chr "."]) + len fs)
      with (len (((pre ++ [pd]) ++ [chr "."]) ++ fs') + 1)
      by (rewrite Efs; len_norm; lia).
    rewrite Hscan. exists j, dp'. split; [reflexivity|].
    split; [rewrite Hj, Efs; len_norm; lia|]. split; [exact Hdp|exact Hlast].
  - destruct (scan_exponent z ex k pre pd post false)
      as (j & dp' & Hscan & Hj & Hdp & Hlast); try assumption.
    exists j, dp'. split; [exact Hscan|].
    split; [rewrite Hj; len_norm; lia|]. split; [exact Hdp|exact Hlast].
Qed.

Lemma valid_number_inv num :
  valid_number num = true ->
  nonempty_digits (int_digits num) = true /\
  match frac_digits num with Some fs => nonempty_digits fs = true | None => True end /\
  match exponent num with Some e => valid_exponent e = true | None => True end.
Proof.
  unfold valid_number. intros H.
  apply andb_true_iff in H as [H He]. apply andb_true_iff in H as [H Hf].
  apply andb_true_iff in H as [Hi _].
  split; [exact Hi|]. split.
  - destruct (frac_digits num); [exact Hf|exact I].
  - destruct (exponent num); [exact He|exact I].
Qed.

Lemma print_number_eq num :
  print_number num =
  (if minus num then [chr "-"] else []) ++ int_digits num
  ++ print_fraction_opt (frac_digits num) ++ print_exponent_opt (exponent num).
Proof. reflexivity. Qed.

(** The loop of the number case on a valid literal. *)
Lemma scan_number_literal z num pre post :
  valid_number num = true ->
  z = pre ++ print_number num ++ post ->
  is_delim (hd NUL post) = true -> len z < 2 ^ 32 - 2 ->
  exists j dp',
    scan_number z (S (length z)) (len pre + 1) false false = Ok (Some (j, dp')) /\
    j = len pre + len (print_number num) /\
    dp' = is_real num /\
    (char_val (zAt z (j - 1)) <? 48) = false.
Proof.
  intros Hv Hz Hdelim Hsmall.
  destruct (valid_number_inv num Hv) as (Hi & Hf & He).
  destruct (nonempty_digits_inv _ Hi) as (Hall & ip' & d & Eip & Hd).
  rewrite print_number_eq in Hz |- *.
  set (F := print_fraction_opt (frac_digits num)) in *.
  set (E := print_exponent_opt (exponent num)) in *.
  pose proof (len_nonneg pre) as Hp0. pose proof (len_nonneg post) as Hq0.
  pose proof (len_nonneg F) as HF0. pose proof (len_nonneg E) as HE0.
  pose proof (len_nonneg ip') as Hi0.
  assert (Hreal : is_real num = (match frac_digits num with Some _ => true | None => false end
           || match exponent num with Some _ => true | None => false end)).
  { unfold is_real. destruct (frac_digits num), (exponent num); reflexivity. }
  assert (Hlenz : (length z = length pre
                   + length ((if minus num then [chr "-"] else []) ++ int_digits num)
                   + length (F ++ E) + length post)%nat).
  { rewrite Hz, !length_app. lia. }
  destruct (minus num).
  - (* with a minus *)
    cbn [app] in Hz, Hlenz |- *. cbn [length] in Hlenz.
    replace (S (length z))
      with (length (int_digits num) + (S (length z) - length (int_digits num)))%nat by lia.
    replace (len pre + 1) with (len (pre ++ [chr "-"])) by (len_norm; lia).
    rewrite (scan_digits z (int_digits num) Hall _ (pre ++ [chr "-"]) (F ++ E ++ post));
      [|rewrite Hz; list_eq|assumption].
    destruct (scan_tail z (frac_digits num) (exponent num)
                (S (length z) - length (int_digits num)) ((pre ++ [chr "-"]) ++ ip') d post)
      as (j & dp' & Hscan & Hj & Hdp & Hlast); try assumption.
    { rewrite Hz, Eip. list_eq. }
    { fold F E. lia. }
    replace (len (pre ++ [chr "-"]) + len (int_digits num))
      with (len ((pre ++ [chr "-"]) ++ ip') + 1) by (rewrite Eip; len_norm; lia).
    rewrite Hscan. exists j, dp'. split; [reflexivity|].
    split; [rewrite Hj; fold F E; rewrite Eip; len_norm; lia|].
    split; [congruence|exact Hlast].
  - (* without *)
    cbn [app] in Hz, Hlenz |- *.
    destruct (int_digits num) as [|c0 ip0] eqn:Eint; [discriminate|].
    cbn [forallb] in Hall. apply andb_true_iff in Hall as [Hc0 Hall0].
    cbn [length] in Hlenz. pose proof (len_nonneg ip0) as Hip0.
    replace (S (length z)) with (length ip0 + (S (length z) - length ip0))%nat by lia.
    replace (len pre + 1) with (len (pre ++ [c0])) by (len_norm; lia).
    rewrite (scan_digits z ip0 Hall0 _ (pre ++ [c0]) (F ++ E ++ post));
      [|rewrite Hz; list_eq|assumption].
    destruct (scan_tail z (frac_digits num) (exponent num)
                (S (length z) - length ip0) (pre ++ ip') d post)
      as (j & dp' & Hscan & Hj & Hdp & Hlast); try assumption.
    { rewrite Hz, Eip. list_eq. }
    { fold F E. lia. }
    assert (Hl : len (c0 :: ip0) = len ip' + 1) by (rewrite Eip; len_norm; lia).
    replace (len (pre ++ [c0]) + len ip0) with (len (pre ++ ip') + 1)
      by (revert Hl; len_norm; lia).
    rewrite Hscan. exists j, dp'. split; [reflexivity|].
    split; [rewrite Hj; fold F E; revert Hl; len_norm; lia|].
    split; [congruence|exact Hlast].
Qed.

(** ** Values *)

Lemma json_ind (P : json -> Prop) :
  P JNull -> P JTrue -> P JFalse ->
  (forall num, P (JNumber num)) ->
  (forall b, P (JString b)) ->
  (forall vs, Forall P vs -> P (JArray vs)) ->
  (forall ms, Forall (fun kv => P (snd kv)) ms -> P (JObject ms)) ->
  forall v, P v.
Proof.
  intros Hn Ht Hf Hnum Hs Ha Ho. fix IH 1. intros [| | |num|b|vs|ms].
  - exact Hn.
  - exact Ht.
  - exact Hf.
  - apply Hnum.
  - apply Hs.
  - apply Ha. induction vs as [|v vs IHvs]; constructor; [apply IH|exact IHvs].
  - apply Ho. induction ms as [|[k v] ms IHms]; constructor; [apply IH|exact IHms].
Qed.

Lemma print_head v :
  valid v = true -> exists c rest, print v = c :: rest /\ isspace c = false.
Proof.
  destruct v as [| | |num|b|vs|ms]; intros Hv; cbn [print];
    try (eexists _, _; split; [reflexivity|reflexivity]).
  cbn [valid] in Hv. destruct (valid_number_inv num Hv) as (Hi & _ & _).
  rewrite print_number_eq. destruct (minus num).
  - eexists _, _. split; reflexivity.
  - destruct (int_digits num) as [|c ds]; [discriminate|].
    cbn [nonempty_digits forallb] in Hi. apply andb_true_iff in Hi as [Hc _].
    eexists _, _. split; [reflexivity|].
    apply isdigit_code in Hc. unfold isspace.
    destruct (Z.leb_spec 9 (code c)), (Z.leb_spec (code c) 13), (Z.eqb_spec (code c) 32);
      cbn; try reflexivity; lia.
Qed.

(** With every request granted, a node is added as long as the request
    for the array stays below 2^31 bytes. *)
Lemma add_node_room realloc p ty m c :
  (forall a, realloc a = true) ->
  nNode p = len (aNode p) -> nNode p <= nAlloc p -> oom p = false ->
  nNode p < 2 ^ 26 - 5 ->
  jsonParseAddNode realloc p ty m c
  = Ok (push_node p (if nAlloc p <=? nNode p then nNode p * 2 + 10 else nAlloc p)
          (mkNode ty false m c)).
Proof.
  intros Hre Hn Hcap Ho Hfew. pose proof (len_nonneg (aNode p)) as H0.
  assert (Hd : dangling p = false).
  { unfold dangling. destruct (aNode p) eqn:Ea; [|reflexivity].
    rewrite Hn. reflexivity. }
  unfold jsonParseAddNode. rewrite Ho, Hd.
  destruct (Z.leb_spec (nAlloc p) (nNode p)); [|reflexivity].
  assert (Ha : nAlloc p = nNode p) by lia. rewrite Ha.
  rewrite (u32_small (nNode p * 2 + 10)) by lia.
  destruct (Z.leb_spec (nNode p * 2 + 10) (nNode p)); [lia|].
  assert (Hb : node_bytes (nNode p * 2 + 10) = 16 * (nNode p * 2 + 10)).
  { unfold node_bytes, sizeof_JsonNode. rewrite u64_small by lia.
    apply to_int_small. lia. }
  rewrite Hb, Hre. unfold sizeof_JsonNode.
  destruct (Z.leb_spec (16 * (nNode p * 2 + 10)) 0); [lia|].
  destruct (Z.ltb_spec (16 * (nNode p * 2 + 10)) (16 * (nNode p + 1))); [lia|].
  reflexivity.
Qed.

(** ** The calls on a scalar *)

Lemma len_quoted b : len (quoted b) = len (print_body b) + 2.
Proof. unfold quoted. len_norm. lia. Qed.

Section ScalarCalls.

Variable realloc : Z -> bool.
Variable z : text.
Hypothesis z_small : len z < 2 ^ 31 - 8.

(** What a call at the start of a literal returns, whatever the
    allocator answers: the node is added by [jsonParseAddNode], whose
    result is not looked at. *)
Lemma literal_call f lit ty p pre post :
  In (lit, ty) literals ->
  z = pre ++ txt lit ++ post -> is_delim (hd NUL post) = true -> zJson p = z ->
  jsonParseValue realloc (S f) p (len pre)
  = (r <- jsonParseAddNode realloc p ty 0 None ;; Ok (len pre + len (txt lit), snd r)).
Proof.
  intros Hin Hz Hd Hzp.
  rewrite (literal_value realloc f p pre lit ty post Hin)
    by (rewrite Hzp; first [exact Hz|lia]).
  destruct (delim_stops _ Hd) as (_ & _ & _ & Hal). rewrite Hal. reflexivity.
Qed.

Lemma string_call f b p pre post :
  Forall scannable b ->
  z = pre ++ quoted b ++ post -> zJson p = z ->
  jsonParseValue realloc (S f) p (len pre)
  = (r <- jsonParseAddNode realloc p JSON_STRING (len (quoted b)) (Some (len pre)) ;;
     Ok (len pre + len (quoted b), snd r)).
Proof.
  intros Hv Hz Hzp.
  pose proof (f_equal len Hz) as Hlen. rewrite !len_app in Hlen.
  assert (Hq : len (quoted b) = len (print_body b) + 2) by apply len_quoted.
  pose proof (len_nonneg pre). pose proof (len_nonneg post).
  pose proof (len_nonneg (print_body b)).
  assert (Hc : zAt z (len pre) = DQUOTE)
    by (rewrite Hz; unfold quoted; cbn [app]; apply zAt_mid).
  cbn [jsonParseValue]. cbv zeta. rewrite Hzp.
  rewrite skip_space_stop by (rewrite Hc; reflexivity).
  rewrite Hc.
  change (Ascii.eqb DQUOTE NUL) with false.
  change (is_chr DQUOTE "{") with false. change (is_chr DQUOTE "[") with false.
  rewrite Ascii.eqb_refl. cbv iota.
  rewrite (u32_small (len pre + 1)) by lia.
  rewrite <- (len_snoc pre DQUOTE).
  rewrite (scan_string_body z b Hv (S (length z))
             (pre ++ [DQUOTE]) post);
    [|rewrite Hz; unfold quoted; list_eq|lia
     |apply Nat2Z.inj_lt; fold (len (print_body b)); fold (len z); unfold len in *; lia].
  cbn [bind]. rewrite (len_snoc pre DQUOTE).
  replace (u32 (len pre + 1 + len (print_body b) + 1 - len pre)) with (len (quoted b))
    by (rewrite u32_small; lia).
  replace (to_int (u32 (len pre + 1 + len (print_body b) + 1)))
    with (len pre + len (quoted b))
    by (rewrite u32_small, to_int_small; lia).
  reflexivity.
Qed.

Lemma number_call f num p pre post :
  valid_number num = true ->
  z = pre ++ print_number num ++ post -> is_delim (hd NUL post) = true ->
  zJson p = z ->
  jsonParseValue realloc (S f) p (len pre)
  = (r <- jsonParseAddNode realloc p (if is_real num then JSON_REAL else JSON_INT)
            (len (print_number num)) (Some (len pre)) ;;
     Ok (len pre + len (print_number num), snd r)).
Proof.
  intros Hv Hz Hd Hzp.
  pose proof (f_equal len Hz) as Hlen. rewrite !len_app in Hlen.
  pose proof (len_nonneg pre). pose proof (len_nonneg post).
  destruct (print_head (JNumber num) Hv) as (c & rest & Hpr & Hsp). cbn [print] in Hpr.
  assert (Hl1 : 1 <= len (print_number num))
    by (rewrite Hpr; len_norm; pose proof (len_nonneg rest); lia).
  destruct (scan_number_literal z num pre post Hv Hz Hd ltac:(lia))
    as (j & dp & Hscan & Hj & Hdp & Hlast).
  assert (Hc : zAt z (len pre) = c) by (rewrite Hz, Hpr; cbn [app]; apply zAt_mid).
  assert (Hhead : c = chr "-" \/ isdigit c = true).
  { destruct (valid_number_inv num Hv) as (Hi & _ & _).
    rewrite print_number_eq in Hpr. destruct (minus num); cbn [app] in Hpr.
    - left. congruence.
    - right. destruct (int_digits num) as [|c0 ds]; [discriminate|].
      cbn [app] in Hpr. injection Hpr as <- _.
      cbn [nonempty_digits forallb] in Hi. apply andb_true_iff in Hi as [Hi _]. exact Hi. }
  assert (Hdisp : Ascii.eqb c NUL = false /\ is_chr c "{" = false /\
                  is_chr c "[" = false /\ Ascii.eqb c DQUOTE = false /\
                  Ascii.eqb c (chr "null") = false /\ Ascii.eqb c (chr "true") = false /\
                  Ascii.eqb c (chr "false") = false /\
                  is_chr c "-" || is_digit_char c = true).
  { destruct Hhead as [->|Hdig].
    - repeat split; reflexivity.
    - repeat split; try (apply isdigit_neq; [exact Hdig|reflexivity]).
      rewrite (isdigit_is_digit_char c Hdig). apply orb_true_r. }
  destruct Hdisp as (D1 & D2 & D3 & D4 & D5 & D6 & D7 & D8).
  cbn [jsonParseValue]. cbv zeta. rewrite Hzp.
  rewrite skip_space_stop by (rewrite Hc; exact Hsp).
  rewrite Hc. unfold literal_at. rewrite D1, D2, D3, D4, D5, D6, D7, D8. cbn [andb].
  rewrite (u32_small (len pre + 1)) by lia. rewrite Hscan. cbn [bind].
  rewrite (u32_small (j - 1)) by lia. rewrite Hlast.
  replace (u32 (j - len pre)) with (len (print_number num)) by (rewrite u32_small; lia).
  rewrite (to_int_small j) by lia. rewrite Hj, Hdp. reflexivity.
Qed.

End ScalarCalls.


(** ** The first node *)

Lemma first_node_granted realloc z ty m c :
  realloc 160 = true ->
  jsonParseAddNode realloc (mkParse 0 0 [] z false) ty m c
  = Ok (0, mkParse 1 10 [mkNode ty false m c] z false).
Proof.
  intros Hre. unfold jsonParseAddNode. cbn [nAlloc nNode oom].
  change (0 <=? 0) with true. change (u32 (0 * 2 + 10)) with 10.
  change (10 <=? 0) with false.
  change (dangling (mkParse 0 0 [] z false)) with false.
  change (node_bytes 10) with 160. cbv iota. rewrite Hre. reflexivity.
Qed.

(** The parse of a text that is one scalar, when the top call adds its
    node and returns the length of the text. *)
Lemma jsonParse_scalar realloc p0 z ty m c :
  realloc 160 = true -> 1 <= len z ->
  jsonParseValue realloc (parse_fuel z) (mkParse 0 0 [] z false) 0
  = (r <- jsonParseAddNode realloc (mkParse 0 0 [] z false) ty m c ;;
     Ok (len z, snd r)) ->
  jsonParse realloc p0 (Some z) = Ok (0, mkParse 1 10 [mkNode ty false m c] z false).
Proof.
  intros Hre H1 E. unfold jsonParse. rewrite E, (first_node_granted realloc z ty m c Hre).
  cbn [bind fst snd].
  destruct (Z.ltb_spec 0 (len z)); [|lia].
  rewrite skip_space_stop by (rewrite zAt_end by lia; reflexivity).
  rewrite zAt_end by lia. rewrite Ascii.eqb_refl. cbn [negb].
  destruct (Z.ltb_spec (len z) 0); [lia|]. reflexivity.
Qed.

(** ** Adding a node when every request is granted *)

Section Complete.

Variable realloc : Z -> bool.
Hypothesis realloc_grants : forall m, realloc m = true.
Variable z : text.
Hypothesis z_small : len z < 2 ^ 26 - 4.

Lemma add_node_granted p ty m c :
  pgood z p -> nNode p < len z ->
  exists r,
    jsonParseAddNode realloc p ty m c = Ok r /\
    fst r = nNode p /\ pgood z (snd r) /\
    aNode (snd r) = aNode p ++ [mkNode ty false m c].
Proof.
  intros (Hz & Hn & Hcap & Ho) Hlt. pose proof (len_nonneg (aNode p)) as H0.
  eexists. split; [apply (add_node_room realloc p ty m c realloc_grants Hn Hcap Ho); lia|].
  unfold push_node, pgood. cbn [fst snd zJson nNode nAlloc aNode oom].
  rewrite to_int_small, u32_small by lia. len_norm.
  repeat split; try assumption; try lia.
  destruct (Z.leb_spec (nAlloc p) (nNode p)); lia.
Qed.

Lemma scalar_parsed p ty m c (pre : text) :
  pgood z p -> nNode p <= len pre -> len pre < len z ->
  exists r,
    jsonParseAddNode realloc p ty m c = Ok r /\
    pgood z (snd r) /\
    aNode (snd r) = aNode p ++ flatten (Tree (mkNode ty false m c) []).
Proof.
  intros Hg Hle Hx.
  destruct (add_node_granted p ty m c Hg ltac:(lia)) as (r & E & _ & Hg' & Ha).
  exists r. split; [exact E|]. split; [exact Hg'|exact Ha].
Qed.

(** ** The scalars *)

Lemma span_at ty (pre s post : text) :
  z = pre ++ s ++ post ->
  span z (mkNode ty false (len s) (Some (len pre))) = s.
Proof.
  intros Hz. unfold span, at_ptr. cbn [n zJContent]. rewrite Hz, drop_len.
  unfold len. rewrite Nat2Z.id. apply take_app_length.
Qed.

Lemma z_calls : len z < 2 ^ 31 - 8.
Proof. lia. Qed.

Lemma literal_parses f lit ty v :
  In (lit, ty) literals -> print v = txt lit -> type_of v = ty ->
  parses_as z (jsonParseValue realloc (S f)) v.
Proof.
  intros Hin Hpr Hty p pre post Hz Hd Hg Hn. rewrite Hpr in *.
  pose proof Hg as (Hzp & _).
  assert (Hlit : 1 <= len (txt lit) /\ is_literal ty = true /\
                 text_of z (Tree (mkNode ty false 0 None) []) = txt lit).
  { simpl in Hin. destruct Hin as [[= <- <-]|[[= <- <-]|[[= <- <-]|[]]]];
      (split; [vm_compute; discriminate|split; reflexivity]). }
  destruct Hlit as (Hl1 & Hl2 & Hl3).
  pose proof (f_equal len Hz) as Hlen. rewrite !len_app in Hlen.
  pose proof (len_nonneg pre). pose proof (len_nonneg post).
  rewrite (literal_call realloc z z_calls f lit ty p pre post Hin Hz Hd Hzp).
  destruct (scalar_parsed p ty 0 None pre Hg Hn ltac:(lia)) as (r & E & Hg' & Ha).
  rewrite E. cbn [bind].
  exists (snd r), (Tree (mkNode ty false 0 None) []).
  split; [reflexivity|]. split; [exact Hg'|]. split; [exact Ha|].
  split; [apply shaped_literal; [exact Hl2|reflexivity]|].
  split; [exact Hl3|]. cbn [root eType]. symmetry. exact Hty.
Qed.

Lemma string_parses f b :
  valid_body b = true -> parses_as z (jsonParseValue realloc (S f)) (JString b).
Proof.
  intros Hv p pre post Hz Hd Hg Hn. cbn [print type_of] in *.
  pose proof Hg as (Hzp & _).
  pose proof (f_equal len Hz) as Hlen. rewrite !len_app in Hlen.
  assert (Hq : len (quoted b) = len (print_body b) + 2) by apply len_quoted.
  pose proof (len_nonneg pre). pose proof (len_nonneg post).
  pose proof (len_nonneg (print_body b)).
  rewrite (string_call realloc z z_calls f b p pre post
             (valid_body_scannable b Hv) Hz Hzp).
  destruct (scalar_parsed p JSON_STRING (len (quoted b)) (Some (len pre)) pre Hg Hn
              ltac:(lia)) as (r & E & Hg' & Ha).
  rewrite E. cbn [bind].
  eexists _, (Tree (mkNode JSON_STRING false (len (quoted b)) (Some (len pre))) []).
  split; [reflexivity|]. split; [exact Hg'|]. split; [exact Ha|].
  split; [|split; [|reflexivity]].
  - apply (shaped_span z _ (len pre)); cbn [eType bRaw zJContent n has_span];
      try reflexivity; lia.
  - cbn [text_of eType]. apply (span_at _ pre (quoted b) post). exact Hz.
Qed.

Lemma number_parses f num :
  valid_number num = true -> parses_as z (jsonParseValue realloc (S f)) (JNumber num).
Proof.
  intros Hv p pre post Hz Hd Hg Hn. cbn [print type_of] in *.
  pose proof Hg as (Hzp & _).
  pose proof (f_equal len Hz) as Hlen. rewrite !len_app in Hlen.
  pose proof (len_nonneg pre). pose proof (len_nonneg post).
  destruct (print_head (JNumber num) Hv) as (c & rest & Hpr & Hsp). cbn [print] in Hpr.
  assert (Hl1 : 1 <= len (print_number num))
    by (rewrite Hpr; len_norm; pose proof (len_nonneg rest); lia).
  rewrite (number_call realloc z z_calls f num p pre post Hv Hz Hd Hzp).
  set (ty := if is_real num then JSON_REAL else JSON_INT).
  assert (Hty : has_span ty = true) by (unfold ty; destruct (is_real num); reflexivity).
  destruct (scalar_parsed p ty (len (print_number num)) (Some (len pre)) pre Hg Hn
              ltac:(lia)) as (r & E & Hg' & Ha).
  rewrite E. cbn [bind].
  eexists _, (Tree (mkNode ty false (len (print_number num)) (Some (len pre))) []).
  split; [reflexivity|]. split; [exact Hg'|]. split; [exact Ha|].
  split; [|split; [|reflexivity]].
  - apply (shaped_span z _ (len pre)); cbn [eType bRaw zJContent n];
      try reflexivity; try assumption; lia.
  - pose proof (span_at ty pre (print_number num) post Hz) as Hs.
    cbn [text_of eType]. destruct ty; try discriminate; exact Hs.
Qed.

(** ** The containers *)


(** A closing bracket where a value is looked for. *)
Lemma closing_parsed f p (pre : text) c rest x :
  zJson p = z -> z = pre ++ c :: rest ->
  (c = chr "]" /\ x = -3) \/ (c = chr "}" /\ x = -2) ->
  jsonParseValue realloc (S f) p (len pre) = Ok (x, p).
Proof.
  intros Hzp Hz Hcx.
  assert (Hc : zAt z (len pre) = c) by (rewrite Hz; apply zAt_mid).
  assert (Hdisp : isspace c = false /\ Ascii.eqb c NUL = false /\ is_chr c "{" = false /\
                  is_chr c "[" = false /\ Ascii.eqb c DQUOTE = false /\
                  Ascii.eqb c (chr "null") = false /\ Ascii.eqb c (chr "true") = false /\
                  Ascii.eqb c (chr "false") = false /\
                  is_chr c "-" || is_digit_char c = false /\
                  (if is_chr c "}" then Ok (-2, p) else
                   if is_chr c "]" then Ok (-3, p) else Ok (-1, p)) = Ok (x, p)).
  { destruct Hcx as [[-> ->]|[-> ->]]; repeat split; reflexivity. }
  destruct Hdisp as (D0 & D1 & D2 & D3 & D4 & D5 & D6 & D7 & D8 & D9).
  cbn [jsonParseValue]. cbv zeta. rewrite Hzp.
  rewrite skip_space_stop by (rewrite Hc; exact D0).
  rewrite Hc. unfold literal_at. rewrite D1, D2, D3, D4, D5, D6, D7, D8. cbn [andb].
  exact D9.
Qed.

(** The size of a container is set when its closing bracket is reached. *)
Lemma close_container_done q base ty kids j :
  pgood z q -> aNode q = base ++ mkNode ty false 0 None :: flat kids ->
  0 <= j < len z -> nNode q <= len z ->
  exists p',
    close_container q (len base) j = Ok (j + 1, p') /\
    pgood z p' /\
    aNode p' = base ++ flatten (Tree (mkNode ty false (len (flat kids)) None) kids).
Proof.
  intros (Hzq & Hn & Hcap & Ho) Ha Hj Hnz. unfold close_container.
  rewrite (set_n_at base _ (flat kids) q _ Ha). cbn [bind eType bRaw zJContent].
  pose proof (len_nonneg base). pose proof (len_nonneg (flat kids)).
  assert (Hcount : nNode q - len base - 1 = len (flat kids)).
  { rewrite Hn, Ha. len_norm. lia. }
  rewrite Hcount, (u32_small (len (flat kids))), u32_small, to_int_small by lia.
  eexists. split; [reflexivity|]. split; [|reflexivity].
  unfold pgood. cbn [zJson nNode nAlloc aNode oom].
  split; [exact Hzq|]. split; [|split; [exact Hcap|exact Ho]].
  rewrite Hn, Ha. len_norm. reflexivity.
Qed.

Lemma member_texts_cons kb v ms :
  member_texts print ((kb, v) :: ms) = quoted kb :: print v :: member_texts print ms.
Proof. reflexivity. Qed.

Lemma object_text_more kb v ms :
  object_text false (member_texts print ((kb, v) :: ms))
  = chr "," :: quoted kb ++ chr ":" :: print v
      ++ object_text false (member_texts print ms).
Proof. reflexivity. Qed.

Lemma object_text_first kb v ms :
  object_text true (member_texts print ((kb, v) :: ms))
  = quoted kb ++ chr ":" :: print v ++ object_text false (member_texts print ms).
Proof. reflexivity. Qed.

(** An element is not longer than the text of the elements, and there
    are not more of them than characters. *)
Lemma array_print_bounds vs :
  forallb valid vs = true -> forall first,
  (length vs <= length (array_text first (map print vs)))%nat /\
  Forall (fun v => (length (print v) <= length (array_text first (map print vs)))%nat) vs.
Proof.
  induction vs as [|v vs IH]; intros Hv first.
  - split; [cbn; lia|constructor].
  - cbn [forallb] in Hv. apply andb_true_iff in Hv as [Hv Hvs].
    destruct (IH Hvs false) as [IH1 IH2].
    destruct (print_head v Hv) as (c & rest & Hpr & _).
    pose proof (f_equal (@length ascii) Hpr) as Hl. cbn [length] in Hl.
    cbn [map array_text]. rewrite !length_app. cbn [length].
    remember (length (array_text false (map print vs))) as m eqn:Em.
    split; [lia|]. constructor; [lia|].
    clear -IH2. induction IH2 as [|x l Hx _ IHl]; [constructor|constructor; [lia|exact IHl]].
Qed.

Lemma object_print_bounds ms : forall first,
  (length ms <= length (object_text first (member_texts print ms)))%nat /\
  Forall (fun kv : list schar * json =>
            (length (print (snd kv))
             <= length (object_text first (member_texts print ms)))%nat) ms.
Proof.
  induction ms as [|[kb v] ms IH]; intros first.
  - split; [cbn; lia|constructor].
  - destruct (IH false) as [IH1 IH2].
    change (object_text first (member_texts print ((kb, v) :: ms)))
      with ((if first then [] else [chr ","]) ++ quoted kb ++ [chr ":"] ++ print v
            ++ object_text false (member_texts print ms)).
    rewrite !length_app. cbn [length snd].
    remember (length (object_text false (member_texts print ms))) as m eqn:Em.
    split; [lia|]. constructor; [cbn [snd]; lia|].
    clear -IH2. induction IH2 as [|x l Hx _ IHl]; [constructor|constructor; [lia|exact IHl]].
Qed.

(** The tree of a string is its node. *)
Lemma string_tree t :
  shaped z t -> eType (root t) = JSON_STRING -> exists nd, t = Tree nd [].
Proof.
  intros Hs Hty.
  inversion Hs as [nd Hlit Hraw|nd off Hsp Hraw Hc Hoff Hn0 Hfit
                  |nd kids Hty' Hraw Hsz Hk|nd kids Hty' Hraw Hsz Hev Hk]; subst t;
    cbn [root] in Hty; try (exists nd; reflexivity); congruence.
Qed.

Section Loops.

Variable rec : JsonParse -> Z -> result (Z * JsonParse).

Lemma parse_array_complete vs :
  Forall (fun v => valid v = true /\ parses_as z rec v) vs ->
  forall v k p iThis pre post,
    valid v = true -> parses_as z rec v ->
    z = pre ++ print v ++ array_text false (map print vs) ++ chr "]" :: post ->
    pgood z p -> nNode p <= len pre -> (length vs < k)%nat ->
    exists p' kids,
      parse_array rec k p iThis (len pre)
      = close_container p' iThis
          (len pre + len (print v ++ array_text false (map print vs))) /\
      pgood z p' /\ aNode p' = aNode p ++ flat kids /\
      Forall (shaped z) kids /\ map (text_of z) kids = map print (v :: vs) /\
      nNode p' <= len pre + len (print v ++ array_text false (map print vs)).
Proof.
  induction 1 as [|v' vs [Hv' Hp'] _ IH]; intros v k p iThis pre post Hv Hp Hz Hg Hn Hk;
    (destruct k as [|k]; [cbn in Hk; lia|]).
  all: pose proof Hg as (Hzp & Hnp & _).
  all: destruct (print_head v Hv) as (c & rest & Hpr & Hsp).
  all: assert (Hc : zAt z (len pre) = c) by (rewrite Hz, Hpr; cbn [app]; apply zAt_mid).
  all: pose proof (f_equal len Hz) as Hlen; rewrite !len_app in Hlen.
  all: pose proof (len_nonneg pre); pose proof (len_nonneg post);
       pose proof (len_nonneg (print v)).
  all: cbn [parse_array]; cbv zeta; rewrite Hzp.
  all: rewrite (skip_space_stop z (len pre)) by (rewrite Hc; exact Hsp).
  - cbn [map array_text app] in Hz, Hlen |- *. rewrite app_nil_r.
    len_norm_in Hlen.
    destruct (Hp p pre (chr "]" :: post) Hz eq_refl Hg Hn)
      as (p1 & t & E & Hg1 & Ha1 & Hs1 & Ht1 & _).
    rewrite E. cbn [bind fst snd].
    destruct (Z.ltb_spec (len pre + len (print v)) 0); [lia|].
    rewrite (u32_small (len pre + len (print v))) by lia.
    assert (Hc2 : zAt z (len pre + len (print v)) = chr "]").
    { apply (zAt_at z (pre ++ print v) _ post); [rewrite Hz; list_eq|len_norm; lia]. }
    rewrite skip_space_stop by (rewrite Hc2; reflexivity).
    rewrite Hc2. change (is_chr (chr "]") ",") with false.
    change (negb (is_chr (chr "]") "]")) with false. cbv iota.
    exists p1, [t]. split; [reflexivity|]. split; [exact Hg1|].
    split; [rewrite Ha1; unfold flat; cbn [map concat]; rewrite app_nil_r; reflexivity|].
    split; [repeat constructor; exact Hs1|].
    split; [cbn [map]; rewrite Ht1; reflexivity|].
    destruct Hg1 as (_ & Hn1 & _). rewrite Hn1, Ha1, len_app, <- Hnp.
    pose proof (shaped_nodes_le_text z t Hs1) as Hle. rewrite Ht1 in Hle. lia.
  - cbn [map array_text app] in Hz, Hlen |- *.
    len_norm_in Hlen.
    pose proof (len_nonneg (print v')).
    pose proof (len_nonneg (array_text false (map print vs))).
    destruct (Hp p pre _ Hz eq_refl Hg Hn)
      as (p1 & t & E & Hg1 & Ha1 & Hs1 & Ht1 & _).
    rewrite E. cbn [bind fst snd].
    destruct (Z.ltb_spec (len pre + len (print v)) 0); [lia|].
    rewrite (u32_small (len pre + len (print v))) by lia.
    assert (Hc2 : zAt z (len pre + len (print v)) = chr ",").
    { apply (zAt_at z (pre ++ print v) _
               (print v' ++ array_text false (map print vs) ++ chr "]" :: post));
        [rewrite Hz; list_eq|len_norm; lia]. }
    rewrite skip_space_stop by (rewrite Hc2; reflexivity).
    rewrite Hc2. change (is_chr (chr ",") ",") with true. cbv iota.
    rewrite (u32_small (len pre + len (print v) + 1)) by lia.
    assert (Hn1 : nNode p1 <= len pre + len (print v)).
    { destruct Hg1 as (_ & Hn1 & _). rewrite Hn1, Ha1, len_app, <- Hnp.
      pose proof (shaped_nodes_le_text z t Hs1) as Hle. rewrite Ht1 in Hle. lia. }
    destruct (IH v' k p1 iThis (pre ++ print v ++ [chr ","]) post Hv' Hp')
      as (p' & kids & E' & Hg' & Ha' & Hs' & Ht' & Hn');
      [rewrite Hz; list_eq|exact Hg1|len_norm; lia|cbn [length] in Hk; lia|].
    replace (len pre + len (print v) + 1) with (len (pre ++ print v ++ [chr ","]))
      by (len_norm; lia).
    rewrite E'. exists p', (t :: kids).
    split; [f_equal; len_norm; lia|]. split; [exact Hg'|].
    split; [rewrite Ha', Ha1, flat_cons; list_eq|].
    split; [constructor; assumption|].
    split; [cbn [map] in Ht' |- *; rewrite Ht1, Ht'; reflexivity|].
    revert Hn'. len_norm. lia.
Qed.

Lemma parse_object_complete ms :
  (forall b, valid_body b = true -> parses_as z rec (JString b)) ->
  Forall (fun kv => valid_body (fst kv) = true /\ valid (snd kv) = true /\
                    parses_as z rec (snd kv)) ms ->
  forall kb v k p iThis pre post,
    valid_body kb = true -> valid v = true -> parses_as z rec v ->
    z = pre ++ quoted kb ++ chr ":" :: print v
          ++ object_text false (member_texts print ms) ++ chr "}" :: post ->
    pgood z p -> nNode p <= len pre -> (length ms < k)%nat ->
    exists p' kids,
      parse_object rec k p iThis (len pre)
      = close_container p' iThis
          (len pre + len (quoted kb ++ chr ":" :: print v
                            ++ object_text false (member_texts print ms))) /\
      pgood z p' /\ aNode p' = aNode p ++ flat kids /\
      Forall (shaped z) kids /\
      map (text_of z) kids = member_texts print ((kb, v) :: ms) /\
      Nat.Even (length kids) /\
      nNode p' <= len pre + len (quoted kb ++ chr ":" :: print v
                                   ++ object_text false (member_texts print ms)).
Proof.
  intros Hstr.
  induction 1 as [|[kb' v'] ms (Hkb' & Hv' & Hp') _ IH];
    intros kb v k p iThis pre post Hkb Hv Hp Hz Hg Hn Hk;
    (destruct k as [|k]; [cbn in Hk; lia|]).
  all: cbn [fst snd] in *.
  all: pose proof Hg as (Hzp & Hnp & _).
  all: assert (Hc : zAt z (len pre) = DQUOTE)
         by (rewrite Hz; unfold quoted; cbn [app]; apply zAt_mid).
  all: pose proof (f_equal len Hz) as Hlen.
  all: pose proof (len_nonneg pre); pose proof (len_nonneg post);
       pose proof (len_nonneg (print v)); pose proof (len_nonneg (quoted kb));
       pose proof (len_nonneg (aNode p)).
  all: cbn [parse_object]; cbv zeta; rewrite Hzp.
  all: rewrite (skip_space_stop z (len pre)) by (rewrite Hc; reflexivity).
  (* the key *)
  all: destruct (Hstr kb Hkb p pre _ Hz eq_refl Hg Hn)
         as (p1 & t1 & E1 & Hg1 & Ha1 & Hs1 & Ht1 & Hty1);
       cbn [print type_of] in E1, Ht1, Hty1.
  all: destruct (string_tree t1 Hs1 Hty1) as (nd1 & ->); cbn [root] in Hty1;
       rewrite flatten_eq in Ha1; change (flat []) with (@nil JsonNode) in Ha1.
  all: pose proof Hg1 as (Hzp1 & Hnp1 & _).
  all: assert (Hn1 : nNode p1 = nNode p + 1) by (rewrite Hnp1, Ha1, Hnp; len_norm; lia).
  all: rewrite E1; cbn [bind fst snd].
  all: destruct (Z.ltb_spec (len pre + len (quoted kb)) 0); [lia|].
  all: match type of Hz with context [object_text false ?m] =>
         pose proof (len_nonneg (object_text false m)) end.
  all: len_norm_in Hlen.
  all: change (member_texts print []) with (@nil text) in Hz |- *;
       cbn [object_text] in Hz |- *;
       rewrite ?object_text_more in Hz |- *.
  all: rewrite (u32_small (nNode p1 - 1)) by lia.
  all: replace (nNode p1 - 1) with (len (aNode p)) by lia.
  all: rewrite Ha1, node_at_app; cbn [bind]; rewrite Hty1; cbn [JsonType_eqb negb].
  all: rewrite (u32_small (len pre + len (quoted kb))) by lia.
  all: assert (Hc2 : zAt z (len pre + len (quoted kb)) = chr ":")
         by (eapply (zAt_at z (pre ++ quoted kb)); [rewrite Hz; list_eq|len_norm; lia]).
  all: rewrite skip_space_stop by (rewrite Hc2; reflexivity).
  all: rewrite Hc2; change (negb (is_chr (chr ":") ":")) with false; cbv iota.
  all: rewrite (u32_small (len pre + len (quoted kb) + 1)) by lia.
  (* the value *)
  all: replace (len pre + len (quoted kb) + 1) with (len (pre ++ quoted kb ++ [chr ":"]))
         by (len_norm; lia).
  all: edestruct (Hp p1 (pre ++ quoted kb ++ [chr ":"]))
         as (p2 & t2 & E2 & Hg2 & Ha2 & Hs2 & Ht2 & _);
         [rewrite Hz; list_eq|reflexivity|exact Hg1|len_norm; lia|].
  all: pose proof Hg2 as (Hzp2 & Hnp2 & _).
  all: pose proof (shaped_nodes_le_text z t2 Hs2) as Hle2; rewrite Ht2 in Hle2.
  all: assert (Hn2 : nNode p2 <= len pre + len (quoted kb) + 1 + len (print v))
         by (rewrite Hnp2, Ha2, len_app, <- Hnp1; lia).
  all: rewrite E2; cbn [bind fst snd].
  all: rewrite (len_app pre), (len_app (quoted kb)), len_cons, len_nil.
  all: set (x2 := len pre + (len (quoted kb) + (1 + 0)) + len (print v)).
  all: destruct (Z.ltb_spec x2 0); [unfold x2 in *; lia|].
  all: rewrite (u32_small x2) by (unfold x2 in *; lia).
  - assert (Hc3 : zAt z x2 = chr "}").
    { eapply (zAt_at z (pre ++ quoted kb ++ chr ":" :: print v));
        [rewrite Hz; list_eq|unfold x2; len_norm; lia]. }
    rewrite skip_space_stop by (rewrite Hc3; reflexivity).
    rewrite Hc3. change (is_chr (chr "}") ",") with false.
    change (negb (is_chr (chr "}") "}")) with false. cbv iota.
    exists p2, [Tree nd1 []; t2]. rewrite app_nil_r.
    split; [f_equal; unfold x2; len_norm; lia|]. split; [exact Hg2|].
    split; [rewrite Ha2, Ha1; unfold flat; cbn [map concat flatten]; rewrite app_nil_r; list_eq|].
    split; [constructor; [exact Hs1|constructor; [exact Hs2|constructor]]|].
    split; [cbn [map]; rewrite Ht1, Ht2; reflexivity|].
    split; [exists 1%nat; reflexivity|].
    revert Hn2. len_norm. lia.
  - pose proof (len_nonneg (quoted kb')). pose proof (len_nonneg (print v')).
    pose proof (len_nonneg (object_text false (member_texts print ms))).
    assert (Hc3 : zAt z x2 = chr ",").
    { eapply (zAt_at z (pre ++ quoted kb ++ chr ":" :: print v));
        [rewrite Hz; list_eq|unfold x2; len_norm; lia]. }
    rewrite skip_space_stop by (rewrite Hc3; reflexivity).
    rewrite Hc3. change (is_chr (chr ",") ",") with true. cbv iota.
    rewrite (u32_small (x2 + 1)) by (unfold x2 in *; lia).
    replace (x2 + 1) with (len (pre ++ quoted kb ++ chr ":" :: print v ++ [chr ","]))
      by (unfold x2; len_norm; lia).
    edestruct (IH kb' v' k p2 iThis (pre ++ quoted kb ++ chr ":" :: print v ++ [chr ","]))
      as (p' & kids & E' & Hg' & Ha' & Hs' & Ht' & Hev' & Hn');
      [exact Hkb'|exact Hv'|exact Hp'|rewrite Hz; list_eq|exact Hg2
      |len_norm; lia|cbn [length] in Hk; lia|].
    rewrite E'. exists p', (Tree nd1 [] :: t2 :: kids).
    split; [f_equal; len_norm; lia|]. split; [exact Hg'|].
    split; [rewrite Ha', Ha2, Ha1, !flat_cons, flatten_eq;
            change (flat []) with (@nil JsonNode); list_eq|].
    split; [constructor; [exact Hs1|constructor; [exact Hs2|exact Hs']]|].
    split; [rewrite member_texts_cons; cbn [map]; rewrite Ht1, Ht2, Ht'; reflexivity|].
    split; [destruct Hev' as [m Hm]; exists (S m); cbn [length]; lia|].
    revert Hn'. len_norm. lia.
Qed.

End Loops.

(** ** Every value *)

Lemma array_parses f vs :
  Forall (fun v => valid v = true /\ parses_as z (jsonParseValue realloc f) v) vs ->
  (length vs < f)%nat ->
  parses_as z (jsonParseValue realloc (S f)) (JArray vs).
Proof.
  intros Hall Hf p pre post Hz Hd Hg Hn. cbn [print type_of] in *.
  pose proof Hg as (Hzp & Hnp & _).
  pose proof (f_equal len Hz) as Hlen. len_norm_in Hlen.
  pose proof (len_nonneg pre). pose proof (len_nonneg post).
  pose proof (len_nonneg (aNode p)).
  pose proof (len_nonneg (array_text true (map print vs))).
  assert (Hc : zAt z (len pre) = chr "[") by (rewrite Hz; cbn [app]; apply zAt_mid).
  destruct (add_node_granted p JSON_ARRAY 0 None Hg ltac:(lia)) as (r & Ea & Hfst & Hg1 & Ha1).
  pose proof Hg1 as (Hzp1 & Hnp1 & _).
  assert (Hn1 : nNode (snd r) = nNode p + 1)
    by (rewrite Hnp1, Ha1, Hnp; len_norm; lia).
  cbn [jsonParseValue]. cbv zeta. rewrite Hzp.
  rewrite skip_space_stop by (rewrite Hc; reflexivity).
  rewrite Hc. change (Ascii.eqb (chr "[") NUL) with false.
  change (is_chr (chr "[") "{") with false. change (is_chr (chr "[") "[") with true.
  cbv iota. rewrite Ea. cbn [bind]. rewrite Hfst, (u32_small (nNode p)) by lia.
  destruct (Z.ltb_spec (nNode p) 0); [lia|].
  rewrite (u32_small (len pre + 1)) by lia.
  rewrite <- (len_snoc pre (chr "[")).
  set (p1 := snd r) in *.
  destruct vs as [|v vs].
  - (* no element *)
    destruct f as [|f]; [lia|]. cbn [map array_text app] in Hz, Hlen |- *.
    len_norm_in Hlen.
    cbn [parse_array]. cbv zeta. rewrite Hzp1.
    assert (Hc1 : zAt z (len (pre ++ [chr "["])) = chr "]")
      by (rewrite Hz; rewrite (snoc_app pre); apply zAt_mid).
    rewrite skip_space_stop by (rewrite Hc1; reflexivity).
    rewrite (closing_parsed f p1 (pre ++ [chr "["]) (chr "]") post (-3) Hzp1);
      [|rewrite Hz; list_eq|left; split; reflexivity].
    cbn [bind fst snd]. change (-3 <? 0) with true. change (-3 =? -3) with true.
    rewrite (u32_small (nNode p + 1)), Hn1, Z.eqb_refl by lia. cbn [andb].
    rewrite (len_snoc pre (chr "[")), u32_small, to_int_small by lia.
    exists p1, (Tree (mkNode JSON_ARRAY false 0 None) []).
    split; [f_equal; f_equal; len_norm; lia|]. split; [exact Hg1|]. split; [exact Ha1|].
    split; [apply shaped_array; first [reflexivity|constructor]|].
    split; reflexivity.
  - (* elements *)
    apply Forall_cons in Hall as [[Hv Hp] Hall]. cbn [length] in Hf.
    cbn [map array_text app] in Hz, Hlen |- *.
    destruct (parse_array_complete (jsonParseValue realloc f) vs Hall v f p1 (nNode p)
                (pre ++ [chr "["]) post Hv Hp)
      as (p' & kids & E & Hg' & Ha' & Hs' & Ht' & Hn');
      [rewrite Hz; list_eq|exact Hg1|rewrite Hn1; len_norm; lia|lia|].
    rewrite E. rewrite Hnp.
    set (body := print v ++ array_text false (map print vs)) in *.
    pose proof (len_nonneg body).
    assert (Hlb : len z = len pre + (1 + (len body + (1 + len post))))
      by (rewrite Hlen; unfold body; len_norm; lia).
    destruct (close_container_done p' (aNode p) JSON_ARRAY kids
                (len (pre ++ [chr "["]) + len body) Hg')
      as (p2 & E2 & Hg2 & Ha2);
      [rewrite Ha', Ha1; list_eq|len_norm; lia|revert Hn'; len_norm; lia|].
    rewrite E2. exists p2, (Tree (mkNode JSON_ARRAY false (len (flat kids)) None) kids).
    split; [f_equal; f_equal; len_norm; lia|]. split; [exact Hg2|]. split; [exact Ha2|].
    split; [apply shaped_array; first [reflexivity|exact Hs']|].
    split; [|reflexivity].
    cbn [text_of eType]. rewrite Ht'. reflexivity.
Qed.

Lemma object_parses f ms :
  Forall (fun kv => valid_body (fst kv) = true /\ valid (snd kv) = true /\
                    parses_as z (jsonParseValue realloc (S f)) (snd kv)) ms ->
  (length ms < S f)%nat ->
  parses_as z (jsonParseValue realloc (S (S f))) (JObject ms).
Proof.
  intros Hall Hf p pre post Hz Hd Hg Hn. cbn [print type_of] in *.
  pose proof Hg as (Hzp & Hnp & _).
  pose proof (f_equal len Hz) as Hlen. len_norm_in Hlen.
  pose proof (len_nonneg pre). pose proof (len_nonneg post).
  pose proof (len_nonneg (aNode p)).
  pose proof (len_nonneg (object_text true (member_texts print ms))).
  assert (Hc : zAt z (len pre) = chr "{") by (rewrite Hz; cbn [app]; apply zAt_mid).
  destruct (add_node_granted p JSON_OBJECT 0 None Hg ltac:(lia)) as (r & Ea & Hfst & Hg1 & Ha1).
  pose proof Hg1 as (Hzp1 & Hnp1 & _).
  assert (Hn1 : nNode (snd r) = nNode p + 1)
    by (rewrite Hnp1, Ha1, Hnp; len_norm; lia).
  remember (S f) as f1 eqn:Ef1.
  cbn [jsonParseValue]. cbv zeta. rewrite Hzp.
  rewrite skip_space_stop by (rewrite Hc; reflexivity).
  rewrite Hc. change (Ascii.eqb (chr "{") NUL) with false.
  change (is_chr (chr "{") "{") with true.
  cbv iota. rewrite Ea. cbn [bind]. rewrite Hfst, (u32_small (nNode p)) by lia.
  destruct (Z.ltb_spec (nNode p) 0); [lia|].
  rewrite (u32_small (len pre + 1)) by lia.
  rewrite <- (len_snoc pre (chr "{")).
  set (p1 := snd r) in *.
  subst f1.
  destruct ms as [|[kb v] ms].
  - (* no member *)
    change (member_texts print []) with (@nil text) in *.
    cbn [object_text app] in Hz, Hlen |- *. len_norm_in Hlen.
    cbn [parse_object]. cbv zeta. rewrite Hzp1.
    assert (Hc1 : zAt z (len (pre ++ [chr "{"])) = chr "}")
      by (rewrite Hz; rewrite (snoc_app pre); apply zAt_mid).
    rewrite skip_space_stop by (rewrite Hc1; reflexivity).
    rewrite (closing_parsed f p1 (pre ++ [chr "{"]) (chr "}") post (-2) Hzp1);
      [|rewrite Hz; list_eq|right; split; reflexivity].
    cbn [bind fst snd]. change (-2 <? 0) with true. change (-2 =? -2) with true.
    rewrite (u32_small (nNode p + 1)), Hn1, Z.eqb_refl by lia. cbn [andb].
    rewrite (len_snoc pre (chr "{")), u32_small, to_int_small by lia.
    exists p1, (Tree (mkNode JSON_OBJECT false 0 None) []).
    split; [f_equal; f_equal; len_norm; lia|]. split; [exact Hg1|]. split; [exact Ha1|].
    split; [apply shaped_object;
            first [reflexivity|constructor|exists 0%nat; reflexivity]|].
    split; reflexivity.
  - (* members *)
    apply Forall_cons in Hall as [(Hkb & Hv & Hp) Hall]. cbn [length fst snd] in *.
    rewrite object_text_first in Hz, Hlen |- *.
    destruct (parse_object_complete (jsonParseValue realloc (S f)) ms
                (fun b Hb => string_parses f b Hb) Hall kb v (S f) p1 (nNode p)
                (pre ++ [chr "{"]) post Hkb Hv Hp)
      as (p' & kids & E & Hg' & Ha' & Hs' & Ht' & Hev' & Hn');
      [rewrite Hz; list_eq|exact Hg1|rewrite Hn1; len_norm; lia|lia|].
    rewrite E. rewrite Hnp.
    set (body := quoted kb ++ chr ":" :: print v
                   ++ object_text false (member_texts print ms)) in *.
    pose proof (len_nonneg body).
    destruct (close_container_done p' (aNode p) JSON_OBJECT kids
                (len (pre ++ [chr "{"]) + len body) Hg')
      as (p2 & E2 & Hg2 & Ha2);
      [rewrite Ha', Ha1; list_eq|len_norm; lia|revert Hn'; len_norm; lia|].
    rewrite E2. exists p2, (Tree (mkNode JSON_OBJECT false (len (flat kids)) None) kids).
    split; [f_equal; f_equal; len_norm; lia|]. split; [exact Hg2|]. split; [exact Ha2|].
    split; [apply shaped_object; first [reflexivity|exact Hs'|exact Hev']|].
    split; [|reflexivity].
    cbn [text_of eType]. rewrite Ht', object_text_first. reflexivity.
Qed.

Lemma value_parses : forall v, valid v = true ->
  forall fuel, (length (print v) < fuel)%nat ->
  parses_as z (jsonParseValue realloc fuel) v.
Proof.
  induction v as [| | |num|b|vs IH|ms IH] using json_ind; intros Hv fuel Hf;
    (destruct fuel as [|f]; [lia|]).
  - apply (literal_parses f "null" JSON_NULL); [left; reflexivity|reflexivity|reflexivity].
  - apply (literal_parses f "true" JSON_TRUE);
      [right; left; reflexivity|reflexivity|reflexivity].
  - apply (literal_parses f "false" JSON_FALSE);
      [right; right; left; reflexivity|reflexivity|reflexivity].
  - apply number_parses, Hv.
  - apply string_parses, Hv.
  - cbn [valid] in Hv. cbn [print] in Hf. rewrite !length_app in Hf. cbn [length] in Hf.
    destruct (array_print_bounds vs Hv true) as [Hcount Hitems].
    apply array_parses; [|lia].
    rewrite Forall_forall in IH, Hitems |- *. intros v Hin.
    assert (Hvv : valid v = true).
    { apply (proj1 (forallb_forall valid vs) Hv), list_elem_of_In, Hin. }
    split; [exact Hvv|]. apply (IH v Hin Hvv). specialize (Hitems v Hin). lia.
  - cbn [valid] in Hv. cbn [print] in Hf. rewrite !length_app in Hf. cbn [length] in Hf.
    destruct (object_print_bounds ms true) as [Hcount Hitems].
    destruct f as [|f]; [lia|].
    apply object_parses; [|lia].
    rewrite Forall_forall in IH, Hitems |- *. intros kv Hin.
    pose proof (proj1 (forallb_forall _ ms) Hv kv (proj1 (list_elem_of_In _ _) Hin)) as Hkv.
    cbn beta in Hkv. apply andb_true_iff in Hkv as [Hk Hvv].
    split; [exact Hk|]. split; [exact Hvv|].
    apply (IH kv Hin Hvv). specialize (Hitems kv Hin). cbn beta in Hitems. lia.
Qed.

End Complete.

(** * Parsing a minimal text and rendering it again *)



(** * More on the accumulator *)

Module AccumStep.
Import Accum.

Lemma acc_mid_inv q : acc_mid 0 q <-> acc_inv q.
Proof.
  unfold acc_mid, acc_inv, acc_ok. rewrite Z.add_0_r. split.
  - intros (H1 & H2 & H3 & H4). repeat split; try lia; try apply H4; assumption.
  - intros ((H1 & H2 & H3 & H4) & H5). repeat split; try lia; auto.
Qed.

Lemma acc_mid_weaken r r' q : acc_mid r q -> r <= r' -> acc_mid r' q.
Proof.
  unfold acc_mid. intros (H1 & H2 & H3 & H4) Hr. repeat split; try lia; apply H4; assumption.
Qed.

Lemma jsonOom_inv q : acc_inv (jsonOom q).
Proof. split; [apply AccumOk.jsonOom_ok|reflexivity]. Qed.

(** [jsonGrow] for a request that does not fit. *)
Lemma jsonGrow_mid malloc q M r :
  acc_mid r q -> 0 <= M < 2 ^ 33 -> nUsed q + M <= acc_limit ->
  nAlloc q <= M + nUsed q ->
  (fst (jsonGrow malloc q M) <> SQLITE_OK /\
   acc_inv (snd (jsonGrow malloc q M)) /\ oom (snd (jsonGrow malloc q M)) = true /\
   nUsed (snd (jsonGrow malloc q M)) <= nUsed q) \/
  (fst (jsonGrow malloc q M) = SQLITE_OK /\ oom q = false /\
   acc_mid M (snd (jsonGrow malloc q M)) /\
   zBuf (snd (jsonGrow malloc q M)) = zBuf q /\
   nUsed (snd (jsonGrow malloc q M)) = nUsed q /\
   pCtx (snd (jsonGrow malloc q M)) = pCtx q /\
   oom (snd (jsonGrow malloc q M)) = false /\
   nUsed q + M <= nAlloc (snd (jsonGrow malloc q M)) /\
   exists m, malloc m = true).
Proof.
  intros (Hlen & Hu & Ha & Hst) HM Hlim Hfit.
  rewrite AccumOk.acc_limit_val in Hlim. unfold jsonGrow.
  set (nTotal := if M <? nAlloc q then u64 (nAlloc q * 2) else u64 (nAlloc q + M + 100)).
  assert (HT : nUsed q + M <= nTotal /\ nUsed q < nTotal /\
               nTotal <= 2 * (nUsed q + M) + 200).
  { unfold nTotal. destruct (Z.ltb_spec M (nAlloc q)); rewrite u64_small; lia. }
  assert (Hfail : oom q = false -> acc_inv (jsonOom q) /\ oom (jsonOom q) = true /\
                                   nUsed (jsonOom q) <= nUsed q).
  { intros _. split; [apply jsonOom_inv|]. split; [reflexivity|]. cbn. lia. }
  destruct (bStatic q) eqn:Hs.
  - destruct (oom q) eqn:Ho.
    + left. cbn [fst snd]. split; [discriminate|].
      destruct (Hst eq_refl) as (_ & Hcap & Hctx).
      split; [|split; [exact Ho|lia]].
      apply acc_mid_inv. unfold acc_mid. rewrite Ho.
      repeat split; try lia; auto.
    + destruct (malloc nTotal) eqn:Hm; cbn [fst snd].
      * right. unfold acc_mid. cbn. repeat split; try lia; try discriminate; eauto.
      * left. split; [discriminate|]. apply Hfail. reflexivity.
  - assert (Ho : oom q = false).
    { destruct (oom q); [|reflexivity]. destruct (Hst eq_refl) as (Hb & _). congruence. }
    destruct (malloc nTotal) eqn:Hm; cbn [fst snd].
    + right. unfold acc_mid. cbn. rewrite Ho.
      repeat split; try lia; try discriminate; eauto.
    + left. split; [discriminate|]. apply Hfail. exact Ho.
Qed.

Lemma store_mid q c r q' :
  acc_mid r q -> 1 <= r -> nUsed q + 1 <= acc_limit ->
  store q c = Ok q' ->
  acc_mid (r - 1) q' /\ zBuf q' = zBuf q ++ [c] /\ nUsed q' = nUsed q + 1 /\
  oom q' = oom q /\ pCtx q' = pCtx q.
Proof.
  intros (Hlen & Hu & Ha & Hst) Hr Hlim. rewrite AccumOk.acc_limit_val in Hlim.
  unfold store. destruct (Z.ltb_spec (nUsed q) (nAlloc q)); [|discriminate].
  intros [= <-]. unfold acc_mid. cbn. rewrite len_app, u64_small by lia.
  change (len [c]) with 1.
  repeat split; try lia; try reflexivity;
    try (destruct (Hst ltac:(assumption)) as (? & ? & ?); first [assumption|lia]).
Qed.

Lemma copy_in_mid q zIn N q' :
  acc_mid N q -> 0 <= N -> nUsed q + N <= acc_limit ->
  copy_in q zIn N = Ok q' ->
  acc_inv q' /\ zBuf q' = zBuf q ++ take (Z.to_nat N) zIn /\
  nUsed q' = nUsed q + N /\ len (take (Z.to_nat N) zIn) = N /\
  oom q' = oom q /\ pCtx q' = pCtx q.
Proof.
  intros (Hlen & Hu & Ha & Hst) HN Hlim. rewrite AccumOk.acc_limit_val in Hlim.
  unfold copy_in.
  destruct (Z.ltb_spec (Z.of_nat (length zIn)) N); [discriminate|].
  destruct (Z.ltb_spec (nAlloc q) (nUsed q + N)); [discriminate|]. cbn [orb].
  intros [= <-].
  assert (Hl : len (take (Z.to_nat N) zIn) = N).
  { unfold len in *. rewrite length_take. lia. }
  split; [|cbn; rewrite u64_small by lia; auto].
  apply acc_mid_inv. unfold acc_mid. cbn. rewrite len_app, Hl, u64_small by lia.
  repeat split; try lia;
    try (destruct (Hst ltac:(assumption)) as (? & ? & ?); first [assumption|lia]).
Qed.

Lemma append_step_same q q1 bs q' :
  zBuf q1 = zBuf q -> nUsed q1 = nUsed q -> pCtx q1 = pCtx q -> oom q = false ->
  append_step q1 bs q' -> append_step q bs q'.
Proof.
  intros Hz Hu Hc Ho (Hinv & Hle & Happ). split; [exact Hinv|]. split; [lia|].
  intros Ho'. destruct (Happ Ho') as (_ & Hb & Hn & Hoo & Hcc).
  split; [exact Ho|]. unfold appended. repeat split; congruence.
Qed.

Lemma append_step_cons q c q2 bs q' :
  zBuf q2 = zBuf q ++ [c] -> nUsed q2 = nUsed q + 1 -> oom q2 = oom q ->
  pCtx q2 = pCtx q ->
  append_step q2 bs q' -> append_step q (c :: bs) q'.
Proof.
  intros Hz Hu Ho Hc (Hinv & Hle & Happ). split; [exact Hinv|].
  rewrite len_cons. split; [lia|].
  intros Ho'. destruct (Happ Ho') as (Ho2 & Hb & Hn & Hoo & Hcc).
  split; [congruence|]. unfold appended. rewrite Hb, Hn, Hz, Hu, Hcc, Hc, len_cons.
  rewrite <- app_assoc. repeat split; [lia|assumption].
Qed.

Lemma append_step_failed q bs q' :
  acc_inv q' -> oom q' = true -> nUsed q' <= nUsed q -> 0 <= len bs ->
  append_step q bs q'.
Proof.
  intros Hinv Ho Hu Hb. split; [exact Hinv|]. split; [lia|]. congruence.
Qed.

Lemma append_step_trans p bs p1 cs p2 :
  append_step p bs p1 -> append_step p1 cs p2 -> append_step p (bs ++ cs) p2.
Proof.
  intros (Hinv1 & Hle1 & Happ1) (Hinv2 & Hle2 & Happ2).
  split; [exact Hinv2|]. rewrite len_app. split; [lia|].
  intros Ho2. destruct (Happ2 Ho2) as (Ho1 & Hb2 & Hn2 & _ & Hc2).
  destruct (Happ1 Ho1) as (Ho & Hb1 & Hn1 & _ & Hc1).
  split; [exact Ho|]. unfold appended.
  rewrite Hb2, Hb1, Hn2, Hn1, Hc2, Hc1, app_assoc, len_app.
  repeat split; [lia|assumption].
Qed.

Lemma jsonAppendRaw_step malloc p zIn N p' :
  acc_inv p -> 0 <= N < 2 ^ 32 -> nUsed p + N <= acc_limit ->
  jsonAppendRaw malloc p zIn N = Ok p' ->
  append_step p (take (Z.to_nat N) zIn) p'.
Proof.
  intros Hinv HN Hlim. pose proof (proj2 (acc_mid_inv p) Hinv) as Hmid.
  pose proof Hmid as (Hlen & Hu & Ha & Hst).
  pose proof AccumOk.acc_limit_val as Hv.
  pose proof (len_nonneg (take (Z.to_nat N) zIn)) as Hb0.
  assert (Hcopy : forall q, acc_mid N q -> zBuf q = zBuf p -> nUsed q = nUsed p ->
            pCtx q = pCtx p -> oom p = false \/ q = p ->
            copy_in q zIn N = Ok p' -> append_step p (take (Z.to_nat N) zIn) p').
  { intros q Hq Hz Hn Hc Hop E.
    destruct (copy_in_mid q zIn N p' Hq ltac:(lia) ltac:(lia) E)
      as (Hinv' & Hb & Hn' & Hl & Ho & Hcc).
    split; [exact Hinv'|]. split; [lia|]. intros Ho'.
    assert (Hopf : oom p = false) by (destruct Hop as [Hop| ->]; congruence).
    split; [exact Hopf|]. unfold appended. rewrite Hl. repeat split; congruence. }
  unfold jsonAppendRaw, grow_or_return. rewrite u64_small by lia.
  destruct (Z.leb_spec (nAlloc p) (N + nUsed p)) as [Hgrow|Hfit].
  - pose proof (jsonGrow_mid malloc p N 0 Hmid ltac:(lia) Hlim Hgrow) as Hg.
    destruct (jsonGrow malloc p N) as [rc p1]. cbn [fst snd] in Hg.
    destruct Hg as [(Hrc & Hi1 & Ho1 & Hu1)|(-> & Ho & Hm1 & Hz1 & Hn1 & Hc1 & _)].
    + destruct (Z.eqb_spec rc SQLITE_OK); [contradiction|]. intros [= <-].
      apply append_step_failed; assumption.
    + change (SQLITE_OK =? SQLITE_OK) with true. cbv iota.
      apply Hcopy; auto.
  - apply Hcopy; auto. apply (acc_mid_weaken 0); [exact Hmid|lia].
Qed.

Lemma escaped_cons c s :
  escaped (c :: s)
  = (if Ascii.eqb c DQUOTE || Ascii.eqb c BSLASH then [BSLASH; c] else [c]) ++ escaped s.
Proof. reflexivity. Qed.

(** The loop of [jsonAppendString] from index [i] on. *)
Lemma jsonAppendString_from_step malloc zIn N :
  0 <= N < 2 ^ 32 - 2 -> N <= len zIn ->
  forall k q i q',
    Z.of_nat k = N - i -> 0 <= i ->
    acc_mid (N - i + 1) q -> nUsed q + 2 * (N - i) + 1 <= acc_limit ->
    jsonAppendString_from malloc k q zIn N i = Ok q' ->
    append_step q (escaped (take k (drop (Z.to_nat i) zIn)) ++ [DQUOTE]) q'.
Proof.
  intros HN Hin. pose proof AccumOk.acc_limit_val as Hv.
  induction k as [|k IH]; intros q i q' Hk Hi Hmid Hlim E; cbn [jsonAppendString_from] in E.
  - destruct (store_mid q DQUOTE (N - i + 1) q' Hmid ltac:(lia) ltac:(lia) E)
      as (Hm' & Hb & Hn & Ho & Hc).
    rewrite take_0. cbn [escaped app].
    split; [apply acc_mid_inv; apply (acc_mid_weaken _ _ _ Hm'); lia|].
    change (len [DQUOTE]) with 1. split; [lia|]. intros Ho'.
    split; [congruence|]. unfold appended. change (len [DQUOTE]) with 1.
    repeat split; congruence.
  - destruct (Z.ltb_spec i N); [|lia].
    destruct (zIn !! Z.to_nat i) as [c|] eqn:Ec; [|discriminate].
    rewrite (drop_S _ _ _ Ec), firstn_cons, escaped_cons.
    rewrite (u32_small (i + 1)) in E by lia.
    replace (S (Z.to_nat i)) with (Z.to_nat (i + 1)) by lia.
    set (rest := escaped (take k (drop (Z.to_nat (i + 1)) zIn)) ++ [DQUOTE]) in *.
    assert (Hplain : forall q1 q2, acc_mid (N - i + 1) q1 ->
              nUsed q1 + 2 * (N - i) <= acc_limit ->
              store q1 c = Ok q2 ->
              jsonAppendString_from malloc k q2 zIn N (i + 1) = Ok q' ->
              append_step q1 (c :: rest) q').
    { intros q1 q2 Hm1 Hl1 Es E'.
      destruct (store_mid q1 c _ q2 Hm1 ltac:(lia) ltac:(lia) Es)
        as (Hm2 & Hb2 & Hn2 & Ho2 & Hc2).
      apply (append_step_cons q1 c q2); try assumption.
      apply (IH q2 (i + 1) q'); try lia; try assumption.
      replace (N - (i + 1) + 1) with (N - i + 1 - 1) by lia. exact Hm2. }
    destruct (Ascii.eqb c DQUOTE || Ascii.eqb c BSLASH).
    + assert (Hesc : forall q1, acc_mid (N - i + 1) q1 ->
                nUsed q1 + 2 * (N - i) + 1 <= acc_limit ->
                (p <- store q1 BSLASH ;; p <- store p c ;;
                 jsonAppendString_from malloc k p zIn N (i + 1)) = Ok q' ->
                append_step q1 ([BSLASH; c] ++ rest) q').
      { intros q1 Hm1 Hl1 E'.
        destruct (store q1 BSLASH) as [q2| |] eqn:E2; cbn [bind] in E'; try discriminate.
        destruct (store q2 c) as [q3| |] eqn:E3; cbn [bind] in E'; try discriminate.
        destruct (store_mid q1 BSLASH _ q2 Hm1 ltac:(lia) ltac:(lia) E2)
          as (Hm2 & Hb2 & Hn2 & Ho2 & Hc2).
        cbn [app]. apply (append_step_cons q1 BSLASH q2); try assumption.
        apply (Hplain q2 q3); try assumption; [|lia].
        apply (acc_mid_weaken _ _ _ Hm2). lia. }
      unfold grow_or_return in E.
      pose proof Hmid as (Hlen & Hu & Ha & Hst).
      rewrite (u64_small (nUsed q + N + 1 - i)), (u32_small (N + 1 - i)) in E by lia.
      destruct (Z.ltb_spec (nAlloc q) (nUsed q + N + 1 - i)) as [Hgrow|Hfit].
      * pose proof (jsonGrow_mid malloc q (N + 1 - i) _ Hmid ltac:(lia) ltac:(lia)
                      ltac:(lia)) as Hg.
        destruct (jsonGrow malloc q (N + 1 - i)) as [rc q1]. cbn [fst snd] in Hg.
        destruct Hg as [(Hrc & Hi1 & Ho1 & Hu1)|(-> & Ho & Hm1 & Hz1 & Hn1 & Hc1 & _)].
        -- destruct (Z.eqb_spec rc SQLITE_OK); [contradiction|]. injection E as <-.
           apply append_step_failed; try assumption. apply len_nonneg.
        -- change (SQLITE_OK =? SQLITE_OK) with true in E. cbv iota in E.
           apply (append_step_same q q1); try assumption.
           apply Hesc; [|lia|exact E].
           replace (N - i + 1) with (N + 1 - i) by lia. exact Hm1.
      * apply Hesc; assumption.
    + destruct (store q c) as [q2| |] eqn:E2; cbn [bind] in E; try discriminate.
      cbn [app]. apply (Hplain q q2); try assumption. lia.
Qed.

Lemma jsonAppendString_step malloc p zIn N p' :
  acc_inv p -> 0 <= N < 2 ^ 32 - 2 -> N <= len zIn ->
  nUsed p + 2 * N + 2 <= acc_limit ->
  jsonAppendString malloc p zIn N = Ok p' ->
  append_step p (quoted_escaped (take (Z.to_nat N) zIn)) p'.
Proof.
  intros Hinv HN Hin Hlim. pose proof (proj2 (acc_mid_inv p) Hinv) as Hmid.
  pose proof Hmid as (Hlen & Hu & Ha & Hst).
  pose proof AccumOk.acc_limit_val as Hv.
  assert (Hbody : forall q, acc_mid (N + 2) q -> nUsed q = nUsed p ->
            (p <- store q DQUOTE ;; jsonAppendString_from malloc (Z.to_nat N) p zIn N 0)
            = Ok p' ->
            append_step q (quoted_escaped (take (Z.to_nat N) zIn)) p').
  { intros q Hq Hn E.
    destruct (store q DQUOTE) as [q2| |] eqn:E2; cbn [bind] in E; try discriminate.
    destruct (store_mid q DQUOTE _ q2 Hq ltac:(lia) ltac:(lia) E2)
      as (Hm2 & Hb2 & Hn2 & Ho2 & Hc2).
    unfold quoted_escaped. apply (append_step_cons q DQUOTE q2); try assumption.
    apply (jsonAppendString_from_step malloc zIn N HN Hin (Z.to_nat N) q2 0 p');
      try lia; try assumption.
    replace (N - 0 + 1) with (N + 2 - 1) by lia. exact Hm2. }
  unfold jsonAppendString, grow_or_return.
  rewrite (u64_small (N + nUsed p + 2)), (u32_small (N + 2)) by lia.
  destruct (Z.leb_spec (nAlloc p) (N + nUsed p + 2)) as [Hgrow|Hfit].
  - pose proof (jsonGrow_mid malloc p (N + 2) 0 Hmid ltac:(lia) ltac:(lia) ltac:(lia))
      as Hg.
    destruct (jsonGrow malloc p (N + 2)) as [rc p1]. cbn [fst snd] in Hg.
    destruct Hg as [(Hrc & Hi1 & Ho1 & Hu1)|(-> & Ho & Hm1 & Hz1 & Hn1 & Hc1 & _)].
    + destruct (Z.eqb_spec rc SQLITE_OK); [contradiction|]. intros [= <-].
      apply append_step_failed; try assumption. apply len_nonneg.
    + change (SQLITE_OK =? SQLITE_OK) with true. cbv iota. intros E.
      apply (append_step_same p p1); try assumption.
      apply Hbody; assumption.
  - apply Hbody; [|reflexivity]. apply (acc_mid_weaken 0); [exact Hmid|lia].
Qed.

End AccumStep.

(** * Appends when every allocation is granted *)

Module AccumTotal.
Import Accum AccumStep.

Section Granted.

Variable malloc : Z -> bool.
Hypothesis grants : forall m, malloc m = true.

Lemma jsonGrow_granted q M :
  oom q = false ->
  jsonGrow malloc q M =
    (SQLITE_OK,
     mkJson (pCtx q) (zBuf q)
       (if M <? nAlloc q then u64 (nAlloc q * 2) else u64 (nAlloc q + M + 100))
       (nUsed q) false false).
Proof.
  intros Ho. unfold jsonGrow. rewrite Ho, grants.
  destruct (bStatic q) eqn:Hs; reflexivity.
Qed.

Lemma escaped_plain s : plain_text s = true -> escaped s = s.
Proof.
  induction s as [|c s IH]; [reflexivity|]. cbn [plain_text forallb].
  intros H. apply andb_true_iff in H as [Hc Hs]. apply negb_true_iff in Hc.
  rewrite escaped_cons, Hc. cbn [app]. f_equal. apply IH, Hs.
Qed.

(** The loop of [jsonAppendString] on characters that need no
    backslash, with room for them and the closing quote. *)
Lemma jsonAppendString_from_plain zIn N :
  0 <= N < 2 ^ 32 -> N <= len zIn ->
  forall k q i,
    Z.of_nat k = N - i -> 0 <= i ->
    plain_text (take k (drop (Z.to_nat i) zIn)) = true ->
    nUsed q + (N - i) + 1 <= nAlloc q -> 0 <= nUsed q -> nAlloc q < 2 ^ 63 ->
    exists q', jsonAppendString_from malloc k q zIn N i = Ok q' /\ oom q' = oom q.
Proof.
  intros HN Hin. induction k as [|k IH]; intros q i Hk Hi Hp Hroom Hu Ha;
    cbn [jsonAppendString_from].
  - unfold store. destruct (Z.ltb_spec (nUsed q) (nAlloc q)); [|lia].
    eexists. split; reflexivity.
  - destruct (Z.ltb_spec i N); [|lia].
    destruct (zIn !! Z.to_nat i) as [c|] eqn:Ec.
    2:{ apply lookup_ge_None in Ec. unfold len in Hin. lia. }
    rewrite (drop_S _ _ _ Ec), firstn_cons in Hp. cbn [plain_text forallb] in Hp.
    apply andb_true_iff in Hp as [Hc Hp]. apply negb_true_iff in Hc. rewrite Hc.
    unfold store at 1. destruct (Z.ltb_spec (nUsed q) (nAlloc q)); [|lia].
    cbn [bind]. rewrite (u32_small (i + 1)), (u64_small (nUsed q + 1)) by lia.
    destruct (IH (set_buf q (zBuf q ++ [c]) (nUsed q + 1)) (i + 1)) as (q' & E & Ho);
      cbn [set_buf nUsed nAlloc]; try lia.
    { replace (Z.to_nat (i + 1)) with (S (Z.to_nat i)) by lia. exact Hp. }
    exists q'. split; [exact E|exact Ho].
Qed.

Lemma jsonAppendString_plain_total p zIn N :
  acc_ok p -> oom p = false -> 0 <= N < 2 ^ 32 - 2 -> N <= len zIn ->
  plain_text (take (Z.to_nat N) zIn) = true ->
  nUsed p + 2 * N + 2 <= acc_limit ->
  exists p', jsonAppendString malloc p zIn N = Ok p' /\ oom p' = false.
Proof.
  intros (Hlen & Hu & Ha & Hst) Ho HN Hin Hp Hlim.
  pose proof AccumOk.acc_limit_val as Hv.
  assert (Hbody : forall q, oom q = false -> nUsed q = nUsed p ->
            nUsed q + N + 2 <= nAlloc q -> nAlloc q < 2 ^ 63 ->
            exists p', (x <- store q DQUOTE ;;
                        jsonAppendString_from malloc (Z.to_nat N) x zIn N 0) = Ok p' /\
                       oom p' = false).
  { intros q Hoq Hn Hroom Hcap. unfold store.
    destruct (Z.ltb_spec (nUsed q) (nAlloc q)); [|lia]. cbn [bind].
    rewrite (u64_small (nUsed q + 1)) by lia.
    destruct (jsonAppendString_from_plain zIn N ltac:(lia) Hin (Z.to_nat N)
                (set_buf q (zBuf q ++ [DQUOTE]) (nUsed q + 1)) 0)
      as (p' & E & Ho'); cbn [set_buf nUsed nAlloc]; try lia.
    { rewrite drop_0. exact Hp. }
    exists p'. split; [exact E|]. rewrite Ho'. exact Hoq. }
  unfold jsonAppendString, grow_or_return.
  rewrite (u64_small (N + nUsed p + 2)), (u32_small (N + 2)) by lia.
  destruct (Z.leb_spec (nAlloc p) (N + nUsed p + 2)) as [Hgrow|Hfit].
  - rewrite (jsonGrow_granted p (N + 2) Ho).
    change (SQLITE_OK =? SQLITE_OK) with true. cbv iota.
    apply Hbody; cbn [oom nUsed nAlloc]; try reflexivity;
      destruct (Z.ltb_spec (N + 2) (nAlloc p)); rewrite u64_small; lia.
  - apply Hbody; try assumption; try reflexivity; lia.
Qed.

End Granted.

End AccumTotal.

(** * json_array and json_object on their arguments *)

Module SqlFuncs.
Import Accum AccumStep.

Lemma len_escaped s : len s <= len (escaped s) <= 2 * len s.
Proof.
  induction s as [|c s IH]; [cbn [escaped]; len_norm; lia|].
  rewrite escaped_cons, len_app, len_cons.
  destruct (_ || _); len_norm; lia.
Qed.

Lemma len_quoted_escaped s : len (quoted_escaped s) <= 2 * len s + 2.
Proof.
  unfold quoted_escaped. len_norm. pose proof (len_escaped s). lia.
Qed.

Lemma args_bound_pos argv : 2 <= args_bound argv.
Proof.
  induction argv as [|v argv IH]; cbn [args_bound]; [lia|].
  pose proof (len_nonneg (arg_text v)). lia.
Qed.

Lemma value_bytes_small (t : text) : len t < 2 ^ 32 - 2 -> value_bytes t = len t.
Proof. intros H. unfold value_bytes. pose proof (len_nonneg t). apply u32_small. unfold len in *. lia. Qed.

Lemma take_len (t : text) : take (Z.to_nat (len t)) t = t.
Proof. unfold len. rewrite Nat2Z.id. apply firstn_all. Qed.

(** The appends for one value that is not a blob. *)
Lemma append_value_step malloc jx v t jx' :
  acc_inv jx -> len (arg_text v) < 2 ^ 32 - 2 ->
  nUsed jx + 2 * len (arg_text v) + 4 <= acc_limit ->
  value_json v = Some t ->
  match v with
  | SqlNull => jsonAppendRaw malloc jx (txt "null") 4
  | SqlInteger z | SqlFloat z => jsonAppendRaw malloc jx z (value_bytes z)
  | SqlText z => jsonAppendString malloc jx z (value_bytes z)
  | SqlBlob _ => Undefined
  end = Ok jx' ->
  append_step jx t jx' /\ len t <= 2 * len (arg_text v) + 4.
Proof.
  intros Hinv Hsmall Hlim Hv E. pose proof (len_nonneg (arg_text v)) as H0.
  destruct v as [|z|z|z|b]; cbn [arg_text value_json] in *; try discriminate;
    injection Hv as <-.
  - len_norm_in Hlim. split; [|vm_compute; discriminate].
    apply (jsonAppendRaw_step malloc jx (txt "null") 4 jx' Hinv); [lia|lia|exact E].
  - split; [|lia]. rewrite (value_bytes_small z Hsmall) in E.
    rewrite <- (take_len z) at 1.
    apply (jsonAppendRaw_step malloc jx z (len z) jx' Hinv); [lia|lia|exact E].
  - split; [|lia]. rewrite (value_bytes_small z Hsmall) in E.
    rewrite <- (take_len z) at 1.
    apply (jsonAppendRaw_step malloc jx z (len z) jx' Hinv); [lia|lia|exact E].
  - split; [|pose proof (len_quoted_escaped z); lia].
    rewrite (value_bytes_small z Hsmall) in E.
    rewrite <- (take_len z) at 1.
    apply (jsonAppendString_step malloc jx z (len z) jx' Hinv); [lia|lia|lia|exact E].
Qed.

Lemma separator_step malloc jx c jx' :
  acc_inv jx -> nUsed jx + 1 <= acc_limit ->
  jsonAppendRaw malloc jx [c] 1 = Ok jx' -> append_step jx [c] jx'.
Proof.
  intros Hinv Hlim E.
  apply (jsonAppendRaw_step malloc jx [c] 1 jx' Hinv); [lia|lia|exact E].
Qed.

Lemma jsonArrayFunc_loop_step malloc : forall argv jx cSep r,
  acc_inv jx ->
  forallb (fun v => len (arg_text v) <? 2 ^ 32 - 2) argv = true ->
  nUsed jx + args_bound argv <= acc_limit ->
  jsonArrayFunc_loop malloc jx cSep argv = Ok r ->
  match values_json argv with
  | Some ts => exists jx', r = inl jx' /\ append_step jx (separated cSep ts) jx'
  | None => exists jx', r = inr jx' /\ pCtx jx' = ResultError blob_message
  end.
Proof.
  induction argv as [|v argv IH]; intros jx cSep r Hinv Hsm Hlim E.
  - cbn in E. injection E as <-. cbn [values_json separated]. exists jx.
    split; [reflexivity|]. split; [exact Hinv|]. change (len (@nil ascii)) with 0.
    split; [lia|]. intros Ho. split; [exact Ho|]. unfold appended.
    len_norm. repeat split; [lia|exact Ho].
  - cbn [forallb] in Hsm. apply andb_true_iff in Hsm as [Hv Hsm].
    apply Z.ltb_lt in Hv. cbn [args_bound] in Hlim.
    pose proof (args_bound_pos argv) as Hb. pose proof (len_nonneg (arg_text v)) as H0.
    cbn [jsonArrayFunc_loop] in E.
    destruct (jsonAppendRaw malloc jx [cSep] 1) as [jx1| |] eqn:E1; cbn [bind] in E;
      try discriminate.
    pose proof (separator_step malloc jx cSep jx1 Hinv ltac:(lia) E1) as S1.
    pose proof S1 as (Hinv1 & Hu1 & _). change (len [cSep]) with 1 in Hu1.
    cbn [values_json].
    destruct (value_json v) as [t|] eqn:Ev.
    + assert (Hstep : exists jx2,
                append_step jx1 t jx2 /\ len t <= 2 * len (arg_text v) + 4 /\
                jsonArrayFunc_loop malloc jx2 (chr ",") argv = Ok r).
      { destruct v as [|z|z|z|b]; try discriminate;
          match type of E with
          | (x <- ?m ;; _) = _ =>
            destruct m as [jx2| |] eqn:E2; cbn [bind] in E; try discriminate
          end;
          exists jx2;
          (destruct (append_value_step malloc jx1 _ t jx2 Hinv1 Hv ltac:(lia) Ev E2)
            as [S2 Hl]);
          auto. }
      destruct Hstep as (jx2 & S2 & Hl & E').
      pose proof S2 as (Hinv2 & Hu2 & _).
      specialize (IH jx2 (chr ",") r Hinv2 Hsm ltac:(lia) E').
      destruct (values_json argv) as [ts|].
      * destruct IH as (jx' & -> & S3). exists jx'. split; [reflexivity|].
        cbn [separated].
        apply (append_step_trans jx [cSep] jx1 (t ++ separated (chr ",") ts) jx' S1).
        apply (append_step_trans jx1 t jx2 _ jx' S2 S3).
      * exact IH.
    + destruct v as [|z|z|z|b]; try discriminate. injection E as <-.
      eexists. split; reflexivity.
Qed.

Lemma value_json_len v t :
  value_json v = Some t -> len t <= 2 * len (arg_text v) + 4.
Proof.
  destruct v as [|z|z|z|b]; cbn [value_json arg_text]; intros [= <-];
    try (pose proof (len_nonneg z); lia).
  - vm_compute. discriminate.
  - pose proof (len_quoted_escaped z). lia.
Qed.

Lemma separated_bound : forall argv ts c,
  values_json argv = Some ts -> len (separated c ts) + 2 <= args_bound argv.
Proof.
  induction argv as [|v argv IH]; intros ts c; cbn [values_json args_bound].
  - intros [= <-]. cbn [separated]. len_norm. lia.
  - destruct (value_json v) as [t|] eqn:Ev; [|discriminate].
    destruct (values_json argv) as [ts'|] eqn:Ea; [|discriminate].
    intros [= <-]. cbn [separated]. len_norm.
    pose proof (value_json_len v t Ev). pose proof (IH ts' (chr ",") eq_refl). lia.
Qed.

Lemma acc_inv_init ctx : acc_inv (jsonInit ctx).
Proof. split; [apply AccumOk.jsonInit_ok|discriminate]. Qed.

(** What [jsonResult] hands over after the appends of [bs] to a fresh
    accumulator. *)
Lemma jsonResult_step ctx bs jx :
  append_step (jsonInit ctx) bs jx ->
  pCtx (jsonResult jx) = ResultText bs \/ pCtx (jsonResult jx) = ResultNomem.
Proof.
  intros ((Hok & Hctx) & _ & Happ). unfold jsonResult.
  destruct (oom jx) eqn:Ho; [right; auto|left].
  destruct (Happ eq_refl) as (_ & Hb & Hn & _). cbn [jsonZero pCtx].
  cbn [jsonInit jsonZero zBuf nUsed app] in Hb, Hn. rewrite Hb, Hn, Z.add_0_l.
  rewrite take_len. reflexivity.
Qed.

(** X1: what json_array returns, whatever the allocator answers: the
    message about blobs if an argument is a blob; otherwise the
    out-of-memory error, or the text of the JSON texts of the arguments,
    each after its separator, the opening bracket being the first
    separator, and the closing bracket.  The lengths of the arguments fit
    the 32-bit and 64-bit counters. *)
Theorem json_array_outcome (malloc : Z -> bool) (ctx : sqlite3_context)
    (argv : list sqlite3_value) (r : sqlite3_context) :
  args_small argv = true ->
  jsonArrayFunc malloc ctx argv = Ok r ->
  match values_json argv with
  | None => r = ResultError blob_message
  | Some ts => r = ResultText (array_result ts) \/ r = ResultNomem
  end.
Proof.
  intros Hsm E. apply andb_true_iff in Hsm as [Hsm Hb]. apply Z.leb_le in Hb.
  unfold jsonArrayFunc in E.
  destruct (jsonArrayFunc_loop malloc (jsonInit ctx) (chr "[") argv) as [r0| |] eqn:El;
    cbn [bind] in E; try discriminate.
  pose proof (jsonArrayFunc_loop_step malloc argv (jsonInit ctx) (chr "[") r0
                (acc_inv_init ctx) Hsm ltac:(cbn; lia) El) as Hl.
  destruct (values_json argv) as [ts|] eqn:Ev.
  - destruct Hl as (jx & -> & S1). pose proof S1 as (Hinv & Hu & _).
    pose proof (separated_bound argv ts (chr "[") Ev) as Hsep.
    cbn [jsonInit jsonZero nUsed] in Hu.
    destruct (jsonAppendRaw malloc jx (txt "]") 1) as [jx2| |] eqn:E2; cbn [bind] in E;
      try discriminate.
    injection E as <-.
    pose proof (jsonAppendRaw_step malloc jx (txt "]") 1 jx2 Hinv ltac:(lia) ltac:(lia) E2)
      as S2.
    apply (jsonResult_step ctx (array_result ts) jx2).
    apply (append_step_trans _ _ jx _ jx2 S1 S2).
  - destruct Hl as (jx & -> & Hc). injection E as <-. exact Hc.
Qed.

Lemma json_array_outcome_witness :
  args_small sample_args = true /\
  jsonArrayFunc all_memory NoResult sample_args
    = Ok (ResultText (txt "[" ++ [DQUOTE] ++ txt "a\" ++ [DQUOTE] ++ txt "b"
                        ++ [DQUOTE] ++ txt ",null,12]")) /\
  match values_json sample_args with
  | None => ResultText (txt "[" ++ [DQUOTE] ++ txt "a\" ++ [DQUOTE] ++ txt "b"
                          ++ [DQUOTE] ++ txt ",null,12]")
            = ResultError blob_message
  | Some ts => ResultText (txt "[" ++ [DQUOTE] ++ txt "a\" ++ [DQUOTE] ++ txt "b"
                             ++ [DQUOTE] ++ txt ",null,12]")
               = ResultText (array_result ts) \/
               ResultText (txt "[" ++ [DQUOTE] ++ txt "a\" ++ [DQUOTE] ++ txt "b"
                             ++ [DQUOTE] ++ txt ",null,12]") = ResultNomem
  end.
Proof.
  assert (H1 : args_small sample_args = true) by (vm_compute; reflexivity).
  assert (H2 : jsonArrayFunc all_memory NoResult sample_args
    = Ok (ResultText (txt "[" ++ [DQUOTE] ++ txt "a\" ++ [DQUOTE] ++ txt "b"
                        ++ [DQUOTE] ++ txt ",null,12]")))
    by (vm_compute; reflexivity).
  split; [exact H1|]. split; [exact H2|].
  exact (json_array_outcome all_memory NoResult sample_args _ H1 H2).
Defined.

Lemma jsonObjectFunc_loop_step malloc : forall bound argv jx cSep r,
  (length argv <= bound)%nat ->
  acc_inv jx ->
  forallb (fun v => len (arg_text v) <? 2 ^ 32 - 2) argv = true ->
  nUsed jx + args_bound argv <= acc_limit ->
  Nat.Even (length argv) ->
  jsonObjectFunc_loop malloc jx cSep argv = Ok r ->
  match members_json argv with
  | inr ts => exists jx', r = inl jx' /\ append_step jx (separated_pairs cSep ts) jx'
  | inl e => exists jx', r = inr jx' /\ pCtx jx' = ResultError e
  end.
Proof.
  induction bound as [|bound IH]; intros argv jx cSep r Hn Hinv Hsm Hlim Hev E.
  { destruct argv; [|cbn in Hn; lia]. cbn in E. injection E as <-.
    cbn [members_json separated_pairs]. exists jx.
    split; [reflexivity|]. split; [exact Hinv|]. len_norm.
    split; [lia|]. intros Ho. split; [exact Ho|]. unfold appended.
    len_norm. repeat split; [lia|exact Ho]. }
  destruct argv as [|label [|v argv]].
  - cbn in E. injection E as <-.
    cbn [members_json separated_pairs]. exists jx.
    split; [reflexivity|]. split; [exact Hinv|]. len_norm.
    split; [lia|]. intros Ho. split; [exact Ho|]. unfold appended.
    len_norm. repeat split; [lia|exact Ho].
  - destruct Hev as [m Hm]. cbn in Hm. lia.
  - cbn [forallb] in Hsm. apply andb_true_iff in Hsm as [Hl Hsm].
    apply andb_true_iff in Hsm as [Hv Hsm].
    apply Z.ltb_lt in Hl, Hv. cbn [args_bound] in Hlim.
    pose proof (args_bound_pos argv) as Hb.
    pose proof (len_nonneg (arg_text v)) as H0.
    pose proof (len_nonneg (arg_text label)) as H1.
    assert (Hev' : Nat.Even (length argv)).
    { destruct Hev as [m Hm]. cbn [length] in Hm. exists (m - 1)%nat. lia. }
    cbn [length] in Hn.
    cbn [jsonObjectFunc_loop] in E.
    destruct (jsonAppendRaw malloc jx [cSep] 1) as [jx1| |] eqn:E1; cbn [bind] in E;
      try discriminate.
    pose proof (separator_step malloc jx cSep jx1 Hinv ltac:(lia) E1) as S1.
    pose proof S1 as (Hinv1 & Hu1 & _). change (len [cSep]) with 1 in Hu1.
    cbn [members_json].
    destruct label as [|z|z|z|b];
      try (injection E as <-; eexists; split; reflexivity).
    cbn [arg_text] in *.
    destruct (jsonAppendString malloc jx1 z (value_bytes z)) as [jx2| |] eqn:E2;
      cbn [bind] in E; try discriminate.
    destruct (append_value_step malloc jx1 (SqlText z) _ jx2 Hinv1 Hl ltac:(cbn; lia)
                eq_refl E2) as [S2 Hl2].
    cbn [arg_text] in Hl2.
    pose proof S2 as (Hinv2 & Hu2 & _).
    destruct (jsonAppendRaw malloc jx2 (txt ":") 1) as [jx3| |] eqn:E3; cbn [bind] in E;
      try discriminate.
    pose proof (separator_step malloc jx2 (chr ":") jx3 Hinv2 ltac:(lia) E3) as S3.
    pose proof S3 as (Hinv3 & Hu3 & _). change (len [chr ":"]) with 1 in Hu3.
    destruct (value_json v) as [t|] eqn:Ev.
    + assert (Hstep : exists jx4,
                append_step jx3 t jx4 /\ len t <= 2 * len (arg_text v) + 4 /\
                jsonObjectFunc_loop malloc jx4 (chr ",") argv = Ok r).
      { destruct v as [|y|y|y|b]; try discriminate;
          match type of E with
          | (x <- ?m ;; _) = _ =>
            destruct m as [jx4| |] eqn:E4; cbn [bind] in E; try discriminate
          end;
          exists jx4;
          (destruct (append_value_step malloc jx3 _ t jx4 Hinv3 Hv ltac:(lia) Ev E4)
            as [S4 Hl4]);
          auto. }
      destruct Hstep as (jx4 & S4 & Hl4 & E').
      pose proof S4 as (Hinv4 & Hu4 & _).
      specialize (IH argv jx4 (chr ",") r ltac:(lia) Hinv4 Hsm ltac:(lia) Hev' E').
      destruct (members_json argv) as [e|ts].
      * exact IH.
      * destruct IH as (jx' & -> & S5). exists jx'. split; [reflexivity|].
        cbn [separated_pairs].
        apply (append_step_trans jx [cSep] jx1 _ jx' S1).
        apply (append_step_trans jx1 _ jx2 _ jx' S2).
        apply (append_step_trans jx2 [chr ":"] jx3 _ jx' S3).
        apply (append_step_trans jx3 t jx4 _ jx' S4 S5).
    + destruct v as [|y|y|y|b]; try discriminate. injection E as <-.
      eexists. split; reflexivity.
Qed.

Lemma separated_pairs_bound : forall bound argv ts c,
  (length argv <= bound)%nat ->
  members_json argv = inr ts -> len (separated_pairs c ts) + 2 <= args_bound argv.
Proof.
  induction bound as [|bound IH]; intros argv ts c Hn.
  { destruct argv; [|cbn in Hn; lia]. cbn [members_json args_bound].
    intros [= <-]. cbn [separated_pairs]. len_norm. lia. }
  destruct argv as [|label [|v argv]]; cbn [members_json args_bound].
  - intros [= <-]. cbn [separated_pairs]. len_norm. lia.
  - intros [= <-]. cbn [separated_pairs]. len_norm.
    pose proof (len_nonneg (arg_text label)). lia.
  - destruct label as [|z|z|z|b]; try discriminate.
    destruct (value_json v) as [t|] eqn:Ev; [|discriminate].
    destruct (members_json argv) as [e|ts'] eqn:Ea; [discriminate|].
    intros [= <-]. cbn [separated_pairs arg_text]. len_norm.
    pose proof (value_json_len v t Ev). pose proof (len_quoted_escaped z).
    cbn [length] in Hn.
    pose proof (IH argv ts' (chr ",") ltac:(lia) Ea). lia.
Qed.

Lemma land_one_even (k : nat) : Z.land (Z.of_nat k) 1 = 0 -> Nat.Even k.
Proof.
  intros H. change 1 with (Z.ones 1) in H. rewrite Z.land_ones in H by lia.
  change (2 ^ 1) with 2 in H.
  pose proof (Z_div_mod_eq_full (Z.of_nat k) 2) as Hd.
  pose proof (Z.mod_pos_bound (Z.of_nat k) 2 ltac:(lia)) as Hm.
  assert (H0 : 0 <= Z.of_nat k / 2) by (apply Z.div_pos; lia).
  exists (Z.to_nat (Z.of_nat k / 2)). lia.
Qed.

Lemma land_one_odd (k : nat) : Z.land (Z.of_nat k) 1 <> 0 -> Nat.Odd k.
Proof.
  intros H. change 1 with (Z.ones 1) in H. rewrite Z.land_ones in H by lia.
  change (2 ^ 1) with 2 in H.
  pose proof (Z_div_mod_eq_full (Z.of_nat k) 2) as Hd.
  pose proof (Z.mod_pos_bound (Z.of_nat k) 2 ltac:(lia)) as Hm.
  assert (H0 : 0 <= Z.of_nat k / 2) by (apply Z.div_pos; lia).
  exists (Z.to_nat (Z.of_nat k / 2)). lia.
Qed.

(** X2: what json_object returns, whatever the allocator answers: with
    an odd number of arguments, the message about the number; for the
    first pair whose label is not a text or whose value is a blob, the
    message about it; otherwise the out-of-memory error, or the text of
    the pairs, label, colon and value, each pair after its separator, the
    opening brace being the first separator, and the closing brace. *)
Theorem json_object_outcome (malloc : Z -> bool) (ctx : sqlite3_context)
    (argv : list sqlite3_value) (r : sqlite3_context) :
  args_small argv = true ->
  jsonObjectFunc malloc ctx argv = Ok r ->
  (Nat.Odd (length argv) /\ r = ResultError odd_message) \/
  (Nat.Even (length argv) /\
   match members_json argv with
   | inl e => r = ResultError e
   | inr ts => r = ResultText (object_result ts) \/ r = ResultNomem
   end).
Proof.
  intros Hsm E. apply andb_true_iff in Hsm as [Hsm Hb]. apply Z.leb_le in Hb.
  unfold jsonObjectFunc in E.
  destruct (Z.eqb_spec (Z.land (Z.of_nat (length argv)) 1) 0) as [Hpar|Hpar];
    cbn [negb] in E.
  2:{ left. injection E as <-. split; [apply land_one_odd, Hpar|reflexivity]. }
  right. pose proof (land_one_even _ Hpar) as Hev. split; [exact Hev|].
  destruct (jsonObjectFunc_loop malloc (jsonInit ctx) (chr "{") argv) as [r0| |] eqn:El;
    cbn [bind] in E; try discriminate.
  pose proof (jsonObjectFunc_loop_step malloc (length argv) argv (jsonInit ctx) (chr "{") r0
                ltac:(lia) (acc_inv_init ctx) Hsm ltac:(cbn; lia) Hev El) as Hl.
  destruct (members_json argv) as [e|ts] eqn:Ev.
  - destruct Hl as (jx & -> & Hc). injection E as <-. exact Hc.
  - destruct Hl as (jx & -> & S1). pose proof S1 as (Hinv & Hu & _).
    pose proof (separated_pairs_bound (length argv) argv ts (chr "{") ltac:(lia) Ev) as Hsep.
    cbn [jsonInit jsonZero nUsed] in Hu.
    destruct (jsonAppendRaw malloc jx (txt "}") 1) as [jx2| |] eqn:E2; cbn [bind] in E;
      try discriminate.
    injection E as <-.
    pose proof (jsonAppendRaw_step malloc jx (txt "}") 1 jx2 Hinv ltac:(lia) ltac:(lia) E2)
      as S2.
    apply (jsonResult_step ctx (object_result ts) jx2).
    apply (append_step_trans _ _ jx _ jx2 S1 S2).
Qed.

Lemma json_object_outcome_witness :
  args_small sample_pairs = true /\
  jsonObjectFunc all_memory NoResult sample_pairs
    = Ok (ResultText (object_result [quoted_escaped (txt "k"); quoted_escaped (txt "a\b");
                                     quoted_escaped (txt "n"); txt "1.5"])) /\
  ((Nat.Odd (length sample_pairs) /\
    ResultText (object_result [quoted_escaped (txt "k"); quoted_escaped (txt "a\b");
                               quoted_escaped (txt "n"); txt "1.5"])
    = ResultError odd_message) \/
   (Nat.Even (length sample_pairs) /\
    match members_json sample_pairs with
    | inl e =>
      ResultText (object_result [quoted_escaped (txt "k"); quoted_escaped (txt "a\b");
                                 quoted_escaped (txt "n"); txt "1.5"])
      = ResultError e
    | inr ts =>
      ResultText (object_result [quoted_escaped (txt "k"); quoted_escaped (txt "a\b");
                                 quoted_escaped (txt "n"); txt "1.5"])
      = ResultText (object_result ts) \/
      ResultText (object_result [quoted_escaped (txt "k"); quoted_escaped (txt "a\b");
                                 quoted_escaped (txt "n"); txt "1.5"])
      = ResultNomem
    end)).
Proof.
  assert (H1 : args_small sample_pairs = true) by (vm_compute; reflexivity).
  assert (H2 : jsonObjectFunc all_memory NoResult sample_pairs
    = Ok (ResultText (object_result [quoted_escaped (txt "k"); quoted_escaped (txt "a\b");
                                     quoted_escaped (txt "n"); txt "1.5"])))
    by (vm_compute; reflexivity).
  split; [exact H1|]. split; [exact H2|].
  exact (json_object_outcome all_memory NoResult sample_pairs _ H1 H2).
Defined.

End SqlFuncs.

(** * What the appends do *)

Module AccumMore.
Import Accum AccumStep AccumTotal.

Lemma acc_inv_clear p : acc_ok p -> oom p = false -> acc_inv p.
Proof. intros Hok Ho. split; [exact Hok|congruence]. Qed.

(** X3: for an accumulator in good order with the flag clear and [N]
    bytes to read, [jsonAppendRaw] returns without an access outside its
    buffer: it has appended the [N] bytes, or an allocation was refused
    and the accumulator is what [jsonOom] leaves, empty on the inline
    buffer with the flag set and the out-of-memory error in the
    context. *)
Theorem jsonAppendRaw_outcome (malloc : Z -> bool) (p : Json) (zIn : text) (N : Z) :
  acc_ok p -> oom p = false -> 0 <= N < 2 ^ 32 -> N <= len zIn ->
  nUsed p + N <= acc_limit ->
  exists p', jsonAppendRaw malloc p zIn N = Ok p' /\ acc_ok p' /\
    (appended p (take (Z.to_nat N) zIn) p' \/
     (p' = jsonOom p /\ exists m, malloc m = false)).
Proof. apply AccumOk.jsonAppendRaw_cases. Qed.

Lemma jsonAppendRaw_outcome_witness :
  acc_ok (jsonInit NoResult) /\ oom (jsonInit NoResult) = false /\
  0 <= 200 < 2 ^ 32 /\ 200 <= len (repeat (chr "a") 200) /\
  nUsed (jsonInit NoResult) + 200 <= acc_limit /\
  exists p', jsonAppendRaw no_memory (jsonInit NoResult) (repeat (chr "a") 200) 200
             = Ok p' /\ acc_ok p' /\
    (appended (jsonInit NoResult) (take (Z.to_nat 200) (repeat (chr "a") 200)) p' \/
     (p' = jsonOom (jsonInit NoResult) /\ exists m, no_memory m = false)).
Proof.
  assert (H1 : acc_ok (jsonInit NoResult)) by apply AccumOk.jsonInit_ok.
  assert (H2 : oom (jsonInit NoResult) = false) by reflexivity.
  assert (H3 : 0 <= 200 < 2 ^ 32) by lia.
  assert (H4 : 200 <= len (repeat (chr "a") 200)) by (vm_compute; discriminate).
  assert (H5 : nUsed (jsonInit NoResult) + 200 <= acc_limit)
    by (vm_compute; discriminate).
  split; [exact H1|]. split; [exact H2|]. split; [exact H3|]. split; [exact H4|].
  split; [exact H5|].
  exact (jsonAppendRaw_outcome no_memory (jsonInit NoResult) (repeat (chr "a") 200) 200
           H1 H2 H3 H4 H5).
Defined.

(** X4: whenever [jsonAppendString] returns for an accumulator in good
    order with the flag clear, the accumulator is in good order again;
    and if the flag is still clear it has appended the [N] bytes between
    two double quotes, with a backslash before each double quote and each
    backslash of them and nothing else changed. *)
Theorem jsonAppendString_escapes (malloc : Z -> bool) (p : Json) (zIn : text) (N : Z)
    (p' : Json) :
  acc_ok p -> oom p = false -> 0 <= N < 2 ^ 32 - 2 -> N <= len zIn ->
  nUsed p + 2 * N + 2 <= acc_limit ->
  jsonAppendString malloc p zIn N = Ok p' ->
  acc_ok p' /\
  (oom p' = false -> appended p (quoted_escaped (take (Z.to_nat N) zIn)) p') /\
  (oom p' = true -> pCtx p' = ResultNomem).
Proof.
  intros Hok Ho HN Hin Hlim E.
  destruct (jsonAppendString_step malloc p zIn N p' (acc_inv_clear p Hok Ho) HN Hin Hlim E)
    as ((Hok' & Hctx) & _ & Happ).
  split; [exact Hok'|]. split; [|exact Hctx].
  intros Ho'. apply Happ, Ho'.
Qed.

Lemma jsonAppendString_escapes_witness :
  acc_ok (jsonInit NoResult) /\ oom (jsonInit NoResult) = false /\
  0 <= 3 < 2 ^ 32 - 2 /\ 3 <= len (txt "a\b") /\
  nUsed (jsonInit NoResult) + 2 * 3 + 2 <= acc_limit /\
  jsonAppendString all_memory (jsonInit NoResult) (txt "a\b") 3
    = Ok (mkJson NoResult (DQUOTE :: txt "a\\b" ++ [DQUOTE]) 100 6 true false) /\
  appended (jsonInit NoResult) (quoted_escaped (take (Z.to_nat 3) (txt "a\b")))
    (mkJson NoResult (DQUOTE :: txt "a\\b" ++ [DQUOTE]) 100 6 true false).
Proof.
  assert (H1 : acc_ok (jsonInit NoResult)) by apply AccumOk.jsonInit_ok.
  assert (H2 : oom (jsonInit NoResult) = false) by reflexivity.
  assert (H3 : 0 <= 3 < 2 ^ 32 - 2) by lia.
  assert (H4 : 3 <= len (txt "a\b")) by (vm_compute; discriminate).
  assert (H5 : nUsed (jsonInit NoResult) + 2 * 3 + 2 <= acc_limit)
    by (vm_compute; discriminate).
  assert (H6 : jsonAppendString all_memory (jsonInit NoResult) (txt "a\b") 3
    = Ok (mkJson NoResult (DQUOTE :: txt "a\\b" ++ [DQUOTE]) 100 6 true false))
    by (vm_compute; reflexivity).
  split; [exact H1|]. split; [exact H2|]. split; [exact H3|]. split; [exact H4|].
  split; [exact H5|]. split; [exact H6|].
  exact (proj1 (proj2 (jsonAppendString_escapes all_memory (jsonInit NoResult)
                         (txt "a\b") 3 _ H1 H2 H3 H4 H5 H6)) eq_refl).
Defined.

(** X5: when every allocation is granted and none of the [N] bytes is a
    double quote or a backslash, [jsonAppendString] returns and has
    appended the bytes between two double quotes. *)
Theorem jsonAppendString_plain (malloc : Z -> bool) (p : Json) (zIn : text) (N : Z) :
  (forall m, malloc m = true) ->
  acc_ok p -> oom p = false -> 0 <= N < 2 ^ 32 - 2 -> N <= len zIn ->
  plain_text (take (Z.to_nat N) zIn) = true ->
  nUsed p + 2 * N + 2 <= acc_limit ->
  exists p', jsonAppendString malloc p zIn N = Ok p' /\ acc_ok p' /\
             appended p (DQUOTE :: take (Z.to_nat N) zIn ++ [DQUOTE]) p'.
Proof.
  intros Hall Hok Ho HN Hin Hp Hlim.
  destruct (jsonAppendString_plain_total malloc Hall p zIn N Hok Ho HN Hin Hp Hlim)
    as (p' & E & Ho').
  exists p'. split; [exact E|].
  destruct (jsonAppendString_step malloc p zIn N p' (acc_inv_clear p Hok Ho) HN Hin Hlim E)
    as ((Hok' & _) & _ & Happ).
  split; [exact Hok'|].
  destruct (Happ Ho') as (_ & H). unfold quoted_escaped in H.
  rewrite (escaped_plain _ Hp) in H. exact H.
Qed.

Lemma jsonAppendString_plain_witness :
  (forall m, all_memory m = true) /\
  acc_ok (jsonInit NoResult) /\ oom (jsonInit NoResult) = false /\
  0 <= 200 < 2 ^ 32 - 2 /\ 200 <= len (repeat (chr "a") 200) /\
  plain_text (take (Z.to_nat 200) (repeat (chr "a") 200)) = true /\
  nUsed (jsonInit NoResult) + 2 * 200 + 2 <= acc_limit /\
  exists p', jsonAppendString all_memory (jsonInit NoResult) (repeat (chr "a") 200) 200
             = Ok p' /\ acc_ok p' /\
             appended (jsonInit NoResult)
               (DQUOTE :: take (Z.to_nat 200) (repeat (chr "a") 200) ++ [DQUOTE]) p'.
Proof.
  assert (H0 : forall m, all_memory m = true) by (intros m; reflexivity).
  assert (H1 : acc_ok (jsonInit NoResult)) by apply AccumOk.jsonInit_ok.
  assert (H2 : oom (jsonInit NoResult) = false) by reflexivity.
  assert (H3 : 0 <= 200 < 2 ^ 32 - 2) by lia.
  assert (H4 : 200 <= len (repeat (chr "a") 200)) by (vm_compute; discriminate).
  assert (H5 : plain_text (take (Z.to_nat 200) (repeat (chr "a") 200)) = true)
    by (vm_compute; reflexivity).
  assert (H6 : nUsed (jsonInit NoResult) + 2 * 200 + 2 <= acc_limit)
    by (vm_compute; discriminate).
  split; [exact H0|]. split; [exact H1|]. split; [exact H2|]. split; [exact H3|].
  split; [exact H4|]. split; [exact H5|]. split; [exact H6|].
  exact (jsonAppendString_plain all_memory (jsonInit NoResult) (repeat (chr "a") 200) 200
           H0 H1 H2 H3 H4 H5 H6).
Defined.

End AccumMore.

(** * json_array and json_object when every allocation is granted *)

Module SqlTotal.
Import Accum AccumStep AccumTotal SqlFuncs.

Section Granted.

Variable malloc : Z -> bool.
Hypothesis grants : forall m, malloc m = true.

Lemma jsonAppendRaw_total jx zIn N :
  acc_inv jx -> oom jx = false -> 0 <= N < 2 ^ 32 -> N <= len zIn ->
  nUsed jx + N <= acc_limit ->
  exists jx', jsonAppendRaw malloc jx zIn N = Ok jx' /\ oom jx' = false.
Proof.
  intros [Hok _] Ho HN Hin Hlim.
  destruct (AccumOk.jsonAppendRaw_ok malloc jx zIn N Hok HN Hin Hlim)
    as (jx' & E & _ & _ & Happ).
  exists jx'. split; [exact E|]. apply (Happ Ho grants).
Qed.

(** The appends for one value that is not a blob. *)
Lemma append_value_total jx v t :
  acc_inv jx -> oom jx = false -> len (arg_text v) < 2 ^ 32 - 2 ->
  match v with SqlText z => plain_text z | _ => true end = true ->
  nUsed jx + 2 * len (arg_text v) + 4 <= acc_limit ->
  value_json v = Some t ->
  exists jx',
    match v with
    | SqlNull => jsonAppendRaw malloc jx (txt "null") 4
    | SqlInteger z | SqlFloat z => jsonAppendRaw malloc jx z (value_bytes z)
    | SqlText z => jsonAppendString malloc jx z (value_bytes z)
    | SqlBlob _ => Undefined
    end = Ok jx' /\ oom jx' = false.
Proof.
  intros Hinv Ho Hsmall Hp Hlim Hv. pose proof (len_nonneg (arg_text v)) as H0.
  destruct v as [|z|z|z|b]; cbn [arg_text value_json] in *; try discriminate.
  - len_norm_in Hlim.
    apply jsonAppendRaw_total; try assumption; try lia; try (vm_compute; discriminate).
  - rewrite (value_bytes_small z Hsmall).
    apply jsonAppendRaw_total; try assumption; lia.
  - rewrite (value_bytes_small z Hsmall).
    apply jsonAppendRaw_total; try assumption; lia.
  - rewrite (value_bytes_small z Hsmall).
    apply (jsonAppendString_plain_total malloc grants); try assumption; try lia.
    + apply Hinv.
    + rewrite take_len. exact Hp.
Qed.

Lemma jsonArrayFunc_loop_total : forall argv jx cSep ts,
  acc_inv jx -> oom jx = false ->
  forallb (fun v => len (arg_text v) <? 2 ^ 32 - 2) argv = true ->
  args_plain argv = true ->
  nUsed jx + args_bound argv <= acc_limit ->
  values_json argv = Some ts ->
  exists jx', jsonArrayFunc_loop malloc jx cSep argv = Ok (inl jx') /\ oom jx' = false.
Proof.
  induction argv as [|v argv IH]; intros jx cSep ts Hinv Ho Hsm Hpl Hlim Hv.
  - exists jx. split; [reflexivity|exact Ho].
  - cbn [forallb] in Hsm. apply andb_true_iff in Hsm as [Hs Hsm].
    apply Z.ltb_lt in Hs. cbn [args_plain forallb] in Hpl.
    apply andb_true_iff in Hpl as [Hp Hpl]. cbn [args_bound] in Hlim.
    pose proof (args_bound_pos argv) as Hb. pose proof (len_nonneg (arg_text v)) as H0.
    cbn [values_json] in Hv.
    destruct (value_json v) as [t|] eqn:Ev; [|discriminate].
    destruct (values_json argv) as [ts'|] eqn:Ea; [|discriminate].
    cbn [jsonArrayFunc_loop].
    destruct (jsonAppendRaw_total jx [cSep] 1 Hinv Ho ltac:(lia)
                ltac:(vm_compute; discriminate) ltac:(lia)) as (jx1 & E1 & Ho1).
    rewrite E1. cbn [bind].
    pose proof (separator_step malloc jx cSep jx1 Hinv ltac:(lia) E1) as S1.
    pose proof S1 as (Hinv1 & Hu1 & _). change (len [cSep]) with 1 in Hu1.
    destruct (append_value_total jx1 v t Hinv1 Ho1 Hs Hp ltac:(lia) Ev) as (jx2 & E2 & Ho2).
    destruct (append_value_step malloc jx1 v t jx2 Hinv1 Hs ltac:(lia) Ev E2) as [S2 Hl].
    pose proof S2 as (Hinv2 & Hu2 & _).
    destruct (IH jx2 (chr ",") ts' Hinv2 Ho2 Hsm Hpl ltac:(lia) eq_refl)
      as (jx' & E' & Ho').
    exists jx'. split; [|exact Ho'].
    destruct v as [|z|z|z|b]; try discriminate; rewrite E2; cbn [bind]; exact E'.
Qed.

Lemma jsonResult_clear ctx bs jx :
  append_step (jsonInit ctx) bs jx -> oom jx = false ->
  pCtx (jsonResult jx) = ResultText bs.
Proof.
  intros S Ho. destruct (jsonResult_step ctx bs jx S) as [H|H]; [exact H|].
  unfold jsonResult in H. rewrite Ho in H. discriminate.
Qed.

Lemma jsonObjectFunc_loop_total : forall bound argv jx cSep ts,
  (length argv <= bound)%nat ->
  acc_inv jx -> oom jx = false ->
  forallb (fun v => len (arg_text v) <? 2 ^ 32 - 2) argv = true ->
  args_plain argv = true ->
  nUsed jx + args_bound argv <= acc_limit ->
  Nat.Even (length argv) ->
  members_json argv = inr ts ->
  exists jx', jsonObjectFunc_loop malloc jx cSep argv = Ok (inl jx') /\ oom jx' = false.
Proof.
  induction bound as [|bound IH]; intros argv jx cSep ts Hn Hinv Ho Hsm Hpl Hlim Hev Hv.
  { destruct argv; [|cbn in Hn; lia]. exists jx. split; [reflexivity|exact Ho]. }
  destruct argv as [|label [|v argv]].
  - exists jx. split; [reflexivity|exact Ho].
  - destruct Hev as [m Hm]. cbn in Hm. lia.
  - cbn [forallb] in Hsm. apply andb_true_iff in Hsm as [Hl Hsm].
    apply andb_true_iff in Hsm as [Hs Hsm].
    apply Z.ltb_lt in Hl, Hs. cbn [args_plain forallb] in Hpl.
    apply andb_true_iff in Hpl as [Hpk Hpl]. apply andb_true_iff in Hpl as [Hp Hpl].
    cbn [args_bound] in Hlim.
    pose proof (args_bound_pos argv) as Hb.
    pose proof (len_nonneg (arg_text v)) as H0.
    pose proof (len_nonneg (arg_text label)) as H1.
    assert (Hev' : Nat.Even (length argv)).
    { destruct Hev as [m Hm]. cbn [length] in Hm. exists (m - 1)%nat. lia. }
    cbn [length] in Hn. cbn [members_json] in Hv.
    destruct label as [|z|z|z|b]; try discriminate.
    destruct (value_json v) as [t|] eqn:Ev; [|discriminate].
    destruct (members_json argv) as [e|ts'] eqn:Ea; [discriminate|].
    cbn [arg_text] in *. cbn [jsonObjectFunc_loop].
    destruct (jsonAppendRaw_total jx [cSep] 1 Hinv Ho ltac:(lia)
                ltac:(vm_compute; discriminate) ltac:(lia)) as (jx1 & E1 & Ho1).
    rewrite E1. cbn [bind].
    pose proof (separator_step malloc jx cSep jx1 Hinv ltac:(lia) E1) as S1.
    pose proof S1 as (Hinv1 & Hu1 & _). change (len [cSep]) with 1 in Hu1.
    destruct (append_value_total jx1 (SqlText z) _ Hinv1 Ho1 Hl Hpk ltac:(cbn; lia) eq_refl)
      as (jx2 & E2 & Ho2).
    destruct (append_value_step malloc jx1 (SqlText z) _ jx2 Hinv1 Hl ltac:(cbn; lia)
                eq_refl E2) as [S2 Hl2].
    cbn [arg_text] in Hl2. rewrite E2. cbn [bind].
    pose proof S2 as (Hinv2 & Hu2 & _).
    destruct (jsonAppendRaw_total jx2 (txt ":") 1 Hinv2 Ho2 ltac:(lia)
                ltac:(vm_compute; discriminate) ltac:(lia)) as (jx3 & E3 & Ho3).
    rewrite E3. cbn [bind].
    pose proof (separator_step malloc jx2 (chr ":") jx3 Hinv2 ltac:(lia) E3) as S3.
    pose proof S3 as (Hinv3 & Hu3 & _). change (len [chr ":"]) with 1 in Hu3.
    destruct (append_value_total jx3 v t Hinv3 Ho3 Hs Hp ltac:(lia) Ev) as (jx4 & E4 & Ho4).
    destruct (append_value_step malloc jx3 v t jx4 Hinv3 Hs ltac:(lia) Ev E4) as [S4 Hl4].
    pose proof S4 as (Hinv4 & Hu4 & _).
    destruct (IH argv jx4 (chr ",") ts' ltac:(lia) Hinv4 Ho4 Hsm Hpl ltac:(lia) Hev' Ea)
      as (jx' & E' & Ho').
    exists jx'. split; [|exact Ho'].
    destruct v as [|y|y|y|b]; try discriminate; rewrite E4; cbn [bind]; exact E'.
Qed.

Lemma jsonArrayFunc_granted ctx argv ts :
  args_small argv = true -> args_plain argv = true ->
  values_json argv = Some ts ->
  jsonArrayFunc malloc ctx argv = Ok (ResultText (array_result ts)).
Proof.
  intros Hsm Hpl Hv. apply andb_true_iff in Hsm as [Hsm Hb]. apply Z.leb_le in Hb.
  unfold jsonArrayFunc.
  destruct (jsonArrayFunc_loop_total argv (jsonInit ctx) (chr "[") ts
              (acc_inv_init ctx) eq_refl Hsm Hpl ltac:(cbn; lia) Hv) as (jx & El & Ho).
  rewrite El. cbn [bind].
  pose proof (jsonArrayFunc_loop_step malloc argv (jsonInit ctx) (chr "[") _
                (acc_inv_init ctx) Hsm ltac:(cbn; lia) El) as Hl.
  rewrite Hv in Hl. destruct Hl as (jx0 & [= <-] & S1).
  pose proof S1 as (Hinv & Hu & _).
  pose proof (separated_bound argv ts (chr "[") Hv) as Hsep.
  cbn [jsonInit jsonZero nUsed] in Hu.
  destruct (jsonAppendRaw_total jx (txt "]") 1 Hinv Ho ltac:(lia)
              ltac:(vm_compute; discriminate) ltac:(lia)) as (jx2 & E2 & Ho2).
  rewrite E2. cbn [bind]. f_equal.
  pose proof (jsonAppendRaw_step malloc jx (txt "]") 1 jx2 Hinv ltac:(lia) ltac:(lia) E2)
    as S2.
  apply (jsonResult_clear ctx (array_result ts) jx2); [|exact Ho2].
  apply (append_step_trans _ _ jx _ jx2 S1 S2).
Qed.

Lemma jsonObjectFunc_granted ctx argv ts :
  args_small argv = true -> args_plain argv = true ->
  Nat.Even (length argv) -> members_json argv = inr ts ->
  jsonObjectFunc malloc ctx argv = Ok (ResultText (object_result ts)).
Proof.
  intros Hsm Hpl Hev Hv. apply andb_true_iff in Hsm as [Hsm Hb]. apply Z.leb_le in Hb.
  unfold jsonObjectFunc.
  destruct (Z.eqb_spec (Z.land (Z.of_nat (length argv)) 1) 0) as [Hpar|Hpar];
    cbn [negb].
  2:{ exfalso. apply land_one_odd in Hpar. destruct Hev as [a Ha], Hpar as [b Hb']. lia. }
  destruct (jsonObjectFunc_loop_total (length argv) argv (jsonInit ctx) (chr "{") ts
              ltac:(lia) (acc_inv_init ctx) eq_refl Hsm Hpl ltac:(cbn; lia) Hev Hv)
    as (jx & El & Ho).
  rewrite El. cbn [bind].
  pose proof (jsonObjectFunc_loop_step malloc (length argv) argv (jsonInit ctx) (chr "{") _
                ltac:(lia) (acc_inv_init ctx) Hsm ltac:(cbn; lia) Hev El) as Hl.
  rewrite Hv in Hl. destruct Hl as (jx0 & [= <-] & S1).
  pose proof S1 as (Hinv & Hu & _).
  pose proof (separated_pairs_bound (length argv) argv ts (chr "{") ltac:(lia) Hv) as Hsep.
  cbn [jsonInit jsonZero nUsed] in Hu.
  destruct (jsonAppendRaw_total jx (txt "}") 1 Hinv Ho ltac:(lia)
              ltac:(vm_compute; discriminate) ltac:(lia)) as (jx2 & E2 & Ho2).
  rewrite E2. cbn [bind]. f_equal.
  pose proof (jsonAppendRaw_step malloc jx (txt "}") 1 jx2 Hinv ltac:(lia) ltac:(lia) E2)
    as S2.
  apply (jsonResult_clear ctx (object_result ts) jx2); [|exact Ho2].
  apply (append_step_trans _ _ jx _ jx2 S1 S2).
Qed.

End Granted.

(** X6: when every allocation is granted, no argument is a blob and no
    text among them has a double quote or a backslash, json_array returns
    its text: the JSON texts of the arguments, each after its separator,
    and the closing bracket. *)
Theorem json_array_plain (malloc : Z -> bool) (ctx : sqlite3_context)
    (argv : list sqlite3_value) (ts : list text) :
  (forall m, malloc m = true) ->
  args_small argv = true -> args_plain argv = true ->
  values_json argv = Some ts ->
  jsonArrayFunc malloc ctx argv = Ok (ResultText (array_result ts)).
Proof. intros Hall. apply jsonArrayFunc_granted, Hall. Qed.

Lemma json_array_plain_witness :
  (forall m, all_memory m = true) /\
  args_small plain_args = true /\ args_plain plain_args = true /\
  values_json plain_args
    = Some [quoted_escaped (txt "ab"); txt "null"; txt "1.5"] /\
  jsonArrayFunc all_memory NoResult plain_args
    = Ok (ResultText (array_result [quoted_escaped (txt "ab"); txt "null"; txt "1.5"])).
Proof.
  assert (H0 : forall m, all_memory m = true) by (intros m; reflexivity).
  assert (H1 : args_small plain_args = true) by (vm_compute; reflexivity).
  assert (H2 : args_plain plain_args = true) by (vm_compute; reflexivity).
  assert (H3 : values_json plain_args
    = Some [quoted_escaped (txt "ab"); txt "null"; txt "1.5"]) by reflexivity.
  split; [exact H0|]. split; [exact H1|]. split; [exact H2|]. split; [exact H3|].
  exact (json_array_plain all_memory NoResult plain_args _ H0 H1 H2 H3).
Defined.

(** X7: when every allocation is granted, the arguments come in pairs of
    a text label and a value that is not a blob, and no text among them
    has a double quote or a backslash, json_object returns its text: the
    pairs, label, colon and value, each after its separator, and the
    closing brace. *)
Theorem json_object_plain (malloc : Z -> bool) (ctx : sqlite3_context)
    (argv : list sqlite3_value) (ts : list text) :
  (forall m, malloc m = true) ->
  args_small argv = true -> args_plain argv = true ->
  Nat.Even (length argv) -> members_json argv = inr ts ->
  jsonObjectFunc malloc ctx argv = Ok (ResultText (object_result ts)).
Proof. intros Hall. apply jsonObjectFunc_granted, Hall. Qed.

Lemma json_object_plain_witness :
  (forall m, all_memory m = true) /\
  args_small plain_pairs = true /\ args_plain plain_pairs = true /\
  Nat.Even (length plain_pairs) /\
  members_json plain_pairs
    = inr [quoted_escaped (txt "k"); txt "7"; quoted_escaped (txt "n");
           quoted_escaped (txt "v")] /\
  jsonObjectFunc all_memory NoResult plain_pairs
    = Ok (ResultText (object_result [quoted_escaped (txt "k"); txt "7";
                                     quoted_escaped (txt "n"); quoted_escaped (txt "v")])).
Proof.
  assert (H0 : forall m, all_memory m = true) by (intros m; reflexivity).
  assert (H1 : args_small plain_pairs = true) by (vm_compute; reflexivity).
  assert (H2 : args_plain plain_pairs = true) by (vm_compute; reflexivity).
  assert (H3 : Nat.Even (length plain_pairs)) by (exists 2%nat; reflexivity).
  assert (H4 : members_json plain_pairs
    = inr [quoted_escaped (txt "k"); txt "7"; quoted_escaped (txt "n");
           quoted_escaped (txt "v")]) by reflexivity.
  split; [exact H0|]. split; [exact H1|]. split; [exact H2|]. split; [exact H3|].
  split; [exact H4|].
  exact (json_object_plain all_memory NoResult plain_pairs _ H0 H1 H2 H3 H4).
Defined.

End SqlTotal.

(** * The node array of a minimal text *)

Lemma elements_nodes_cons f v vs off :
  elements_nodes f (v :: vs) off
  = f off v ++ elements_nodes f vs (off + len (print v) + 1).
Proof. reflexivity. Qed.

Lemma members_nodes_cons f kb v ms off :
  members_nodes f ((kb, v) :: ms) off
  = mkNode JSON_STRING false (len (quoted kb)) (Some off)
    :: f (off + len (quoted kb) + 1) v
    ++ members_nodes f ms (off + len (quoted kb) + 1 + len (print v) + 1).
Proof. reflexivity. Qed.

(** A value has no more nodes than its text has bytes. *)
Lemma nodes_of_le_text : forall v, valid v = true ->
  forall off, len (nodes_of off v) <= len (print v).
Proof.
  induction v as [| | |num|b|vs IH|ms IH] using json_ind; intros Hv off.
  - vm_compute. discriminate.
  - vm_compute. discriminate.
  - vm_compute. discriminate.
  - destruct (print_head (JNumber num) Hv) as (c & rest & Hpr & _).
    cbn [nodes_of]. rewrite Hpr. len_norm. pose proof (len_nonneg rest). lia.
  - cbn [nodes_of print]. rewrite len_quoted. len_norm.
    pose proof (len_nonneg (print_body b)). lia.
  - cbn [nodes_of print valid] in *. len_norm.
    assert (H : forall o first,
              len (elements_nodes nodes_of vs o) <= len (array_text first (map print vs))).
    { clear off. induction vs as [|v vs IHvs]; intros o first.
      - cbn [elements_nodes map array_text]. len_norm. lia.
      - cbn [forallb] in Hv. apply andb_true_iff in Hv as [Hv1 Hv2].
        apply Forall_cons in IH as [IH1 IH2].
        rewrite elements_nodes_cons. cbn [map array_text]. len_norm.
        specialize (IH1 Hv1 o). specialize (IHvs IH2 Hv2 (o + len (print v) + 1) false).
        pose proof (len_nonneg (if first then [] else [chr ","])). lia. }
    specialize (H (off + 1) true). lia.
  - cbn [nodes_of print valid] in *. len_norm.
    assert (H : forall o first,
              len (members_nodes nodes_of ms o)
              <= len (object_text first (member_texts print ms))).
    { clear off. induction ms as [|[kb v] ms IHms]; intros o first.
      - change (member_texts print []) with (@nil text).
        cbn [members_nodes object_text]. len_norm. lia.
      - cbn [forallb fst snd] in Hv. apply andb_true_iff in Hv as [Hv1 Hv2].
        apply andb_true_iff in Hv1 as [_ Hv1].
        apply Forall_cons in IH as [IH1 IH2]. cbn [snd] in IH1.
        rewrite members_nodes_cons.
        change (object_text first (member_texts print ((kb, v) :: ms)))
          with ((if first then [] else [chr ","]) ++ quoted kb ++ [chr ":"] ++ print v
                ++ object_text false (member_texts print ms)).
        len_norm. pose proof (len_quoted kb).
        specialize (IH1 Hv1 (o + len (quoted kb) + 1)).
        specialize (IHms IH2 Hv2 (o + len (quoted kb) + 1 + len (print v) + 1) false).
        pose proof (len_nonneg (if first then [] else [chr ","])).
        pose proof (len_nonneg (print_body kb)). lia. }
    specialize (H (off + 1) true). lia.
Qed.

(** The number of the nodes is the number of the values. *)
Lemma len_nodes_of : forall v off, len (nodes_of off v) = value_count v.
Proof.
  induction v as [| | |num|b|vs IH|ms IH] using json_ind; intros off;
    try reflexivity.
  - cbn [nodes_of value_count]. len_norm. f_equal.
    generalize (off + 1). induction vs as [|v vs IHvs]; intros o; [reflexivity|].
    apply Forall_cons in IH as [IH1 IH2].
    rewrite elements_nodes_cons. cbn [fold_right]. len_norm.
    rewrite IH1, (IHvs IH2). reflexivity.
  - cbn [nodes_of value_count]. len_norm. f_equal.
    generalize (off + 1). induction ms as [|[kb v] ms IHms]; intros o; [reflexivity|].
    apply Forall_cons in IH as [IH1 IH2]. cbn [snd] in IH1.
    rewrite members_nodes_cons. cbn [fold_right snd]. len_norm.
    rewrite IH1, (IHms IH2). lia.
Qed.

Section Exact.

Variable realloc : Z -> bool.
Hypothesis realloc_grants : forall m, realloc m = true.
Variable z : text.
Hypothesis z_small : len z < 2 ^ 26 - 4.

Lemma z_exact_calls : len z < 2 ^ 31 - 8.
Proof. lia. Qed.

Lemma literal_exact f lit ty v :
  In (lit, ty) literals -> print v = txt lit ->
  (forall off, nodes_of off v = [mkNode ty false 0 None]) ->
  parses_to z (jsonParseValue realloc (S f)) v.
Proof.
  intros Hin Hpr Hnodes p pre post Hz Hd Hg Hn. rewrite Hpr in *.
  pose proof Hg as (Hzp & _).
  assert (Hl1 : 1 <= len (txt lit)).
  { simpl in Hin. destruct Hin as [[= <- <-]|[[= <- <-]|[[= <- <-]|[]]]];
      vm_compute; discriminate. }
  pose proof (f_equal len Hz) as Hlen. rewrite !len_app in Hlen.
  pose proof (len_nonneg pre). pose proof (len_nonneg post).
  rewrite (literal_call realloc z z_exact_calls f lit ty p pre post Hin Hz Hd Hzp).
  destruct (scalar_parsed realloc realloc_grants z z_small p ty 0 None pre Hg Hn
              ltac:(lia)) as (r & E & Hg' & Ha).
  rewrite E. cbn [bind]. exists (snd r).
  split; [reflexivity|]. split; [exact Hg'|]. rewrite Hnodes. exact Ha.
Qed.

(** A string of characters that the loop of the string case steps over. *)
Lemma string_scanned f b :
  Forall scannable b -> parses_to z (jsonParseValue realloc (S f)) (JString b).
Proof.
  intros Hv p pre post Hz Hd Hg Hn. cbn [print nodes_of] in *.
  pose proof Hg as (Hzp & _).
  pose proof (f_equal len Hz) as Hlen. rewrite !len_app in Hlen.
  assert (Hq : len (quoted b) = len (print_body b) + 2) by apply len_quoted.
  pose proof (len_nonneg pre). pose proof (len_nonneg post).
  pose proof (len_nonneg (print_body b)).
  rewrite (string_call realloc z z_exact_calls f b p pre post Hv Hz Hzp).
  destruct (scalar_parsed realloc realloc_grants z z_small p JSON_STRING
              (len (quoted b)) (Some (len pre)) pre Hg Hn ltac:(lia))
    as (r & E & Hg' & Ha).
  rewrite E. cbn [bind].
  eexists. split; [reflexivity|]. split; [exact Hg'|exact Ha].
Qed.

Lemma string_exact f b :
  valid_body b = true -> parses_to z (jsonParseValue realloc (S f)) (JString b).
Proof. intros Hv. apply string_scanned, valid_body_scannable, Hv. Qed.

Lemma number_exact f num :
  valid_number num = true -> parses_to z (jsonParseValue realloc (S f)) (JNumber num).
Proof.
  intros Hv p pre post Hz Hd Hg Hn. cbn [print nodes_of] in *.
  pose proof Hg as (Hzp & _).
  pose proof (f_equal len Hz) as Hlen. rewrite !len_app in Hlen.
  pose proof (len_nonneg pre). pose proof (len_nonneg post).
  destruct (print_head (JNumber num) Hv) as (c & rest & Hpr & Hsp). cbn [print] in Hpr.
  assert (Hl1 : 1 <= len (print_number num))
    by (rewrite Hpr; len_norm; pose proof (len_nonneg rest); lia).
  rewrite (number_call realloc z z_exact_calls f num p pre post Hv Hz Hd Hzp).
  destruct (scalar_parsed realloc realloc_grants z z_small p
              (if is_real num then JSON_REAL else JSON_INT)
              (len (print_number num)) (Some (len pre)) pre Hg Hn
              ltac:(lia)) as (r & E & Hg' & Ha).
  rewrite E. cbn [bind].
  eexists. split; [reflexivity|]. split; [exact Hg'|exact Ha].
Qed.

(** The size of a container is set when its closing bracket is reached. *)
Lemma close_container_nodes q base ty rest j :
  pgood z q -> aNode q = base ++ mkNode ty false 0 None :: rest ->
  0 <= j < len z -> nNode q <= len z ->
  exists p',
    close_container q (len base) j = Ok (j + 1, p') /\
    pgood z p' /\
    aNode p' = base ++ mkNode ty false (len rest) None :: rest.
Proof.
  intros (Hzq & Hn & Hcap & Ho) Ha Hj Hnz. unfold close_container.
  rewrite (set_n_at base _ rest q _ Ha). cbn [bind eType bRaw zJContent].
  pose proof (len_nonneg base). pose proof (len_nonneg rest).
  assert (Hcount : nNode q - len base - 1 = len rest).
  { rewrite Hn, Ha. len_norm. lia. }
  rewrite Hcount, (u32_small (len rest)), u32_small, to_int_small by lia.
  eexists. split; [reflexivity|]. split; [|reflexivity].
  unfold pgood. cbn [zJson nNode nAlloc aNode oom].
  split; [exact Hzq|]. split; [|split; [exact Hcap|exact Ho]].
  rewrite Hn, Ha. len_norm. reflexivity.
Qed.

Section ExactLoops.

Variable rec : JsonParse -> Z -> result (Z * JsonParse).

Lemma parse_array_exact vs :
  Forall (fun v => valid v = true /\ parses_to z rec v) vs ->
  forall v k p iThis pre post,
    valid v = true -> parses_to z rec v ->
    z = pre ++ print v ++ array_text false (map print vs) ++ chr "]" :: post ->
    pgood z p -> nNode p <= len pre -> (length vs < k)%nat ->
    exists p',
      parse_array rec k p iThis (len pre)
      = close_container p' iThis
          (len pre + len (print v ++ array_text false (map print vs))) /\
      pgood z p' /\
      aNode p' = aNode p ++ elements_nodes nodes_of (v :: vs) (len pre) /\
      nNode p' <= len pre + len (print v ++ array_text false (map print vs)).
Proof.
  induction 1 as [|v' vs [Hv' Hp'] _ IH]; intros v k p iThis pre post Hv Hp Hz Hg Hn Hk;
    (destruct k as [|k]; [cbn in Hk; lia|]).
  all: pose proof Hg as (Hzp & Hnp & _).
  all: destruct (print_head v Hv) as (c & rest & Hpr & Hsp).
  all: assert (Hc : zAt z (len pre) = c) by (rewrite Hz, Hpr; cbn [app]; apply zAt_mid).
  all: pose proof (f_equal len Hz) as Hlen; rewrite !len_app in Hlen.
  all: pose proof (len_nonneg pre); pose proof (len_nonneg post);
       pose proof (len_nonneg (print v)).
  all: pose proof (nodes_of_le_text v Hv (len pre)) as Hle.
  all: cbn [parse_array]; cbv zeta; rewrite Hzp.
  all: rewrite (skip_space_stop z (len pre)) by (rewrite Hc; exact Hsp).
  - cbn [map array_text app] in Hz, Hlen |- *. rewrite app_nil_r.
    len_norm_in Hlen.
    destruct (Hp p pre (chr "]" :: post) Hz eq_refl Hg Hn) as (p1 & E & Hg1 & Ha1).
    rewrite E. cbn [bind fst snd].
    destruct (Z.ltb_spec (len pre + len (print v)) 0); [lia|].
    rewrite (u32_small (len pre + len (print v))) by lia.
    assert (Hc2 : zAt z (len pre + len (print v)) = chr "]").
    { apply (zAt_at z (pre ++ print v) _ post); [rewrite Hz; list_eq|len_norm; lia]. }
    rewrite skip_space_stop by (rewrite Hc2; reflexivity).
    rewrite Hc2. change (is_chr (chr "]") ",") with false.
    change (negb (is_chr (chr "]") "]")) with false. cbv iota.
    exists p1. split; [reflexivity|]. split; [exact Hg1|].
    split; [rewrite Ha1, elements_nodes_cons; cbn [elements_nodes];
            rewrite app_nil_r; reflexivity|].
    destruct Hg1 as (_ & Hn1 & _). rewrite Hn1, Ha1, len_app, <- Hnp. lia.
  - cbn [map array_text app] in Hz, Hlen |- *.
    len_norm_in Hlen.
    pose proof (len_nonneg (print v')).
    pose proof (len_nonneg (array_text false (map print vs))).
    destruct (Hp p pre _ Hz eq_refl Hg Hn) as (p1 & E & Hg1 & Ha1).
    rewrite E. cbn [bind fst snd].
    destruct (Z.ltb_spec (len pre + len (print v)) 0); [lia|].
    rewrite (u32_small (len pre + len (print v))) by lia.
    assert (Hc2 : zAt z (len pre + len (print v)) = chr ",").
    { apply (zAt_at z (pre ++ print v) _
               (print v' ++ array_text false (map print vs) ++ chr "]" :: post));
        [rewrite Hz; list_eq|len_norm; lia]. }
    rewrite skip_space_stop by (rewrite Hc2; reflexivity).
    rewrite Hc2. change (is_chr (chr ",") ",") with true. cbv iota.
    rewrite (u32_small (len pre + len (print v) + 1)) by lia.
    assert (Hn1 : nNode p1 <= len pre + len (print v)).
    { destruct Hg1 as (_ & Hn1 & _). rewrite Hn1, Ha1, len_app, <- Hnp. lia. }
    destruct (IH v' k p1 iThis (pre ++ print v ++ [chr ","]) post Hv' Hp')
      as (p' & E' & Hg' & Ha' & Hn');
      [rewrite Hz; list_eq|exact Hg1|len_norm; lia|cbn [length] in Hk; lia|].
    replace (len pre + len (print v) + 1) with (len (pre ++ print v ++ [chr ","]))
      by (len_norm; lia).
    rewrite E'. exists p'.
    split; [f_equal; len_norm; lia|]. split; [exact Hg'|].
    split.
    + rewrite Ha', Ha1, (elements_nodes_cons nodes_of v (v' :: vs)).
      replace (len (pre ++ print v ++ [chr ","])) with (len pre + len (print v) + 1)
        by (len_norm; lia).
      list_eq.
    + revert Hn'. len_norm. lia.
Qed.

Lemma parse_object_exact ms :
  (forall b, valid_body b = true -> parses_to z rec (JString b)) ->
  Forall (fun kv => valid_body (fst kv) = true /\ valid (snd kv) = true /\
                    parses_to z rec (snd kv)) ms ->
  forall kb v k p iThis pre post,
    valid_body kb = true -> valid v = true -> parses_to z rec v ->
    z = pre ++ quoted kb ++ chr ":" :: print v
          ++ object_text false (member_texts print ms) ++ chr "}" :: post ->
    pgood z p -> nNode p <= len pre -> (length ms < k)%nat ->
    exists p',
      parse_object rec k p iThis (len pre)
      = close_container p' iThis
          (len pre + len (quoted kb ++ chr ":" :: print v
                            ++ object_text false (member_texts print ms))) /\
      pgood z p' /\
      aNode p' = aNode p ++ members_nodes nodes_of ((kb, v) :: ms) (len pre) /\
      nNode p' <= len pre + len (quoted kb ++ chr ":" :: print v
                                   ++ object_text false (member_texts print ms)).
Proof.
  intros Hstr.
  induction 1 as [|[kb' v'] ms (Hkb' & Hv' & Hp') _ IH];
    intros kb v k p iThis pre post Hkb Hv Hp Hz Hg Hn Hk;
    (destruct k as [|k]; [cbn in Hk; lia|]).
  all: cbn [fst snd] in *.
  all: pose proof Hg as (Hzp & Hnp & _).
  all: assert (Hc : zAt z (len pre) = DQUOTE)
         by (rewrite Hz; unfold quoted; cbn [app]; apply zAt_mid).
  all: pose proof (f_equal len Hz) as Hlen.
  all: pose proof (len_nonneg pre); pose proof (len_nonneg post);
       pose proof (len_nonneg (print v)); pose proof (len_nonneg (quoted kb));
       pose proof (len_nonneg (aNode p)).
  all: cbn [parse_object]; cbv zeta; rewrite Hzp.
  all: rewrite (skip_space_stop z (len pre)) by (rewrite Hc; reflexivity).
  (* the key *)
  all: destruct (Hstr kb Hkb p pre _ Hz eq_refl Hg Hn) as (p1 & E1 & Hg1 & Ha1);
       cbn [print nodes_of] in E1, Ha1.
  all: pose proof Hg1 as (Hzp1 & Hnp1 & _).
  all: assert (Hn1 : nNode p1 = nNode p + 1) by (rewrite Hnp1, Ha1, Hnp; len_norm; lia).
  all: rewrite E1; cbn [bind fst snd].
  all: destruct (Z.ltb_spec (len pre + len (quoted kb)) 0); [lia|].
  all: match type of Hz with context [object_text false ?m] =>
         pose proof (len_nonneg (object_text false m)) end.
  all: len_norm_in Hlen.
  all: change (member_texts print []) with (@nil text) in Hz |- *;
       cbn [object_text] in Hz |- *;
       rewrite ?object_text_more in Hz |- *.
  all: rewrite (u32_small (nNode p1 - 1)) by lia.
  all: replace (nNode p1 - 1) with (len (aNode p)) by lia.
  all: rewrite Ha1, node_at_app; cbn [bind eType JsonType_eqb negb].
  all: rewrite (u32_small (len pre + len (quoted kb))) by lia.
  all: assert (Hc2 : zAt z (len pre + len (quoted kb)) = chr ":")
         by (eapply (zAt_at z (pre ++ quoted kb)); [rewrite Hz; list_eq|len_norm; lia]).
  all: rewrite skip_space_stop by (rewrite Hc2; reflexivity).
  all: rewrite Hc2; change (negb (is_chr (chr ":") ":")) with false; cbv iota.
  all: rewrite (u32_small (len pre + len (quoted kb) + 1)) by lia.
  (* the value *)
  all: replace (len pre + len (quoted kb) + 1) with (len (pre ++ quoted kb ++ [chr ":"]))
         by (len_norm; lia).
  all: edestruct (Hp p1 (pre ++ quoted kb ++ [chr ":"])) as (p2 & E2 & Hg2 & Ha2);
         [rewrite Hz; list_eq|reflexivity|exact Hg1|len_norm; lia|].
  all: pose proof Hg2 as (Hzp2 & Hnp2 & _).
  all: pose proof (nodes_of_le_text v Hv (len (pre ++ quoted kb ++ [chr ":"]))) as Hle2.
  all: assert (Hn2 : nNode p2 <= len pre + len (quoted kb) + 1 + len (print v))
         by (rewrite Hnp2, Ha2, len_app, <- Hnp1; lia).
  all: rewrite E2; cbn [bind fst snd].
  all: assert (Hpre2 : len (pre ++ quoted kb ++ [chr ":"]) = len pre + len (quoted kb) + 1)
         by (len_norm; lia).
  all: rewrite Hpre2 in Ha2 |- *.
  all: set (x2 := len pre + len (quoted kb) + 1 + len (print v)).
  all: destruct (Z.ltb_spec x2 0); [unfold x2 in *; lia|].
  all: rewrite (u32_small x2) by (unfold x2 in *; lia).
  - assert (Hc3 : zAt z x2 = chr "}").
    { eapply (zAt_at z (pre ++ quoted kb ++ chr ":" :: print v));
        [rewrite Hz; list_eq|unfold x2; len_norm; lia]. }
    rewrite skip_space_stop by (rewrite Hc3; reflexivity).
    rewrite Hc3. change (is_chr (chr "}") ",") with false.
    change (negb (is_chr (chr "}") "}")) with false. cbv iota.
    exists p2. rewrite app_nil_r.
    split; [f_equal; unfold x2; len_norm; lia|]. split; [exact Hg2|].
    split; [rewrite Ha2, Ha1, members_nodes_cons; cbn [members_nodes];
            rewrite app_nil_r; list_eq|].
    revert Hn2. len_norm. lia.
  - pose proof (len_nonneg (quoted kb')). pose proof (len_nonneg (print v')).
    pose proof (len_nonneg (object_text false (member_texts print ms))).
    assert (Hc3 : zAt z x2 = chr ",").
    { eapply (zAt_at z (pre ++ quoted kb ++ chr ":" :: print v));
        [rewrite Hz; list_eq|unfold x2; len_norm; lia]. }
    rewrite skip_space_stop by (rewrite Hc3; reflexivity).
    rewrite Hc3. change (is_chr (chr ",") ",") with true. cbv iota.
    rewrite (u32_small (x2 + 1)) by (unfold x2 in *; lia).
    assert (Hpre3 : len (pre ++ quoted kb ++ chr ":" :: print v ++ [chr ","]) = x2 + 1)
      by (unfold x2; len_norm; lia).
    rewrite <- Hpre3.
    edestruct (IH kb' v' k p2 iThis (pre ++ quoted kb ++ chr ":" :: print v ++ [chr ","]))
      as (p' & E' & Hg' & Ha' & Hn');
      [exact Hkb'|exact Hv'|exact Hp'|rewrite Hz; list_eq|exact Hg2
      |rewrite Hpre3; unfold x2; lia|cbn [length] in Hk; lia|].
    rewrite E'. exists p'.
    split; [f_equal; rewrite Hpre3; unfold x2; len_norm; lia|]. split; [exact Hg'|].
    split.
    + rewrite Ha', Ha2, Ha1, (members_nodes_cons nodes_of kb v), Hpre3.
      unfold x2. list_eq.
    + revert Hn'. rewrite Hpre3. unfold x2. len_norm. lia.
Qed.

End ExactLoops.

Lemma array_exact f vs :
  Forall (fun v => valid v = true /\ parses_to z (jsonParseValue realloc f) v) vs ->
  (length vs < f)%nat ->
  parses_to z (jsonParseValue realloc (S f)) (JArray vs).
Proof.
  intros Hall Hf p pre post Hz Hd Hg Hn. cbn [print nodes_of] in *.
  pose proof Hg as (Hzp & Hnp & _).
  pose proof (f_equal len Hz) as Hlen. len_norm_in Hlen.
  pose proof (len_nonneg pre). pose proof (len_nonneg post).
  pose proof (len_nonneg (aNode p)).
  pose proof (len_nonneg (array_text true (map print vs))).
  assert (Hc : zAt z (len pre) = chr "[") by (rewrite Hz; cbn [app]; apply zAt_mid).
  destruct (add_node_granted realloc realloc_grants z z_small p JSON_ARRAY 0 None Hg
              ltac:(lia)) as (r & Ea & Hfst & Hg1 & Ha1).
  pose proof Hg1 as (Hzp1 & Hnp1 & _).
  assert (Hn1 : nNode (snd r) = nNode p + 1)
    by (rewrite Hnp1, Ha1, Hnp; len_norm; lia).
  cbn [jsonParseValue]. cbv zeta. rewrite Hzp.
  rewrite skip_space_stop by (rewrite Hc; reflexivity).
  rewrite Hc. change (Ascii.eqb (chr "[") NUL) with false.
  change (is_chr (chr "[") "{") with false. change (is_chr (chr "[") "[") with true.
  cbv iota. rewrite Ea. cbn [bind]. rewrite Hfst, (u32_small (nNode p)) by lia.
  destruct (Z.ltb_spec (nNode p) 0); [lia|].
  rewrite (u32_small (len pre + 1)) by lia.
  rewrite <- (len_snoc pre (chr "[")).
  set (p1 := snd r) in *.
  destruct vs as [|v vs].
  - (* no element *)
    destruct f as [|f]; [lia|]. cbn [map array_text app elements_nodes] in Hz, Hlen |- *.
    len_norm_in Hlen.
    cbn [parse_array]. cbv zeta. rewrite Hzp1.
    assert (Hc1 : zAt z (len (pre ++ [chr "["])) = chr "]")
      by (rewrite Hz; rewrite (snoc_app pre); apply zAt_mid).
    rewrite skip_space_stop by (rewrite Hc1; reflexivity).
    rewrite (closing_parsed realloc z f p1 (pre ++ [chr "["]) (chr "]") post (-3) Hzp1);
      [|rewrite Hz; list_eq|left; split; reflexivity].
    cbn [bind fst snd]. change (-3 <? 0) with true. change (-3 =? -3) with true.
    rewrite (u32_small (nNode p + 1)), Hn1, Z.eqb_refl by lia. cbn [andb].
    rewrite (len_snoc pre (chr "[")), u32_small, to_int_small by lia.
    exists p1.
    split; [f_equal; f_equal; len_norm; lia|]. split; [exact Hg1|exact Ha1].
  - (* elements *)
    apply Forall_cons in Hall as [[Hv Hp] Hall]. cbn [length] in Hf.
    cbn [map array_text app] in Hz, Hlen |- *.
    destruct (parse_array_exact (jsonParseValue realloc f) vs Hall v f p1 (nNode p)
                (pre ++ [chr "["]) post Hv Hp)
      as (p' & E & Hg' & Ha' & Hn');
      [rewrite Hz; list_eq|exact Hg1|rewrite Hn1; len_norm; lia|lia|].
    rewrite E. rewrite Hnp.
    set (body := print v ++ array_text false (map print vs)) in *.
    pose proof (len_nonneg body).
    assert (Hlb : len z = len pre + (1 + (len body + (1 + len post))))
      by (rewrite Hlen; unfold body; len_norm; lia).
    rewrite (len_snoc pre (chr "[")) in Ha'.
    destruct (close_container_nodes p' (aNode p) JSON_ARRAY
                (elements_nodes nodes_of (v :: vs) (len pre + 1))
                (len (pre ++ [chr "["]) + len body) Hg')
      as (p2 & E2 & Hg2 & Ha2);
      [rewrite Ha', Ha1; list_eq|len_norm; lia|revert Hn'; len_norm; lia|].
    rewrite E2. exists p2.
    split; [f_equal; f_equal; len_norm; lia|]. split; [exact Hg2|].
    rewrite (len_snoc pre _). exact Ha2.
Qed.

Lemma object_exact f ms :
  Forall (fun kv => valid_body (fst kv) = true /\ valid (snd kv) = true /\
                    parses_to z (jsonParseValue realloc (S f)) (snd kv)) ms ->
  (length ms < S f)%nat ->
  parses_to z (jsonParseValue realloc (S (S f))) (JObject ms).
Proof.
  intros Hall Hf p pre post Hz Hd Hg Hn. cbn [print nodes_of] in *.
  pose proof Hg as (Hzp & Hnp & _).
  pose proof (f_equal len Hz) as Hlen. len_norm_in Hlen.
  pose proof (len_nonneg pre). pose proof (len_nonneg post).
  pose proof (len_nonneg (aNode p)).
  pose proof (len_nonneg (object_text true (member_texts print ms))).
  assert (Hc : zAt z (len pre) = chr "{") by (rewrite Hz; cbn [app]; apply zAt_mid).
  destruct (add_node_granted realloc realloc_grants z z_small p JSON_OBJECT 0 None Hg
              ltac:(lia)) as (r & Ea & Hfst & Hg1 & Ha1).
  pose proof Hg1 as (Hzp1 & Hnp1 & _).
  assert (Hn1 : nNode (snd r) = nNode p + 1)
    by (rewrite Hnp1, Ha1, Hnp; len_norm; lia).
  remember (S f) as f1 eqn:Ef1.
  cbn [jsonParseValue]. cbv zeta. rewrite Hzp.
  rewrite skip_space_stop by (rewrite Hc; reflexivity).
  rewrite Hc. change (Ascii.eqb (chr "{") NUL) with false.
  change (is_chr (chr "{") "{") with true.
  cbv iota. rewrite Ea. cbn [bind]. rewrite Hfst, (u32_small (nNode p)) by lia.
  destruct (Z.ltb_spec (nNode p) 0); [lia|].
  rewrite (u32_small (len pre + 1)) by lia.
  rewrite <- (len_snoc pre (chr "{")).
  set (p1 := snd r) in *.
  subst f1.
  destruct ms as [|[kb v] ms].
  - (* no member *)
    change (member_texts print []) with (@nil text) in *.
    cbn [object_text app members_nodes] in Hz, Hlen |- *. len_norm_in Hlen.
    cbn [parse_object]. cbv zeta. rewrite Hzp1.
    assert (Hc1 : zAt z (len (pre ++ [chr "{"])) = chr "}")
      by (rewrite Hz; rewrite (snoc_app pre); apply zAt_mid).
    rewrite skip_space_stop by (rewrite Hc1; reflexivity).
    rewrite (closing_parsed realloc z f p1 (pre ++ [chr "{"]) (chr "}") post (-2) Hzp1);
      [|rewrite Hz; list_eq|right; split; reflexivity].
    cbn [bind fst snd]. change (-2 <? 0) with true. change (-2 =? -2) with true.
    rewrite (u32_small (nNode p + 1)), Hn1, Z.eqb_refl by lia. cbn [andb].
    rewrite (len_snoc pre (chr "{")), u32_small, to_int_small by lia.
    exists p1.
    split; [f_equal; f_equal; len_norm; lia|]. split; [exact Hg1|exact Ha1].
  - (* members *)
    apply Forall_cons in Hall as [(Hkb & Hv & Hp) Hall]. cbn [length fst snd] in *.
    rewrite object_text_first in Hz, Hlen |- *.
    destruct (parse_object_exact (jsonParseValue realloc (S f)) ms
                (fun b Hb => string_exact f b Hb) Hall kb v (S f) p1 (nNode p)
                (pre ++ [chr "{"]) post Hkb Hv Hp)
      as (p' & E & Hg' & Ha' & Hn');
      [rewrite Hz; list_eq|exact Hg1|rewrite Hn1; len_norm; lia|lia|].
    rewrite E. rewrite Hnp.
    set (body := quoted kb ++ chr ":" :: print v
                   ++ object_text false (member_texts print ms)) in *.
    pose proof (len_nonneg body).
    rewrite (len_snoc pre (chr "{")) in Ha'.
    destruct (close_container_nodes p' (aNode p) JSON_OBJECT
                (members_nodes nodes_of ((kb, v) :: ms) (len pre + 1))
                (len (pre ++ [chr "{"]) + len body) Hg')
      as (p2 & E2 & Hg2 & Ha2);
      [rewrite Ha', Ha1; list_eq|len_norm; lia|revert Hn'; len_norm; lia|].
    rewrite E2. exists p2.
    split; [f_equal; f_equal; len_norm; lia|]. split; [exact Hg2|].
    rewrite (len_snoc pre _). exact Ha2.
Qed.

Lemma value_exact : forall v, valid v = true ->
  forall fuel, (length (print v) < fuel)%nat ->
  parses_to z (jsonParseValue realloc fuel) v.
Proof.
  induction v as [| | |num|b|vs IH|ms IH] using json_ind; intros Hv fuel Hf;
    (destruct fuel as [|f]; [lia|]).
  - apply (literal_exact f "null" JSON_NULL);
      [left; reflexivity|reflexivity|reflexivity].
  - apply (literal_exact f "true" JSON_TRUE);
      [right; left; reflexivity|reflexivity|reflexivity].
  - apply (literal_exact f "false" JSON_FALSE);
      [right; right; left; reflexivity|reflexivity|reflexivity].
  - apply number_exact, Hv.
  - apply string_exact, Hv.
  - cbn [valid] in Hv. cbn [print] in Hf. rewrite !length_app in Hf. cbn [length] in Hf.
    destruct (array_print_bounds vs Hv true) as [Hcount Hitems].
    apply array_exact; [|lia].
    rewrite Forall_forall in IH, Hitems |- *. intros v Hin.
    assert (Hvv : valid v = true).
    { apply (proj1 (forallb_forall valid vs) Hv), list_elem_of_In, Hin. }
    split; [exact Hvv|]. apply (IH v Hin Hvv). specialize (Hitems v Hin). lia.
  - cbn [valid] in Hv. cbn [print] in Hf. rewrite !length_app in Hf. cbn [length] in Hf.
    destruct (object_print_bounds ms true) as [Hcount Hitems].
    destruct f as [|f]; [lia|].
    apply object_exact; [|lia].
    rewrite Forall_forall in IH, Hitems |- *. intros kv Hin.
    pose proof (proj1 (forallb_forall _ ms) Hv kv (proj1 (list_elem_of_In _ _) Hin)) as Hkv.
    cbn beta in Hkv. apply andb_true_iff in Hkv as [Hk Hvv].
    split; [exact Hk|]. split; [exact Hvv|].
    apply (IH kv Hin Hvv). specialize (Hitems kv Hin). cbn beta in Hitems. lia.
Qed.

(** The parse of a text that is the minimal text of [v], when the call
    at its start adds the nodes of [v]. *)
Lemma jsonParse_top p0 v :
  parses_to z (jsonParseValue realloc (parse_fuel z)) v ->
  z = print v -> 1 <= len z ->
  exists cap,
    jsonParse realloc p0 (Some z)
    = Ok (0, mkParse (len (nodes_of 0 v)) cap (nodes_of 0 v) z false) /\
    len (nodes_of 0 v) <= cap.
Proof.
  intros Hp Hzv Hz1.
  destruct (Hp (mkParse 0 0 [] z false) [] []) as (p & E & Hg & Ha).
  { rewrite app_nil_r. exact Hzv. }
  { reflexivity. }
  { unfold pgood. cbn [zJson nNode nAlloc aNode oom].
    change (len (@nil JsonNode)) with 0. repeat split; lia. }
  { cbn [nNode]. change (len (@nil ascii)) with 0. lia. }
  change (len (@nil ascii)) with 0 in E, Ha. rewrite <- Hzv, Z.add_0_l in E.
  cbn [aNode app] in Ha.
  destruct Hg as (Hzp & Hnp & Hcap & Hoom).
  exists (nAlloc p). split; [|rewrite <- Ha, <- Hnp; exact Hcap].
  unfold jsonParse. rewrite E. cbn [bind fst snd].
  destruct (Z.ltb_spec 0 (len z)); [|lia].
  rewrite skip_space_stop by (rewrite zAt_end by lia; reflexivity).
  rewrite zAt_end by lia. rewrite Ascii.eqb_refl. cbn [negb].
  destruct (Z.ltb_spec (len z) 0); [lia|].
  f_equal. f_equal. destruct p as [nn na an zj oo].
  cbn [zJson nNode nAlloc aNode oom] in *.
  rewrite Hzp, Hoom, Ha, Hnp, Ha. reflexivity.
Qed.

(** The parse of the minimal text of a valid value. *)
Lemma jsonParse_exact p0 v :
  valid v = true -> z = print v ->
  exists cap,
    jsonParse realloc p0 (Some z)
    = Ok (0, mkParse (value_count v) cap (nodes_of 0 v) z false) /\
    value_count v <= cap.
Proof.
  intros Hv Hzv.
  destruct (print_head v Hv) as (c & rest & Hpr & _).
  assert (Hz1 : 1 <= len z)
    by (rewrite Hzv, Hpr; len_norm; pose proof (len_nonneg rest); lia).
  assert (Hfuel : (length (print v) < parse_fuel z)%nat)
    by (unfold parse_fuel; rewrite Hzv; lia).
  rewrite <- (len_nodes_of v 0).
  apply jsonParse_top; [apply value_exact; assumption|exact Hzv|exact Hz1].
Qed.

End Exact.

(** * json_test1 and json_nodecount on minimal texts *)

(** The array of a parse that left the nodes of a value is live. *)
Lemma free_nodes_value n0 cap off v z o :
  free_nodes (mkParse n0 cap (nodes_of off v) z o) = Ok tt.
Proof. unfold free_nodes, dangling. cbn [aNode]. destruct v; reflexivity. Qed.

(** The parse of the minimal text of a valid value and its rendering from
    slot 0 into a fresh accumulator. *)
Lemma jsonParse_rendered realloc malloc p0 ctx v :
  (forall m, realloc m = true) -> (forall m, malloc m = true) ->
  valid v = true -> len (print v) < 2 ^ 26 - 4 ->
  exists p out,
    jsonParse realloc p0 (Some (print v)) = Ok (0, p) /\
    jsonRenderNode malloc (aNode p) (print v) 0 (Accum.jsonInit ctx) = Ok (nNode p, out) /\
    appended (Accum.jsonInit ctx) (print v) out.
Proof.
  intros Hre Hma Hv Hsmall.
  set (z := print v) in *.
  pose proof (len_nonneg z) as Hz0.
  destruct (print_head v Hv) as (c & rest & Hpr & _). fold z in Hpr.
  assert (Hz1 : 1 <= len z) by (rewrite Hpr; len_norm; pose proof (len_nonneg rest); lia).
  assert (Hfuel : (length (print v) < parse_fuel z)%nat) by (unfold parse_fuel, z; lia).
  destruct (value_parses realloc Hre z Hsmall v Hv (parse_fuel z) Hfuel
              (mkParse 0 0 [] z false) [] [])
    as (p & t & E & Hg & Ha & Hs & Ht & _).
  { unfold z. rewrite app_nil_r. reflexivity. }
  { reflexivity. }
  { unfold pgood. cbn [zJson nNode nAlloc aNode oom].
    change (len (@nil JsonNode)) with 0. repeat split; lia. }
  { cbn [nNode]. change (len (@nil ascii)) with 0. lia. }
  change (len (@nil ascii)) with 0 in E. fold z in E, Ht. rewrite Z.add_0_l in E.
  cbn [aNode app] in Ha.
  destruct Hg as (Hzp & Hnp & _ & Hoom).
  pose proof (shaped_nodes_le_text z t Hs) as Hnt. rewrite Ht in Hnt.
  exists p.
  assert (Hparse : jsonParse realloc p0 (Some z) = Ok (0, p)).
  { unfold jsonParse. rewrite E. cbn [bind fst snd].
    destruct (Z.ltb_spec 0 (len z)); [|lia].
    rewrite skip_space_stop by (rewrite zAt_end by lia; reflexivity).
    rewrite zAt_end by lia. rewrite Ascii.eqb_refl. cbn [negb].
    destruct (Z.ltb_spec (len z) 0); [lia|]. reflexivity. }
  assert (Hsm : len (aNode p) < 2 ^ 31 - 1) by (rewrite Ha; lia).
  destruct (render_shaped malloc (Accum.jsonAppendString malloc) (aNode p) z Hsm
              ltac:(lia) t Hs (S (length (aNode p))) ltac:(rewrite Ha; lia)
              [] [] (Accum.jsonInit ctx) ltac:(rewrite app_nil_r; exact Ha)
              (AccumOk.jsonInit_ok ctx))
    as (out & Er & _ & _ & Hspec).
  { rewrite Ht, AccumOk.acc_limit_val. change (Accum.nUsed (Accum.jsonInit ctx)) with 0. lia. }
  exists out. split; [exact Hparse|]. split.
  - unfold jsonRenderNode, jsonRenderNode_with.
    change 0 with (len (@nil JsonNode)) at 1. rewrite Er, Hnp, Ha. reflexivity.
  - rewrite <- Ht. apply (Hspec eq_refl Hma).
Qed.

(** X8: when every allocation is granted, the parse of the minimal text
    of a valid value of less than 2^26 - 4 bytes, for which every request
    for the node array stays below 2^31 bytes, returns 0 and leaves
    exactly the nodes of the value: the values in pre-order, none raw, a
    number or a string with the offset and the length of its text, a
    literal with neither, an array or an object with the number of the
    nodes below it, the key of a member before its value. *)
Theorem parse_exact (realloc : Z -> bool) (p0 : JsonParse) (v : json) :
  (forall m, realloc m = true) ->
  valid v = true -> len (print v) < 2 ^ 26 - 4 ->
  exists cap,
    jsonParse realloc p0 (Some (print v))
    = Ok (0, mkParse (value_count v) cap (nodes_of 0 v) (print v) false) /\
    value_count v <= cap.
Proof.
  intros Hre Hv Hsmall.
  exact (jsonParse_exact realloc Hre (print v) Hsmall p0 v Hv eq_refl).
Qed.

Lemma parse_exact_witness :
  (forall m, all_memory m = true) /\
  valid sample_value = true /\ len (print sample_value) < 2 ^ 26 - 4 /\
  exists cap,
    jsonParse all_memory empty_parse (Some (print sample_value))
    = Ok (0, mkParse (value_count sample_value) cap (nodes_of 0 sample_value)
               (print sample_value) false) /\
    value_count sample_value <= cap.
Proof.
  assert (H1 : forall m, all_memory m = true) by (intros m; reflexivity).
  assert (H2 : valid sample_value = true) by (vm_compute; reflexivity).
  assert (H3 : len (print sample_value) < 2 ^ 26 - 4) by (vm_compute; reflexivity).
  split; [exact H1|]. split; [exact H2|]. split; [exact H3|].
  exact (parse_exact all_memory empty_parse sample_value H1 H2 H3).
Defined.

(** X9: when every allocation is granted, json_nodecount of the minimal
    text of a valid value of less than 2^26 - 4 bytes is the number of
    its values, the keys of the objects counted. *)
Theorem json_nodecount_counts (realloc : Z -> bool) (x0 : JsonParse)
    (ctx : sqlite3_context) (v : json) :
  (forall m, realloc m = true) ->
  valid v = true -> len (print v) < 2 ^ 26 - 4 ->
  jsonNodeCountFunc realloc x0 ctx (SqlText (print v)) = Ok (ResultInt (value_count v)).
Proof.
  intros Hre Hv Hsmall.
  destruct (jsonParse_exact realloc Hre (print v) Hsmall x0 v Hv eq_refl) as (cap & E & _).
  unfold jsonNodeCountFunc. cbn [sqlite3_value_text]. rewrite E.
  cbn [bind fst snd]. change (negb (0 =? 0)) with false. cbv iota.
  rewrite free_nodes_value. reflexivity.
Qed.

Lemma json_nodecount_counts_witness :
  (forall m, all_memory m = true) /\
  valid sample_value = true /\ len (print sample_value) < 2 ^ 26 - 4 /\
  jsonNodeCountFunc all_memory empty_parse NoResult (SqlText (print sample_value))
  = Ok (ResultInt (value_count sample_value)).
Proof.
  assert (H1 : forall m, all_memory m = true) by (intros m; reflexivity).
  assert (H2 : valid sample_value = true) by (vm_compute; reflexivity).
  assert (H3 : len (print sample_value) < 2 ^ 26 - 4) by (vm_compute; reflexivity).
  split; [exact H1|]. split; [exact H2|]. split; [exact H3|].
  exact (json_nodecount_counts all_memory empty_parse NoResult sample_value H1 H2 H3).
Defined.

Lemma result_text_all (z : text) :
  len z < 2 ^ 31 -> sqlite3_result_text z (to_int (len z)) = Ok (ResultText z).
Proof.
  intros Hs. pose proof (len_nonneg z). rewrite to_int_small by lia.
  unfold sqlite3_result_text. destruct (Z.ltb_spec (len z) 0); [lia|].
  destruct (Z.ltb_spec (Z.of_nat (length z)) (len z)); [unfold len in *; lia|].
  rewrite SqlFuncs.take_len. reflexivity.
Qed.

(** X10: when every allocation is granted, json_test1 of the minimal
    text of a valid value of less than 2^26 - 4 bytes gives: the SQL null
    for null, the integers 1
    and 0 for true and false, the text itself for a number, an array and
    an object, and for a string nothing: the context is left as it
    was. *)
Theorem json_test1_value (realloc malloc : Z -> bool) (x0 : JsonParse)
    (ctx : sqlite3_context) (v : json) :
  (forall m, realloc m = true) -> (forall m, malloc m = true) ->
  valid v = true -> len (print v) < 2 ^ 26 - 4 ->
  jsonTest1Func realloc malloc x0 ctx (SqlText (print v)) = Ok (value_result ctx v).
Proof.
  intros Hre Hma Hv Hsmall.
  destruct (jsonParse_exact realloc Hre (print v) Hsmall x0 v Hv eq_refl) as (cap & E & _).
  destruct (jsonParse_rendered realloc malloc x0 ctx v Hre Hma Hv Hsmall)
    as (p & out & E' & Er & Hb & Hn & Ho & _).
  rewrite E in E'. injection E' as <-. cbn [aNode nNode] in Er.
  unfold jsonTest1Func. cbn [sqlite3_value_text]. rewrite E.
  cbn [bind fst snd aNode zJson]. change (negb (0 =? 0)) with false. cbv iota.
  rewrite free_nodes_value.
  enough (Hret : jsonReturn malloc (nodes_of 0 v) (print v) 0 ctx
                 = Ok (value_result ctx v)) by (rewrite Hret; reflexivity).
  assert (Hcont : forall ty kids,
            nodes_of 0 v = mkNode ty false (len kids) None :: kids ->
            is_container ty = true ->
            jsonReturn malloc (nodes_of 0 v) (print v) 0 ctx = Ok (ResultText (print v))).
  { intros ty kids Hnodes Hty. unfold jsonReturn. rewrite Hnodes.
    change (node_at (mkNode ty false (len kids) None :: kids) 0)
      with (Ok (mkNode ty false (len kids) None)).
    cbn [bind eType]. rewrite <- Hnodes, Er. cbn [bind snd].
    unfold Accum.jsonResult. rewrite Ho. cbn [Accum.jsonZero Accum.pCtx].
    rewrite Hb, Hn. cbn [Accum.jsonInit Accum.jsonZero Accum.zBuf Accum.nUsed app].
    rewrite Z.add_0_l, SqlFuncs.take_len.
    destruct ty; try discriminate; reflexivity. }
  destruct v as [| | |num|b|vs|ms]; try reflexivity.
  - cbn [nodes_of print value_result]. unfold jsonReturn.
    change (node_at [?nd] 0) with (Ok nd). cbn [bind eType zJContent n at_ptr].
    change (Z.to_nat 0) with 0%nat. rewrite drop_0.
    cbn [print] in Hsmall.
    destruct (is_real num); apply result_text_all; lia.
  - apply (Hcont JSON_ARRAY (elements_nodes nodes_of vs (0 + 1))); reflexivity.
  - apply (Hcont JSON_OBJECT (members_nodes nodes_of ms (0 + 1))); reflexivity.
Qed.

Lemma json_test1_value_witness :
  (forall m, all_memory m = true) /\
  valid sample_value = true /\ len (print sample_value) < 2 ^ 26 - 4 /\
  jsonTest1Func all_memory all_memory empty_parse NoResult (SqlText (print sample_value))
  = Ok (value_result NoResult sample_value).
Proof.
  assert (H1 : forall m, all_memory m = true) by (intros m; reflexivity).
  assert (H2 : valid sample_value = true) by (vm_compute; reflexivity).
  assert (H3 : len (print sample_value) < 2 ^ 26 - 4) by (vm_compute; reflexivity).
  split; [exact H1|]. split; [exact H2|]. split; [exact H3|].
  exact (json_test1_value all_memory all_memory empty_parse NoResult sample_value
           H1 H1 H2 H3).
Defined.

(** * Texts at the edges of the grammar *)

Lemma zAt_forallb (P : ascii -> bool) (z : text) i :
  forallb P z = true -> 0 <= i < len z -> P (zAt z i) = true.
Proof.
  intros Hall Hi. unfold zAt. destruct (Z.ltb_spec i 0); [lia|].
  apply (proj1 (forallb_forall P z) Hall). apply nth_In. unfold len in Hi. lia.
Qed.

Lemma skip_space_fuel_blank z : forallb isspace z = true -> len z < 2 ^ 32 - 1 ->
  forall k j, 0 <= j <= len z -> (Z.to_nat (len z - j) <= k)%nat ->
  skip_space_fuel z k j = len z.
Proof.
  intros Hall Hsmall. induction k as [|k IH]; intros j Hj Hk; cbn [skip_space_fuel].
  - lia.
  - destruct (Z.eq_dec j (len z)) as [->|Hne].
    + rewrite zAt_end by lia. reflexivity.
    + rewrite (zAt_forallb isspace z j Hall) by lia.
      rewrite u32_small by lia. apply IH; lia.
Qed.

(** X11: on every text of white space only, the parse returns 0 without
    a node; so json_nodecount gives 0 for it, and json_test1 reads the
    first node of an array that was never allocated. *)
Theorem parse_blank (realloc malloc : Z -> bool) (p0 : JsonParse)
    (ctx : sqlite3_context) (z : text) :
  forallb isspace z = true -> len z < 2 ^ 31 ->
  jsonParse realloc p0 (Some z) = Ok (0, mkParse 0 0 [] z false) /\
  jsonNodeCountFunc realloc p0 ctx (SqlText z) = Ok (ResultInt 0) /\
  jsonTest1Func realloc malloc p0 ctx (SqlText z) = Undefined.
Proof.
  intros Hall Hsmall. pose proof (len_nonneg z) as H0.
  assert (E : jsonParse realloc p0 (Some z) = Ok (0, mkParse 0 0 [] z false)).
  { unfold jsonParse, parse_fuel. cbn [jsonParseValue]. cbv zeta. cbn [zJson].
    unfold skip_space.
    rewrite (skip_space_fuel_blank z Hall ltac:(lia) (length z) 0 ltac:(lia))
      by (unfold len; lia).
    rewrite zAt_end by lia. rewrite Ascii.eqb_refl. reflexivity. }
  split; [exact E|]. split.
  - unfold jsonNodeCountFunc. cbn [sqlite3_value_text]. rewrite E. reflexivity.
  - unfold jsonTest1Func. cbn [sqlite3_value_text]. rewrite E. reflexivity.
Qed.

Lemma parse_blank_witness :
  forallb isspace (txt "   ") = true /\ len (txt "   ") < 2 ^ 31 /\
  jsonParse all_memory empty_parse (Some (txt "   "))
    = Ok (0, mkParse 0 0 [] (txt "   ") false) /\
  jsonNodeCountFunc all_memory empty_parse NoResult (SqlText (txt "   "))
    = Ok (ResultInt 0) /\
  jsonTest1Func all_memory all_memory empty_parse NoResult (SqlText (txt "   "))
    = Undefined.
Proof.
  assert (H1 : forallb isspace (txt "   ") = true) by (vm_compute; reflexivity).
  assert (H2 : len (txt "   ") < 2 ^ 31) by (vm_compute; reflexivity).
  split; [exact H1|]. split; [exact H2|].
  exact (parse_blank all_memory all_memory empty_parse NoResult (txt "   ") H1 H2).
Defined.

(** The loop of the string case on a text with no double quote left. *)
Lemma scan_string_none z : len z < 2 ^ 32 - 2 ->
  forall k j, 0 <= j ->
    (forall i, j <= i -> Ascii.eqb (zAt z i) DQUOTE = false) ->
    (Z.to_nat (len z - j) < k)%nat ->
    scan_string z k j = Ok None.
Proof.
  intros Hsmall. induction k as [|k IH]; intros j Hj Hq Hk; [lia|].
  cbn [scan_string]. cbv zeta.
  destruct (Ascii.eqb (zAt z j) NUL) eqn:E0; [reflexivity|].
  apply eqb_false_inside in E0.
  destruct (Ascii.eqb (zAt z j) BSLASH).
  - rewrite (u32_small (j + 1)) by lia.
    destruct (Ascii.eqb (zAt z (j + 1)) NUL) eqn:E1; [reflexivity|].
    apply eqb_false_inside in E1. rewrite u32_small by lia.
    apply IH; [lia| |lia]. intros i Hi. apply Hq. lia.
  - rewrite (Hq j) by lia. rewrite u32_small by lia.
    apply IH; [lia| |lia]. intros i Hi. apply Hq. lia.
Qed.

(** X12: a text that opens a string and has no other double quote is
    refused, whatever follows the opening quote: the parse returns 1 and
    keeps nothing. *)
Theorem unterminated_string (realloc : Z -> bool) (p0 : JsonParse) (body : text) :
  forallb (fun c => negb (Ascii.eqb c DQUOTE)) body = true ->
  len body < 2 ^ 31 ->
  jsonParse realloc p0 (Some (DQUOTE :: body))
  = Ok (1, mkParse 0 0 [] (DQUOTE :: body) false).
Proof.
  intros Hall Hsmall. pose proof (len_nonneg body) as H0.
  set (z := DQUOTE :: body).
  assert (Hlen : len z = 1 + len body) by (unfold z; len_norm; lia).
  assert (Hq : forall i, 1 <= i -> Ascii.eqb (zAt z i) DQUOTE = false).
  { intros i Hi. unfold z.
    replace i with ((i - 1) + 1) by lia. rewrite zAt_cons_succ by lia.
    destruct (Z.ltb_spec (i - 1) (len body)).
    - apply negb_true_iff.
      apply (zAt_forallb (fun c => negb (Ascii.eqb c DQUOTE)) body (i - 1) Hall).
      lia.
    - rewrite zAt_end by lia. reflexivity. }
  unfold jsonParse, parse_fuel. cbn [jsonParseValue]. cbv zeta. cbn [zJson].
  assert (Hc : zAt z 0 = DQUOTE) by reflexivity.
  rewrite (skip_space_stop z 0) by (rewrite Hc; reflexivity).
  rewrite Hc.
  change (Ascii.eqb DQUOTE NUL) with false.
  change (is_chr DQUOTE "{") with false. change (is_chr DQUOTE "[") with false.
  rewrite Ascii.eqb_refl. cbv iota.
  change (u32 (0 + 1)) with 1.
  rewrite (scan_string_none z ltac:(lia) (S (length z)) 1 ltac:(lia) Hq)
    by (unfold len in *; lia).
  reflexivity.
Qed.

Lemma unterminated_string_witness :
  forallb (fun c => negb (Ascii.eqb c DQUOTE)) (txt "ab\c") = true /\
  len (txt "ab\c") < 2 ^ 31 /\
  jsonParse all_memory empty_parse (Some (DQUOTE :: txt "ab\c"))
  = Ok (1, mkParse 0 0 [] (DQUOTE :: txt "ab\c") false).
Proof.
  assert (H1 : forallb (fun c => negb (Ascii.eqb c DQUOTE)) (txt "ab\c") = true)
    by (vm_compute; reflexivity).
  assert (H2 : len (txt "ab\c") < 2 ^ 31) by (vm_compute; reflexivity).
  split; [exact H1|]. split; [exact H2|].
  exact (unterminated_string all_memory empty_parse (txt "ab\c") H1 H2).
Defined.

(** X13: when every allocation is granted, the minimal text of a valid
    value followed by a comma, a closing bracket or brace, or a colon,
    the whole of less than 2^26 - 4 bytes, is refused: the value is
    parsed, the byte after it is neither white space nor the terminator,
    and the parse returns 1 with the nodes of the value discarded. *)
Theorem trailing_separator (realloc : Z -> bool) (p0 : JsonParse) (v : json)
    (post : text) :
  (forall m, realloc m = true) ->
  valid v = true -> separator_first post = true ->
  len (print v ++ post) < 2 ^ 26 - 4 ->
  jsonParse realloc p0 (Some (print v ++ post))
  = Ok (1, mkParse 0 0 [] (print v ++ post) false).
Proof.
  intros Hre Hv Hsep Hsmall. set (z := print v ++ post) in *.
  destruct post as [|c post']; [discriminate|]. cbn [separator_first] in Hsep.
  destruct (print_head v Hv) as (c0 & rest & Hpr & _).
  assert (Hv1 : 1 <= len (print v))
    by (rewrite Hpr; len_norm; pose proof (len_nonneg rest); lia).
  assert (Hfuel : (length (print v) < parse_fuel z)%nat).
  { unfold parse_fuel, z. rewrite length_app. lia. }
  destruct (value_parses realloc Hre z Hsmall v Hv (parse_fuel z) Hfuel
              (mkParse 0 0 [] z false) [] (c :: post'))
    as (p & t & E & Hg & _).
  { reflexivity. }
  { cbn [hd]. unfold is_delim.
    repeat (apply orb_true_iff in Hsep as [Hsep|Hsep]);
      rewrite Hsep; rewrite ?orb_true_r; reflexivity. }
  { unfold pgood. cbn [zJson nNode nAlloc aNode oom].
    change (len (@nil JsonNode)) with 0. repeat split; lia. }
  { cbn [nNode]. change (len (@nil ascii)) with 0. lia. }
  change (len (@nil ascii)) with 0 in E. rewrite Z.add_0_l in E.
  destruct Hg as (Hzp & Hnp & _ & Hoom).
  assert (Hc : zAt z (len (print v)) = c) by apply zAt_mid.
  assert (Hsp : isspace c = false /\ Ascii.eqb c NUL = false).
  { unfold is_chr in Hsep.
    repeat (apply orb_true_iff in Hsep as [Hsep|Hsep]);
      apply Ascii.eqb_eq in Hsep; subst c; split; reflexivity. }
  unfold jsonParse. rewrite E. cbn [bind fst snd].
  destruct (Z.ltb_spec 0 (len (print v))); [|lia].
  rewrite skip_space_stop by (rewrite Hc; apply Hsp).
  rewrite Hc. rewrite (proj2 Hsp). cbn [negb].
  change (-1 <? 0) with true. cbv iota.
  rewrite (free_nodes_live p Hnp). cbn [bind]. rewrite Hzp, Hoom. reflexivity.
Qed.

Lemma trailing_separator_witness :
  valid sample_value = true /\ separator_first (txt "]") = true /\
  len (print sample_value ++ txt "]") < 2 ^ 26 - 4 /\
  jsonParse all_memory empty_parse (Some (print sample_value ++ txt "]"))
  = Ok (1, mkParse 0 0 [] (print sample_value ++ txt "]") false).
Proof.
  assert (H1 : valid sample_value = true) by (vm_compute; reflexivity).
  assert (H2 : separator_first (txt "]") = true) by (vm_compute; reflexivity).
  assert (H3 : len (print sample_value ++ txt "]") < 2 ^ 26 - 4)
    by (vm_compute; reflexivity).
  split; [exact H1|]. split; [exact H2|]. split; [exact H3|].
  exact (trailing_separator all_memory empty_parse sample_value (txt "]")
           (fun _ => eq_refl) H1 H2 H3).
Defined.

Lemma steps_over_scannable b : forallb steps_over b = true -> Forall scannable b.
Proof.
  intros H. apply Forall_forall. intros s Hs. apply list_elem_of_In in Hs.
  pose proof (proj1 (forallb_forall steps_over b) H s Hs) as Hx.
  destruct s as [c|c]; cbn [steps_over scannable] in *.
  - apply andb_true_iff in Hx as [Hx H3]. apply andb_true_iff in Hx as [H1 H2].
    apply negb_true_iff in H1, H2, H3. auto.
  - apply negb_true_iff in Hx. exact Hx.
Qed.

(** X14: the string case checks nothing but where the string ends: a
    quoted text whose characters are any bytes but the terminator, the
    backslash and the double quote, or any byte but the terminator after
    a backslash, parses as one String node that spans the whole text.
    Control characters and unknown escapes are taken. *)
Theorem lenient_string (realloc : Z -> bool) (p0 : JsonParse) (b : list schar) :
  (forall m, realloc m = true) ->
  forallb steps_over b = true -> len (quoted b) < 2 ^ 31 - 8 ->
  exists cap,
    jsonParse realloc p0 (Some (quoted b))
    = Ok (0, mkParse 1 cap [mkNode JSON_STRING false (len (quoted b)) (Some 0)]
               (quoted b) false) /\
    1 <= cap.
Proof.
  intros Hre Hb Hsmall.
  assert (H1 : 1 <= len (quoted b)).
  { rewrite len_quoted. pose proof (len_nonneg (print_body b)). lia. }
  exists 10. split; [|lia].
  apply jsonParse_scalar; [apply Hre|exact H1|].
  unfold parse_fuel. change 0 with (len (@nil ascii)) at 1 4.
  rewrite (string_call realloc (quoted b) Hsmall _ b _ [] []
             (steps_over_scannable b Hb)); [reflexivity| |reflexivity].
  rewrite app_nil_r. reflexivity.
Qed.

Lemma lenient_string_witness :
  forallb steps_over odd_string = true /\ len (quoted odd_string) < 2 ^ 31 - 8 /\
  valid (JString odd_string) = false /\
  exists cap,
    jsonParse all_memory empty_parse (Some (quoted odd_string))
    = Ok (0, mkParse 1 cap
               [mkNode JSON_STRING false (len (quoted odd_string)) (Some 0)]
               (quoted odd_string) false) /\
    1 <= cap.
Proof.
  assert (H1 : forallb steps_over odd_string = true) by (vm_compute; reflexivity).
  assert (H2 : len (quoted odd_string) < 2 ^ 31 - 8) by (vm_compute; reflexivity).
  split; [exact H1|]. split; [exact H2|]. split; [vm_compute; reflexivity|].
  exact (lenient_string all_memory empty_parse odd_string (fun _ => eq_refl) H1 H2).
Defined.

(** * Bounds on the nodes of a parse *)

Lemma shaped_spans z : forall t,
  shaped z t -> Forall (fun nd => span_inside z nd = true) (flatten t).
Proof.
  induction t as [nd kids IH] using tree_ind. intros Hs.
  rewrite flatten_eq.
  assert (Hflat : forall ks, Forall (shaped z) ks ->
            Forall (fun t => shaped z t ->
                      Forall (fun nd => span_inside z nd = true) (flatten t)) ks ->
            Forall (fun nd => span_inside z nd = true) (flat ks)).
  { induction ks as [|k ks IHk]; intros Hk Hi; [constructor|].
    apply Forall_cons in Hk as [Hk1 Hk2]. apply Forall_cons in Hi as [Hi1 Hi2].
    rewrite flat_cons. apply Forall_app. split; [apply Hi1; exact Hk1|].
    apply IHk; assumption. }
  inversion Hs as [? Hlit Hraw|? off Hsp Hraw Hc Hoff Hn0 Hfit
                  |? ? Hty Hraw Hsz Hkids|? ? Hty Hraw Hsz Hev Hkids]; subst.
  - constructor; [|constructor]. unfold span_inside.
    destruct (eType nd); try discriminate; reflexivity.
  - constructor; [|constructor]. unfold span_inside. rewrite Hsp, Hc. cbn [negb orb].
    destruct (Z.leb_spec 0 off); [|lia]. destruct (Z.leb_spec 1 (n nd)); [|lia].
    destruct (Z.leb_spec (off + n nd) (len z)); [|lia]. reflexivity.
  - constructor; [unfold span_inside; rewrite Hty; reflexivity|].
    apply Hflat; assumption.
  - constructor; [unfold span_inside; rewrite Hty; reflexivity|].
    apply Hflat; assumption.
Qed.

(** X15: a parse that returned 0 without a refused allocation has at
    most as many nodes as its text has bytes. *)
Theorem nodes_at_most_bytes (realloc : Z -> bool) (p0 : JsonParse) (z : text)
    (p : JsonParse) :
  len z < 2 ^ 31 - 1 ->
  jsonParse realloc p0 (Some z) = Ok (0, p) -> oom p = false ->
  nNode p <= len z.
Proof.
  intros Hsmall H Ho.
  destruct (jsonParse_shape realloc p0 z p Hsmall H Ho) as (_ & Hn & [Ha|Ht]).
  - rewrite Hn, Ha. change (len (@nil JsonNode)) with 0. apply len_nonneg.
  - destruct Ht as (t & Hs & Ha & Hle). rewrite Hn, Ha.
    pose proof (shaped_nodes_le_text z t Hs). lia.
Qed.

Lemma nodes_at_most_bytes_witness :
  len nested_text < 2 ^ 31 - 1 /\
  jsonParse all_memory empty_parse (Some nested_text) = Ok (0, nested_parse) /\
  oom nested_parse = false /\
  nNode nested_parse <= len nested_text.
Proof.
  assert (H1 : len nested_text < 2 ^ 31 - 1) by (vm_compute; reflexivity).
  assert (H2 : jsonParse all_memory empty_parse (Some nested_text) = Ok (0, nested_parse))
    by (vm_compute; reflexivity).
  assert (H3 : oom nested_parse = false) by reflexivity.
  split; [exact H1|]. split; [exact H2|]. split; [exact H3|].
  exact (nodes_at_most_bytes all_memory empty_parse nested_text nested_parse H1 H2 H3).
Defined.

(** X16: in a parse that returned 0 without a refused allocation, the
    content of every Int, Real and String node is at least one byte long
    and lies inside the text that was parsed. *)
Theorem spans_inside_text (realloc : Z -> bool) (p0 : JsonParse) (z : text)
    (p : JsonParse) :
  len z < 2 ^ 31 - 1 ->
  jsonParse realloc p0 (Some z) = Ok (0, p) -> oom p = false ->
  forallb (span_inside z) (aNode p) = true.
Proof.
  intros Hsmall H Ho.
  destruct (jsonParse_shape realloc p0 z p Hsmall H Ho) as (_ & _ & [Ha|Ht]).
  - rewrite Ha. reflexivity.
  - destruct Ht as (t & Hs & Ha & _). rewrite Ha.
    apply forallb_forall. intros nd Hin.
    pose proof (shaped_spans z t Hs) as Hall. rewrite Forall_forall in Hall.
    apply Hall. apply list_elem_of_In. exact Hin.
Qed.

Lemma spans_inside_text_witness :
  len nested_text < 2 ^ 31 - 1 /\
  jsonParse all_memory empty_parse (Some nested_text) = Ok (0, nested_parse) /\
  oom nested_parse = false /\
  forallb (span_inside nested_text) (aNode nested_parse) = true.
Proof.
  assert (H1 : len nested_text < 2 ^ 31 - 1) by (vm_compute; reflexivity).
  assert (H2 : jsonParse all_memory empty_parse (Some nested_text) = Ok (0, nested_parse))
    by (vm_compute; reflexivity).
  assert (H3 : oom nested_parse = false) by reflexivity.
  split; [exact H1|]. split; [exact H2|]. split; [exact H3|].
  exact (spans_inside_text all_memory empty_parse nested_text nested_parse H1 H2 H3).
Defined.

(** * A number that ends in its exponent marker *)

Lemma marker_stops m :
  is_chr m "e" || is_chr m "E" = true ->
  is_digit_char m = false /\ is_chr m "." = false /\ (char_val m <? 48) = false.
Proof.
  intros H. destruct (marker_cases m H) as [-> | ->]; repeat split; reflexivity.
Qed.

Lemma scan_bare_exponent (ds : text) m :
  nonempty_digits ds = true -> is_chr m "e" || is_chr m "E" = true ->
  len (ds ++ [m]) < 2 ^ 32 - 2 ->
  scan_number (ds ++ [m]) (S (length (ds ++ [m]))) 1 false false
  = Ok (Some (len (ds ++ [m]), true)).
Proof.
  intros Hds Hm Hsmall.
  destruct (nonempty_digits_inv ds Hds) as (Hall & ds1 & d & Eds & Hd).
  destruct ds as [|d0 ds']; [discriminate|].
  cbn [forallb] in Hall. apply andb_true_iff in Hall as [Hd0 Hall].
  set (z := (d0 :: ds') ++ [m]) in *.
  assert (Hlen : len z = 1 + len ds' + 1) by (unfold z; len_norm; lia).
  pose proof (len_nonneg ds') as H0.
  replace (S (length z)) with (length ds' + 3)%nat
    by (unfold z; rewrite length_app; cbn [length]; lia).
  change 1 with (len [d0]) at 1.
  rewrite (scan_digits z ds' Hall 3 [d0] [m] false false eq_refl Hsmall).
  change (len [d0]) with 1.
  destruct (marker_stops m Hm) as (M1 & M2 & M3).
  assert (Hc : zAt z (1 + len ds') = m).
  { apply (zAt_at z (d0 :: ds') m []); [reflexivity|len_norm; lia]. }
  assert (Hp : zAt z (1 + len ds' - 1) = d).
  { apply (zAt_at z ds1 d [m]).
    - unfold z. rewrite Eds, <- app_assoc. reflexivity.
    - pose proof (f_equal len Eds) as E. len_norm_in E. lia. }
  cbn [scan_number]. cbv zeta.
  rewrite Hc, M1, M2, Hm.
  rewrite (u32_small (1 + len ds' - 1)) by lia. rewrite Hp, (isdigit_not_low d Hd).
  rewrite (u32_small (1 + len ds' + 1)) by lia.
  rewrite (zAt_end z (1 + len ds' + 1)) by lia.
  change (is_chr NUL "+" || is_chr NUL "-") with false. cbv iota.
  rewrite (u32_small (1 + len ds' + 1)) by lia.
  rewrite (zAt_end z (1 + len ds' + 1)) by lia.
  change (is_digit_char NUL) with false. change (is_chr NUL ".") with false.
  change (is_chr NUL "e" || is_chr NUL "E") with false. cbv iota.
  rewrite Hlen. reflexivity.
Qed.

(** X17: the number case asks for no digit after the exponent marker:
    a text of one or more digits followed by [e] or [E] parses as one
    Real node that spans the whole text. *)
Theorem bare_exponent (realloc : Z -> bool) (p0 : JsonParse) (ds : text) (m : ascii) :
  (forall a, realloc a = true) ->
  nonempty_digits ds = true -> is_chr m "e" || is_chr m "E" = true ->
  len (ds ++ [m]) < 2 ^ 31 - 8 ->
  exists cap,
    jsonParse realloc p0 (Some (ds ++ [m]))
    = Ok (0, mkParse 1 cap [mkNode JSON_REAL false (len (ds ++ [m])) (Some 0)]
               (ds ++ [m]) false) /\
    1 <= cap.
Proof.
  intros Hre Hds Hm Hsmall.
  pose proof (scan_bare_exponent ds m Hds Hm ltac:(lia)) as Hscan.
  destruct (marker_stops m Hm) as (M1 & M2 & M3).
  destruct ds as [|d0 ds']; [discriminate|].
  cbn [nonempty_digits forallb] in Hds. apply andb_true_iff in Hds as [Hd0 _].
  set (z := (d0 :: ds') ++ [m]) in *.
  assert (Hlen : len z = 1 + len ds' + 1) by (unfold z; len_norm; lia).
  pose proof (len_nonneg ds') as H0.
  assert (Hc : zAt z 0 = d0) by reflexivity.
  assert (Hlast : zAt z (len z - 1) = m).
  { apply (zAt_at z (d0 :: ds') m []); [reflexivity|len_norm; lia]. }
  assert (Hsp : isspace d0 = false).
  { pose proof (isdigit_code d0 Hd0). unfold isspace.
    destruct (Z.leb_spec 9 (code d0)), (Z.leb_spec (code d0) 13),
      (Z.eqb_spec (code d0) 32); try lia; reflexivity. }
  exists 10. split; [|lia].
  apply jsonParse_scalar; [apply Hre|lia|].
  unfold parse_fuel. cbn [jsonParseValue]. cbv zeta. cbn [zJson].
  rewrite skip_space_stop by (rewrite Hc; exact Hsp).
  rewrite Hc. unfold literal_at.
  rewrite (isdigit_neq d0 NUL Hd0 eq_refl).
  rewrite (isdigit_not d0 "{" Hd0 eq_refl), (isdigit_not d0 "[" Hd0 eq_refl).
  rewrite (isdigit_neq d0 DQUOTE Hd0 eq_refl).
  rewrite (isdigit_neq d0 (chr "null") Hd0 eq_refl).
  rewrite (isdigit_neq d0 (chr "true") Hd0 eq_refl).
  rewrite (isdigit_neq d0 (chr "false") Hd0 eq_refl).
  rewrite (isdigit_is_digit_char d0 Hd0), orb_true_r. cbn [andb].
  change (u32 (0 + 1)) with 1. rewrite Hscan. cbn [bind].
  rewrite (u32_small (len z - 1)) by lia. rewrite Hlast, M3.
  rewrite Z.sub_0_r, (u32_small (len z)) by lia.
  rewrite (to_int_small (len z)) by lia. reflexivity.
Qed.

Lemma bare_exponent_witness :
  nonempty_digits (txt "12") = true /\
  is_chr (chr "e") "e" || is_chr (chr "e") "E" = true /\
  len (txt "12" ++ [chr "e"]) < 2 ^ 31 - 8 /\
  exists cap,
    jsonParse all_memory empty_parse (Some (txt "12" ++ [chr "e"]))
    = Ok (0, mkParse 1 cap
               [mkNode JSON_REAL false (len (txt "12" ++ [chr "e"])) (Some 0)]
               (txt "12" ++ [chr "e"]) false) /\
    1 <= cap.
Proof.
  assert (H1 : nonempty_digits (txt "12") = true) by (vm_compute; reflexivity).
  assert (H2 : is_chr (chr "e") "e" || is_chr (chr "e") "E" = true)
    by (vm_compute; reflexivity).
  assert (H3 : len (txt "12" ++ [chr "e"]) < 2 ^ 31 - 8) by (vm_compute; reflexivity).
  split; [exact H1|]. split; [exact H2|]. split; [exact H3|].
  exact (bare_exponent all_memory empty_parse (txt "12") (chr "e")
           (fun _ => eq_refl) H1 H2 H3).
Defined.

(** * The room for the closing quote *)

Module AccumOverrun.

Import Accum.

(** The loop of [jsonAppendString] when the escaped rest of the text
    fills the buffer to its last byte: each test before a backslash
    passes, and nothing is left for the closing quote. *)
Lemma jsonAppendString_from_overrun malloc (zIn : text) :
  len zIn < 2 ^ 32 - 2 ->
  forall rest pre k q,
    zIn = pre ++ rest -> k = length rest ->
    0 <= nUsed q -> nAlloc q < 2 ^ 63 ->
    nUsed q + len (escaped rest) = nAlloc q ->
    jsonAppendString_from malloc k q zIn (len zIn) (len pre) = Undefined.
Proof.
  intros Hsmall. induction rest as [|c rest IH]; intros pre k q Hz Hk Hu Ha Hfull.
  - subst k. cbn [length jsonAppendString_from]. unfold store.
    change (len (escaped [])) with 0 in Hfull.
    destruct (Z.ltb_spec (nUsed q) (nAlloc q)); [lia|reflexivity].
  - subst k. cbn [length jsonAppendString_from].
    pose proof (len_nonneg pre) as Hp0. pose proof (len_nonneg rest) as Hr0.
    pose proof (SqlFuncs.len_escaped rest) as Hesc.
    assert (Hlen : len zIn = len pre + 1 + len rest) by (rewrite Hz; len_norm; lia).
    destruct (Z.ltb_spec (len pre) (len zIn)); [|lia].
    assert (Hget : zIn !! Z.to_nat (len pre) = Some c).
    { rewrite Hz. unfold len. rewrite Nat2Z.id. apply list_lookup_middle. reflexivity. }
    rewrite Hget. rewrite AccumStep.escaped_cons in Hfull.
    assert (Hnext : forall q1, nUsed q1 + len (escaped rest) = nAlloc q1 ->
              0 <= nUsed q1 -> nAlloc q1 < 2 ^ 63 ->
              jsonAppendString_from malloc (length rest) q1 zIn (len zIn)
                (u32 (len pre + 1)) = Undefined).
    { intros q1 H1 H2 H3. rewrite u32_small by lia. rewrite <- (len_snoc pre c).
      apply IH; [rewrite Hz, <- app_assoc; reflexivity|reflexivity|assumption..]. }
    destruct (Ascii.eqb c DQUOTE || Ascii.eqb c BSLASH).
    + rewrite len_app in Hfull. change (len [BSLASH; c]) with 2 in Hfull.
      unfold grow_or_return.
      rewrite (u64_small (nUsed q + len zIn + 1 - len pre)) by lia.
      destruct (Z.ltb_spec (nAlloc q) (nUsed q + len zIn + 1 - len pre)); [lia|].
      unfold store at 1. destruct (Z.ltb_spec (nUsed q) (nAlloc q)); [|lia].
      cbn [bind]. unfold store at 1. cbn [set_buf nUsed nAlloc].
      rewrite (u64_small (nUsed q + 1)) by lia.
      destruct (Z.ltb_spec (nUsed q + 1) (nAlloc q)); [|lia].
      cbn [bind]. apply Hnext; cbn [set_buf nUsed nAlloc zBuf];
        rewrite ?(u64_small (nUsed q + 1 + 1)) by lia; lia.
    + rewrite len_app in Hfull. change (len [c]) with 1 in Hfull.
      unfold store at 1. destruct (Z.ltb_spec (nUsed q) (nAlloc q)); [|lia].
      cbn [bind]. apply Hnext; cbn [set_buf nUsed nAlloc zBuf];
        rewrite ?(u64_small (nUsed q + 1)) by lia; lia.
Qed.

(** The closing quote when the escaped text is one byte more than the
    room left and the first test asks for no growth. *)
Lemma closing_quote_past_end (malloc : Z -> bool) (p : Json) (s : text) :
  0 <= nUsed p -> nAlloc p < 2 ^ 63 -> len s < 2 ^ 32 - 2 ->
  len s + nUsed p + 2 < nAlloc p ->
  nUsed p + len (quoted_escaped s) = nAlloc p + 1 ->
  jsonAppendString malloc p s (len s) = Undefined.
Proof.
  intros Hu Ha Hs Hfit Hfull. pose proof (len_nonneg s) as H0.
  unfold jsonAppendString, grow_or_return.
  rewrite (u64_small (len s + nUsed p + 2)) by lia.
  destruct (Z.leb_spec (nAlloc p) (len s + nUsed p + 2)); [lia|].
  unfold store. destruct (Z.ltb_spec (nUsed p) (nAlloc p)); [|lia].
  cbn [bind]. unfold len at 1. rewrite Nat2Z.id.
  unfold quoted_escaped in Hfull. rewrite len_cons, len_app in Hfull.
  change (len [DQUOTE]) with 1 in Hfull.
  change 0 with (len (@nil ascii)).
  apply (jsonAppendString_from_overrun malloc s Hs s []);
    [reflexivity|reflexivity|..]; cbn [set_buf nUsed nAlloc];
    rewrite ?(u64_small (nUsed p + 1)) by lia; lia.
Qed.

(** X18: [jsonAppendString] stores the closing quote past the end of
    the buffer when the text with its two quotes fits with more than a
    byte to spare, so that the buffer is not grown first, and the text
    with its quotes and backslashes is one byte more than the room
    left: no test before a backslash asks for more room then. *)
Theorem jsonAppendString_overrun (malloc : Z -> bool) (p : Json) (s : text) :
  0 <= nUsed p -> nAlloc p < 2 ^ 63 -> len s < 2 ^ 32 - 2 ->
  len s + nUsed p + 2 < nAlloc p ->
  nUsed p + len (quoted_escaped s) = nAlloc p + 1 ->
  jsonAppendString malloc p s (len s) = Undefined.
Proof. apply closing_quote_past_end. Qed.

Lemma jsonAppendString_overrun_witness :
  0 <= nUsed (jsonInit NoResult) /\ nAlloc (jsonInit NoResult) < 2 ^ 63 /\
  len (chr "a" :: two_quotes_96) < 2 ^ 32 - 2 /\
  len (chr "a" :: two_quotes_96) + nUsed (jsonInit NoResult) + 2
    < nAlloc (jsonInit NoResult) /\
  nUsed (jsonInit NoResult) + len (quoted_escaped (chr "a" :: two_quotes_96))
    = nAlloc (jsonInit NoResult) + 1 /\
  jsonAppendString no_memory (jsonInit NoResult) (chr "a" :: two_quotes_96)
    (len (chr "a" :: two_quotes_96)) = Undefined.
Proof.
  assert (H1 : 0 <= nUsed (jsonInit NoResult)) by (vm_compute; discriminate).
  assert (H2 : nAlloc (jsonInit NoResult) < 2 ^ 63) by (vm_compute; reflexivity).
  assert (H3 : len (chr "a" :: two_quotes_96) < 2 ^ 32 - 2)
    by (vm_compute; reflexivity).
  assert (H4 : len (chr "a" :: two_quotes_96) + nUsed (jsonInit NoResult) + 2
               < nAlloc (jsonInit NoResult)) by (vm_compute; reflexivity).
  assert (H5 : nUsed (jsonInit NoResult)
               + len (quoted_escaped (chr "a" :: two_quotes_96))
               = nAlloc (jsonInit NoResult) + 1) by (vm_compute; reflexivity).
  split; [exact H1|]. split; [exact H2|]. split; [exact H3|]. split; [exact H4|].
  split; [exact H5|].
  exact (jsonAppendString_overrun no_memory (jsonInit NoResult)
           (chr "a" :: two_quotes_96) H1 H2 H3 H4 H5).
Defined.

(** X19: json_array of a single text argument writes past the 100 bytes
    of the inline buffer when the text with its quotes and backslashes
    is exactly 100 bytes and at least two of them are backslashes: the
    bracket and the text need 101 bytes, and the buffer is never grown. *)
Theorem json_array_text_overrun (malloc : Z -> bool) (ctx : sqlite3_context) (t : text) :
  len (quoted_escaped t) = 100 -> len t <= 96 ->
  jsonArrayFunc malloc ctx [SqlText t] = Undefined.
Proof.
  intros Hq Ht. pose proof (len_nonneg t) as H0.
  unfold jsonArrayFunc. cbn [jsonArrayFunc_loop].
  assert (E1 : jsonAppendRaw malloc (jsonInit ctx) [chr "["] 1
               = Ok (mkJson ctx [chr "["] 100 1 true false)) by reflexivity.
  rewrite E1. cbn [bind]. unfold value_bytes. fold (len t).
  rewrite (u32_small (len t)) by lia.
  rewrite closing_quote_past_end; [reflexivity|cbn [nUsed nAlloc]..].
  - lia.
  - vm_compute; reflexivity.
  - lia.
  - lia.
  - lia.
Qed.

Lemma json_array_text_overrun_witness :
  len (quoted_escaped two_quotes_96) = 100 /\ len two_quotes_96 <= 96 /\
  jsonArrayFunc all_memory NoResult [SqlText two_quotes_96] = Undefined.
Proof.
  assert (H1 : len (quoted_escaped two_quotes_96) = 100) by (vm_compute; reflexivity).
  assert (H2 : len two_quotes_96 <= 96) by (vm_compute; discriminate).
  split; [exact H1|]. split; [exact H2|].
  exact (json_array_text_overrun all_memory NoResult two_quotes_96 H1 H2).
Defined.

End AccumOverrun.

(** * A scalar when the node array is refused *)

Lemma first_node_refused realloc z ty m c :
  realloc 160 = false ->
  jsonParseAddNode realloc (mkParse 0 0 [] z false) ty m c
  = Ok (-1, mkParse 0 0 [] z true).
Proof.
  intros Hre. unfold jsonParseAddNode. cbn [nAlloc nNode oom].
  change (0 <=? 0) with true. change (u32 (0 * 2 + 10)) with 10.
  change (10 <=? 0) with false.
  change (dangling (mkParse 0 0 [] z false)) with false.
  change (node_bytes 10) with 160. cbv iota. rewrite Hre. reflexivity.
Qed.

Lemma scalar_call_refused realloc v :
  realloc 160 = false -> valid v = true -> is_scalar v = true ->
  len (print v) < 2 ^ 31 - 8 ->
  jsonParseValue realloc (parse_fuel (print v)) (mkParse 0 0 [] (print v) false) 0
  = Ok (len (print v), mkParse 0 0 [] (print v) true).
Proof.
  intros Hre Hv Hs Hsmall. set (z := print v) in *. unfold parse_fuel.
  set (q0 := mkParse 0 0 [] z false).
  assert (Hz : forall s, z = s -> z = [] ++ s ++ []) by (intros s ->; rewrite app_nil_r; reflexivity).
  change 0 with (len (@nil ascii)) at 3.
  destruct v as [| | |num|b|vs|ms]; try discriminate.
  - rewrite (literal_call realloc z Hsmall _ "null" JSON_NULL q0 [] []
               ltac:(left; reflexivity) (Hz _ eq_refl) eq_refl eq_refl).
    unfold q0. rewrite first_node_refused by exact Hre. reflexivity.
  - rewrite (literal_call realloc z Hsmall _ "true" JSON_TRUE q0 [] []
               ltac:(right; left; reflexivity) (Hz _ eq_refl) eq_refl eq_refl).
    unfold q0. rewrite first_node_refused by exact Hre. reflexivity.
  - rewrite (literal_call realloc z Hsmall _ "false" JSON_FALSE q0 [] []
               ltac:(right; right; left; reflexivity) (Hz _ eq_refl) eq_refl eq_refl).
    unfold q0. rewrite first_node_refused by exact Hre. reflexivity.
  - rewrite (number_call realloc z Hsmall _ num q0 [] [] Hv (Hz _ eq_refl)
               eq_refl eq_refl).
    unfold q0. rewrite first_node_refused by exact Hre. reflexivity.
  - rewrite (string_call realloc z Hsmall _ b q0 [] []
               (valid_body_scannable b Hv) (Hz _ eq_refl) eq_refl).
    unfold q0. rewrite first_node_refused by exact Hre. reflexivity.
Qed.

(** X20: the cases of the literals, the numbers and the strings do not
    look at what [jsonParseAddNode] returns: when the first request for
    a node array is refused, the parse of the minimal text of such a
    value returns 0 all the same, with no node and the flag set.
    json_nodecount then gives 0, and json_test1 reads the first node of
    an array that was never allocated. *)
Theorem scalar_parse_refused (realloc malloc : Z -> bool) (p0 : JsonParse)
    (ctx : sqlite3_context) (v : json) :
  realloc 160 = false -> valid v = true -> is_scalar v = true ->
  len (print v) < 2 ^ 31 - 8 ->
  jsonParse realloc p0 (Some (print v)) = Ok (0, mkParse 0 0 [] (print v) true) /\
  jsonNodeCountFunc realloc p0 ctx (SqlText (print v)) = Ok (ResultInt 0) /\
  jsonTest1Func realloc malloc p0 ctx (SqlText (print v)) = Undefined.
Proof.
  intros Hre Hv Hs Hsmall.
  destruct (print_head v Hv) as (c & rest & Hpr & _).
  assert (Hz1 : 1 <= len (print v))
    by (rewrite Hpr; len_norm; pose proof (len_nonneg rest); lia).
  assert (E : jsonParse realloc p0 (Some (print v))
              = Ok (0, mkParse 0 0 [] (print v) true)).
  { unfold jsonParse. rewrite (scalar_call_refused realloc v Hre Hv Hs Hsmall).
    cbn [bind fst snd].
    destruct (Z.ltb_spec 0 (len (print v))); [|lia].
    rewrite skip_space_stop by (rewrite zAt_end by lia; reflexivity).
    rewrite zAt_end by lia. rewrite Ascii.eqb_refl. cbn [negb].
    destruct (Z.ltb_spec (len (print v)) 0); [lia|]. reflexivity. }
  split; [exact E|]. split.
  - unfold jsonNodeCountFunc. cbn [sqlite3_value_text]. rewrite E. reflexivity.
  - unfold jsonTest1Func. cbn [sqlite3_value_text]. rewrite E. reflexivity.
Qed.

Lemma scalar_parse_refused_witness :
  no_memory 160 = false /\ valid sample_scalar = true /\
  is_scalar sample_scalar = true /\
  len (print sample_scalar) < 2 ^ 31 - 8 /\
  jsonParse no_memory empty_parse (Some (print sample_scalar))
    = Ok (0, mkParse 0 0 [] (print sample_scalar) true) /\
  jsonNodeCountFunc no_memory empty_parse NoResult (SqlText (print sample_scalar))
    = Ok (ResultInt 0) /\
  jsonTest1Func no_memory all_memory empty_parse NoResult
    (SqlText (print sample_scalar)) = Undefined.
Proof.
  assert (H1 : no_memory 160 = false) by reflexivity.
  assert (H2 : valid sample_scalar = true) by (vm_compute; reflexivity).
  assert (H3 : is_scalar sample_scalar = true) by reflexivity.
  assert (H4 : len (print sample_scalar) < 2 ^ 31 - 8) by (vm_compute; reflexivity).
  split; [exact H1|]. split; [exact H2|]. split; [exact H3|]. split; [exact H4|].
  exact (scalar_parse_refused no_memory all_memory empty_parse NoResult
           sample_scalar H1 H2 H3 H4).
Defined.
